(* ===== verification/_CoqProject ===== *)
-Q . S2P
Prelude.v
JsString.v
Registry.v
Topics.v
JsValue.v
Json.v
Options.v
Client.v
ServiceState.v
Router.v
Listeners.v
Gateway.v
Loopback.v
Connection.v
EventLoop.v
Reconnect.v
Owed.v
Requests.v
Http.v
MqttController.v
DeviceListing.v
DeviceController.v
BulkAdd.v
Lifecycle.v
Envelope.v
Routes.v
Server.v
Answers.v
Waiting.v
Rejections.v
