(* ===== verification/Prelude.v ===== *)
(** * Verification of the MDM MQTT gateway (mdm-nodejs)

    The program is a Node.js process that puts an HTTP API in front of one
    MQTT broker connection.  [src/services/mqttService.js] holds the only
    state, the singleton [MQTTService]: a reference to the client object of
    the mqtt.js library, the connected flag, the registry of subscribed
    topics and the reconnect counter.  The controllers under
    [src/controllers] translate HTTP requests into calls of its methods;
    the routers under [src/routes] say which request reaches which
    handler; [src/server.js] builds the Express application, registers
    its listeners on the service, calls [connect] once and listens.

    ** The model

    JavaScript code is embedded as functions in a state-and-exception monad
    [M S A := S -> Outcome A * S] (this file): a computation returns or
    throws, and keeps its mutations in both cases.  The state is the
    [World]: the service object, the client objects [mqtt.connect] has
    created, the promises the service has handed out and the events it has
    emitted.  Closures are constructors that carry their captured
    variables ([Callback], [Await]).  An [async] handler is cut at its
    [await]s: the part that runs first returns a [Reply], which is the
    response or the promise awaited together with the continuation.

    The files, in the order of their dependencies:

    - [Prelude] (this file): the monad, its laws, the scope [js_scope], the
      tactics [unfold_monad], [case_if], [run_monad], the hint database
      [js], lemmas on lists.
    - [JsString], [JsValue], [Json]: the built-ins of JavaScript the sources
      call: [split], [join], [startsWith], [trim]; values with [typeof],
      truthiness, property access and defaults; [JSON.stringify] and
      [JSON.parse], behind the interface [JsonCodec], whose laws
      [JsonCodecLaws] (parse inverts stringify on the [canonical] values,
      and returns canonical values only) are proved of [Json.codec].
    - [Options]: the options [connect] builds from [process.env] and the
      port of [src/server.js], with [parseInt] and [||].
    - [Registry]: [this.subscriptions], a JavaScript [Set], behind the
      interface [RegistryOps]/[RegistryLaws], with two instances: the
      insertion-ordered list [JsSet] and the finite set [gset string];
      [reg_abs] and the refinement lemmas relate any lawful implementation
      to the finite set.
    - [Topics]: the queue names of a device ([inQueue], [outQueue]), the
      pattern of device ids ([valid_device_id]) and the parser of
      [listDevices] ([device_of_subscription]), from
      [src/controllers/deviceController.js].
    - [Client]: the contract of the mqtt.js client object: its link state,
      when it may emit which event, [end], requests in flight and their
      completion.  The library is not part of the repository; this file
      states what the service assumes of it.
    - [ServiceState]: [MQTTService] (the fields of the constructor), [World]
      and the primitive effects: assignments to fields, [emit], promise
      creation and settlement, timers ([sleep], [timer_fires]), calls on
      [this.client] (a [TypeError] when it is [null]).
    - [Router]: the handler of the client's [message] event and
      [routeMessage], with the decision table [classifies] stated apart from
      the code.
    - [Listeners]: the listeners [src/server.js] registers on the service,
      the dispatch of [EventEmitter.emit] and what the process prints.
    - [Gateway]: [subscribe], [unsubscribe], [publish], [createQueue],
      [getConnectionStatus], [subscribeToDefaultTopics],
      [broadcastToAllDevices] and the completion callbacks; a call of a
      method of [this] is a lookup among the methods of the class, of
      [EventEmitter] and of [Object] ([has_method], [call_method]).
    - [Loopback]: a payload from [publish] through the broker back to the
      handler of [message], for any codec that satisfies [JsonCodecLaws].
    - [Connection]: [connect], [disconnect] and the handlers of [connect],
      [disconnect], [reconnect], [error], [offline].
    - [EventLoop]: one turn per method call, client event, request
      completion or timer ([Input], [enabled], [step], [turn]); executions
      as the inductive relation [Trace] and the function [run]; the
      invariant [Inv]; the life of a promise.
    - [Reconnect]: the abstract connection state machine [conn_step], the
      abstraction [conn_of] and the simulation; the reconnect bound.
    - [Owed]: the invariant [Owing]: every pending promise has the request
      that settles it in flight at a client.
    - [Requests]: [acts_by_calls], the interface between the controllers
      and the event loop: code that changes the world only by calling the
      service stays within the executions of the event loop.
    - [Http]: requests, responses, [Reply], [resume] and [drive]; the
      postconditions [replies] with the tactic [solve_replies]; the
      termination argument [drive_within].
    - [MqttController]: the seven handlers of
      [src/controllers/mqttController.js] and their continuations.
    - [DeviceListing]: the loop of [listDevices] and its specification.
    - [DeviceController]: the eight handlers of
      [src/controllers/deviceController.js] and their continuations.
    - [BulkAdd]: [bulkAddDevices] from the request to its response.
    - [Lifecycle]: one device from [addDevice] over [getDevice] to
      [deleteDevice] and the acknowledgements of the broker.
    - [Envelope]: the shape every response of the controllers has.
    - [Routes]: the three routers of [src/routes] as tables, with the
      matching of Express.
    - [Server]: the process of [src/server.js] as a state machine
      ([Process], [Event], [enabled], [step], [Run]): [startServer],
      [app.listen] and its failure ([listen]), the signal handlers, the
      middleware stack [serve], the handlers that wait ([inflight]) and
      their resumption.
    - [Answers]: the measure that bounds the resumptions of a request.
    - [Waiting]: the handlers that wait do so for fresh, distinct promises,
      and each of them can be woken.
    - [Rejections]: the promises a handler creates and does not await, and
      the process that ends on an unhandled rejection ([Strict],
      [strict_step], [strict_run]) with its exit codes.

    ** What is proved

    - Connection: in executions with one [connect] the attempt counter
      never exceeds the maximum by more than one, the service gives up
      after that attempt, the connected flag is sound, and the service
      refines the abstract machine ([Reconnect]); with a second [connect]
      there is no bound: every value of the counter is reached
      ([second_connect_breaks_bound]).  The process calls [connect] once,
      so for the process the bound holds without a condition
      ([Server.server_reconnect_bound]).
    - Safety: from a state that satisfies [Inv] no turn throws, and every
      reachable state satisfies [Inv] ([EventLoop]); no request makes a
      handler or a continuation throw past the middleware
      ([Server.server_never_throws]); an [error] event of the service
      always has a listener ([Listeners]).
    - Registry: it changes by acknowledged requests only; an acknowledged
      subscription is reported, an acknowledged unsubscription is not; a
      queue whose creation failed is not registered.
    - Promises: [publish] and [createQueue] reject at once while
      disconnected, otherwise their promise is pending until the request
      completes; a settled promise keeps its state; a pending promise is
      owed by a request in flight ([Owed]).
    - Routing of messages: the message handler emits [message] and exactly
      one routed event, chosen as the decision table says; a message is
      printed once at most.
    - Round trip: a canonical payload that is not a string holding a JSON
      text arrives as the value that was published ([Loopback]); the
      strings that are JSON texts do not ([loopback_examples]).
    - Topics: the queue names of a device determine the device; the parser
      of [listDevices] inverts them; the map [listDevices] builds has one
      entry per device.
    - HTTP handlers: status codes and bodies of the endpoints on their
      validation, success and failure branches, the awaits followed from
      request to response ([MqttController], [DeviceController]); a bulk
      request is always answered, with one result per device or, when an
      element of the list is [null], with the 500 of the [catch] block
      ([BulkAdd]); every response has the envelope of [Envelope]; a device
      is reported as active once added, until the broker has acknowledged
      its deletion, and as partial afterwards ([Lifecycle]).
    - Routing of requests: no request matches two routes of a table, so
      the order of the routes is irrelevant; the endpoints [GET /api]
      advertises are routed, but for [/health]; a routed request has its
      [deviceId] parameter ([Routes]).
    - Termination and progress: every request is answered after at most
      [request_fuel] resumptions, whatever its promises settle with
      ([Answers]); a handler never waits in vain: its promise is settled,
      or one event of the client or of a timer settles it ([Waiting]).
    - Unhandled rejections: every handler awaits the promise it creates,
      except [broadcastAlldevices]; a broadcast requested while the
      service is disconnected leaves a rejected promise that nobody
      handles ([Rejections]).
    - Exit codes: the process of Node.js 15 and later exits with code 0 on
      a signal, with code 1 when [connect] throws or the port cannot be
      bound, and with code 1 on the rejection of the promise of a
      broadcast; it does nothing afterwards ([Rejections.exit_codes]).
    - Method lookup: [this.broadcast] is found nowhere, so
      [broadcastToAllDevices] always rejects ([Gateway]).
    - Configuration: a keep-alive or reconnect period of 0 cannot be
      configured, the flags are set by the very string ["true"], the
      generated client id has at most eight random digits ([Options]).
    - Process: what is answered outside the handlers (404, a body that
      does not parse), and that the server listens even when the broker
      is out of reach ([Server]).

    ** Bounds and assumptions

    - Numbers are integers ([Z]); [JSON.parse] rejects a numeral with a
      fraction or an exponent.  Strings are sequences of 8-bit characters,
      and [trim] strips the ASCII white space.
    - Topics are strings: a request whose topic is given and is not a string
      is answered [OutOfModel].
    - [Json.parse] recurses on fuel [S (length s)], one more than the
      nesting depth any text of that length can have.
    - [Http.drive] resumes a waiting handler on fuel.  [Answers.request_fuel]
      is [2 + 3 n] for a body with [n] devices: [addDevice] awaits twice,
      [bulkAddDevices] three times per device (two queues and the delay),
      every other handler once at most; [every_request_answered] proves
      that this fuel is enough for every request, and
      [BulkAdd.bulkAddDevices_answers] that [3 n] is enough for a bulk
      request.
    - A route parameter matches a non-empty segment only, as in Express:
      a path with an empty segment in that place reaches no
      [:deviceId] route.
    - Whether [app.listen] can bind the port is an input of the process
      ([Listen]), like what [mqtt.connect] does ([StartServer]).
    - The clock is a parameter of the handlers: [now] for
      [new Date().toISOString()], [millis] for [Date.now()].
    - The theorems on reconnection in [Reconnect] assume that [connect] is
      called at most once ([connects_once], [reachable_once]); [Server]
      discharges the assumption for the process.
    - The continuation of a handler is an event of its own: the model
      allows other events between the settlement of a promise and the
      continuation, which includes the order Node.js takes.
    - [Client] lets the library complete every request it has accepted, at
      any time, with or without an error, also after [end]; it never drops
      a request.
    - The process of [Server] goes on after an unhandled rejection, as
      Node.js did before version 15; later versions end the process with
      exit code 1 at the first one.  [Rejections.strict_step] is that
      process; it agrees with the process of [Server] on every run
      without a broadcast request ([strict_agrees]), so the theorems on
      [Server] describe those versions on such runs.

    ** Not modelled

    What the client library does with the options of [connect] ([Options]
    says what they are; the contract of [Client] does not depend on
    them); the text of what is logged (the
    listeners of [src/server.js] are modelled by the lines they print,
    the [console] calls inside the service and the controllers are left
    out); [helmet], [cors], [morgan] and the urlencoded body parser of
    [src/server.js] (headers, the access log, another body format);
    [HEAD] and [OPTIONS] requests, which Express and [cors] answer
    themselves; query strings and URL decoding of request paths; topics
    that are not strings. *)

From Stdlib Require Export Ascii.
From stdpp Require Export base tactics option list strings.

Declare Scope js_scope.
Delimit Scope js_scope with js.

(** ** JavaScript errors

    [new Error(msg)] and the [TypeError] the runtime raises when a property
    of [null] is read. *)

Inductive JsError : Type :=
| Error (message : string)
| TypeError (message : string).

#[export] Instance JsError_eq_dec : EqDecision JsError.
Proof. solve_decision. Defined.

(** [error.message] *)
Definition message_of (e : JsError) : string :=
  match e with
  | Error m => m
  | TypeError m => m
  end.

(** ** Outcomes and the effect monad

    A computation over a state [S] either returns a value or throws; in both
    cases the mutations made so far are kept, as in JavaScript. *)

Inductive Outcome (A : Type) : Type :=
| Ok (a : A)
| Thrown (e : JsError).

Arguments Ok {A} a.
Arguments Thrown {A} e.

#[export] Instance Outcome_eq_dec `{EqDecision A} : EqDecision (Outcome A).
Proof. solve_decision. Defined.

Definition is_ok {A} (o : Outcome A) : bool :=
  match o with Ok _ => true | Thrown _ => false end.

Definition M (S A : Type) : Type := S -> Outcome A * S.

Section Monad.
Context {S : Type}.

Definition ret {A} (a : A) : M S A := fun s => (Ok a, s).

Definition bind {A B} (m : M S A) (k : A -> M S B) : M S B :=
  fun s =>
    match m s with
    | (Ok a, s') => k a s'
    | (Thrown e, s') => (Thrown e, s')
    end.

Definition throw {A} (e : JsError) : M S A := fun s => (Thrown e, s).

(** [try { m } catch (e) { h e }] *)
Definition try_catch {A} (m : M S A) (h : JsError -> M S A) : M S A :=
  fun s =>
    match m s with
    | (Ok a, s') => (Ok a, s')
    | (Thrown e, s') => h e s'
    end.

Definition get : M S S := fun s => (Ok s, s).
Definition gets {A} (f : S -> A) : M S A := fun s => (Ok (f s), s).
Definition put (s : S) : M S unit := fun _ => (Ok tt, s).
Definition modify (f : S -> S) : M S unit := fun s => (Ok tt, f s).

(** [if (c) { m }] with no else branch *)
Definition when (c : bool) (m : M S unit) : M S unit :=
  if c then m else ret tt.

(** [xs.forEach(f)] *)
Fixpoint for_each {A} (f : A -> M S unit) (xs : list A) : M S unit :=
  match xs with
  | [] => ret tt
  | x :: xs' => bind (f x) (fun _ => for_each f xs')
  end.

(** The final state and the outcome of a run. *)
Definition exec {A} (m : M S A) (s : S) : S := snd (m s).
Definition eval {A} (m : M S A) (s : S) : Outcome A := fst (m s).

End Monad.

Notation "x <- m ;; k" := (bind m (fun x => k))
  (at level 100, m at next level, right associativity) : js_scope.
Notation "m ;; k" := (bind m (fun _ => k))
  (at level 100, right associativity) : js_scope.

(** ** Monad laws and run equations *)

Section MonadLaws.
Context {S : Type}.
Implicit Types s : S.

Lemma bind_ret_l {A B} (a : A) (k : A -> M S B) s : bind (ret a) k s = k a s.
Proof. reflexivity. Qed.

Lemma bind_ret_r {A} (m : M S A) s : bind m ret s = m s.
Proof. unfold bind, ret. by destruct (m s) as [[a|e] s']. Qed.

Lemma bind_assoc {A B C} (m : M S A) (k : A -> M S B) (h : B -> M S C) s :
  bind (bind m k) h s = bind m (fun a => bind (k a) h) s.
Proof. unfold bind. by destruct (m s) as [[a|e] s']. Qed.

Lemma bind_throw {A B} (e : JsError) (k : A -> M S B) s :
  bind (throw e) k s = (Thrown e, s).
Proof. reflexivity. Qed.

Lemma bind_ok {A B} (m : M S A) (k : A -> M S B) s a s' :
  m s = (Ok a, s') -> bind m k s = k a s'.
Proof. unfold bind. by intros ->. Qed.

Lemma bind_thrown {A B} (m : M S A) (k : A -> M S B) s e s' :
  m s = (Thrown e, s') -> bind m k s = (Thrown e, s').
Proof. unfold bind. by intros ->. Qed.

Lemma try_catch_ok {A} (m : M S A) h s a s' :
  m s = (Ok a, s') -> try_catch m h s = (Ok a, s').
Proof. unfold try_catch. by intros ->. Qed.

Lemma try_catch_thrown {A} (m : M S A) h s e s' :
  m s = (Thrown e, s') -> try_catch m h s = h e s'.
Proof. unfold try_catch. by intros ->. Qed.

Lemma exec_bind {A B} (m : M S A) (k : A -> M S B) s a :
  eval m s = Ok a -> exec (bind m k) s = exec (k a) (exec m s).
Proof.
  unfold exec, eval, bind. destruct (m s) as [[a'|e] s']; simpl; congruence.
Qed.

Lemma for_each_app {A} (f : A -> M S unit) xs ys s :
  for_each f (xs ++ ys) s = bind (for_each f xs) (fun _ => for_each f ys) s.
Proof.
  revert s. induction xs as [|x xs IH]; intros s; simpl; [done|].
  unfold bind in *. destruct (f x s) as [[[]|e] s']; [apply IH | done].
Qed.

(** A [try] whose [catch] block returns a value never throws. *)
Lemma try_catch_ret_ok {A} (m : M S A) (h : JsError -> A) s :
  is_ok (eval (try_catch m (fun e => ret (h e))) s) = true.
Proof. unfold eval, try_catch, ret. by destruct (m s) as [[a|e] s']. Qed.

Lemma is_ok_bind_ret {A B} (m : M S A) (f : A -> B) s :
  is_ok (eval (bind m (fun a => ret (f a))) s) = is_ok (eval m s).
Proof. unfold eval, bind, ret. by destruct (m s) as [[a|e] s']. Qed.

(** Continuations and [catch] blocks that leave the state alone do not
    show in the final state. *)
Lemma exec_bind_pure {A B} (m : M S A) (k : A -> M S B) s :
  (forall a s', exec (k a) s' = s') -> exec (bind m k) s = exec m s.
Proof.
  intros Hk. unfold exec, bind in *. destruct (m s) as [[a|e] s']; [apply Hk | done].
Qed.

Lemma exec_try_catch_pure {A} (m : M S A) (h : JsError -> M S A) s :
  (forall e s', exec (h e) s' = s') -> exec (try_catch m h) s = exec m s.
Proof.
  intros Hh. unfold exec, try_catch in *. destruct (m s) as [[a|e] s']; [done | apply Hh].
Qed.

Lemma exec_ret {A} (a : A) s : exec (ret a) s = s.
Proof. reflexivity. Qed.

End MonadLaws.

(** ** Tactics and hints *)

Create HintDb js discriminated.
Create Rewrite HintDb js.

#[export] Hint Rewrite @bind_ret_l @bind_throw : js.

(** Unfold the monad's combinators in the goal and in every hypothesis. *)
Ltac unfold_monad :=
  unfold exec, eval, when, bind, ret, throw, try_catch, get, gets, put, modify
    in *.

(** Split on the boolean or the [decide] the goal branches on. *)
Ltac case_if :=
  match goal with
  | |- context [if ?b then _ else _] =>
      let E := fresh "E" in destruct b eqn:E
  end.

(** Simplify a run of monadic code on a symbolic state. *)
Ltac run_monad := unfold_monad; simpl; repeat (case_if; simpl); try done.

(** ** Lists and options *)

Section Lists.
Context {A : Type}.
Implicit Types (l k : list A) (x y : A).

Lemma lookup_drop_0 l n : drop n l !! 0 = l !! n.
Proof. rewrite lookup_drop. f_equal. lia. Qed.

Lemma length_filter_le (P : A -> Prop) `{!forall x, Decision (P x)} l :
  length (filter P l) <= length l.
Proof.
  induction l as [|x l IH]; simpl; [done|].
  rewrite filter_cons. destruct (decide (P x)); simpl; lia.
Qed.

Lemma filter_id (P : A -> Prop) `{!forall x, Decision (P x)} l :
  Forall P l -> filter P l = l.
Proof.
  induction 1 as [|x l Hx _ IH]; [done|].
  rewrite filter_cons. destruct (decide (P x)); [by f_equal | done].
Qed.

Lemma forallb_elem_of (f : A -> bool) l :
  forallb f l = true <-> forall x, x ∈ l -> f x = true.
Proof.
  induction l as [|y l IH]; simpl.
  - split; [intros _ x Hx; by apply elem_of_nil in Hx|done].
  - rewrite andb_true_iff, IH. split.
    + intros [Hy Hl] x [->|Hx]%elem_of_cons; auto.
    + intros Hall. split; [apply Hall; by left|intros x Hx; apply Hall; by right].
Qed.

Lemma filter_ne_not_in `{!EqDecision A} x l :
  x ∉ l -> filter (fun y => y <> x) l = l.
Proof.
  intros Hx. apply filter_id. apply Forall_forall. intros y Hy ->. done.
Qed.

End Lists.

#[export] Hint Resolve NoDup_nil_2 : js.
