(* ===== verification/JsString.v ===== *)
(** * JavaScript string and array operations used by the gateway

    [String.prototype.split] with a one-character separator,
    [Array.prototype.join], [startsWith], [trim] and array indexing, as
    [src/services/mqttService.js] (the router, the default topics) and
    [src/controllers/deviceController.js] (the device listing) use them.
    Strings are sequences of 8-bit characters; the white space that [trim]
    strips is the ASCII part of ECMAScript's (tab, line feed, vertical tab,
    form feed, carriage return, space). *)

From S2P Require Import Prelude.

Module JsString.

(** [s.includes(c)] for a character [c] *)
Fixpoint has_char (c : ascii) (s : string) : bool :=
  match s with
  | EmptyString => false
  | String a s' => if decide (a = c) then true else has_char c s'
  end.

(** [s.split(sep)], [sep] a string of one character: never empty, and
    [""] splits into [[""]]. *)
Fixpoint split (sep : ascii) (s : string) : list string :=
  match s with
  | EmptyString => [EmptyString]
  | String a s' =>
      if decide (a = sep) then EmptyString :: split sep s'
      else match split sep s' with
           | [] => [String a EmptyString]
           | x :: xs => String a x :: xs
           end
  end.

(** [xs.join(sep)] on an array of strings *)
Fixpoint join (sep : string) (xs : list string) : string :=
  match xs with
  | [] => EmptyString
  | x :: xs' =>
      match xs' with
      | [] => x
      | _ :: _ => x +:+ sep +:+ join sep xs'
      end
  end.

(** [s.startsWith(p)] *)
Definition startsWith (p s : string) : bool := String.prefix p s.

(** [s.trimStart()], [s.trimEnd()] and [s.trim()] *)
Fixpoint trimStart (s : string) : string :=
  match s with
  | EmptyString => EmptyString
  | String a s' => if Ascii.is_space a then trimStart s' else s
  end.

Fixpoint trimEnd (s : string) : string :=
  match s with
  | EmptyString => EmptyString
  | String a s' =>
      match trimEnd s' with
      | EmptyString => if Ascii.is_space a then EmptyString else String a EmptyString
      | r => String a r
      end
  end.

Definition trim (s : string) : string := trimEnd (trimStart s).

(** No character of [s] is white space. *)
Fixpoint no_space (s : string) : bool :=
  match s with
  | EmptyString => true
  | String a s' => negb (Ascii.is_space a) && no_space s'
  end.

(** ** Concatenation *)

Lemma sapp_nil_l (s : string) : "" +:+ s = s.
Proof. reflexivity. Qed.

Lemma sapp_cons (a : ascii) (s t : string) :
  String a s +:+ t = String a (s +:+ t).
Proof. reflexivity. Qed.

Lemma sapp_nil_r (s : string) : s +:+ "" = s.
Proof. induction s as [|a s IH]; [done|]. by rewrite sapp_cons, IH. Qed.

Lemma sapp_assoc (s t u : string) : (s +:+ t) +:+ u = s +:+ t +:+ u.
Proof. induction s as [|a s IH]; [done|]. by rewrite !sapp_cons, IH. Qed.

#[export] Hint Rewrite sapp_nil_l sapp_cons sapp_nil_r : js.

Lemma length_sapp (s t : string) :
  String.length (s +:+ t) = String.length s + String.length t.
Proof. induction s as [|a s IH]; simpl; [done|]. by rewrite IH. Qed.

Lemma has_char_app c s t : has_char c (s +:+ t) = has_char c s || has_char c t.
Proof.
  induction s as [|a s IH]; [done|].
  rewrite sapp_cons. simpl. by destruct (decide (a = c)).
Qed.

(** ** [split] *)

Lemma split_nonempty sep s : split sep s <> [].
Proof.
  destruct s as [|a s]; simpl; [done|].
  destruct (decide (a = sep)); [done|]. by destruct (split sep s).
Qed.

Lemma split_length_pos sep s : 0 < length (split sep s).
Proof. pose proof (split_nonempty sep s). destruct (split sep s); simpl; [done|lia]. Qed.

Lemma split_cons_sep sep s : split sep (String sep s) = "" :: split sep s.
Proof. simpl. by rewrite decide_True. Qed.

Lemma split_cons_ne sep a s :
  a <> sep ->
  exists x xs, split sep s = x :: xs /\ split sep (String a s) = String a x :: xs.
Proof.
  intros Hne. simpl. rewrite decide_False by done.
  pose proof (split_nonempty sep s).
  destruct (split sep s) as [|x xs]; [done|]. eauto.
Qed.

(** A string without the separator is one segment. *)
Lemma split_no_sep sep s : has_char sep s = false -> split sep s = [s].
Proof.
  induction s as [|a s IH]; simpl; [done|].
  destruct (decide (a = sep)); [done|]. intros H. by rewrite IH.
Qed.

(** The first separator ends the first segment. *)
Lemma split_app_sep sep s t :
  has_char sep s = false ->
  split sep (s +:+ String sep t) = s :: split sep t.
Proof.
  induction s as [|a s IH]; intros H.
  - rewrite sapp_nil_l. apply split_cons_sep.
  - simpl in H. rewrite sapp_cons. simpl.
    destruct (decide (a = sep)); [done|]. by rewrite IH.
Qed.

(** The head of [split] never contains the separator. *)
Lemma split_head_no_sep sep s x xs :
  split sep s = x :: xs -> has_char sep x = false.
Proof.
  revert x xs. induction s as [|a s IH]; simpl; intros x xs.
  - by intros [= <- <-].
  - destruct (decide (a = sep)) as [->|Hne]; [by intros [= <- <-]|].
    pose proof (split_nonempty sep s).
    destruct (split sep s) as [|y ys] eqn:E; [done|].
    intros [= <- <-]. simpl. rewrite decide_False by done. eauto.
Qed.

(** ** [join] *)

Lemma join_cons sep x y ys :
  join sep (x :: y :: ys) = x +:+ sep +:+ join sep (y :: ys).
Proof. reflexivity. Qed.

Lemma join_singleton sep x : join sep [x] = x.
Proof. reflexivity. Qed.

Lemma join_cons_ne sep x xs :
  xs <> [] -> join sep (x :: xs) = x +:+ sep +:+ join sep xs.
Proof. by destruct xs. Qed.

(** The joined string is as long as each of its parts, and has a
    character for each part that is not empty. *)
Lemma length_join_elem sep xs x :
  x ∈ xs -> String.length x <= String.length (join sep xs).
Proof.
  induction xs as [|y [|z zs] IH]; intros Hx; [by apply elem_of_nil in Hx| |].
  - apply list_elem_of_singleton in Hx as ->. simpl. lia.
  - rewrite join_cons, !length_sapp. apply elem_of_cons in Hx as [->|Hx]; [lia|].
    specialize (IH Hx). lia.
Qed.

Lemma length_join_count sep xs :
  Forall (fun x => 1 <= String.length x) xs -> length xs <= String.length (join sep xs).
Proof.
  induction xs as [|y [|z zs] IH]; intros Hxs; [simpl; lia|by inversion_clear Hxs|].
  rewrite join_cons, !length_sapp. inversion_clear Hxs as [|?? Hy Hzs].
  specialize (IH Hzs). simpl in *. lia.
Qed.

Lemma join_split sep s : join (String sep "") (split sep s) = s.
Proof.
  induction s as [|a s IH]; simpl; [done|].
  pose proof (split_nonempty sep s) as Hne.
  destruct (decide (a = sep)) as [->|Ha].
  - destruct (split sep s) as [|x xs]; [done|].
    rewrite join_cons, IH. reflexivity.
  - destruct (split sep s) as [|x xs]; [done|].
    destruct xs as [|y ys].
    + simpl in *. by rewrite IH.
    + rewrite join_cons in *. by rewrite sapp_cons, IH.
Qed.

(** Round trip: splitting a string at a separator and joining the
    segments with it gives the string back, whatever the string. *)
Theorem join_split_roundtrip sep s : join (String sep "") (split sep s) = s.
Proof. apply join_split. Qed.

(** Round trip the other way: joining segments that do not contain the
    separator and splitting the result gives the segments back. *)
Theorem split_join sep xs :
  xs <> [] -> Forall (fun x => has_char sep x = false) xs ->
  split sep (join (String sep "") xs) = xs.
Proof.
  intros Hne Hall. induction Hall as [|x xs Hx Hxs IH]; [done|].
  destruct xs as [|y ys].
  - simpl. by apply split_no_sep.
  - rewrite join_cons, sapp_cons, sapp_nil_l, split_app_sep by done.
    by rewrite IH.
Qed.

(** ** [startsWith] *)

Lemma prefix_cons a p s : String.prefix (String a p) (String a s) = String.prefix p s.
Proof. simpl. by destruct (ascii_dec a a). Qed.

Lemma startsWith_app p s : startsWith p (p +:+ s) = true.
Proof.
  unfold startsWith. induction p as [|a p IH]; [by destruct s|].
  by rewrite sapp_cons, prefix_cons.
Qed.

Lemma startsWith_inv p s : startsWith p s = true -> exists r, s = p +:+ r.
Proof.
  unfold startsWith. revert s. induction p as [|a p IH]; intros s H.
  - by exists s.
  - destruct s as [|b s]; [done|]. simpl in H.
    destruct (ascii_dec a b) as [->|]; [|done].
    destruct (IH _ H) as [r ->]. by exists r.
Qed.

Lemma startsWith_iff p s : startsWith p s = true <-> exists r, s = p +:+ r.
Proof.
  split; [apply startsWith_inv|]. intros [r ->]. apply startsWith_app.
Qed.

(** ** [trim] *)

Lemma trimStart_no_space s : no_space s = true -> trimStart s = s.
Proof.
  destruct s as [|a s]; simpl; [done|].
  by destruct (Ascii.is_space a).
Qed.

Lemma trimEnd_no_space s : no_space s = true -> trimEnd s = s.
Proof.
  induction s as [|a s IH]; simpl; [done|].
  destruct (Ascii.is_space a); simpl; [done|].
  intros H. rewrite IH by done. by destruct s.
Qed.

Lemma trim_no_space s : no_space s = true -> trim s = s.
Proof.
  intros H. unfold trim. by rewrite trimStart_no_space, trimEnd_no_space.
Qed.

End JsString.

#[export] Hint Rewrite JsString.split_cons_sep JsString.join_split : js.
