(* ===== verification/Registry.v ===== *)
(** * The subscription registry

    [this.subscriptions] of [src/services/mqttService.js] is a JavaScript
    [Set] of topic names.  This file holds

    - the interface the service programs against ([RegistryOps]) and the
      laws it relies on ([RegistryLaws]);
    - the implementation [JsSet], a [Set] as ECMAScript specifies it: the
      elements in insertion order, each once;
    - the abstract specification, a finite set ([gset string]), as a second
      instance;
    - the abstraction function [reg_abs] and the refinement lemmas, proved
      once against the interface. *)

From stdpp Require Import gmap.
From S2P Require Import Prelude.

Module Registry.

(** ** Interface *)

Class RegistryOps (T : Type) : Type := {
  reg_new : T;                    (* new Set() *)
  reg_add : string -> T -> T;     (* s.add(x) *)
  reg_delete : string -> T -> T;  (* s.delete(x) *)
  reg_has : string -> T -> bool;  (* s.has(x) *)
  reg_all : T -> list string;     (* Array.from(s) *)
  reg_wf : T -> Prop;             (* representation invariant *)
}.

Class RegistryLaws (T : Type) `{RegistryOps T} : Prop := {
  reg_wf_new : reg_wf reg_new;
  reg_wf_add x s : reg_wf s -> reg_wf (reg_add x s);
  reg_wf_delete x s : reg_wf s -> reg_wf (reg_delete x s);
  reg_all_new : reg_all reg_new = [];
  reg_all_NoDup s : reg_wf s -> NoDup (reg_all s);
  reg_elem_of_add x y s : y ∈ reg_all (reg_add x s) <-> y = x \/ y ∈ reg_all s;
  reg_elem_of_delete x y s :
    y ∈ reg_all (reg_delete x s) <-> y <> x /\ y ∈ reg_all s;
  reg_has_spec x s : reg_has x s = true <-> x ∈ reg_all s;
}.

(** The set a registry denotes. *)
Definition reg_abs `{RegistryOps T} (s : T) : gset string :=
  list_to_set (reg_all s).

(** [arr.includes(x)] on the array [Array.from(s)] *)
Definition includes (x : string) (arr : list string) : bool :=
  bool_decide (x ∈ arr).

(** ** Implementation: the JavaScript [Set] *)

Abbreviation JsSet := (list string).

Definition set_new : JsSet := [].

Definition set_has (x : string) (s : JsSet) : bool := bool_decide (x ∈ s).

(** [s.add(x)]: appended when absent, otherwise the set is unchanged and
    [x] keeps its position. *)
Definition set_add (x : string) (s : JsSet) : JsSet :=
  if set_has x s then s else s ++ [x].

Definition set_delete (x : string) (s : JsSet) : JsSet :=
  filter (fun y => y <> x) s.

Definition array_from (s : JsSet) : list string := s.

Definition set_size (s : JsSet) : nat := length s.

#[export] Instance JsSet_ops : RegistryOps JsSet := {
  reg_new := set_new;
  reg_add := set_add;
  reg_delete := set_delete;
  reg_has := set_has;
  reg_all := array_from;
  reg_wf := NoDup;
}.

(** ** Abstract specification: a finite set *)

#[export] Instance gset_ops : RegistryOps (gset string) := {
  reg_new := ∅;
  reg_add x s := {[x]} ∪ s;
  reg_delete x s := s ∖ {[x]};
  reg_has x s := bool_decide (x ∈ s);
  reg_all := elements;
  reg_wf _ := True;
}.

(** ** The implementation's lemmas *)

Section JsSetLemmas.
Implicit Types (x y : string) (s : JsSet).

Lemma set_has_true x s : set_has x s = true <-> x ∈ s.
Proof. unfold set_has. apply bool_decide_eq_true. Qed.

Lemma set_has_false x s : set_has x s = false <-> x ∉ s.
Proof. unfold set_has. apply bool_decide_eq_false. Qed.

Lemma set_add_absent x s : x ∉ s -> set_add x s = s ++ [x].
Proof. intros H. unfold set_add. by rewrite (proj2 (set_has_false x s)). Qed.

Lemma set_add_present x s : x ∈ s -> set_add x s = s.
Proof. intros H. unfold set_add. by rewrite (proj2 (set_has_true x s)). Qed.

Lemma elem_of_set_add x y s : y ∈ set_add x s <-> y = x \/ y ∈ s.
Proof.
  unfold set_add. destruct (set_has x s) eqn:E.
  - apply set_has_true in E. split; [auto | by intros [->|]].
  - rewrite elem_of_app, list_elem_of_singleton. tauto.
Qed.

Lemma elem_of_set_delete x y s : y ∈ set_delete x s <-> y <> x /\ y ∈ s.
Proof. unfold set_delete. by rewrite list_elem_of_filter. Qed.

Lemma set_add_NoDup x s : NoDup s -> NoDup (set_add x s).
Proof.
  intros Hs. unfold set_add. destruct (set_has x s) eqn:E; [done|].
  apply set_has_false in E. apply NoDup_app. split_and!; [done| |apply NoDup_singleton].
  intros y Hy ->%list_elem_of_singleton. done.
Qed.

Lemma set_delete_NoDup x s : NoDup s -> NoDup (set_delete x s).
Proof. apply NoDup_filter. Qed.

(** Adding twice is adding once. *)
Lemma set_add_idemp x s : set_add x (set_add x s) = set_add x s.
Proof. apply set_add_present, elem_of_set_add. by left. Qed.

(** Deleting an absent element changes nothing. *)
Lemma set_delete_absent x s : x ∉ s -> set_delete x s = s.
Proof. apply filter_ne_not_in. Qed.

(** Deleting what was just added to a set that lacked it restores the set,
    order included. *)
Lemma set_delete_add x s : x ∉ s -> set_delete x (set_add x s) = s.
Proof.
  intros H. rewrite set_add_absent by done. unfold set_delete.
  rewrite filter_app, filter_ne_not_in by done.
  rewrite filter_cons, decide_False by auto. apply app_nil_r.
Qed.

(** [add] keeps the insertion order of the elements already present:
    the set before is a prefix of the set after, so [Array.from] lists old
    subscriptions first. *)
Theorem set_add_prefix x s : s `prefix_of` set_add x s.
Proof.
  unfold set_add. destruct (set_has x s); [done|]. by apply prefix_app_r.
Qed.

Lemma set_size_add x s :
  set_size (set_add x s) = if set_has x s then set_size s else S (set_size s).
Proof.
  unfold set_add, set_size. destruct (set_has x s); [done|].
  rewrite length_app. simpl. lia.
Qed.

Lemma set_size_delete_le x s : set_size (set_delete x s) <= set_size s.
Proof. apply length_filter_le. Qed.

(** The representation invariant of the JavaScript [Set], no element
    twice, holds of the empty set and is preserved by [add] and
    [delete]. *)
Theorem jsset_invariant x s :
  NoDup set_new /\ (NoDup s -> NoDup (set_add x s) /\ NoDup (set_delete x s)).
Proof.
  split; [apply NoDup_nil_2|]. intros Hs.
  split; [by apply set_add_NoDup | by apply set_delete_NoDup].
Qed.

(** Deleting what was just added to a set that lacked it restores the
    set, order included; adding again what was deleted from a set moves it
    to the end. *)
Theorem set_delete_add_roundtrip x s :
  x ∉ s -> set_delete x (set_add x s) = s
           /\ set_add x (set_delete x (set_add x s)) = s ++ [x].
Proof.
  intros Hx. rewrite set_delete_add by done. split; [done|].
  by apply set_add_absent.
Qed.

End JsSetLemmas.

(** ** Both instances satisfy the laws *)

#[export] Instance JsSet_laws : RegistryLaws JsSet.
Proof.
  split; simpl.
  - apply NoDup_nil_2.
  - intros. by apply set_add_NoDup.
  - intros. by apply set_delete_NoDup.
  - done.
  - done.
  - apply elem_of_set_add.
  - apply elem_of_set_delete.
  - apply set_has_true.
Qed.

#[export] Instance gset_laws : RegistryLaws (gset string).
Proof.
  split; simpl; [done | done | done | ..].
  - apply elements_empty.
  - intros. apply NoDup_elements.
  - intros x y s. by rewrite !elem_of_elements, elem_of_union, elem_of_singleton.
  - intros x y s.
    rewrite !elem_of_elements, elem_of_difference, not_elem_of_singleton. tauto.
  - intros x s. rewrite bool_decide_eq_true. by rewrite elem_of_elements.
Qed.

(** ** Refinement, against the interface

    Whatever the implementation, the set it denotes evolves as the abstract
    specification says. *)

Section Refinement.
Context {T : Type} `{RegistryLaws T}.
Implicit Types (x y : string) (s : T).

Lemma elem_of_reg_abs x s : x ∈ reg_abs s <-> x ∈ reg_all s.
Proof. unfold reg_abs. apply elem_of_list_to_set. Qed.

Lemma reg_abs_new : reg_abs (reg_new : T) = ∅.
Proof. unfold reg_abs. by rewrite reg_all_new. Qed.

Lemma reg_abs_add x s : reg_abs (reg_add x s) = {[x]} ∪ reg_abs s.
Proof.
  apply set_eq. intros y.
  rewrite elem_of_union, elem_of_singleton, !elem_of_reg_abs.
  apply reg_elem_of_add.
Qed.

Lemma reg_abs_delete x s : reg_abs (reg_delete x s) = reg_abs s ∖ {[x]}.
Proof.
  apply set_eq. intros y.
  rewrite elem_of_difference, not_elem_of_singleton, !elem_of_reg_abs.
  rewrite reg_elem_of_delete. tauto.
Qed.

Lemma reg_has_abs x s : reg_has x s = bool_decide (x ∈ reg_abs s).
Proof.
  destruct (reg_has x s) eqn:E; symmetry.
  - apply bool_decide_eq_true. by apply elem_of_reg_abs, reg_has_spec.
  - apply bool_decide_eq_false. rewrite elem_of_reg_abs, <- reg_has_spec.
    by rewrite E.
Qed.

(** Refinement: whatever implementation satisfies the registry laws,
    the set it denotes is empty at creation, gains exactly the added topic
    on [add], loses exactly the deleted topic on [delete], and [has]
    decides membership in it. *)
Theorem registry_refines_set x s :
  reg_abs (reg_new : T) = ∅
  /\ reg_abs (reg_add x s) = {[x]} ∪ reg_abs s
  /\ reg_abs (reg_delete x s) = reg_abs s ∖ {[x]}
  /\ reg_has x s = bool_decide (x ∈ reg_abs s).
Proof.
  split_and!; [apply reg_abs_new | apply reg_abs_add | apply reg_abs_delete
              | apply reg_has_abs].
Qed.

End Refinement.

Lemma jsset_invariant_witness :
  NoDup set_new
  /\ (NoDup ["a"; "b"] ->
      NoDup (set_add "c" ["a"; "b"]) /\ NoDup (set_delete "c" ["a"; "b"])).
Proof. exact (jsset_invariant "c" ["a"; "b"]). Defined.

Lemma set_delete_add_roundtrip_witness :
  set_delete "c" (set_add "c" ["a"; "b"]) = ["a"; "b"]
  /\ set_add "c" (set_delete "c" (set_add "c" ["a"; "b"])) = ["a"; "b"] ++ ["c"].
Proof.
  apply set_delete_add_roundtrip. apply (bool_decide_unpack _). by vm_compute.
Defined.

End Registry.
