(* ===== verification/Topics.v ===== *)
(** * The device topic mapper

    Every device is addressed through two topics derived from its
    identifier.  [src/controllers/deviceController.js] derives them in
    [addDevice], [retireDevice], [deleteDevice], [getDevice],
    [sendCommandToDevice] and [bulkAddDevices] by the same two template
    strings, and [listDevices] inverts the derivation on the subscribed
    topics.  [addDevice] validates the identifier by a regular expression. *)

From S2P Require Import Prelude JsString.
Import JsString.

Module Topics.

(** [`octaloop-mdm-in-${deviceId}`] and [`octaloop-mdm-out-${deviceId}`] *)
Definition inQueue (deviceId : string) : string := "octaloop-mdm-in-" +:+ deviceId.
Definition outQueue (deviceId : string) : string := "octaloop-mdm-out-" +:+ deviceId.

(** The character class [[a-zA-Z0-9_-]] *)
Definition id_char (c : ascii) : bool :=
  let n := nat_of_ascii c in
  (97 <=? n) && (n <=? 122) || (65 <=? n) && (n <=? 90)
  || (48 <=? n) && (n <=? 57) || bool_decide (n = 95) || bool_decide (n = 45).

Fixpoint all_id_chars (s : string) : bool :=
  match s with
  | EmptyString => true
  | String c s' => id_char c && all_id_chars s'
  end.

(** [/^[a-zA-Z0-9_-]+$/.test(deviceId)] *)
Definition valid_device_id (deviceId : string) : bool :=
  match deviceId with
  | EmptyString => false
  | String _ _ => all_id_chars deviceId
  end.

(** The inversion [listDevices] performs on one subscribed topic: the device
    identifier and the queue type, when the topic has one of the two
    prefixes and at least four hyphen-separated parts. *)
Definition device_of_subscription (subscription : string)
  : option (string * option string) :=
  if startsWith "octaloop-mdm-in-" subscription
     || startsWith "octaloop-mdm-out-" subscription
  then
    let parts := split "-" subscription in
    if 4 <=? length parts
    then Some (join "-" (drop 3 parts), parts !! 2)
    else None
  else None.

(** ** The derivation *)

Lemma inQueue_inj d d' : inQueue d = inQueue d' -> d = d'.
Proof. unfold inQueue. apply (inj _). Qed.

Lemma outQueue_inj d d' : outQueue d = outQueue d' -> d = d'.
Proof. unfold outQueue. apply (inj _). Qed.

Lemma inQueue_ne_outQueue d d' : inQueue d <> outQueue d'.
Proof. unfold inQueue, outQueue. intros H. discriminate H. Qed.

Lemma startsWith_inQueue d : startsWith "octaloop-mdm-in-" (inQueue d) = true.
Proof. apply startsWith_app. Qed.

Lemma startsWith_outQueue d : startsWith "octaloop-mdm-out-" (outQueue d) = true.
Proof. apply startsWith_app. Qed.

Lemma split_inQueue d :
  split "-" (inQueue d) = "octaloop" :: "mdm" :: "in" :: split "-" d.
Proof.
  unfold inQueue.
  change ("octaloop-mdm-in-" +:+ d)
    with ("octaloop" +:+ String "-" ("mdm" +:+ String "-" ("in" +:+ String "-" d))).
  by rewrite !split_app_sep.
Qed.

Lemma split_outQueue d :
  split "-" (outQueue d) = "octaloop" :: "mdm" :: "out" :: split "-" d.
Proof.
  unfold outQueue.
  change ("octaloop-mdm-out-" +:+ d)
    with ("octaloop" +:+ String "-" ("mdm" +:+ String "-" ("out" +:+ String "-" d))).
  by rewrite !split_app_sep.
Qed.

(** ** The inversion *)

Lemma device_of_inQueue d : device_of_subscription (inQueue d) = Some (d, Some "in").
Proof.
  unfold device_of_subscription.
  rewrite startsWith_inQueue, split_inQueue. simpl.
  rewrite drop_0, join_split. pose proof (split_length_pos "-" d).
  by destruct (length (split "-" d)); [lia|].
Qed.

Lemma device_of_outQueue d : device_of_subscription (outQueue d) = Some (d, Some "out").
Proof.
  unfold device_of_subscription.
  rewrite startsWith_outQueue, orb_true_r, split_outQueue. simpl.
  rewrite drop_0, join_split. pose proof (split_length_pos "-" d).
  by destruct (length (split "-" d)); [lia|].
Qed.

(** C32: Round trip of the topic pair: the inversion [listDevices] applies
    to a subscribed topic recovers, from either topic of a device, the
    identifier it was derived from and the queue type, for every identifier,
    hyphens included. *)
Theorem topic_pair_roundtrip d :
  device_of_subscription (inQueue d) = Some (d, Some "in")
  /\ device_of_subscription (outQueue d) = Some (d, Some "out").
Proof. split; [apply device_of_inQueue | apply device_of_outQueue]. Qed.

(** The derivation of the topic pair is injective and its two topics
    never coincide, neither for one device nor across devices. *)
Theorem topic_pair_distinct d d' :
  (inQueue d = inQueue d' -> d = d')
  /\ (outQueue d = outQueue d' -> d = d')
  /\ inQueue d <> outQueue d'.
Proof.
  split_and!; [apply inQueue_inj | apply outQueue_inj | apply inQueue_ne_outQueue].
Qed.

(** Only device topics are inverted, and to the identifier they were
    derived from: what the listing reports as a device has one of its two
    topics subscribed. *)
Lemma device_of_subscription_inv s d ty :
  device_of_subscription s = Some (d, ty) ->
  (s = inQueue d /\ ty = Some "in") \/ (s = outQueue d /\ ty = Some "out").
Proof.
  intros H. assert (exists r, s = inQueue r \/ s = outQueue r) as [r [-> | ->]].
  { unfold device_of_subscription in H.
    destruct (startsWith "octaloop-mdm-in-" s) eqn:Ein;
      [apply startsWith_inv in Ein as [r ->]; eauto|].
    destruct (startsWith "octaloop-mdm-out-" s) eqn:Eout;
      [apply startsWith_inv in Eout as [r ->]; eauto | done]. }
  - rewrite device_of_inQueue in H. injection H as <- <-. by left.
  - rewrite device_of_outQueue in H. injection H as <- <-. by right.
Qed.

(** The guard [parts.length >= 4] of the listing never fails on a
    topic that has one of the two prefixes: its else branch is dead. *)
Lemma device_of_subscription_is_Some s :
  startsWith "octaloop-mdm-in-" s || startsWith "octaloop-mdm-out-" s = true ->
  is_Some (device_of_subscription s).
Proof.
  intros [H|H]%orb_true_iff; apply startsWith_inv in H as [r ->].
  - fold (inQueue r). rewrite device_of_inQueue. eauto.
  - fold (outQueue r). rewrite device_of_outQueue. eauto.
Qed.

(** ** Validation *)

Lemma valid_device_id_nonempty d : valid_device_id d = true -> d <> "".
Proof. by destruct d. Qed.

Lemma all_id_chars_app s t : all_id_chars (s +:+ t) = all_id_chars s && all_id_chars t.
Proof.
  induction s as [|a s IH]; [done|].
  rewrite sapp_cons. simpl. by rewrite IH, andb_assoc.
Qed.

(** An identifier the validation accepts is not empty and contains no
    character outside letters, digits, underscore and hyphen: no topic
    separator, no wildcard, no white space. *)
Theorem valid_device_id_no_char d c :
  id_char c = false -> valid_device_id d = true -> has_char c d = false.
Proof.
  intros Hc Hd. assert (all_id_chars d = true) as Hall by by destruct d.
  clear Hd. induction d as [|a d IH]; [done|].
  simpl in *. apply andb_true_iff in Hall as [Ha Hall].
  destruct (decide (a = c)) as [->|]; [congruence | auto].
Qed.

(** The default topic is not a device topic. *)
Lemma default_topic_not_device : device_of_subscription "octaloop-mdm-in" = None.
Proof. reflexivity. Qed.

Lemma valid_device_id_no_char_witness : has_char "/" "dev_1-A" = false.
Proof. by apply valid_device_id_no_char. Defined.

End Topics.
