(* ===== verification/JsValue.v ===== *)
(** * JavaScript values

    The values that cross the gateway: message payloads, request bodies,
    options objects and response bodies.  A value is [undefined], [null], a
    boolean, a number, a string, an array or an object with string keys.
    Numbers are the integers (a [Z]); [pretty] prints them as JavaScript
    does for magnitudes below 10^21.  Objects are association lists in
    property order, each key once.

    The file also states the interface of the JSON codec
    ([JSON.parse], [JSON.stringify]) that the service calls. *)

From stdpp Require Import pretty.
From S2P Require Import Prelude JsString.
Import JsString.

Module JsValue.

#[warnings="-register-all"]
Inductive JsVal : Type :=
| JUndefined
| JNull
| JBool (b : bool)
| JNum (n : Z)
| JStr (s : string)
| JArr (xs : list JsVal)
| JObj (fields : list (string * JsVal)).

(** The results of [typeof] on these values. *)
Inductive JsType : Type :=
| TUndefined | TObject | TBoolean | TNumber | TString.

#[export] Instance JsType_eq_dec : EqDecision JsType.
Proof. solve_decision. Defined.

(** [typeof v]; note [typeof null === "object"]. *)
Definition typeof (v : JsVal) : JsType :=
  match v with
  | JUndefined => TUndefined
  | JNull | JArr _ | JObj _ => TObject
  | JBool _ => TBoolean
  | JNum _ => TNumber
  | JStr _ => TString
  end.

(** Truthiness, as [if (v)] and [!v] read it. *)
Definition truthy (v : JsVal) : bool :=
  match v with
  | JUndefined | JNull => false
  | JBool b => b
  | JNum n => negb (n =? 0)%Z
  | JStr s => negb (bool_decide (s = ""))
  | JArr _ | JObj _ => true
  end.

(** [String(v)], the coercion a template literal applies. *)
Fixpoint to_string (v : JsVal) : string :=
  match v with
  | JUndefined => "undefined"
  | JNull => "null"
  | JBool true => "true"
  | JBool false => "false"
  | JNum n => pretty n
  | JStr s => s
  | JArr xs =>
      join ","
        (map (fun x => match x with
                       | JUndefined | JNull => ""
                       | _ => to_string x
                       end) xs)
  | JObj _ => "[object Object]"
  end.

(** The method call [v.toString()]: a [TypeError] on [undefined] and
    [null], which have no properties. *)
Definition toString (v : JsVal) : Outcome string :=
  match v with
  | JUndefined => Thrown (TypeError "Cannot read properties of undefined (reading 'toString')")
  | JNull => Thrown (TypeError "Cannot read properties of null (reading 'toString')")
  | _ => Ok (to_string v)
  end.

(** [v === undefined] *)
Definition is_undefined (v : JsVal) : bool :=
  match v with JUndefined => true | _ => false end.

(** [obj.name] on an object literal or a parsed body: the property's value,
    or [undefined] when the object lacks it. *)
Fixpoint lookup_field (name : string) (fields : list (string * JsVal)) : JsVal :=
  match fields with
  | [] => JUndefined
  | (k, v) :: fields' => if decide (k = name) then v else lookup_field name fields'
  end.

(** [v.name]: a [TypeError] on [undefined] and [null], [undefined] on the
    other primitives and on arrays (no property of theirs is read by name in
    this program). *)
Definition get_field (name : string) (v : JsVal) : Outcome JsVal :=
  match v with
  | JUndefined | JNull =>
      Thrown (TypeError ("Cannot read properties of " +:+ to_string v))
  | JObj fields => Ok (lookup_field name fields)
  | _ => Ok JUndefined
  end.

(** [const { name = dflt } = obj]: the default applies to [undefined]
    only. *)
Definition with_default (dflt v : JsVal) : JsVal :=
  if is_undefined v then dflt else v.

(** A value [JSON.parse] can return: no [undefined] inside, and the keys
    of an object differ. *)
Fixpoint canonical (v : JsVal) : bool :=
  match v with
  | JUndefined => false
  | JArr xs => forallb canonical xs
  | JObj fields =>
      bool_decide (NoDup fields.*1) && forallb (fun kv => canonical kv.2) fields
  | _ => true
  end.

(** ** The JSON codec: interface *)

Class JsonCodec : Type := {
  json_parse : string -> option JsVal;   (* JSON.parse; None: SyntaxError *)
  json_stringify : JsVal -> string;      (* JSON.stringify on an object *)
}.

(** What the service needs of the codec: the text of a canonical value
    parses to the value, what parses is canonical, and the text of a
    boolean or a number is the string [toString] gives. *)
Class JsonCodecLaws (codec : JsonCodec) : Prop := {
  json_parse_stringify v :
    canonical v = true -> json_parse (json_stringify v) = Some v;
  json_parse_canonical s v :
    json_parse s = Some v -> canonical v = true;
  json_stringify_scalar v :
    match v with
    | JBool _ | JNum _ => json_stringify v = to_string v
    | _ => True
    end;
}.

(** ** Lemmas *)

Lemma typeof_object_inv v :
  typeof v = TObject -> v = JNull \/ (exists xs, v = JArr xs) \/ (exists fs, v = JObj fs).
Proof. destruct v; simpl; try done; eauto. Qed.

Lemma toString_ok v : typeof v <> TUndefined -> typeof v <> TObject -> toString v = Ok (to_string v).
Proof. by destruct v. Qed.

Lemma to_string_JStr s : to_string (JStr s) = s.
Proof. reflexivity. Qed.

Lemma truthy_JStr s : truthy (JStr s) = true <-> s <> "".
Proof. simpl. rewrite negb_true_iff, bool_decide_eq_false. done. Qed.

Lemma with_default_defined d v : is_undefined v = false -> with_default d v = v.
Proof. unfold with_default. by intros ->. Qed.

Lemma lookup_field_cons_eq k v fs : lookup_field k ((k, v) :: fs) = v.
Proof. simpl. by rewrite decide_True. Qed.

Lemma lookup_field_cons_ne k k' v fs :
  k' <> k -> lookup_field k ((k', v) :: fs) = lookup_field k fs.
Proof. intros. simpl. by rewrite decide_False. Qed.

End JsValue.
