(* ===== verification/Json.v ===== *)
(** * The JSON codec

    [JSON.stringify] and [JSON.parse] as ECMAScript defines them, on the
    values of [JsValue]: the instance of [JsonCodec] the service runs with.
    Numbers are integers: a numeral with a fraction or an exponent is
    outside the model and [json_parse] refuses it.  Characters are 8 bits
    wide: an escape [\uXXXX] above code 255 is refused.  A parsed object
    keeps its members in the order of the text, a repeated key keeping its
    first position and its last value.

    The second part proves the laws of [JsonCodecLaws]: [parse] reads the
    text [stringify] writes of a canonical value back to that value
    ([parse_stringify], by the lemmas that read a text followed by
    anything that does not continue it), and every value [parse] returns
    is canonical ([parse_canonical]). *)

From stdpp Require Import pretty.
From S2P Require Import Prelude JsString JsValue.
Import JsString JsValue.

Module Json.

Definition dquote : ascii := ascii_of_nat 34.
Definition backslash : ascii := ascii_of_nat 92.

(** ** Printing *)

Definition hex_digit (n : nat) : ascii :=
  ascii_of_nat (if n <? 10 then 48 + n else 87 + n).

(** The escape sequence of one character inside a string literal. *)
Definition escape_char (c : ascii) : string :=
  let n := nat_of_ascii c in
  if decide (c = dquote) then String backslash (String dquote "")
  else if decide (c = backslash) then String backslash (String backslash "")
  else if decide (n = 8) then String backslash "b"
  else if decide (n = 12) then String backslash "f"
  else if decide (n = 10) then String backslash "n"
  else if decide (n = 13) then String backslash "r"
  else if decide (n = 9) then String backslash "t"
  else if n <? 32 then
    String backslash
      (String "u" (String "0" (String "0"
         (String (hex_digit (n / 16)) (String (hex_digit (n mod 16)) "")))))
  else String c "".

Fixpoint escape (s : string) : string :=
  match s with
  | EmptyString => EmptyString
  | String c s' => escape_char c +:+ escape s'
  end.

(** A string literal. *)
Definition quote (s : string) : string :=
  String dquote (escape s +:+ String dquote "").

(** [JSON.stringify(v)] for a value that has a JSON text; inside an array
    [undefined] prints as [null], inside an object a member whose value is
    [undefined] is left out. *)
Fixpoint stringify (v : JsVal) : string :=
  match v with
  | JUndefined => "null"
  | JNull => "null"
  | JBool true => "true"
  | JBool false => "false"
  | JNum n => pretty n
  | JStr s => quote s
  | JArr xs => "[" +:+ join "," (map stringify xs) +:+ "]"
  | JObj fields =>
      "{" +:+
      join ","
        ((fix members (fs : list (string * JsVal)) : list string :=
            match fs with
            | [] => []
            | (k, x) :: fs' =>
                if is_undefined x then members fs'
                else (quote k +:+ ":" +:+ stringify x) :: members fs'
            end) fields)
      +:+ "}"
  end.

(** ** Parsing *)

(** JSON white space: space, tab, line feed, carriage return. *)
Definition is_ws (c : ascii) : bool :=
  let n := nat_of_ascii c in
  bool_decide (n = 32) || bool_decide (n = 9) || bool_decide (n = 10)
  || bool_decide (n = 13).

Fixpoint skip_ws (s : string) : string :=
  match s with
  | EmptyString => EmptyString
  | String c s' => if is_ws c then skip_ws s' else s
  end.

(** The rest of [s] after the literal [p], when [s] starts with it. *)
Fixpoint strip_prefix (p s : string) : option string :=
  match p, s with
  | EmptyString, _ => Some s
  | String a p', String b s' => if decide (a = b) then strip_prefix p' s' else None
  | String _ _, EmptyString => None
  end.

Definition digit_val (c : ascii) : option Z :=
  let n := nat_of_ascii c in
  if (48 <=? n) && (n <=? 57) then Some (Z.of_nat (n - 48)) else None.

Definition hex_val (c : ascii) : option nat :=
  let n := nat_of_ascii c in
  if (48 <=? n) && (n <=? 57) then Some (n - 48)
  else if (97 <=? n) && (n <=? 102) then Some (n - 87)
  else if (65 <=? n) && (n <=? 70) then Some (n - 55)
  else None.

Fixpoint parse_digits (acc : Z) (s : string) : Z * string :=
  match s with
  | EmptyString => (acc, EmptyString)
  | String c s' =>
      match digit_val c with
      | Some d => parse_digits (10 * acc + d)%Z s'
      | None => (acc, s)
      end
  end.

(** What may not follow the integer part in this model: a digit after a
    leading zero is a syntax error, a fraction or an exponent is a number
    the model does not have. *)
Definition bad_after_int (s : string) : bool :=
  match s with
  | EmptyString => false
  | String c _ =>
      bool_decide (is_Some (digit_val c)) || bool_decide (c = "."%char)
      || bool_decide (c = "e"%char) || bool_decide (c = "E"%char)
  end.

Definition parse_number (s : string) : option (Z * string) :=
  let '(neg, s1) :=
    match s with
    | String "-" s' => (true, s')
    | _ => (false, s)
    end in
  match s1 with
  | EmptyString => None
  | String c s2 =>
      d ← digit_val c;
      let '(n, rest) := if decide (d = 0%Z) then (0%Z, s2) else parse_digits d s2 in
      if bad_after_int rest then None
      else Some (if neg then (- n)%Z else n, rest)
  end.

(** The character a simple escape stands for. *)
Definition unescape (e : ascii) : option ascii :=
  if decide (e = dquote) then Some dquote
  else if decide (e = backslash) then Some backslash
  else if decide (e = "/"%char) then Some "/"%char
  else if decide (e = "b"%char) then Some (ascii_of_nat 8)
  else if decide (e = "f"%char) then Some (ascii_of_nat 12)
  else if decide (e = "n"%char) then Some (ascii_of_nat 10)
  else if decide (e = "r"%char) then Some (ascii_of_nat 13)
  else if decide (e = "t"%char) then Some (ascii_of_nat 9)
  else None.

Definition hex4 (h1 h2 h3 h4 : ascii) : option ascii :=
  a ← hex_val h1; b ← hex_val h2; c ← hex_val h3; d ← hex_val h4;
  let n := ((a * 16 + b) * 16 + c) * 16 + d in
  if n <? 256 then Some (ascii_of_nat n) else None.

(** The characters of a string literal after its opening quote, and the
    text after its closing quote. *)
Fixpoint parse_string_body (s : string) : option (string * string) :=
  match s with
  | EmptyString => None
  | String c s' =>
      if decide (c = dquote) then Some (EmptyString, s')
      else if decide (c = backslash) then
        match s' with
        | EmptyString => None
        | String e s'' =>
            match unescape e with
            | Some ch =>
                '(r, rest) ← parse_string_body s''; Some (String ch r, rest)
            | None =>
                if decide (e = "u"%char) then
                  match s'' with
                  | String h1 (String h2 (String h3 (String h4 s5))) =>
                      ch ← hex4 h1 h2 h3 h4;
                      '(r, rest) ← parse_string_body s5; Some (String ch r, rest)
                  | _ => None
                  end
                else None
            end
        end
      else if nat_of_ascii c <? 32 then None
      else '(r, rest) ← parse_string_body s'; Some (String c r, rest)
  end.

(** [obj[k] = v] while an object literal is read: a key already present
    keeps its place and takes the new value. *)
Fixpoint set_field (k : string) (v : JsVal) (fs : list (string * JsVal))
  : list (string * JsVal) :=
  match fs with
  | [] => [(k, v)]
  | (k', v') :: fs' =>
      if decide (k' = k) then (k, v) :: fs' else (k', v') :: set_field k v fs'
  end.

Section WithValueParser.
Variable pv : string -> option (JsVal * string).

(** The elements of an array after [[], at least one, up to []]. *)
Fixpoint parse_elements (n : nat) (s : string) : option (list JsVal * string) :=
  match n with
  | 0 => None
  | S n' =>
      '(v, r) ← pv s;
      match skip_ws r with
      | String "," r' => '(vs, r'') ← parse_elements n' r'; Some (v :: vs, r'')
      | String "]" r' => Some ([v], r')
      | _ => None
      end
  end.

(** The members of an object after [{], at least one, up to [}]. *)
Fixpoint parse_members (n : nat) (acc : list (string * JsVal)) (s : string)
  : option (list (string * JsVal) * string) :=
  match n with
  | 0 => None
  | S n' =>
      match skip_ws s with
      | String c s1 =>
          if decide (c = dquote) then
            '(k, r) ← parse_string_body s1;
            match skip_ws r with
            | String ":" r1 =>
                '(v, r2) ← pv r1;
                let acc' := set_field k v acc in
                match skip_ws r2 with
                | String "," r3 => parse_members n' acc' r3
                | String "}" r3 => Some (acc', r3)
                | _ => None
                end
            | _ => None
            end
          else None
      | EmptyString => None
      end
  end.

End WithValueParser.

(** One JSON value at the head of [s], and the text after it.  [fuel]
    bounds the nesting depth. *)
Fixpoint parse_value (fuel : nat) (s : string) : option (JsVal * string) :=
  match fuel with
  | 0 => None
  | S fuel' =>
      match skip_ws s with
      | EmptyString => None
      | String c s' =>
          if decide (c = "n"%char) then
            rest ← strip_prefix "null" (String c s'); Some (JNull, rest)
          else if decide (c = "t"%char) then
            rest ← strip_prefix "true" (String c s'); Some (JBool true, rest)
          else if decide (c = "f"%char) then
            rest ← strip_prefix "false" (String c s'); Some (JBool false, rest)
          else if decide (c = dquote) then
            '(r, rest) ← parse_string_body s'; Some (JStr r, rest)
          else if decide (c = "["%char) then
            match skip_ws s' with
            | String "]" rest => Some (JArr [], rest)
            | _ =>
                '(xs, rest) ← parse_elements (parse_value fuel') (String.length s') s';
                Some (JArr xs, rest)
            end
          else if decide (c = "{"%char) then
            match skip_ws s' with
            | String "}" rest => Some (JObj [], rest)
            | _ =>
                '(fs, rest) ← parse_members (parse_value fuel') (String.length s') [] s';
                Some (JObj fs, rest)
            end
          else
            '(n, rest) ← parse_number (String c s'); Some (JNum n, rest)
      end
  end.

(** [JSON.parse(s)]: one value, then only white space.  The length of the
    text bounds its nesting depth, so the fuel never runs out on a text
    that parses. *)
Definition parse (s : string) : option JsVal :=
  '(v, rest) ← parse_value (S (String.length s)) s;
  if decide (skip_ws rest = "") then Some v else None.

#[export] Instance codec : JsonCodec := {
  json_parse := parse;
  json_stringify := stringify;
}.


(** ** Specification *)

Local Open Scope Z_scope.

(** The integer part of a numeral, after its sign. *)
Definition unsigned (s : string) : option (Z * string) :=
  match s with
  | EmptyString => None
  | String c s2 =>
      d ← digit_val c;
      let '(n, rest) := if decide (d = 0) then (0, s2) else parse_digits d s2 in
      if bad_after_int rest then None else Some (n, rest)
  end.

(** The text of one member of an object. *)
Definition member (kv : string * JsVal) : string :=
  quote kv.1 +:+ ":" +:+ stringify kv.2.

(** The characters a numeral starts with, and those a JSON text starts
    with. *)
Definition numeral_heads : list ascii :=
  ["-"; "0"; "1"; "2"; "3"; "4"; "5"; "6"; "7"; "8"; "9"]%char.
Definition heads : list ascii :=
  ["n"; "t"; "f"; dquote; "["; "{"]%char ++ numeral_heads.

(** The text starts with one of the characters. *)
Definition starts (hs : list ascii) (s : string) : Prop :=
  exists c t, s = String c t /\ c ∈ hs.

(** [pv] reads the text of [x], whatever follows that does not go on a
    numeral. *)
Definition reads (pv : string -> option (JsVal * string)) (x : JsVal) : Prop :=
  forall r, bad_after_int r = false -> pv (stringify x +:+ r) = Some (x, r).

(** ** Numerals *)

Lemma digit_val_char d : (d < 10)%N -> digit_val (pretty_N_char d) = Some (Z.of_N d).
Proof.
  intros Hd. rewrite <- (N2Nat.id d) in *. generalize dependent (N.to_nat d).
  intros n Hn. do 10 (destruct n as [|n]; [done|]). lia.
Qed.

Lemma pretty_N_go_app x s rest : pretty_N_go x s +:+ rest = pretty_N_go x (s +:+ rest).
Proof.
  revert s. induction (N.lt_wf_0 x) as [x _ IH]; intros s.
  destruct (decide (0 < x)%N) as [Hx|Hx].
  - rewrite (pretty_N_go_step x s), (pretty_N_go_step x (s +:+ rest)) by done.
    rewrite IH; [done|]. by apply N.div_lt.
  - replace x with 0%N by lia. by rewrite !pretty_N_go_0.
Qed.

(** Reading the digits [pretty] wrote gives the number back. *)
Lemma parse_digits_pretty x s :
  exists k : nat, forall acc,
    parse_digits acc (pretty_N_go x s) = parse_digits (acc * 10 ^ Z.of_nat k + Z.of_N x) s.
Proof.
  revert s. induction (N.lt_wf_0 x) as [x _ IH]; intros s.
  destruct (decide (0 < x)%N) as [Hx|Hx].
  - destruct (IH (x `div` 10)%N (N.div_lt x 10 Hx eq_refl)
               (String (pretty_N_char (x `mod` 10)) s)) as [k Hk].
    exists (S k). intros acc. rewrite pretty_N_go_step, Hk by done. simpl parse_digits.
    rewrite digit_val_char by (by apply N.mod_lt). f_equal.
    rewrite Nat2Z.inj_succ, Z.pow_succ_r, N2Z.inj_div, N2Z.inj_mod by lia.
    pose proof (Z.div_mod (Z.of_N x) 10). lia.
  - exists 0%nat. intros acc. replace x with 0%N by lia.
    rewrite pretty_N_go_0. f_equal. simpl. lia.
Qed.

(** A positive number is written with a first digit that is not 0. *)
Lemma pretty_N_go_head x s :
  (0 < x)%N ->
  exists c s' d, pretty_N_go x s = String c s' /\ digit_val c = Some d /\ d <> 0.
Proof.
  revert s. induction (N.lt_wf_0 x) as [x _ IH]; intros s Hx.
  rewrite pretty_N_go_step by done.
  destruct (decide (0 < x `div` 10)%N) as [Hd|Hd]; [by apply IH; [apply N.div_lt|]|].
  apply N.nlt_ge, N.le_0_r in Hd. rewrite Hd, pretty_N_go_0.
  eexists _, _, _. split; [done|]. rewrite digit_val_char by (by apply N.mod_lt).
  split; [done|]. pose proof (N.div_mod x 10). rewrite Hd in *. lia.
Qed.


Lemma parse_number_minus s :
  parse_number (String "-" s) = prod_map Z.opp id <$> unsigned s.
Proof.
  unfold parse_number, unsigned. destruct s as [|c s]; [done|].
  destruct (digit_val c) as [d|]; [|done]. simpl.
  case_decide; [|destruct (parse_digits d s)]; by destruct (bad_after_int _).
Qed.

Lemma parse_number_digit c s d :
  digit_val c = Some d -> parse_number (String c s) = unsigned (String c s).
Proof.
  destruct c as [[] [] [] [] [] [] [] []]; intros Hd; vm_compute in Hd; simplify_eq;
    reflexivity.
Qed.

Lemma parse_digits_stop acc rest :
  bad_after_int rest = false -> parse_digits acc rest = (acc, rest).
Proof.
  destruct rest as [|c r]; [done|]. simpl. destruct (digit_val c); [done|done].
Qed.

Lemma unsigned_pretty p rest :
  bad_after_int rest = false ->
  unsigned (pretty (N.pos p) +:+ rest) = Some (Z.pos p, rest).
Proof.
  intros Hr. unfold pretty, pretty_N. rewrite decide_False, pretty_N_go_app by done.
  destruct (pretty_N_go_head (N.pos p) rest) as (c & s' & d & Hs & Hd & Hd0); [lia|].
  destruct (parse_digits_pretty (N.pos p) rest) as [k Hk]. specialize (Hk 0).
  change ("" +:+ rest) with rest. rewrite Hs in *. simpl in Hk. rewrite Hd in Hk.
  change (10 * 0 + d) with d in Hk. rewrite (parse_digits_stop _ rest) in Hk by done.
  simpl. rewrite Hd. simpl. rewrite decide_False, Hk by done. by rewrite Hr.
Qed.

(** [JSON.parse] reads the numeral [JSON.stringify] wrote. *)
Lemma parse_number_pretty n rest :
  bad_after_int rest = false -> parse_number (pretty n +:+ rest) = Some (n, rest).
Proof.
  intros Hr. destruct n as [|p|p].
  - change (pretty 0 +:+ rest) with (String "0" rest). unfold parse_number. simpl.
    by rewrite Hr.
  - pose proof (unsigned_pretty p rest Hr) as Hu.
    change (pretty (Z.pos p)) with (pretty (N.pos p)).
    destruct (pretty (N.pos p) +:+ rest) as [|c s] eqn:E; [done|].
    destruct (digit_val c) as [d|] eqn:Hd; [by rewrite (parse_number_digit c s d Hd)|].
    simpl in Hu. by rewrite Hd in Hu.
  - change (pretty (Z.neg p) +:+ rest) with (String "-" (pretty (N.pos p) +:+ rest)).
    by rewrite parse_number_minus, unsigned_pretty.
Qed.


(** ** String literals *)

(** One escaped character is read back as the character. *)
Lemma parse_escape_char c t :
  parse_string_body (escape_char c +:+ t)
  = '(r, rest) ← parse_string_body t; Some (String c r, rest).
Proof. by destruct c as [[] [] [] [] [] [] [] []]. Qed.

Lemma parse_escape s rest :
  parse_string_body (escape s +:+ String dquote rest) = Some (s, rest).
Proof.
  induction s as [|c s IH]; [done|].
  simpl escape. by rewrite sapp_assoc, parse_escape_char, IH.
Qed.

Lemma parse_quote s rest :
  exists t, quote s +:+ rest = String dquote t /\ parse_string_body t = Some (s, rest).
Proof.
  exists (escape s +:+ String dquote rest). split; [|apply parse_escape].
  change (quote s +:+ rest) with (String dquote ((escape s +:+ String dquote "") +:+ rest)).
  by rewrite sapp_assoc.
Qed.


(** ** Values *)

Ltac by_head H :=
  destruct H as (? & ? & -> & H);
  repeat (apply elem_of_cons in H as [->|H]); [..|by apply elem_of_nil in H].

Ltac head_in := by apply (bool_decide_unpack _); vm_compute.

Lemma digit_val_head c d : digit_val c = Some d -> c ∈ numeral_heads.
Proof.
  destruct c as [[] [] [] [] [] [] [] []]; intros Hd; vm_compute in Hd;
    simplify_eq; head_in.
Qed.

Lemma pretty_starts (n : Z) rest : starts numeral_heads (pretty n +:+ rest).
Proof.
  destruct n as [|p|p]; [eexists _, _; split; [done|head_in]| |eexists _, _; split; [done|head_in]].
  change (pretty (Z.pos p)) with (pretty (N.pos p)). unfold pretty, pretty_N.
  rewrite decide_False, pretty_N_go_app by done.
  destruct (pretty_N_go_head (N.pos p) ("" +:+ rest)) as (c & s' & d & -> & Hd & _); [lia|].
  eexists _, _. split; [done|]. by eapply digit_val_head.
Qed.

Lemma stringify_starts v rest : starts heads (stringify v +:+ rest).
Proof.
  destruct v as [| |[]|n|s|xs|fs]; try (eexists _, _; split; [done|head_in]).
  destruct (pretty_starts n rest) as (c & t & Ht & Hc). exists c, t. split; [done|].
  apply elem_of_app. by right.
Qed.

Lemma stringify_nonempty v : (1 <= String.length (stringify v))%nat.
Proof.
  destruct (stringify_starts v "") as (c & t & Ht & _). rewrite sapp_nil_r in Ht.
  rewrite Ht. simpl. lia.
Qed.

(** How [parse_value] goes on after the first character of a text. *)
Lemma parse_value_number f s :
  starts numeral_heads s ->
  parse_value (S f) s = '(n, rest) ← parse_number s; Some (JNum n, rest).
Proof. intros Hs. by by_head Hs. Qed.

Lemma parse_value_array f s :
  starts heads s ->
  parse_value (S f) (String "[" s)
  = '(xs, rest) ← parse_elements (parse_value f) (String.length s) s; Some (JArr xs, rest).
Proof. intros Hs. by by_head Hs. Qed.

Lemma parse_value_object f t :
  parse_value (S f) (String "{" (String dquote t))
  = '(fs, rest) ← parse_members (parse_value f) (S (String.length t)) [] (String dquote t);
    Some (JObj fs, rest).
Proof. done. Qed.


Lemma set_field_fresh k v acc :
  k ∉ acc.*1 -> set_field k v acc = acc ++ [(k, v)].
Proof.
  induction acc as [|[k' v'] acc IH]; intros Hk; [done|]. simpl in *.
  apply not_elem_of_cons in Hk as [Hk Hacc].
  rewrite decide_False by done. by rewrite IH.
Qed.

(** The members [JSON.stringify] writes, when none is [undefined]. *)
Lemma stringify_object fs :
  forallb (fun kv => canonical kv.2) fs = true ->
  stringify (JObj fs) = "{" +:+ join "," (member <$> fs) +:+ "}".
Proof.
  intros Hfs. simpl. do 3 f_equal.
  induction fs as [|[k x] fs IH]; [done|]. simpl in Hfs.
  apply andb_true_iff in Hfs as [Hx Hfs]. rewrite fmap_cons, <- IH by done.
  by destruct x.
Qed.

Ltac snil :=
  repeat match goal with |- context [EmptyString +:+ ?s] => change (EmptyString +:+ s) with s end.

Section Texts.
Variable pv : string -> option (JsVal * string).

Lemma parse_elements_join n xs rest :
  xs <> [] -> (length xs <= n)%nat -> Forall (reads pv) xs ->
  parse_elements pv n (join "," (stringify <$> xs) +:+ String "]" rest)
  = Some (xs, rest).
Proof.
  revert n. induction xs as [|x xs IH]; intros n Hne Hn Hxs; [done|].
  destruct n as [|n]; [simpl in Hn; lia|]. inversion_clear Hxs as [|?? Hx Hxs'].
  destruct (decide (xs = [])) as [->|Hne']; [by simpl; rewrite Hx|].
  rewrite fmap_cons, join_cons_ne, !sapp_assoc by (by destruct xs).
  specialize (IH n Hne' ltac:(simpl in Hn; lia) Hxs').
  remember (join "," (stringify <$> xs) +:+ String "]" rest) as tail.
  simpl. rewrite Hx by done. simpl. snil. by rewrite IH.
Qed.

Lemma parse_members_join n acc fs rest :
  fs <> [] -> (length fs <= n)%nat -> Forall (fun kv => reads pv kv.2) fs ->
  NoDup (acc.*1 ++ fs.*1) ->
  parse_members pv n acc (join "," (member <$> fs) +:+ String "}" rest)
  = Some (acc ++ fs, rest).
Proof.
  revert n acc.
  induction fs as [|[k x] fs IH]; intros n acc Hne Hn Hfs Hnd; [done|].
  destruct n as [|n]; [simpl in Hn; lia|]. inversion_clear Hfs as [|?? Hx Hfs'].
  assert (set_field k x acc = acc ++ [(k, x)]) as Hset.
  { apply set_field_fresh. apply NoDup_app in Hnd as (_ & Hnd & _).
    intros Hk. apply (Hnd k Hk). by left. }
  assert (NoDup ((acc ++ [(k, x)]).*1 ++ fs.*1)) as Hnd'.
  { by rewrite fmap_app, <- app_assoc. }
  simpl in Hx.
  destruct (decide (fs = [])) as [->|Hne'].
  - change (join "," (member <$> [(k, x)])) with (quote k +:+ ":" +:+ stringify x).
    rewrite !sapp_assoc.
    destruct (parse_quote k (":" +:+ stringify x +:+ String "}" rest)) as (t & -> & Ht).
    simpl. rewrite Ht. simpl. snil. rewrite Hx by done. simpl. by rewrite Hset.
  - rewrite fmap_cons, join_cons_ne by (by destruct fs).
    specialize (IH n _ Hne' ltac:(simpl in Hn; lia) Hfs' Hnd').
    remember (join "," (member <$> fs) +:+ String "}" rest) as tail.
    change (member (k, x)) with (quote k +:+ ":" +:+ stringify x).
    rewrite !sapp_assoc, <- Heqtail.
    destruct (parse_quote k (":" +:+ stringify x +:+ "," +:+ tail)) as (t & -> & Ht).
    simpl. rewrite Ht. simpl. snil. rewrite Hx by done. simpl. snil.
    by rewrite Hset, IH, <- app_assoc.
Qed.

End Texts.


Lemma length_member kv :
  (String.length (stringify kv.2) < String.length (member kv))%nat.
Proof. unfold member. rewrite !length_sapp. simpl. lia. Qed.

Lemma length_stringify_array xs :
  String.length (stringify (JArr xs))
  = S (S (String.length (join "," (stringify <$> xs)))).
Proof.
  change (stringify (JArr xs)) with ("[" +:+ join "," (stringify <$> xs) +:+ "]").
  rewrite !length_sapp. simpl. lia.
Qed.

Lemma join_starts {A} hs (f : A -> string) xs rest :
  xs <> [] -> (forall x r, starts hs (f x +:+ r)) ->
  starts hs (join "," (f <$> xs) +:+ rest).
Proof.
  intros Hne Hf. destruct xs as [|x xs]; [done|].
  destruct (decide (xs = [])) as [->|Hne']; [apply Hf|].
  rewrite fmap_cons, join_cons_ne, !sapp_assoc by (by destruct xs). apply Hf.
Qed.

Lemma parse_leaf f v rest :
  match v with JNull | JBool _ | JNum _ | JStr _ => True | _ => False end ->
  bad_after_int rest = false ->
  parse_value (S f) (stringify v +:+ rest) = Some (v, rest).
Proof.
  intros Hv Hr. destruct v as [| |[]|n|s|xs|fs]; try done.
  - rewrite parse_value_number by apply pretty_starts.
    simpl stringify. by rewrite parse_number_pretty.
  - destruct (parse_quote s rest) as (t & Ht & Hb). simpl stringify. rewrite Ht.
    simpl. by rewrite Hb.
Qed.

Lemma parse_array f xs rest :
  Forall (reads (parse_value f)) xs ->
  parse_value (S f) (stringify (JArr xs) +:+ rest) = Some (JArr xs, rest).
Proof.
  intros Hxs. destruct (decide (xs = [])) as [->|Hne]; [done|].
  change (stringify (JArr xs) +:+ rest)
    with (String "[" ((join "," (stringify <$> xs) +:+ "]") +:+ rest)).
  rewrite sapp_assoc, parse_value_array by (by apply join_starts, stringify_starts).
  change ("]" +:+ rest) with (String "]" rest).
  rewrite parse_elements_join; [done..| |done].
  rewrite length_sapp, <- (length_fmap stringify xs).
  etrans; [apply (length_join_count ",")|lia].
  apply Forall_fmap, Forall_forall. intros x _. apply stringify_nonempty.
Qed.

Lemma parse_object f fs rest :
  forallb (fun kv => canonical kv.2) fs = true -> NoDup fs.*1 ->
  Forall (fun kv => reads (parse_value f) kv.2) fs ->
  parse_value (S f) (stringify (JObj fs) +:+ rest) = Some (JObj fs, rest).
Proof.
  intros Hc Hnd Hfs. rewrite stringify_object by done.
  destruct (decide (fs = [])) as [->|Hne]; [done|].
  change (("{" +:+ ?s +:+ "}") +:+ rest) with (String "{" ((s +:+ "}") +:+ rest)).
  rewrite sapp_assoc.
  destruct (join_starts [dquote] member fs (String "}" rest) Hne) as (c & t & Ht & Hd).
  { intros [k x] r. eexists _, _. split; [done|]. by left. }
  apply list_elem_of_singleton in Hd as ->. change ("}" +:+ rest) with (String "}" rest).
  rewrite Ht, parse_value_object, <- Ht.
  rewrite parse_members_join; [done..| |done|done].
  apply (f_equal String.length) in Ht. simpl in Ht.
  rewrite <- Ht, length_sapp, <- (length_fmap member fs).
  etrans; [apply (length_join_count ",")|lia].
  apply Forall_fmap, Forall_forall. intros [k x] _. simpl. lia.
Qed.

(** [JSON.parse] reads what [JSON.stringify] wrote, whatever follows that
    does not go on a numeral. *)
Lemma parse_value_stringify f v rest :
  canonical v = true -> (String.length (stringify v) <= f)%nat ->
  bad_after_int rest = false ->
  parse_value (S f) (stringify v +:+ rest) = Some (v, rest).
Proof.
  revert v rest. induction f as [|f IH]; intros v rest Hc Hl Hr.
  { pose proof (stringify_nonempty v). lia. }
  destruct v as [| |b|n|s|xs|fs]; [done|by apply parse_leaf..| |].
  - apply parse_array, Forall_forall. intros x Hx r Hr'. simpl in Hc.
    apply IH; [by eapply forallb_elem_of|..|done].
    rewrite length_stringify_array in Hl.
    pose proof (length_join_elem "," (stringify <$> xs) (stringify x)
                  (list_elem_of_fmap_2 _ _ _ Hx)). lia.
  - simpl in Hc. apply andb_true_iff in Hc as [Hnd Hc].
    apply bool_decide_eq_true in Hnd.
    apply parse_object, Forall_forall; [done..|]. intros [k x] Hx r Hr'.
    apply IH; [by apply (proj1 (forallb_elem_of _ _) Hc (k, x))|..|done].
    rewrite stringify_object in Hl by done.
    pose proof (length_join_elem "," (member <$> fs) (member (k, x))
                  (list_elem_of_fmap_2 _ _ _ Hx)) as Hm.
    pose proof (length_member (k, x)). rewrite !length_sapp in Hl.
    clear IH. simpl in *. lia.
Qed.

(** The round trip of the codec. *)
Lemma parse_stringify v : canonical v = true -> parse (stringify v) = Some v.
Proof.
  intros Hc. unfold parse.
  pose proof (parse_value_stringify (String.length (stringify v)) v "" Hc) as Hp.
  rewrite sapp_nil_r in Hp. by rewrite Hp.
Qed.


(** ** What [JSON.parse] returns *)

Lemma set_field_keys k v acc k' :
  k' ∈ (set_field k v acc).*1 -> k' = k \/ k' ∈ acc.*1.
Proof.
  induction acc as [|[k0 v0] acc IH]; simpl.
  - intros ->%list_elem_of_singleton. by left.
  - case_decide; simpl; rewrite !elem_of_cons; [subst; tauto|]. intros [->|Hk]; [tauto|].
    destruct (IH Hk); tauto.
Qed.

Lemma set_field_canonical k v acc :
  canonical v = true -> canonical (JObj acc) = true ->
  canonical (JObj (set_field k v acc)) = true.
Proof.
  intros Hv. simpl. rewrite !andb_true_iff, !bool_decide_eq_true.
  induction acc as [|[k0 v0] acc IH]; simpl.
  - intros _. split; [apply NoDup_singleton|by rewrite Hv].
  - rewrite andb_true_iff, NoDup_cons. intros [[Hk0 Hnd] [Hv0 Hacc]].
    case_decide; simpl; rewrite andb_true_iff, NoDup_cons; [by subst|].
    destruct (IH (conj Hnd Hacc)) as [Hnd' Hacc']. repeat split; try done.
    intros [->|Hk]%set_field_keys; done.
Qed.

Section Canonical.
Variable pv : string -> option (JsVal * string).
Hypothesis pv_canonical : forall s v r, pv s = Some (v, r) -> canonical v = true.

Lemma parse_elements_canonical n s xs r :
  parse_elements pv n s = Some (xs, r) -> forallb canonical xs = true.
Proof.
  revert s xs r. induction n as [|n IH]; intros s xs r; simpl; [done|].
  destruct (pv s) as [[v r0]|] eqn:Hv; [|done]. apply pv_canonical in Hv. simpl.
  repeat case_match; try done.
  - intros [= <- <-]. simpl. by rewrite Hv.
  - destruct (parse_elements pv n _) as [[vs r1]|] eqn:Hvs; [|done].
    intros [= <- <-]. simpl. by rewrite Hv, (IH _ _ _ Hvs).
Qed.

Lemma parse_members_canonical n acc s fs r :
  canonical (JObj acc) = true ->
  parse_members pv n acc s = Some (fs, r) -> canonical (JObj fs) = true.
Proof.
  revert acc s. induction n as [|n IH]; intros acc s Hacc; [done|].
  cbn [parse_members]. destruct (skip_ws s) as [|c s1]; [done|].
  case_decide; [|done]. destruct (parse_string_body s1) as [[k r0]|]; [|done].
  simpl. repeat case_match; try done.
  destruct (pv _) as [[v r2]|] eqn:Hv; [|done]. apply pv_canonical in Hv. simpl.
  pose proof (set_field_canonical k v acc Hv Hacc).
  repeat case_match; try done; [by intros [= <- <-]|by apply IH].
Qed.

End Canonical.

Lemma parse_value_canonical f s v r :
  parse_value f s = Some (v, r) -> canonical v = true.
Proof.
  revert s v r. induction f as [|f IH]; intros s v r; [done|]. cbn [parse_value].
  destruct (skip_ws s) as [|c s']; [done|].
  repeat case_decide; subst.
  all: try (destruct (strip_prefix _ _); simpl; [by intros [= <- <-]|done]).
  all: try (destruct (parse_string_body _) as [[]|]; simpl; [by intros [= <- <-]|done]).
  all: try (destruct (parse_number _) as [[]|]; simpl; [by intros [= <- <-]|done]).
  - repeat case_match; try (by intros [= <- <-]);
      (destruct (parse_elements _ _ _) as [[xs r1]|] eqn:Hxs; [|done]);
      intros [= <- <-]; apply (parse_elements_canonical _ IH _ _ _ _ Hxs).
  - repeat case_match; try (by intros [= <- <-]);
      (destruct (parse_members _ _ _ _) as [[fs r1]|] eqn:Hfs; [|done]);
      intros [= <- <-]; by apply (parse_members_canonical _ IH _ [] _ _ _ eq_refl Hfs).
Qed.

(** A parsed value is canonical. *)
Lemma parse_canonical s v : parse s = Some v -> canonical v = true.
Proof.
  unfold parse. destruct (parse_value _ s) as [[v' r]|] eqn:Hv; [|done]. simpl.
  case_decide; [|done]. intros [= <-]. by eapply parse_value_canonical.
Qed.

(** Parsing the text of a parsed value gives it again. *)
Lemma parse_idempotent s v : parse s = Some v -> parse (stringify v) = Some v.
Proof. intros Hs. by eapply parse_stringify, parse_canonical. Qed.

(** The codec keeps the laws of the interface. *)
#[export] Instance codec_laws : JsonCodecLaws codec.
Proof. split; [apply parse_stringify|apply parse_canonical|by intros [| |[]| | | |]]. Qed.

End Json.
