(* ===== verification/Options.v ===== *)
(** * The configuration read from the environment

    [connect] of [src/services/mqttService.js] builds the options of
    [mqtt.connect] from [process.env], with [parseInt] and [||] for the
    numbers, and [src/server.js] reads the port the same way.  The client
    library is given the options and the service does not read them
    again, so the other files do without them; this file says what they
    are.  [parseInt] follows ECMAScript on strings of 8-bit characters:
    leading white space, a sign, the prefix [0x], the longest run of
    digits; numbers are exact integers here, where JavaScript rounds
    beyond 2^53. *)

From S2P Require Import Prelude JsString JsValue Json.
Import JsString JsValue Json.

Module Options.

Local Open Scope Z_scope.

(** The variables of [process.env] the program reads: a string each, or
    [undefined]. *)
Record Env : Type := mkEnv {
  MQTT_BROKER_URL : option string;
  MQTT_CLIENT_ID : option string;
  MQTT_USERNAME : option string;
  MQTT_PASSWORD : option string;
  MQTT_KEEP_ALIVE : option string;
  MQTT_CLEAN_SESSION : option string;
  MQTT_RECONNECT_PERIOD : option string;
  MQTT_REJECT_UNAUTHORIZED : option string;
  PORT : option string;
}.

(** The options object of [connect]. *)
Record ConnectOptions : Type := mkOptions {
  clientId : string;
  username : option string;
  password : option string;
  keepalive : Z;
  clean : bool;
  reconnectPeriod : Z;
  connectTimeout : Z;
  rejectUnauthorized : bool;
}.

(** The value of a digit in the radix, if it is one. *)
Definition radix_digit (radix : Z) (c : ascii) : option Z :=
  match hex_val c with
  | Some d => if Z.of_nat d <? radix then Some (Z.of_nat d) else None
  | None => None
  end.

(** The longest run of digits at the start of [s], as a number; [acc] is
    the number read so far, [None] while no digit was read. *)
Fixpoint digits (radix : Z) (acc : option Z) (s : string) : option Z :=
  match s with
  | EmptyString => acc
  | String c s' =>
      match radix_digit radix c with
      | Some d => digits radix (Some (radix * default 0 acc + d)) s'
      | None => acc
      end
  end.

(** [parseInt(v)]: [None] is [NaN]. *)
Definition parseInt (v : option string) : option Z :=
  let inputString := default "undefined" v in
  let s := trimStart inputString in
  let '(sign, s) :=
    match s with
    | String "-" s' => (-1, s')
    | String "+" s' => (1, s')
    | _ => (1, s)
    end in
  let '(radix, s) :=
    match s with
    | String "0" (String "x" s') | String "0" (String "X" s') => (16, s')
    | _ => (10, s)
    end in
  (fun n => sign * n) <$> digits radix None s.

(** [n || d] on numbers: [NaN] and [0] are falsy. *)
Definition number_or (n : option Z) (d : Z) : Z :=
  match n with
  | Some n => if n =? 0 then d else n
  | None => d
  end.

(** [s || d] on strings: [undefined] and [""] are falsy. *)
Definition string_or (s : option string) (d : string) : string :=
  match s with
  | Some s => if bool_decide (s = "") then d else s
  | None => d
  end.

(** [s.substr(start, length)] *)
Definition substr (start len : nat) (s : string) : string :=
  String.substring start len s.

(** [v === "true"] *)
Definition is_true_string (v : option string) : bool := bool_decide (v = Some "true").

(** The options [connect] passes to [mqtt.connect]; [random] is the string
    [Math.random().toString(16)]. *)
Definition connect_options (env : Env) (random : string) : ConnectOptions :=
  {| clientId := string_or (MQTT_CLIENT_ID env) ("mdm-client-" +:+ substr 2 8 random);
     username := MQTT_USERNAME env;
     password := MQTT_PASSWORD env;
     keepalive := number_or (parseInt (MQTT_KEEP_ALIVE env)) 60;
     clean := is_true_string (MQTT_CLEAN_SESSION env);
     reconnectPeriod := number_or (parseInt (MQTT_RECONNECT_PERIOD env)) 1000;
     connectTimeout := 30 * 1000;
     rejectUnauthorized := is_true_string (MQTT_REJECT_UNAUTHORIZED env) |}.

(** [const PORT = process.env.PORT || 3000]: the string of the
    environment, or the number. *)
Definition port (env : Env) : JsVal :=
  match PORT env with
  | Some s => if bool_decide (s = "") then JNum 3000 else JStr s
  | None => JNum 3000
  end.

(** An environment that sets nothing. *)
Definition no_env : Env := mkEnv None None None None None None None None None.

(** ** [parseInt] *)

Lemma radix_digit_bounds radix c d : radix_digit radix c = Some d -> 0 <= d < radix.
Proof.
  unfold radix_digit. destruct (hex_val c); [|done].
  case_match eqn:E; intros; simplify_eq. apply Z.ltb_lt in E. lia.
Qed.

(** What was read is not negative. *)
Lemma digits_nonneg radix acc s n :
  0 <= radix -> (forall a, acc = Some a -> 0 <= a) ->
  digits radix acc s = Some n -> 0 <= n.
Proof.
  intros Hr. revert acc. induction s as [|c s IH]; intros acc Hacc; simpl; [by auto|].
  destruct (radix_digit radix c) as [d|] eqn:Ed; [|by auto].
  apply IH. intros a [= <-]. apply radix_digit_bounds in Ed.
  destruct acc as [a|]; simpl; [specialize (Hacc a eq_refl)|]; nia.
Qed.

(** Nothing is read from a string that does not start with a digit. *)
Lemma digits_none radix s :
  digits radix None s = None
  <-> match s with
      | EmptyString => True
      | String c _ => radix_digit radix c = None
      end.
Proof.
  destruct s as [|c s]; simpl; [done|].
  destruct (radix_digit radix c) as [d|] eqn:Ed; [|done].
  split; [|done]. intros Hd. exfalso. revert Hd. generalize (radix * 0 + d).
  induction s as [|c' s IH]; intros a; simpl; [done|].
  destruct (radix_digit radix c'); [apply IH | done].
Qed.

(** The numerals of an environment, as [parseInt] reads them. *)
Lemma parseInt_examples :
  parseInt (Some "30") = Some 30
  /\ parseInt (Some "30s") = Some 30
  /\ parseInt (Some "  42") = Some 42
  /\ parseInt (Some "-5") = Some (-5)
  /\ parseInt (Some "0x1F") = Some 31
  /\ parseInt (Some "0") = Some 0
  /\ parseInt (Some "") = None
  /\ parseInt (Some "fast") = None
  /\ parseInt None = None.
Proof. by vm_compute. Qed.

(** ** The options *)

(** A keep-alive or a reconnect period of 0, which would switch the
    mechanism off in the client library, cannot be configured: [||] takes
    0 for unset. *)
Lemma number_or_nonzero n d : d <> 0 -> number_or n d <> 0.
Proof.
  intros Hd. unfold number_or. destruct n as [n|]; [|done].
  destruct (n =? 0) eqn:E; [done|]. by apply Z.eqb_neq.
Qed.

Lemma periods_never_zero env random :
  keepalive (connect_options env random) <> 0
  /\ reconnectPeriod (connect_options env random) <> 0.
Proof. split; by apply number_or_nonzero. Qed.

(** The defaults. *)
Lemma default_options random :
  connect_options no_env random
  = {| clientId := "mdm-client-" +:+ substr 2 8 random;
       username := None; password := None; keepalive := 60; clean := false;
       reconnectPeriod := 1000; connectTimeout := 30000;
       rejectUnauthorized := false |}
  /\ port no_env = JNum 3000.
Proof. done. Qed.

(** The session is clean and certificates are checked only for the very
    string ["true"]. *)
Lemma flags_exact env random :
  (clean (connect_options env random) = true <-> MQTT_CLEAN_SESSION env = Some "true")
  /\ (rejectUnauthorized (connect_options env random) = true
      <-> MQTT_REJECT_UNAUTHORIZED env = Some "true").
Proof. split; apply bool_decide_eq_true. Qed.

Lemma length_substr start len s : (String.length (substr start len s) <= len)%nat.
Proof.
  unfold substr. revert start len. induction s as [|c s IH]; intros [|start] [|len];
    simpl; try lia; [specialize (IH 0%nat len)|specialize (IH start 0%nat)
                     |specialize (IH start (S len))]; simpl in *; lia.
Qed.

(** The generated client id is the prefix and at most eight characters:
    none when [Math.random()] returns 0, one when it returns 0.5. *)
Lemma generated_clientId env random :
  MQTT_CLIENT_ID env = None ->
  (11 <= String.length (clientId (connect_options env random)) <= 19)%nat.
Proof.
  intros He. cbn [connect_options clientId]. rewrite He. cbn [string_or].
  rewrite length_sapp. pose proof (length_substr 2 8 random). simpl String.length. lia.
Qed.

Lemma generated_clientId_examples :
  clientId (connect_options no_env "0.8f3a2b1c9d4e") = "mdm-client-8f3a2b1c"
  /\ clientId (connect_options no_env "0.8") = "mdm-client-8"
  /\ clientId (connect_options no_env "0") = "mdm-client-".
Proof. by vm_compute. Qed.

End Options.
