(* ===== verification/Client.v ===== *)
(** * The MQTT client library's contract

    [src/services/mqttService.js] drives one object of the [mqtt] package:
    it creates it with [mqtt.connect], registers handlers for the events
    the object emits, issues requests with a completion callback, and ends
    it.  The package is not part of the repository; this file states the
    part of its documented behaviour the service relies on:

    - a request ([subscribe], [unsubscribe], [publish]) is answered by one
      later call of its callback, in any order with respect to the others;
    - the connection goes through the phases [Connecting], [Up] and
      [Offline]; [offline] is emitted when the link is lost, [reconnect] at
      each attempt made while offline, [connect] when an attempt succeeds;
    - after [end()] the object emits none of the events the service
      listens to.

    The type of callbacks is a parameter: the library does not inspect
    them. *)

From S2P Require Import Prelude JsValue.
Import JsValue.

Module Client.

(** The phase of the connection, as the library tracks it. *)
Inductive Link : Type := Connecting | Up | Offline.

#[export] Instance Link_eq_dec : EqDecision Link.
Proof. solve_decision. Defined.

(** The events of the client object the service listens to. *)
Inductive ClientEvent : Type :=
| EvConnect
| EvDisconnect
| EvReconnect
| EvError (error : JsError)
| EvOffline
| EvMessage (topic : string) (message : string) (packet : JsVal).

Section WithCallback.
Context {Cb : Type}.

(** A request in flight, with the callback that will complete it. *)
Inductive Request : Type :=
| ReqSubscribe (topic : string) (options : JsVal) (cb : Cb)
| ReqUnsubscribe (topic : string) (cb : Cb)
| ReqPublish (topic : string) (message : string) (options : JsVal) (cb : Cb).

Record Client : Type := mkClient {
  link : Link;
  ended : bool;
  outbox : list Request;
}.

(** [mqtt.connect(url, options)] *)
Definition client_new : Client :=
  {| link := Connecting; ended := false; outbox := [] |}.

(** [client.end()] *)
Definition client_end (c : Client) : Client :=
  {| link := link c; ended := true; outbox := outbox c |}.

(** [client.subscribe], [client.unsubscribe], [client.publish]: the
    request is queued; its callback runs later. *)
Definition client_request (r : Request) (c : Client) : Client :=
  {| link := link c; ended := ended c; outbox := outbox c ++ [r] |}.

(** The library completes the [i]-th request in flight. *)
Definition client_complete (i : nat) (c : Client) : option (Request * Client) :=
  match outbox c !! i with
  | Some r => Some (r, {| link := link c; ended := ended c;
                          outbox := delete i (outbox c) |})
  | None => None
  end.

Definition request_callback (r : Request) : Cb :=
  match r with
  | ReqSubscribe _ _ cb => cb
  | ReqUnsubscribe _ cb => cb
  | ReqPublish _ _ _ cb => cb
  end.

(** May the library emit [ev] now? *)
Definition client_emits (c : Client) (ev : ClientEvent) : bool :=
  negb (ended c) &&
  match ev with
  | EvConnect => bool_decide (link c <> Up)
  | EvOffline => bool_decide (link c <> Offline)
  | EvReconnect => bool_decide (link c = Offline)
  | EvDisconnect => bool_decide (link c = Up)
  | EvMessage _ _ _ => bool_decide (link c = Up)
  | EvError _ => true
  end.

(** The library's state once it has emitted [ev]. *)
Definition client_after (ev : ClientEvent) (c : Client) : Client :=
  match ev with
  | EvConnect => {| link := Up; ended := ended c; outbox := outbox c |}
  | EvOffline => {| link := Offline; ended := ended c; outbox := outbox c |}
  | _ => c
  end.

(** ** Lemmas *)

Lemma client_end_ended c : ended (client_end c) = true.
Proof. reflexivity. Qed.

Lemma client_end_idemp c : client_end (client_end c) = client_end c.
Proof. reflexivity. Qed.

(** An ended client is silent. *)
Lemma client_emits_ended c ev : ended c = true -> client_emits c ev = false.
Proof. unfold client_emits. by intros ->. Qed.

Lemma client_emits_not_ended c ev : client_emits c ev = true -> ended c = false.
Proof. unfold client_emits. by destruct (ended c). Qed.

Lemma client_emits_reconnect c :
  client_emits c EvReconnect = true -> link c = Offline /\ ended c = false.
Proof.
  unfold client_emits. destruct (ended c); [done|]. simpl.
  by intros ->%bool_decide_eq_true.
Qed.

Lemma client_after_ended ev c : ended (client_after ev c) = ended c.
Proof. by destruct ev. Qed.

Lemma client_after_outbox ev c : outbox (client_after ev c) = outbox c.
Proof. by destruct ev. Qed.

Lemma client_request_outbox r c : outbox (client_request r c) = outbox c ++ [r].
Proof. reflexivity. Qed.

Lemma client_complete_Some i c r c' :
  client_complete i c = Some (r, c') ->
  outbox c !! i = Some r /\ outbox c' = delete i (outbox c) /\
  link c' = link c /\ ended c' = ended c.
Proof.
  unfold client_complete. destruct (outbox c !! i) eqn:E; [|done].
  by intros [= <- <-].
Qed.

(** Completing a request takes exactly that request out of flight. *)
Lemma client_complete_length i c r c' :
  client_complete i c = Some (r, c') -> length (outbox c) = S (length (outbox c')).
Proof.
  intros (Hi & -> & _)%client_complete_Some.
  rewrite length_delete by eauto. apply lookup_lt_Some in Hi. lia.
Qed.

End WithCallback.

Arguments Request : clear implicits.
Arguments Client : clear implicits.

End Client.
