(* ===== verification/ServiceState.v ===== *)
(** * The service object and the world it runs in

    [MQTTService] is the object [src/services/mqttService.js] exports: its
    fields are the fields the constructor sets.  [World] adds what the
    JavaScript runtime holds around it: the client objects [mqtt.connect]
    has created, the promises [publish] and [createQueue] have returned, and
    the events the service has emitted to its listeners (those of
    [src/server.js] only log).  The primitive effects of the methods are
    defined here: field updates, [emit], promise creation and settlement,
    and calls on [this.client]. *)

From S2P Require Import Prelude JsValue Registry Client.
Import JsValue Registry Client.

Module ServiceState.

(** The completion callbacks the service passes to the client, one
    constructor per closure of the source, with the variables it captures. *)
Inductive Callback : Type :=
| SubscribeCb (topic : string)
| UnsubscribeCb (topic : string)
| PublishCb (topic messageString : string) (p : nat)
| CreateQueueCb (queueName : string) (p : nat).

(** A promise: pending until a callback of the service settles it,
    sleeping until a timer resolves it, or settled once and for all. *)
Inductive Promise : Type :=
| Pending
| Sleeping
| Resolved (value : JsVal)
| Rejected (error : JsError).

(** Is promise [p] waiting for its timer? *)
Definition sleeping (ps : list Promise) (p : nat) : bool :=
  match ps !! p with
  | Some Sleeping => true
  | _ => false
  end.

Definition is_settled (pr : Promise) : bool :=
  match pr with
  | Resolved _ | Rejected _ => true
  | Pending | Sleeping => false
  end.

(** The events the service emits, with their payloads. *)
Inductive Emitted : Type :=
| EmConnected
| EmDisconnected
| EmOffline
| EmError (error : JsError)
| EmMessage (topic : string) (message : JsVal) (packet : JsVal)
| EmDeviceMessage (deviceId action : option string) (message : JsVal)
| EmCommandMessage (deviceId command : option string) (message : JsVal)
| EmGenericMessage (topic : string) (message : JsVal).

(** What [getConnectionStatus] returns. *)
Record ConnectionStatus : Type := mkStatus {
  connected : bool;
  status_subscriptions : list string;
  status_reconnectAttempts : nat;
}.

Section WithRegistry.
Context {Reg : Type} `{RegistryOps Reg}.

Record MQTTService : Type := mkService {
  client : option nat;
  isConnected : bool;
  subscriptions : Reg;
  reconnectAttempts : nat;
  maxReconnectAttempts : nat;
}.

Record World : Type := mkWorld {
  this : MQTTService;
  clients : list (Client Callback);
  promises : list Promise;
  emitted : list Emitted;
}.

(** [constructor()] *)
Definition new_service : MQTTService :=
  {| client := None;
     isConnected := false;
     subscriptions := reg_new;
     reconnectAttempts := 0;
     maxReconnectAttempts := 10 |}.

(** The world when the module has been loaded. *)
Definition initial : World :=
  {| this := new_service; clients := []; promises := []; emitted := [] |}.

(** ** Field updates *)

Definition set_client (c : option nat) (s : MQTTService) : MQTTService :=
  mkService c (isConnected s) (subscriptions s) (reconnectAttempts s)
    (maxReconnectAttempts s).

Definition set_isConnected (b : bool) (s : MQTTService) : MQTTService :=
  mkService (client s) b (subscriptions s) (reconnectAttempts s)
    (maxReconnectAttempts s).

Definition set_subscriptions (r : Reg) (s : MQTTService) : MQTTService :=
  mkService (client s) (isConnected s) r (reconnectAttempts s)
    (maxReconnectAttempts s).

Definition set_reconnectAttempts (n : nat) (s : MQTTService) : MQTTService :=
  mkService (client s) (isConnected s) (subscriptions s) n
    (maxReconnectAttempts s).

Definition upd_this (f : MQTTService -> MQTTService) (w : World) : World :=
  mkWorld (f (this w)) (clients w) (promises w) (emitted w).

Definition upd_clients (f : list (Client Callback) -> list (Client Callback))
  (w : World) : World :=
  mkWorld (this w) (f (clients w)) (promises w) (emitted w).

Definition upd_promises (f : list Promise -> list Promise) (w : World) : World :=
  mkWorld (this w) (clients w) (f (promises w)) (emitted w).

Definition upd_emitted (f : list Emitted -> list Emitted) (w : World) : World :=
  mkWorld (this w) (clients w) (promises w) (f (emitted w)).

(** ** Primitive effects *)

(** [this.field = v] *)
Definition assign (f : MQTTService -> MQTTService) : M World unit :=
  modify (upd_this f).

(** [this.emit(name, payload)] *)
Definition emit (e : Emitted) : M World unit :=
  modify (upd_emitted (fun es => es ++ [e])).

(** [new Promise(...)]: a fresh pending promise. *)
Definition new_promise : M World nat :=
  fun w => (Ok (length (promises w)), upd_promises (fun ps => ps ++ [Pending]) w).

(** Settling; a promise already settled keeps its state. *)
Definition settle (st : Promise) (p : nat) (ps : list Promise) : list Promise :=
  match ps !! p with
  | Some Pending => <[p := st]> ps
  | _ => ps
  end.

Definition resolve (p : nat) (value : JsVal) : M World unit :=
  modify (upd_promises (settle (Resolved value) p)).

Definition reject (p : nat) (error : JsError) : M World unit :=
  modify (upd_promises (settle (Rejected error) p)).

(** [new Promise((resolve) => setTimeout(resolve, ms))]: a fresh promise
    that a timer will resolve. *)
Definition sleep : M World nat :=
  fun w => (Ok (length (promises w)), upd_promises (fun ps => ps ++ [Sleeping]) w).

(** The timer of a sleeping promise fires. *)
Definition wake (p : nat) (ps : list Promise) : list Promise :=
  match ps !! p with
  | Some Sleeping => <[p := Resolved JUndefined]> ps
  | _ => ps
  end.

Definition timer_fires (p : nat) : M World unit := modify (upd_promises (wake p)).

(** [this.client.method(...)]: a [TypeError] when [this.client] is
    [null]. *)
Definition on_this_client (f : Client Callback -> Client Callback) : M World unit :=
  fun w =>
    match client (this w) with
    | Some c => (Ok tt, upd_clients (alter f c) w)
    | None => (Thrown (TypeError "Cannot read properties of null"), w)
    end.

(** Lift a pure outcome. *)
Definition lift {A} (o : Outcome A) : M World A := fun w => (o, w).

(** The client object [this.client] refers to, if any. *)
Definition current_client (w : World) : option (Client Callback) :=
  c ← client (this w); clients w !! c.

End WithRegistry.

Arguments MQTTService : clear implicits.
Arguments World : clear implicits.

(** ** Lemmas on the primitive effects *)

Section Lemmas.
Context {Reg : Type} `{RegistryOps Reg}.
Implicit Types (w : World Reg) (ps : list Promise).

Lemma settle_length st p ps : length (settle st p ps) = length ps.
Proof.
  unfold settle. destruct (ps !! p) as [[]|]; try done. apply length_insert.
Qed.

Lemma settle_pending st p ps :
  ps !! p = Some Pending -> settle st p ps !! p = Some st.
Proof.
  intros Hp. unfold settle. rewrite Hp.
  apply list_lookup_insert_eq. by eapply lookup_lt_Some.
Qed.

Lemma settle_other st p q ps : p <> q -> settle st p ps !! q = ps !! q.
Proof.
  intros Hne. unfold settle. destruct (ps !! p) as [[]|]; try done.
  by apply list_lookup_insert_ne.
Qed.

(** A settled promise is never settled again. *)
Lemma settle_settled st p ps pr :
  ps !! p = Some pr -> pr <> Pending -> settle st p ps = ps.
Proof. intros Hp Hne. unfold settle. rewrite Hp. by destruct pr. Qed.

Lemma wake_length p ps : length (wake p ps) = length ps.
Proof.
  unfold wake. destruct (ps !! p) as [[]|]; try done. apply length_insert.
Qed.

Lemma wake_sleeping p ps :
  ps !! p = Some Sleeping -> wake p ps !! p = Some (Resolved JUndefined).
Proof.
  intros Hp. unfold wake. rewrite Hp.
  apply list_lookup_insert_eq. by eapply lookup_lt_Some.
Qed.

(** A timer leaves every promise that is not sleeping as it is. *)
Lemma wake_keeps p q ps pr :
  ps !! q = Some pr -> pr <> Sleeping -> wake p ps !! q = Some pr.
Proof.
  intros Hq Hne. unfold wake. destruct (ps !! p) as [[]|] eqn:Hp; try done.
  destruct (decide (p = q)) as [->|]; [congruence|].
  by rewrite list_lookup_insert_ne.
Qed.

Lemma lookup_sleep ps : (ps ++ [Sleeping]) !! length ps = Some Sleeping.
Proof. by apply list_lookup_middle. Qed.

Lemma new_promise_fresh w :
  new_promise w = (Ok (length (promises w)),
                   upd_promises (fun ps => ps ++ [Pending]) w).
Proof. reflexivity. Qed.

Lemma lookup_new_promise ps : (ps ++ [Pending]) !! length ps = Some Pending.
Proof. by rewrite lookup_app_r, Nat.sub_diag by lia. Qed.

(** Settling the promise just created. *)
Lemma settle_fresh st ps : settle st (length ps) (ps ++ [Pending]) = ps ++ [st].
Proof.
  unfold settle. rewrite lookup_new_promise.
  rewrite insert_app_r_alt, Nat.sub_diag by lia. done.
Qed.

Lemma on_this_client_Some f w c :
  client (this w) = Some c ->
  on_this_client f w = (Ok tt, upd_clients (alter f c) w).
Proof. unfold on_this_client. by intros ->. Qed.

Lemma on_this_client_None f w :
  client (this w) = None ->
  on_this_client f w = (Thrown (TypeError "Cannot read properties of null"), w).
Proof. unfold on_this_client. by intros ->. Qed.

End Lemmas.

#[export] Hint Rewrite @settle_length : js.

End ServiceState.
