(* ===== verification/Router.v ===== *)
(** * The message router

    The handler of the client's [message] event and [routeMessage] of
    [src/services/mqttService.js]: the payload is decoded as JSON when it
    parses and kept as a string otherwise, a [message] event is emitted with
    the envelope, and exactly one of [deviceMessage], [commandMessage] and
    [genericMessage] follows, chosen by the first two segments of the topic.

    The decision table is stated apart from the code ([classifies]) and the
    code is proved to implement it. *)

From S2P Require Import Prelude JsString JsValue Registry Client ServiceState.
Import JsString JsValue Registry Client ServiceState.

Module Router.

(** [parts[i] === lit] *)
Definition part_is (parts : list string) (i : nat) (lit : string) : bool :=
  bool_decide (parts !! i = Some lit).

(** The three classes of the decision table. *)
Inductive Route : Type :=
| RDevice (deviceId action : option string)
| RCommand (deviceId command : option string)
| RGeneric.

(** The decision table, on the segments of a topic. *)
Inductive classifies : list string -> Route -> Prop :=
| classifies_device rest :
    classifies ("mdm" :: "devices" :: rest) (RDevice (rest !! 0) (rest !! 1))
| classifies_command rest :
    classifies ("mdm" :: "commands" :: rest) (RCommand (rest !! 0) (rest !! 1))
| classifies_generic parts :
    (forall rest, parts <> "mdm" :: "devices" :: rest) ->
    (forall rest, parts <> "mdm" :: "commands" :: rest) ->
    classifies parts RGeneric.

(** The event a route stands for. *)
Definition event_of (r : Route) (topic : string) (message : JsVal) : Emitted :=
  match r with
  | RDevice d a => EmDeviceMessage d a message
  | RCommand d c => EmCommandMessage d c message
  | RGeneric => EmGenericMessage topic message
  end.

Section WithRegistry.
Context {Reg : Type} `{RegistryOps Reg} {codec : JsonCodec}.
Local Open Scope js_scope.

(** [routeMessage(topic, message)] *)
Definition routeMessage (topic : string) (message : JsVal) : M (World Reg) unit :=
  let topicParts := split "/" topic in
  if part_is topicParts 0 "mdm" && part_is topicParts 1 "devices" then
    emit (EmDeviceMessage (topicParts !! 2) (topicParts !! 3) message)
  else if part_is topicParts 0 "mdm" && part_is topicParts 1 "commands" then
    emit (EmCommandMessage (topicParts !! 2) (topicParts !! 3) message)
  else
    emit (EmGenericMessage topic message).

(** [try { parsed = JSON.parse(s) } catch (e) { parsed = s }] *)
Definition parse_or_string (messageString : string) : JsVal :=
  match json_parse messageString with
  | Some v => v
  | None => JStr messageString
  end.

(** The handler of the client's [message] event. *)
Definition on_message (topic : string) (message : string) (packet : JsVal)
  : M (World Reg) unit :=
  try_catch
    (let messageString := message in
     let parsedMessage := parse_or_string messageString in
     emit (EmMessage topic parsedMessage packet) ;;
     routeMessage topic parsedMessage)
    (fun error => ret tt).

End WithRegistry.

(** ** The decision table is a function *)

Lemma classifies_total parts : exists r, classifies parts r.
Proof.
  destruct parts as [|p0 [|p1 rest]];
    try (exists RGeneric; by constructor).
  destruct (decide (p0 = "mdm")) as [->|]; [|exists RGeneric; constructor; congruence].
  destruct (decide (p1 = "devices")) as [->|]; [eexists; constructor|].
  destruct (decide (p1 = "commands")) as [->|]; [eexists; constructor|].
  exists RGeneric. constructor; congruence.
Qed.

Lemma classifies_functional parts r r' :
  classifies parts r -> classifies parts r' -> r = r'.
Proof.
  intros Hr Hr'. destruct Hr; inversion Hr'; subst; try done;
    exfalso; naive_solver.
Qed.

(** ** Topics of the two scopes *)

Lemma split_scope scope rest :
  has_char "/" scope = false ->
  split "/" ("mdm/" +:+ scope +:+ String "/" rest) = "mdm" :: scope :: split "/" rest.
Proof.
  intros Hs.
  change ("mdm/" +:+ scope +:+ String "/" rest)
    with ("mdm" +:+ String "/" (scope +:+ String "/" rest)).
  by rewrite !split_app_sep.
Qed.

Lemma classifies_device_topic deviceId action :
  has_char "/" deviceId = false -> has_char "/" action = false ->
  classifies (split "/" ("mdm/devices/" +:+ deviceId +:+ "/" +:+ action))
    (RDevice (Some deviceId) (Some action)).
Proof.
  intros Hd Ha.
  change ("mdm/devices/" +:+ deviceId +:+ "/" +:+ action)
    with ("mdm/" +:+ "devices" +:+ String "/" (deviceId +:+ String "/" action)).
  rewrite split_scope, split_app_sep, (split_no_sep _ action) by done.
  apply (classifies_device [deviceId; action]).
Qed.

Lemma classifies_command_topic deviceId command :
  has_char "/" deviceId = false -> has_char "/" command = false ->
  classifies (split "/" ("mdm/commands/" +:+ deviceId +:+ "/" +:+ command))
    (RCommand (Some deviceId) (Some command)).
Proof.
  intros Hd Ha.
  change ("mdm/commands/" +:+ deviceId +:+ "/" +:+ command)
    with ("mdm/" +:+ "commands" +:+ String "/" (deviceId +:+ String "/" command)).
  rewrite split_scope, split_app_sep, (split_no_sep _ command) by done.
  apply (classifies_command [deviceId; command]).
Qed.

(** ** The code implements the decision table *)

Section Lemmas.
Context {Reg : Type} `{RegistryOps Reg} {codec : JsonCodec}.
Implicit Types (w : World Reg) (topic : string) (message : JsVal).

Lemma part_is_true parts i lit : part_is parts i lit = true <-> parts !! i = Some lit.
Proof. unfold part_is. apply bool_decide_eq_true. Qed.

Lemma part_is_false parts i lit : part_is parts i lit = false <-> parts !! i <> Some lit.
Proof. unfold part_is. apply bool_decide_eq_false. Qed.

Lemma parts_head2 parts a b :
  part_is parts 0 a && part_is parts 1 b = true <->
  exists rest, parts = a :: b :: rest.
Proof.
  rewrite andb_true_iff, !part_is_true. split.
  - destruct parts as [|p0 [|p1 rest]]; intros [[=] [=]]; subst. eauto.
  - by intros [rest ->].
Qed.

Lemma parts_head2_false parts a b :
  part_is parts 0 a && part_is parts 1 b = false <->
  forall rest, parts <> a :: b :: rest.
Proof.
  rewrite <- not_true_iff_false, parts_head2. split.
  - intros Hn rest ->. eauto.
  - intros Hn [rest ->]. by eapply Hn.
Qed.

(** [routeMessage] emits one event, the one the table gives, changes nothing
    else and does not throw. *)
Lemma routeMessage_spec topic message w :
  exists r, classifies (split "/" topic) r /\
    routeMessage topic message w
    = (Ok tt, upd_emitted (fun es => es ++ [event_of r topic message]) w).
Proof.
  unfold routeMessage.
  destruct (part_is _ 0 "mdm" && part_is _ 1 "devices") eqn:Ed.
  { apply parts_head2 in Ed as [rest ->].
    exists (RDevice (rest !! 0) (rest !! 1)). split; [constructor | done]. }
  destruct (part_is _ 0 "mdm" && part_is _ 1 "commands") eqn:Ec.
  { apply parts_head2 in Ec as [rest ->].
    exists (RCommand (rest !! 0) (rest !! 1)). split; [constructor | done]. }
  exists RGeneric. split; [|done].
  constructor; by apply parts_head2_false.
Qed.

Lemma routeMessage_route topic message w r :
  classifies (split "/" topic) r ->
  routeMessage topic message w
  = (Ok tt, upd_emitted (fun es => es ++ [event_of r topic message]) w).
Proof.
  intros Hr. destruct (routeMessage_spec topic message w) as (r' & Hr' & ->).
  by rewrite (classifies_functional _ _ _ Hr Hr').
Qed.

(** C12: The handler of [message] never throws and emits exactly two
    events, in this order: [message] with the envelope, then the one event
    the decision table gives for the topic; nothing else changes. *)
Theorem on_message_spec topic raw packet w :
  exists r, classifies (split "/" topic) r /\
    on_message topic raw packet w
    = (Ok tt,
       upd_emitted
         (fun es => es ++ [EmMessage topic (parse_or_string raw) packet;
                           event_of r topic (parse_or_string raw)]) w).
Proof.
  destruct (routeMessage_spec topic (parse_or_string raw)
              (upd_emitted (fun es => es ++ [EmMessage topic (parse_or_string raw) packet]) w))
    as (r & Hr & Heq).
  exists r. split; [done|].
  unfold on_message, try_catch, bind, emit, modify. rewrite Heq.
  destruct w. unfold upd_emitted. simpl. by rewrite <- app_assoc.
Qed.

(** Decoding never fails: a payload that parses as JSON is delivered
    decoded, any other payload is delivered as the string it is. *)
Theorem payload_decoding s :
  match json_parse s with
  | Some v => parse_or_string s = v
  | None => parse_or_string s = JStr s
  end.
Proof. unfold parse_or_string. by destruct (json_parse s). Qed.

(** A topic [mdm/devices/<id>/<action>] is routed as a device message
    with that identifier and action, a topic [mdm/commands/<id>/<command>]
    as a command message, when identifier and action contain no slash. *)
Theorem route_scoped_topics deviceId action message w :
  has_char "/" deviceId = false -> has_char "/" action = false ->
  routeMessage ("mdm/devices/" +:+ deviceId +:+ "/" +:+ action) message w
  = (Ok tt, upd_emitted
              (fun es => es ++ [EmDeviceMessage (Some deviceId) (Some action) message]) w)
  /\ routeMessage ("mdm/commands/" +:+ deviceId +:+ "/" +:+ action) message w
    = (Ok tt, upd_emitted
                (fun es => es ++ [EmCommandMessage (Some deviceId) (Some action) message]) w).
Proof.
  intros Hd Ha. split.
  - by rewrite (routeMessage_route _ _ _ _ (classifies_device_topic _ _ Hd Ha)).
  - by rewrite (routeMessage_route _ _ _ _ (classifies_command_topic _ _ Hd Ha)).
Qed.

(** The examples of the specification: [mdm/devices/dev1/reboot] is a
    device message of [dev1] with action [reboot], [mdm/commands/dev1/lock]
    a command message of [dev1] with command [lock], [weather/station1] a
    generic message. *)
Theorem route_examples message w :
  routeMessage "mdm/devices/dev1/reboot" message w
  = (Ok tt, upd_emitted
              (fun es => es ++ [EmDeviceMessage (Some "dev1") (Some "reboot") message]) w)
  /\ routeMessage "mdm/commands/dev1/lock" message w
    = (Ok tt, upd_emitted
                (fun es => es ++ [EmCommandMessage (Some "dev1") (Some "lock") message]) w)
  /\ routeMessage "weather/station1" message w
    = (Ok tt, upd_emitted (fun es => es ++ [EmGenericMessage "weather/station1" message]) w).
Proof. by split_and!. Qed.

(** A topic of a device or command scope with fewer than four
    segments is still classified by its scope; the missing segments are
    [undefined] in the event, and nothing is thrown. *)
Theorem route_short_topics message w :
  routeMessage "mdm/devices" message w
  = (Ok tt, upd_emitted (fun es => es ++ [EmDeviceMessage None None message]) w)
  /\ routeMessage "mdm/commands/dev1" message w
    = (Ok tt, upd_emitted
                (fun es => es ++ [EmCommandMessage (Some "dev1") None message]) w)
  /\ routeMessage "mdm" message w
    = (Ok tt, upd_emitted (fun es => es ++ [EmGenericMessage "mdm" message]) w).
Proof. by split_and!. Qed.

End Lemmas.

Lemma route_scoped_topics_witness :
  routeMessage "mdm/devices/dev1/reboot" JNull (initial : World (list string))
  = (Ok tt, upd_emitted
              (fun es => es ++ [EmDeviceMessage (Some "dev1") (Some "reboot") JNull])
              initial)
  /\ routeMessage "mdm/commands/dev1/reboot" JNull (initial : World (list string))
    = (Ok tt, upd_emitted
                (fun es => es ++ [EmCommandMessage (Some "dev1") (Some "reboot") JNull])
                initial).
Proof. by apply (route_scoped_topics "dev1" "reboot" JNull initial). Defined.

End Router.
