(* ===== verification/Listeners.v ===== *)
(** * The listeners of the service's events

    [src/server.js] registers seven listeners on the service object before
    it calls [connect]; each of them prints a line.  This file models the
    table of listeners, what [this.emit] does with it (the listeners of
    the event's name run in the order of registration; an [error] event
    without a listener is thrown), and what the process prints for the
    events the service emits.  The other files leave [emit] total; that
    is justified here: the one event Node.js throws when nobody listens
    has a listener. *)

From S2P Require Import Prelude JsString JsValue Registry Client ServiceState Router.
Import JsString JsValue Registry Client ServiceState Router.

Module Listeners.

(** The name [this.emit] is called with, event by event. *)
Definition event_name (e : Emitted) : string :=
  match e with
  | EmConnected => "connected"
  | EmDisconnected => "disconnected"
  | EmOffline => "offline"
  | EmError _ => "error"
  | EmMessage _ _ _ => "message"
  | EmDeviceMessage _ _ _ => "deviceMessage"
  | EmCommandMessage _ _ _ => "commandMessage"
  | EmGenericMessage _ _ => "genericMessage"
  end.

(** The lines the listeners print, one constructor per [console] call. *)
Inductive Printed : Type :=
| PrConnected
| PrDisconnected
| PrError (error : JsError)
| PrDeviceMessage (data : Emitted)
| PrCommandMessage (data : Emitted)
| PrGenericMessage (data : Emitted)
| PrOctaloop (data : Emitted).

(** The listener of [message]: it prints the messages of the default
    topic only. *)
Definition message_listener (data : Emitted) : list Printed :=
  match data with
  | EmMessage topic _ _ =>
      if bool_decide (topic = "octaloop-mdm-in") then [PrGenericMessage data] else []
  | _ => []
  end.

Definition error_listener (data : Emitted) : list Printed :=
  match data with
  | EmError error => [PrError error]
  | _ => []
  end.

(** [mqttService.on(name, listener)], in the order of registration. *)
Definition listeners : list (string * (Emitted -> list Printed)) :=
  [("connected", fun _ => [PrConnected]);
   ("disconnected", fun _ => [PrDisconnected]);
   ("error", error_listener);
   ("deviceMessage", fun data => [PrDeviceMessage data]);
   ("commandMessage", fun data => [PrCommandMessage data]);
   ("message", message_listener);
   ("octaloop-mdm-in", fun data => [PrOctaloop data])].

(** The listeners registered for a name. *)
Definition listeners_of (table : list (string * (Emitted -> list Printed)))
  (name : string) : list (Emitted -> list Printed) :=
  (filter (fun l => l.1 = name) table).*2.

(** [emitter.emit(name, data)] of Node.js: the listeners of the name run
    in order; an [error] event that has no listener is thrown. *)
Definition emit_to (table : list (string * (Emitted -> list Printed)))
  (e : Emitted) : Outcome (list Printed) :=
  match listeners_of table (event_name e), e with
  | [], EmError error => Thrown error
  | ls, _ => Ok (ls ≫= (fun listener => listener e))
  end.

(** What the process prints for the events of an execution. *)
Definition console (es : list Emitted) : list Printed :=
  es ≫= (fun e => match emit_to listeners e with Ok ps => ps | Thrown _ => [] end).

(** The names of the events the service can emit. *)
Definition emitted_names : list string :=
  ["connected"; "disconnected"; "offline"; "error"; "message"; "deviceMessage";
   "commandMessage"; "genericMessage"].

(** What is printed for a message, by its topic and its class. *)
Definition printed_for (topic : string) (message packet : JsVal) (r : Route)
  : list Printed :=
  (if bool_decide (topic = "octaloop-mdm-in")
   then [PrGenericMessage (EmMessage topic message packet)] else [])
  ++ match r with
     | RDevice _ _ => [PrDeviceMessage (event_of r topic message)]
     | RCommand _ _ => [PrCommandMessage (event_of r topic message)]
     | RGeneric => []
     end.

(** ** What the listeners hear *)

Lemma event_name_emitted e : event_name e ∈ emitted_names.
Proof. destruct e; unfold emitted_names; simpl; repeat constructor. Qed.

(** No event is thrown: [error] has its listener. *)
Lemma emit_to_listeners_ok e : is_ok (emit_to listeners e) = true.
Proof. by destruct e. Qed.

(** Without the listener of line 31 an [error] event is thrown at the
    handler of the client's [error] event. *)
Lemma emit_error_unheard error table :
  listeners_of table "error" = [] -> emit_to table (EmError error) = Thrown error.
Proof. unfold emit_to. simpl. by intros ->. Qed.

(** The listener of [octaloop-mdm-in] never runs: events are named after
    their kind, never after a topic. *)
Lemma octaloop_listener_dead es :
  Forall (fun p => forall data, p <> PrOctaloop data) (console es).
Proof.
  unfold console. apply Forall_bind, Forall_forall. intros e _.
  destruct e; simpl; repeat constructor; try done.
  unfold message_listener. case_bool_decide; by repeat constructor.
Qed.

(** Nobody listens to [offline] and [genericMessage]. *)
Lemma unheard_events e :
  event_name e ∈ ["offline"; "genericMessage"] -> emit_to listeners e = Ok [].
Proof.
  destruct e; simpl; intros Hin; try done;
    apply (bool_decide_pack _) in Hin; by vm_compute in Hin.
Qed.

Lemma console_app es es' : console (es ++ es') = console es ++ console es'.
Proof. unfold console. apply bind_app. Qed.

(** The default topic is not in the scope of devices or commands. *)
Lemma default_topic_generic r :
  classifies (split "/" "octaloop-mdm-in") r -> r = RGeneric.
Proof.
  intros Hr. eapply classifies_functional; [done|].
  by constructor; intros rest; vm_compute.
Qed.

Section Messages.
Context {Reg : Type} `{RegistryOps Reg} {codec : JsonCodec}.
Implicit Types (w : World Reg).

(** What the process prints when a message arrives: the line of its
    class when it is a device or a command message, the generic line
    when its topic is the default topic, and nothing otherwise. *)
Lemma message_printed topic raw packet w :
  exists r, classifies (split "/" topic) r
    /\ console (emitted (exec (on_message topic raw packet) w))
       = console (emitted w) ++ printed_for topic (parse_or_string raw) packet r.
Proof.
  destruct (routeMessage_spec topic (parse_or_string raw)
              (upd_emitted (fun es => es ++ [EmMessage topic (parse_or_string raw) packet]) w))
    as (r & Hr & Heq).
  exists r. split; [done|].
  unfold exec, on_message, try_catch, bind, emit, modify. rewrite Heq. simpl.
  rewrite !console_app, <- app_assoc. f_equal. unfold console, printed_for. simpl.
  unfold message_listener. destruct r; simpl; by case_bool_decide.
Qed.

(** A message is printed once at most. *)
Lemma message_printed_once topic message packet r :
  classifies (split "/" topic) r ->
  length (printed_for topic message packet r) <= 1.
Proof.
  intros Hr. unfold printed_for. case_bool_decide as Ht; [|destruct r; simpl; lia].
  subst topic. by rewrite (default_topic_generic r Hr).
Qed.

End Messages.

End Listeners.
