(* ===== verification/Gateway.v ===== *)
(** * The publish/subscribe gateway

    The methods of [src/services/mqttService.js] that the HTTP controllers
    call: [subscribe], [unsubscribe], [publish], [createQueue],
    [getConnectionStatus], [broadcastToAllDevices], with
    [subscribeToDefaultTopics] (called when the connection comes up) and
    the completion callbacks the methods hand to the client library.  A
    method runs to completion; its callback runs in a later turn of the
    event loop, when the library answers the request.  A call of a method
    of [this] looks the name up among the methods the class declares and
    those it inherits, and throws a [TypeError] when there is none. *)

From S2P Require Import Prelude JsString JsValue Json Registry Client ServiceState.
Import JsString JsValue Json Registry Client ServiceState.

Module Gateway.

(** The default values of the [options] parameters. *)
Definition subscribe_default_options : JsVal := JObj [("qos", JNum 1)].
Definition publish_default_options : JsVal :=
  JObj [("qos", JNum 1); ("retain", JBool false)].
Definition createQueue_default_options : JsVal :=
  JObj [("qos", JNum 1); ("durable", JBool true)].

(** [new Error("MQTT client not connected")] *)
Definition not_connected : JsError := Error "MQTT client not connected".

(** ** The methods of the service object *)

(** The methods of [class MQTTService], in the order of the class body. *)
Definition class_methods : list string :=
  ["connect"; "subscribeToDefaultTopics"; "broadcastToAllDevices"; "subscribe";
   "unsubscribe"; "publish"; "routeMessage"; "getConnectionStatus"; "createQueue";
   "disconnect"].

(** The methods it inherits: [class MQTTService extends EventEmitter]. *)
Definition emitter_methods : list string :=
  ["addListener"; "emit"; "eventNames"; "getMaxListeners"; "listenerCount";
   "listeners"; "off"; "on"; "once"; "prependListener"; "prependOnceListener";
   "rawListeners"; "removeAllListeners"; "removeListener"; "setMaxListeners"].

(** And those of every object. *)
Definition object_methods : list string :=
  ["constructor"; "hasOwnProperty"; "isPrototypeOf"; "propertyIsEnumerable";
   "toLocaleString"; "toString"; "valueOf"].

(** Is [this.name] a method?  The properties the constructor sets
    ([client], [isConnected], [subscriptions], [reconnectAttempts],
    [maxReconnectAttempts]) are not functions. *)
Definition has_method (name : string) : bool :=
  existsb (String.eqb name) (class_methods ++ emitter_methods ++ object_methods).

Section WithRegistry.
Context {Reg : Type} `{RegistryOps Reg} {codec : JsonCodec}.
Local Open Scope js_scope.

(** The callback of [subscribe]: on success the topic joins the registry. *)
Definition subscribe_cb (topic : string) (error : option JsError)
  : M (World Reg) unit :=
  match error with
  | Some _ => ret tt
  | None => assign (fun s => set_subscriptions (reg_add topic (subscriptions s)) s)
  end.

(** [subscribe(topic, options = { qos: 1 })] *)
Definition subscribe (topic : string) (options : JsVal) : M (World Reg) bool :=
  let options := with_default subscribe_default_options options in
  isConnected <- gets (fun w => isConnected (this w)) ;;
  if negb isConnected then ret false
  else
    on_this_client
      (client_request (ReqSubscribe topic options (SubscribeCb topic))) ;;
    ret true.

(** The callback of [unsubscribe]: on success the topic leaves the
    registry. *)
Definition unsubscribe_cb (topic : string) (error : option JsError)
  : M (World Reg) unit :=
  match error with
  | Some _ => ret tt
  | None =>
      assign (fun s => set_subscriptions (reg_delete topic (subscriptions s)) s)
  end.

(** [unsubscribe(topic)] *)
Definition unsubscribe (topic : string) : M (World Reg) bool :=
  isConnected <- gets (fun w => isConnected (this w)) ;;
  if negb isConnected then ret false
  else
    on_this_client (client_request (ReqUnsubscribe topic (UnsubscribeCb topic))) ;;
    ret true.

(** The callback of [publish]: settles the promise [publish] returned. *)
Definition publish_cb (topic messageString : string) (p : nat)
  (error : option JsError) : M (World Reg) unit :=
  match error with
  | Some e => reject p e
  | None => resolve p JUndefined
  end.

(** The string [publish] transmits: [JSON.stringify(message)] when
    [typeof message === "object"], [message.toString()] otherwise. *)
Definition message_string (message : JsVal) : Outcome string :=
  if decide (typeof message = TObject) then Ok (json_stringify message)
  else toString message.

(** [publish(topic, message, options = { qos: 1, retain: false })].  The
    body of the promise's executor is run at once; what it throws rejects
    the promise. *)
Definition publish (topic : string) (message : JsVal) (options : JsVal)
  : M (World Reg) nat :=
  let options := with_default publish_default_options options in
  p <- new_promise ;;
  try_catch
    (isConnected <- gets (fun w => isConnected (this w)) ;;
     if negb isConnected then reject p not_connected
     else
       messageString <- lift (message_string message) ;;
       on_this_client
         (client_request
            (ReqPublish topic messageString options
               (PublishCb topic messageString p))))
    (fun error => reject p error) ;;
  ret p.

(** [routeMessage] is in [Router]. *)

(** [getConnectionStatus()] *)
Definition getConnectionStatus : M (World Reg) ConnectionStatus :=
  s <- gets this ;;
  ret {| connected := isConnected s;
         status_subscriptions := reg_all (subscriptions s);
         status_reconnectAttempts := reconnectAttempts s |}.

(** The callback of [createQueue]: on success the queue joins the registry
    and the promise resolves with what the broker granted. *)
Definition createQueue_cb (queueName : string) (p : nat)
  (error : option JsError) (granted : JsVal) : M (World Reg) unit :=
  match error with
  | Some e => reject p e
  | None =>
      assign (fun s => set_subscriptions (reg_add queueName (subscriptions s)) s) ;;
      resolve p granted
  end.

(** [async createQueue(queueName, options = { qos: 1, durable: true })]:
    the promise the caller awaits.  What the body throws, the
    not-connected error included, is logged, thrown again and rejects the
    promise. *)
Definition createQueue (queueName : string) (options : JsVal)
  : M (World Reg) nat :=
  let options := with_default createQueue_default_options options in
  p <- new_promise ;;
  try_catch
    (isConnected <- gets (fun w => isConnected (this w)) ;;
     if negb isConnected then throw not_connected
     else
       on_this_client
         (client_request
            (ReqSubscribe queueName options (CreateQueueCb queueName p))))
    (fun error => reject p error) ;;
  ret p.

(** [subscribeToDefaultTopics()] *)
Definition subscribeToDefaultTopics : M (World Reg) unit :=
  let defaultTopics := "octaloop-mdm-in" in
  if negb (bool_decide (defaultTopics = "")) then
    let topics := map trim (split "," defaultTopics) in
    for_each (fun topic => _ <- subscribe topic JUndefined ;; ret tt) topics
  else ret tt.

(** [this.name(...)]: the call of a method the object does not have
    throws a [TypeError]. *)
Definition call_method {A} (name : string) (method : M (World Reg) A)
  : M (World Reg) A :=
  if has_method name then method
  else throw (TypeError ("this." +:+ name +:+ " is not a function")).

(** [async broadcastToAllDevices(message)]:
    [return this.broadcast(message, "all-devices", { qos: 1, retain: false })].
    An [async] function that returns a promise settles as that promise
    does, so the model returns that promise; what the body throws is a
    promise rejected with it.  The class has no method [broadcast]; the
    arguments of the call are those of [publish] with the topic second,
    and that is what the model runs should the method be there. *)
Definition broadcastToAllDevices (message : JsVal) : M (World Reg) nat :=
  try_catch
    (call_method "broadcast"
       (publish "all-devices" message
          (JObj [("qos", JNum 1); ("retain", JBool false)])))
    (fun error => p <- new_promise ;; reject p error ;; ret p).

(** The library answers a request: the callback it was given runs. *)
Definition run_callback (cb : Callback) (error : option JsError) (granted : JsVal)
  : M (World Reg) unit :=
  match cb with
  | SubscribeCb topic => subscribe_cb topic error
  | UnsubscribeCb topic => unsubscribe_cb topic error
  | PublishCb topic messageString p => publish_cb topic messageString p error
  | CreateQueueCb queueName p => createQueue_cb queueName p error granted
  end.

End WithRegistry.

(** ** The methods, branch by branch *)

Section Lemmas.
Context {Reg : Type} `{RegistryOps Reg} {codec : JsonCodec}.
Implicit Types (w : World Reg) (topic : string) (options message : JsVal).

(** The request a call of [subscribe] queues. *)
Definition subscribe_request topic options : Request Callback :=
  ReqSubscribe topic (with_default subscribe_default_options options)
    (SubscribeCb topic).

(** [subscribe] while disconnected returns [false] and does nothing. *)
Lemma subscribe_disconnected topic options w :
  isConnected (this w) = false -> subscribe topic options w = (Ok false, w).
Proof. intros Hc. unfold subscribe, bind, gets. by rewrite Hc. Qed.

Lemma subscribe_connected topic options w c :
  isConnected (this w) = true -> client (this w) = Some c ->
  subscribe topic options w
  = (Ok true, upd_clients (alter (client_request (subscribe_request topic options)) c) w).
Proof.
  intros Hc Hcl. unfold subscribe, bind, gets. rewrite Hc. simpl.
  by rewrite (on_this_client_Some _ _ c).
Qed.

Lemma unsubscribe_disconnected topic w :
  isConnected (this w) = false -> unsubscribe topic w = (Ok false, w).
Proof. intros Hc. unfold unsubscribe, bind, gets. by rewrite Hc. Qed.

Lemma unsubscribe_connected topic w c :
  isConnected (this w) = true -> client (this w) = Some c ->
  unsubscribe topic w
  = (Ok true,
     upd_clients
       (alter (client_request (ReqUnsubscribe topic (UnsubscribeCb topic))) c) w).
Proof.
  intros Hc Hcl. unfold unsubscribe, bind, gets. rewrite Hc. simpl.
  by rewrite (on_this_client_Some _ _ c).
Qed.

(** Neither method changes the registry: only the callbacks do. *)
Lemma subscribe_registry topic options w :
  subscriptions (this (exec (subscribe topic options) w)) = subscriptions (this w).
Proof.
  unfold exec, subscribe, bind, gets, on_this_client.
  destruct (isConnected (this w)); simpl; [|done].
  by destruct (client (this w)).
Qed.

Lemma unsubscribe_registry topic w :
  subscriptions (this (exec (unsubscribe topic) w)) = subscriptions (this w).
Proof.
  unfold exec, unsubscribe, bind, gets, on_this_client.
  destruct (isConnected (this w)); simpl; [|done].
  by destruct (client (this w)).
Qed.

Lemma subscribe_cb_ok topic w :
  subscribe_cb topic None w
  = (Ok tt, upd_this (fun s => set_subscriptions (reg_add topic (subscriptions s)) s) w).
Proof. reflexivity. Qed.

Lemma subscribe_cb_error topic e w : subscribe_cb topic (Some e) w = (Ok tt, w).
Proof. reflexivity. Qed.

Lemma unsubscribe_cb_ok topic w :
  unsubscribe_cb topic None w
  = (Ok tt, upd_this (fun s => set_subscriptions (reg_delete topic (subscriptions s)) s) w).
Proof. reflexivity. Qed.

Lemma unsubscribe_cb_error topic e w : unsubscribe_cb topic (Some e) w = (Ok tt, w).
Proof. reflexivity. Qed.

(** [publish] while disconnected returns a promise that is already
    rejected with the not-connected error. *)
Lemma publish_disconnected topic message options w :
  isConnected (this w) = false ->
  publish topic message options w
  = (Ok (length (promises w)),
     upd_promises (fun ps => ps ++ [Rejected not_connected]) w).
Proof.
  intros Hc. unfold publish, bind, try_catch, gets, new_promise, reject, modify.
  simpl. rewrite Hc. simpl. destruct w as [s cs ps es]. unfold upd_promises.
  simpl. by rewrite settle_fresh.
Qed.

(** [publish] while connected, with a message that has a string form,
    queues one request carrying that string and returns a pending
    promise. *)
Lemma publish_connected topic message options w c messageString :
  isConnected (this w) = true -> client (this w) = Some c ->
  message_string message = Ok messageString ->
  publish topic message options w
  = (Ok (length (promises w)),
     upd_clients
       (alter (client_request
                 (ReqPublish topic messageString
                    (with_default publish_default_options options)
                    (PublishCb topic messageString (length (promises w))))) c)
       (upd_promises (fun ps => ps ++ [Pending]) w)).
Proof.
  intros Hc Hcl Hm.
  unfold publish, bind, try_catch, gets, new_promise, lift, on_this_client.
  simpl. rewrite Hc. simpl. rewrite Hm. simpl. by rewrite Hcl.
Qed.

(** [publish] of a message without a string form ([undefined]): the
    [TypeError] rejects the promise. *)
Lemma publish_no_string topic message options w e :
  isConnected (this w) = true -> message_string message = Thrown e ->
  publish topic message options w
  = (Ok (length (promises w)), upd_promises (fun ps => ps ++ [Rejected e]) w).
Proof.
  intros Hc Hm.
  unfold publish, bind, try_catch, gets, new_promise, lift, reject, modify.
  simpl. rewrite Hc, Hm. simpl. destruct w as [s cs ps es]. unfold upd_promises.
  simpl. by rewrite settle_fresh.
Qed.

(** [createQueue] while disconnected returns a promise rejected with the
    not-connected error. *)
Lemma createQueue_disconnected queueName options w :
  isConnected (this w) = false ->
  createQueue queueName options w
  = (Ok (length (promises w)),
     upd_promises (fun ps => ps ++ [Rejected not_connected]) w).
Proof.
  intros Hc.
  unfold createQueue, bind, try_catch, gets, new_promise, reject, throw, modify.
  simpl. rewrite Hc. simpl. destruct w as [s cs ps es]. unfold upd_promises.
  simpl. by rewrite settle_fresh.
Qed.

Lemma createQueue_connected queueName options w c :
  isConnected (this w) = true -> client (this w) = Some c ->
  createQueue queueName options w
  = (Ok (length (promises w)),
     upd_clients
       (alter (client_request
                 (ReqSubscribe queueName
                    (with_default createQueue_default_options options)
                    (CreateQueueCb queueName (length (promises w))))) c)
       (upd_promises (fun ps => ps ++ [Pending]) w)).
Proof.
  intros Hc Hcl.
  unfold createQueue, bind, try_catch, gets, new_promise, on_this_client.
  simpl. rewrite Hc. simpl. by rewrite Hcl.
Qed.

(** [createQueue] and [publish] never throw: they return their promise. *)
Lemma createQueue_returns queueName options w :
  exists w', createQueue queueName options w = (Ok (length (promises w)), w').
Proof.
  unfold createQueue, bind, try_catch, gets, new_promise, on_this_client, reject,
    throw, modify, ret.
  simpl. destruct (isConnected (this w)); simpl; [|by eexists].
  destruct (client (this w)); by eexists.
Qed.

Lemma publish_returns topic message options w :
  exists w', publish topic message options w = (Ok (length (promises w)), w').
Proof.
  unfold publish, bind, try_catch, gets, new_promise, on_this_client, reject,
    lift, modify, ret.
  simpl. destruct (isConnected (this w)); simpl; [|by eexists].
  destruct (message_string message); simpl; [|by eexists].
  destruct (client (this w)); by eexists.
Qed.

Lemma getConnectionStatus_spec w :
  getConnectionStatus w
  = (Ok {| connected := isConnected (this w);
           status_subscriptions := reg_all (subscriptions (this w));
           status_reconnectAttempts := reconnectAttempts (this w) |}, w).
Proof. reflexivity. Qed.

(** The default topics are the one topic [octaloop-mdm-in]. *)
Lemma subscribeToDefaultTopics_unfold w :
  subscribeToDefaultTopics w
  = bind (subscribe "octaloop-mdm-in" JUndefined) (fun _ => ret tt) w.
Proof.
  unfold subscribeToDefaultTopics. simpl. unfold bind.
  by destruct (subscribe _ _ w) as [[b|e] w'].
Qed.

(** C4: The connection guard: while the service is disconnected no
    method sends anything to a client.  [subscribe] and [unsubscribe]
    return [false] and change nothing; [publish] and [createQueue] return a
    promise that is already rejected with the error "MQTT client not
    connected" and change nothing else. *)
Theorem not_connected_guard topic message options w :
  isConnected (this w) = false ->
  let rejected := upd_promises (fun ps => ps ++ [Rejected not_connected]) w in
  subscribe topic options w = (Ok false, w)
  /\ unsubscribe topic w = (Ok false, w)
  /\ publish topic message options w = (Ok (length (promises w)), rejected)
  /\ createQueue topic options w = (Ok (length (promises w)), rejected).
Proof.
  intros Hc. split_and!;
    auto using subscribe_disconnected, unsubscribe_disconnected,
      publish_disconnected, createQueue_disconnected.
Qed.

(** The call of a method that is not there. *)
Lemma call_method_missing {A} name (method : M (World Reg) A) w :
  has_method name = false ->
  call_method name method w
  = (Thrown (TypeError ("this." +:+ name +:+ " is not a function")), w).
Proof. unfold call_method. by intros ->. Qed.

(** A method of the class is called. *)
Lemma call_method_found {A} name (method : M (World Reg) A) :
  has_method name = true -> call_method name method = method.
Proof. unfold call_method. by intros ->. Qed.

(** C40: [broadcastToAllDevices] never publishes: neither the class nor
    what it inherits has a method [broadcast], so the call throws, the
    promise of the [async] function is rejected with the [TypeError], and
    nothing is sent, whether the service is connected or not. *)
Theorem broadcastToAllDevices_rejected message w :
  has_method "broadcast" = false
  /\ broadcastToAllDevices message w
     = (Ok (length (promises w)),
        upd_promises
          (fun ps => ps ++ [Rejected (TypeError "this.broadcast is not a function")]) w).
Proof.
  split; [done|].
  unfold broadcastToAllDevices, try_catch. rewrite call_method_missing by done.
  unfold bind, new_promise, reject, modify. simpl.
  destruct w as [s cs ps es]. unfold upd_promises. simpl. by rewrite settle_fresh.
Qed.

(** The string [publish] transmits: the JSON text for objects, arrays
    and [null], the string itself for a string, the decimal numeral for a
    number; [undefined] has none and makes [publish] reject. *)
Theorem message_string_cases message :
  match message with
  | JUndefined => is_ok (message_string message) = false
  | JNull | JArr _ | JObj _ => message_string message = Ok (json_stringify message)
  | JStr s => message_string message = Ok s
  | JBool _ | JNum _ => message_string message = Ok (to_string message)
  end.
Proof. by destruct message. Qed.

End Lemmas.

Lemma not_connected_guard_witness :
  let w : World (list string) := initial in
  let rejected := upd_promises (fun ps => ps ++ [Rejected not_connected]) w in
  subscribe "t" JUndefined w = (Ok false, w)
  /\ unsubscribe "t" w = (Ok false, w)
  /\ publish "t" (JStr "m") JUndefined w = (Ok 0, rejected)
  /\ createQueue "t" JUndefined w = (Ok 0, rejected).
Proof. by apply (not_connected_guard "t" (JStr "m") JUndefined initial). Defined.

(** A world in which the service is connected through client 0. *)
Definition connected_world : World (list string) :=
  {| this := mkService (Some 0) true ["octaloop-mdm-in"] 0 10;
     clients := [mkClient Up false []];
     promises := [];
     emitted := [EmConnected] |}.

End Gateway.
