(* ===== verification/Loopback.v ===== *)
(** * A payload from [publish] to the handler of [message]

    [publish] of [src/services/mqttService.js] hands the client the text
    of a message: [JSON.stringify] of an object, [toString] of anything
    else.  The handler of the client's [message] event reads a text with
    [JSON.parse] and falls back to the text itself.  This file follows a
    payload from the one to the other, in one process (a subscription to
    the topic it publishes on) or between two: which messages arrive as
    they were sent, and what becomes of the others.  The theorems hold
    for every codec that keeps the laws of [JsonCodecLaws]; [Json]
    provides one. *)

From S2P Require Import Prelude JsString JsValue Json Registry Client ServiceState.
From S2P Require Import Router Gateway.
Import JsString JsValue Json Registry Client ServiceState Router Gateway.

Module Loopback.

Section Definitions.
Context {codec : JsonCodec}.

(** A value that is not a string holding a JSON text. *)
Definition plain (v : JsVal) : bool :=
  match v with
  | JStr s => match json_parse s with None => true | Some _ => false end
  | _ => true
  end.

(** What the handler of [message] makes of the text [publish] hands to
    the client for a message; [None] when [publish] rejects the message. *)
Definition loopback (message : JsVal) : option JsVal :=
  match message_string message with
  | Ok s => Some (parse_or_string s)
  | Thrown _ => None
  end.

End Definitions.

Section Laws.
Context {codec : JsonCodec} {laws : JsonCodecLaws codec}.

(** The text of a canonical message. *)
Lemma message_string_canonical message :
  canonical message = true ->
  message_string message
  = Ok (match message with JStr s => s | _ => json_stringify message end).
Proof.
  intros Hc. pose proof (json_stringify_scalar message) as Hs.
  destruct message as [| |b|n|s|xs|fs]; try done; unfold message_string; simpl;
    by rewrite Hs.
Qed.

(** A canonical message that is not a string holding a JSON text arrives
    as it was sent. *)
Lemma loopback_spec message :
  canonical message = true -> plain message = true -> loopback message = Some message.
Proof.
  intros Hc Hp. unfold loopback. rewrite message_string_canonical by done.
  unfold parse_or_string.
  destruct message as [| |b|n|s|xs|fs];
    [done|rewrite ?(json_parse_stringify _ Hc); try done..].
  simpl in Hp. by destruct (json_parse s).
Qed.

(** What arrives is canonical, whatever was sent. *)
Lemma loopback_canonical message received :
  loopback message = Some received -> canonical received = true.
Proof.
  unfold loopback. destruct (message_string message) as [s|]; [|done].
  intros [= <-]. unfold parse_or_string.
  destruct (json_parse s) eqn:Hs; [by eapply json_parse_canonical|done].
Qed.

(** So a message that is not canonical does not arrive as it was sent. *)
Lemma loopback_only_canonical message :
  loopback message = Some message -> canonical message = true.
Proof. apply loopback_canonical. Qed.

Section Worlds.
Context {Reg : Type} `{RegistryOps Reg}.
Implicit Types (w : World Reg).

Lemma on_message_emits topic raw packet w :
  EmMessage topic (parse_or_string raw) packet
  ∈ emitted (exec (on_message topic raw packet) w).
Proof.
  destruct (routeMessage_spec topic (parse_or_string raw)
              (upd_emitted (fun es => es ++ [EmMessage topic (parse_or_string raw) packet]) w))
    as (r & _ & Heq).
  unfold exec, on_message, try_catch, bind, emit, modify. rewrite Heq. simpl.
  rewrite <- app_assoc. apply elem_of_app. right. by left.
Qed.

(** C13: Round trip of a payload.  While the service is connected,
    [publish] of a canonical message (no [undefined] inside, the keys of
    each object distinct) that is not a string holding a JSON text asks
    the client to publish a text, and when that text arrives on the
    topic, in this process or in another, the handler of [message] emits
    [message] with the value that was published: an object arrives as an
    equal object, a string that is not JSON as the same string. *)
Theorem loopback_roundtrip topic message options packet w c w' :
  isConnected (this w) = true -> client (this w) = Some c ->
  canonical message = true -> plain message = true ->
  exists s,
    publish topic message options w
    = (Ok (length (promises w)),
       upd_clients
         (alter (client_request
                   (ReqPublish topic s (with_default publish_default_options options)
                      (PublishCb topic s (length (promises w))))) c)
         (upd_promises (fun ps => ps ++ [Pending]) w))
    /\ EmMessage topic message packet
       ∈ emitted (exec (on_message topic s packet) w').
Proof.
  intros Hc Hcl Hm Hp. pose proof (loopback_spec message Hm Hp) as Hl.
  unfold loopback in Hl. destruct (message_string message) as [s|] eqn:Hs; [|done].
  exists s. split; [by apply publish_connected|].
  injection Hl as <-. apply on_message_emits.
Qed.

End Worlds.

End Laws.

(** ** Concrete payloads *)

(** What becomes of the messages the round trip leaves out: a string
    that is a JSON text arrives as the value of the text, a member that
    is [undefined] is lost, of two members with one key the last arrives,
    [undefined] in an array arrives as [null], and [undefined] itself is
    refused by [publish]. *)
Lemma loopback_examples :
  loopback (JStr "123") = Some (JNum 123)
  /\ loopback (JStr "true") = Some (JBool true)
  /\ loopback (JStr "on") = Some (JStr "on")
  /\ loopback (JObj [("a", JUndefined); ("b", JNum 1)]) = Some (JObj [("b", JNum 1)])
  /\ loopback (JObj [("a", JNum 1); ("a", JNum 2)]) = Some (JObj [("a", JNum 2)])
  /\ loopback (JArr [JUndefined]) = Some (JArr [JNull])
  /\ loopback JUndefined = None.
Proof. by vm_compute. Qed.

Lemma loopback_roundtrip_witness :
  let message :=
    JObj [("temperature", JNum (-4)); ("unit", JStr "C");
          ("tags", JArr [JStr "roof"; JNull; JBool true]); ("position", JObj [])] in
  exists s,
    publish "mdm/devices/d1/telemetry" message JUndefined connected_world
    = (Ok 0,
       upd_clients
         (alter (client_request
                   (ReqPublish "mdm/devices/d1/telemetry" s publish_default_options
                      (PublishCb "mdm/devices/d1/telemetry" s 0))) 0)
         (upd_promises (fun ps => ps ++ [Pending]) connected_world))
    /\ EmMessage "mdm/devices/d1/telemetry" message JNull
       ∈ emitted (exec (on_message "mdm/devices/d1/telemetry" s JNull)
                    (initial : World (list string))).
Proof.
  intros message.
  exact (loopback_roundtrip "mdm/devices/d1/telemetry" message JUndefined JNull
           connected_world 0 initial eq_refl eq_refl eq_refl eq_refl).
Defined.

End Loopback.
