(* ===== verification/Connection.v ===== *)
(** * The broker connection manager

    [connect] and [disconnect] of [src/services/mqttService.js] and the
    handlers [connect] registers on the client object for its [connect],
    [disconnect], [reconnect], [error] and [offline] events ([message] is in
    [Router]).  The handlers close over the service object, not over the
    client that emits: [this.client] in their bodies is the client of the
    latest [connect]. *)

From S2P Require Import Prelude JsString JsValue Registry Client ServiceState.
From S2P Require Import Json Router Gateway.
Import JsString JsValue Json Registry Client ServiceState Router Gateway.

Module Connection.

Section WithRegistry.
Context {Reg : Type} `{RegistryOps Reg} {codec : JsonCodec}.
Local Open Scope js_scope.

(** [mqtt.connect(url, options)]: a new client object, or the exception the
    library throws on a URL it cannot use. *)
Definition mqtt_connect (throws : option JsError) : M (World Reg) nat :=
  match throws with
  | Some e => throw e
  | None =>
      fun w => (Ok (length (clients w)),
                upd_clients (fun cs => cs ++ [client_new]) w)
  end.

(** [async connect()]: the client is created and stored; the handlers
    below are registered on it.  An exception is logged and thrown again. *)
Definition connect (throws : option JsError) : M (World Reg) unit :=
  try_catch
    (c <- mqtt_connect throws ;;
     assign (set_client (Some c)))
    (fun error => throw error).

(** [this.client.on("connect", ...)] *)
Definition on_connect : M (World Reg) unit :=
  assign (set_isConnected true) ;;
  assign (set_reconnectAttempts 0) ;;
  emit EmConnected ;;
  subscribeToDefaultTopics.

(** [this.client.on("disconnect", ...)] *)
Definition on_disconnect : M (World Reg) unit :=
  assign (set_isConnected false) ;;
  emit EmDisconnected.

(** [this.client.on("reconnect", ...)] *)
Definition on_reconnect : M (World Reg) unit :=
  assign (fun s => set_reconnectAttempts (S (reconnectAttempts s)) s) ;;
  s <- gets this ;;
  when (maxReconnectAttempts s <? reconnectAttempts s)
    (on_this_client client_end).

(** [this.client.on("error", ...)] *)
Definition on_error (error : JsError) : M (World Reg) unit :=
  emit (EmError error).

(** [this.client.on("offline", ...)] *)
Definition on_offline : M (World Reg) unit :=
  assign (set_isConnected false) ;;
  emit EmOffline.

(** The handler registered for each event. *)
Definition handle (ev : ClientEvent) : M (World Reg) unit :=
  match ev with
  | EvConnect => on_connect
  | EvDisconnect => on_disconnect
  | EvReconnect => on_reconnect
  | EvError error => on_error error
  | EvOffline => on_offline
  | EvMessage topic message packet => on_message topic message packet
  end.

(** [disconnect()] *)
Definition disconnect : M (World Reg) unit :=
  c <- gets (fun w => client (this w)) ;;
  match c with
  | Some _ =>
      on_this_client client_end ;;
      assign (set_isConnected false)
  | None => ret tt
  end.

End WithRegistry.

(** ** The handlers, branch by branch *)

Section Lemmas.
Context {Reg : Type} `{RegistryOps Reg} {codec : JsonCodec}.
Implicit Types (w : World Reg).

Lemma connect_ok w :
  connect None w
  = (Ok tt, upd_this (set_client (Some (length (clients w))))
              (upd_clients (fun cs => cs ++ [client_new]) w)).
Proof. reflexivity. Qed.

(** A failed [connect] throws to its caller and changes nothing. *)
Lemma connect_throws e w : connect (Some e) w = (Thrown e, w).
Proof. reflexivity. Qed.

Lemma on_disconnect_spec w :
  on_disconnect w
  = (Ok tt, upd_emitted (fun es => es ++ [EmDisconnected])
              (upd_this (set_isConnected false) w)).
Proof. reflexivity. Qed.

Lemma on_offline_spec w :
  on_offline w
  = (Ok tt, upd_emitted (fun es => es ++ [EmOffline])
              (upd_this (set_isConnected false) w)).
Proof. reflexivity. Qed.

Lemma on_error_spec e w :
  on_error e w = (Ok tt, upd_emitted (fun es => es ++ [EmError e]) w).
Proof. reflexivity. Qed.

(** An attempt within the bound only counts. *)
Lemma on_reconnect_within w :
  S (reconnectAttempts (this w)) <= maxReconnectAttempts (this w) ->
  on_reconnect w
  = (Ok tt, upd_this (fun s => set_reconnectAttempts (S (reconnectAttempts s)) s) w).
Proof.
  intros Hle. unfold on_reconnect, bind, assign, modify, gets, when. simpl.
  by rewrite (proj2 (Nat.ltb_ge _ _)) by lia.
Qed.

(** The attempt that exceeds the bound ends the current client. *)
Lemma on_reconnect_exceeds w c :
  maxReconnectAttempts (this w) < S (reconnectAttempts (this w)) ->
  client (this w) = Some c ->
  on_reconnect w
  = (Ok tt,
     upd_clients (alter client_end c)
       (upd_this (fun s => set_reconnectAttempts (S (reconnectAttempts s)) s) w)).
Proof.
  intros Hlt Hc. unfold on_reconnect, bind, assign, modify, gets, when. simpl.
  rewrite (proj2 (Nat.ltb_lt _ _)) by lia.
  by rewrite (on_this_client_Some _ _ c).
Qed.

(** The handler of [connect] raises the connected flag, resets the
    attempt counter to zero, emits [connected] once and requests the
    subscription of the default topic [octaloop-mdm-in] with QoS 1; the
    registry waits for the acknowledgment. *)
Theorem on_connect_spec w c :
  client (this w) = Some c ->
  on_connect w
  = (Ok tt,
     upd_clients
       (alter (client_request (subscribe_request "octaloop-mdm-in" JUndefined)) c)
       (upd_emitted (fun es => es ++ [EmConnected])
          (upd_this (fun s => set_reconnectAttempts 0 (set_isConnected true s)) w))).
Proof.
  intros Hc. unfold on_connect, bind, assign, emit, modify. simpl.
  rewrite subscribeToDefaultTopics_unfold. unfold bind.
  by rewrite (subscribe_connected _ _ _ c).
Qed.

Lemma disconnect_no_client w :
  client (this w) = None -> disconnect w = (Ok tt, w).
Proof. intros Hc. unfold disconnect, bind, gets. by rewrite Hc. Qed.

Lemma disconnect_client w c :
  client (this w) = Some c ->
  disconnect w
  = (Ok tt, upd_this (set_isConnected false) (upd_clients (alter client_end c) w)).
Proof.
  intros Hc. unfold disconnect, bind, gets. rewrite Hc.
  by rewrite (on_this_client_Some _ _ c).
Qed.

(** [disconnect] is idempotent and never throws, connected or not,
    client or not: a second call changes nothing. *)
Theorem disconnect_idempotent w :
  disconnect w = (Ok tt, exec disconnect w)
  /\ disconnect (exec disconnect w) = (Ok tt, exec disconnect w).
Proof.
  destruct w as [[[c|] ? ? ? ?] cs ? ?];
    unfold exec, disconnect, bind, gets, on_this_client, assign, modify,
      upd_this, upd_clients; simpl; [|done].
  split; [done|]. do 2 f_equal.
  rewrite list_alter_alter_eq. by apply list_alter_ext.
Qed.

(** C39: [disconnect] emits no event: the listeners of [disconnected] are
    not told that the service was shut down. *)
Theorem disconnect_emits_nothing w : emitted (exec disconnect w) = emitted w.
Proof.
  unfold exec. destruct (client (this w)) as [c|] eqn:Hc.
  - by rewrite (disconnect_client w c Hc).
  - by rewrite (disconnect_no_client w Hc).
Qed.

(** [disconnect] ends the client, lowers the flag and keeps the
    registry: the subscriptions reported afterwards are stale. *)
Theorem disconnect_keeps_registry w c :
  client (this w) = Some c ->
  isConnected (this (exec disconnect w)) = false
  /\ subscriptions (this (exec disconnect w)) = subscriptions (this w)
  /\ clients (exec disconnect w) = alter client_end c (clients w).
Proof. intros Hc. unfold exec. by rewrite (disconnect_client w c Hc). Qed.

End Lemmas.

Lemma on_connect_spec_witness :
  on_connect (upd_this (set_client (Some 0))
                (upd_clients (fun cs => cs ++ [client_new])
                   (initial : World (list string))))
  = (Ok tt,
     {| this := mkService (Some 0) true [] 0 10;
        clients := [mkClient Connecting false
                      [subscribe_request "octaloop-mdm-in" JUndefined]];
        promises := [];
        emitted := [EmConnected] |}).
Proof.
  by rewrite (on_connect_spec
                (upd_this (set_client (Some 0))
                   (upd_clients (fun cs => cs ++ [client_new]) initial)) 0).
Defined.

Lemma disconnect_keeps_registry_witness :
  isConnected (this (exec disconnect connected_world)) = false
  /\ subscriptions (this (exec disconnect connected_world))
     = subscriptions (this connected_world)
  /\ clients (exec disconnect connected_world)
     = alter client_end 0 (clients connected_world).
Proof. by apply (disconnect_keeps_registry connected_world 0). Defined.

End Connection.
