(* ===== verification/EventLoop.v ===== *)
(** * The event loop

    Node.js runs the gateway one turn at a time: a call of a service method
    (from [src/server.js] or from an HTTP controller), a handler of an event
    the client object emits, or the completion callback of a request.  A
    turn runs to completion before the next one starts, so an execution of
    the program is a sequence of inputs, each enabled when it is taken.

    [step] is the turn an input causes; [enabled] is the contract of the
    client library ([Client]); [Trace] is the execution relation and [run]
    its executable form. *)

From S2P Require Import Prelude JsString JsValue Registry Client ServiceState.
From S2P Require Import Json Router Gateway Connection.
Import JsString JsValue Json Registry Client ServiceState Router Gateway Connection.

Module EventLoop.

Inductive Input : Type :=
| CallConnect (throws : option JsError)
| CallDisconnect
| CallSubscribe (topic : string) (options : JsVal)
| CallUnsubscribe (topic : string)
| CallPublish (topic : string) (message : JsVal) (options : JsVal)
| CallCreateQueue (queueName : string) (options : JsVal)
| CallGetConnectionStatus
| CallBroadcastToAllDevices (message : JsVal)
| ClientEmits (c : nat) (ev : ClientEvent)
| ClientCompletes (c : nat) (i : nat) (error : option JsError) (granted : JsVal)
| CallSetTimeout
| TimerFires (p : nat).

Section WithRegistry.
Context {Reg : Type} `{RegistryOps Reg} {codec : JsonCodec}.
Local Open Scope js_scope.

(** May the environment deliver this input now?  Method calls always; an
    event when the client may emit it; a completion when the request is in
    flight; a timer when its promise is sleeping. *)
Definition enabled (w : World Reg) (i : Input) : bool :=
  match i with
  | ClientEmits c ev =>
      match clients w !! c with
      | Some cl => client_emits cl ev
      | None => false
      end
  | ClientCompletes c i _ _ =>
      match clients w !! c with
      | Some cl => bool_decide (is_Some (outbox cl !! i))
      | None => false
      end
  | TimerFires p => sleeping (promises w) p
  | _ => true
  end.

(** The library takes the [i]-th request of client [c] out of flight and
    calls its callback. *)
Definition complete (c i : nat) (error : option JsError) (granted : JsVal)
  : M (World Reg) unit :=
  w <- get ;;
  match clients w !! c ≫= client_complete i with
  | Some (r, cl') =>
      modify (upd_clients (fun cs => <[c := cl']> cs)) ;;
      run_callback (request_callback r) error granted
  | None => ret tt
  end.

(** One turn of the event loop. *)
Definition step (i : Input) : M (World Reg) unit :=
  match i with
  | CallConnect throws => connect throws
  | CallDisconnect => disconnect
  | CallSubscribe topic options => _ <- subscribe topic options ;; ret tt
  | CallUnsubscribe topic => _ <- unsubscribe topic ;; ret tt
  | CallPublish topic message options => _ <- publish topic message options ;; ret tt
  | CallCreateQueue queueName options => _ <- createQueue queueName options ;; ret tt
  | CallGetConnectionStatus => _ <- getConnectionStatus ;; ret tt
  | CallBroadcastToAllDevices message => _ <- broadcastToAllDevices message ;; ret tt
  | ClientEmits c ev =>
      modify (upd_clients (alter (client_after ev) c)) ;;
      handle ev
  | ClientCompletes c i error granted => complete c i error granted
  | CallSetTimeout => _ <- sleep ;; ret tt
  | TimerFires p => timer_fires p
  end.

(** The world after a turn; what the turn throws is not caught by anyone,
    and the mutations made before the throw stay. *)
Definition turn (i : Input) (w : World Reg) : World Reg := exec (step i) w.

(** Executions. *)
Inductive Trace : World Reg -> list Input -> World Reg -> Prop :=
| Trace_nil w : Trace w [] w
| Trace_cons w i tr w' :
    enabled w i = true -> Trace (turn i w) tr w' -> Trace w (i :: tr) w'.

Fixpoint run (tr : list Input) (w : World Reg) : option (World Reg) :=
  match tr with
  | [] => Some w
  | i :: tr' => if enabled w i then run tr' (turn i w) else None
  end.

(** The states the program reaches from its initial state. *)
Definition reachable (w : World Reg) : Prop := exists tr, Trace initial tr w.

(** [connect] is called at most once, as [src/server.js] does. *)
Definition is_connect (i : Input) : bool :=
  match i with CallConnect _ => true | _ => false end.

Definition connects_once (tr : list Input) : Prop :=
  length (filter (fun i => is_connect i = true) tr) <= 1.

End WithRegistry.

(** ** Executions, relationally and by computation *)

Section Executions.
Context {Reg : Type} `{RegistryOps Reg} {codec : JsonCodec}.
Implicit Types (w : World Reg) (tr : list Input).

(** The world after the turns of [tr], one after the other. *)
Definition turns (tr : list Input) (w : World Reg) : World Reg :=
  fold_left (fun w i => turn i w) tr w.

Lemma run_Trace tr w w' : run tr w = Some w' -> Trace w tr w'.
Proof.
  revert w. induction tr as [|i tr IH]; simpl; intros w.
  - intros [= ->]. constructor.
  - destruct (enabled w i) eqn:E; [|done]. intros Hr. constructor; auto.
Qed.

Lemma Trace_run tr w w' : Trace w tr w' -> run tr w = Some w'.
Proof. induction 1 as [|w i tr w' Hen _ IH]; simpl; [done|]. by rewrite Hen. Qed.

Lemma run_turns tr w w' : run tr w = Some w' -> w' = turns tr w.
Proof.
  revert w. induction tr as [|i tr IH]; simpl; intros w; [by intros [= ->]|].
  destruct (enabled w i); [apply IH | done].
Qed.

Lemma Trace_app tr1 tr2 w w' w'' :
  Trace w tr1 w' -> Trace w' tr2 w'' -> Trace w (tr1 ++ tr2) w''.
Proof. induction 1; simpl; [done|]. intros. constructor; auto. Qed.

End Executions.

(** Unfold a turn down to the record fields. *)
Ltac unfold_service :=
  repeat
    (unfold turn, exec, eval, step, complete, handle, run_callback,
       connect, mqtt_connect, disconnect, on_connect, on_disconnect,
       on_reconnect, on_error, on_offline, on_message, routeMessage,
       subscribe, unsubscribe, publish, createQueue, getConnectionStatus,
       broadcastToAllDevices, call_method, subscribeToDefaultTopics, for_each,
       subscribe_cb, unsubscribe_cb, publish_cb, createQueue_cb,
       assign, emit, new_promise, sleep, timer_fires, resolve, reject,
       on_this_client, lift,
       when, bind, ret, throw, try_catch, get, gets, put, modify,
       upd_this, upd_clients, upd_promises, upd_emitted,
       set_client, set_isConnected, set_subscriptions, set_reconnectAttempts
       in *;
     simpl in *).

(** Case analysis of a turn: every input, every branch of its code. *)
Ltac world_cases w :=
  destruct w as [[? ? ? ? ?] ? ? ?];
  unfold_service; repeat case_match; simplify_eq/=.

Ltac turn_cases i w :=
  destruct i as [[?|]| | | | | | | |? []| | |]; world_cases w.

(** ** What a turn leaves unchanged *)

Section Frames.
Context {Reg : Type} `{RegistryOps Reg} {codec : JsonCodec}.
Implicit Types (w : World Reg) (i : Input).

(** Is [i] a successful [connect]? *)
Definition creates_client (i : Input) : bool :=
  match i with CallConnect None => true | _ => false end.

Lemma turn_maxReconnectAttempts i w :
  maxReconnectAttempts (this (turn i w)) = maxReconnectAttempts (this w).
Proof. by turn_cases i w. Qed.

(** Client objects are created by [connect] only, and never destroyed. *)
Lemma turn_clients_length i w :
  length (clients (turn i w))
  = if creates_client i then S (length (clients w)) else length (clients w).
Proof.
  turn_cases i w; rewrite ?length_app, ?length_alter, ?length_insert;
    simpl; try done; lia.
Qed.

(** [this.client] is assigned by [connect] only. *)
Lemma turn_client i w :
  client (this (turn i w))
  = if creates_client i then Some (length (clients w)) else client (this w).
Proof. by turn_cases i w. Qed.

(** Promises are created, never dropped. *)
Lemma turn_promises_length i w :
  length (promises w) <= length (promises (turn i w)).
Proof.
  turn_cases i w; rewrite ?settle_length, ?wake_length, ?length_app, ?settle_length;
    simpl; lia.
Qed.

(** Emitted events are never retracted. *)
Lemma turn_emitted_prefix i w : emitted w `prefix_of` emitted (turn i w).
Proof.
  turn_cases i w; try done;
    repeat (etrans; [|by apply prefix_app_r]); done.
Qed.

End Frames.

(** ** The registry changes by successful completions only *)

Section RegistryFrame.
Context {Reg : Type} `{RegistryOps Reg} {codec : JsonCodec}.
Implicit Types (w : World Reg) (i : Input).

(** What the callback [cb], called with [error], does to the registry. *)
Definition registry_effect (cb : Callback) (error : option JsError) (r : Reg)
  : Reg :=
  match error, cb with
  | None, SubscribeCb topic => reg_add topic r
  | None, CreateQueueCb queueName _ => reg_add queueName r
  | None, UnsubscribeCb topic => reg_delete topic r
  | _, _ => r
  end.

(** The request a completion answers. *)
Definition completed_request (w : World Reg) (c j : nat)
  : option (Request Callback) :=
  cl ← clients w !! c; outbox cl !! j.

Lemma turn_registry i w :
  subscriptions (this (turn i w))
  = match i with
    | ClientCompletes c j error _ =>
        match completed_request w c j with
        | Some r => registry_effect (request_callback r) error (subscriptions (this w))
        | None => subscriptions (this w)
        end
    | _ => subscriptions (this w)
    end.
Proof.
  unfold completed_request.
  destruct i as [| | | | | | | | |c j error granted| |p]; try by world_cases w.
  destruct w as [[? ? ? ? ?] cs ? ?]. unfold turn, exec, step, complete, bind, get.
  simpl. destruct (cs !! c) as [cl|]; simpl; [|done].
  unfold client_complete. destruct (outbox cl !! j) as [r|]; simpl; [|done].
  destruct r as [? ? cb|? cb|? ? ? cb]; destruct cb, error; by unfold_service.
Qed.

End RegistryFrame.

(** ** The invariant of every execution *)

Section Invariant.
Context {Reg : Type} `{RegistryLaws Reg} {codec : JsonCodec}.
Implicit Types (w : World Reg) (i : Input).

(** The reference [connect] stores: the client created last. *)
Definition latest {A} (cs : list A) : option nat :=
  match length cs with
  | 0 => None
  | S n => Some n
  end.

Record Inv (w : World Reg) : Prop := mkInv {
  inv_client : client (this w) = latest (clients w);
  inv_connected : isConnected (this w) = true -> clients w <> [];
  inv_registry : reg_wf (subscriptions (this w));
  inv_max : maxReconnectAttempts (this w) = 10;
}.

Lemma latest_None {A} (cs : list A) : latest cs = None <-> cs = [].
Proof. unfold latest. by destruct cs. Qed.

Lemma latest_is_Some {A} (cs : list A) : cs <> [] -> is_Some (latest cs).
Proof. unfold latest. destruct cs; [done|]. simpl. eauto. Qed.

Lemma Inv_client_Some w :
  Inv w -> clients w <> [] -> exists c, client (this w) = Some c.
Proof.
  intros [Hc _ _ _] Hne. rewrite Hc. by apply latest_is_Some.
Qed.

Lemma enabled_client_nonempty w c ev :
  enabled w (ClientEmits c ev) = true -> clients w <> [].
Proof. simpl. by destruct (clients w). Qed.

(** The flag is raised by the handler of [connect] only. *)
Lemma turn_isConnected_true i w :
  isConnected (this (turn i w)) = true ->
  isConnected (this w) = true \/ exists c, i = ClientEmits c EvConnect.
Proof. turn_cases i w; intros; simplify_eq/=; eauto. Qed.

Lemma registry_effect_wf cb error (r : Reg) :
  reg_wf r -> reg_wf (registry_effect cb error r).
Proof.
  intros Hr. destruct cb, error; simpl; auto using reg_wf_add, reg_wf_delete.
Qed.

Lemma Inv_initial : Inv (initial : World Reg).
Proof. split; simpl; [done | done | apply reg_wf_new | done]. Qed.

Lemma turn_Inv i w : Inv w -> enabled w i = true -> Inv (turn i w).
Proof.
  intros [Hc Hcon Hwf Hmax] Hen. split.
  - rewrite turn_client. unfold latest. rewrite turn_clients_length.
    destruct (creates_client i); [done|]. by rewrite Hc.
  - intros Ht. apply turn_isConnected_true in Ht.
    assert (clients w <> []) as Hne.
    { destruct Ht as [Ht | [c ->]]; [auto | by eapply enabled_client_nonempty]. }
    intros Hnil. apply (f_equal length) in Hnil.
    rewrite turn_clients_length in Hnil.
    destruct (clients w); [done|]. by destruct (creates_client i).
  - rewrite turn_registry. destruct i; try done.
    destruct (completed_request _ _ _); [by apply registry_effect_wf | done].
  - by rewrite turn_maxReconnectAttempts.
Qed.

Lemma Trace_Inv w tr w' : Trace w tr w' -> Inv w -> Inv w'.
Proof. induction 1; eauto using turn_Inv. Qed.

(** C22: Every state the gateway reaches satisfies the invariant:
    [this.client] refers to the client object created last, the connected
    flag is raised only when a client exists, the registry is well formed
    and the attempt bound is the constructor's. *)
Theorem reachable_invariant w : reachable w -> Inv w.
Proof. intros [tr Htr]. eapply Trace_Inv; [done | apply Inv_initial]. Qed.

(** C6: No turn of the event loop throws, a failed [connect] apart, which
    throws to its caller by design: in particular [this.client] is never
    [null] when a method is called on it. *)
Theorem turn_never_throws i w :
  Inv w -> enabled w i = true -> (forall e, i <> CallConnect (Some e)) ->
  eval (step i) w = Ok tt.
Proof.
  intros [Hc Hcon _ _] Hen Hne.
  turn_cases i w; try done; try (by exfalso; eapply Hne); exfalso;
    repeat match goal with
           | Hn : negb _ = false |- _ => apply negb_false_iff in Hn
           | Hl : latest _ = None |- _ => apply latest_None in Hl
           | Hl : None = latest _ |- _ => symmetry in Hl
           end; subst; by (done || apply Hcon).
Qed.

(** C10: After the broker acknowledges a [subscribe], the status reports the
    topic among the subscriptions. *)
Theorem subscribe_ack_in_status w c j topic options granted st :
  completed_request w c j = Some (ReqSubscribe topic options (SubscribeCb topic)) ->
  eval getConnectionStatus (turn (ClientCompletes c j None granted) w) = Ok st ->
  topic ∈ status_subscriptions st.
Proof.
  intros Hreq. unfold eval. rewrite getConnectionStatus_spec. simpl.
  intros [= <-]. simpl. rewrite turn_registry, Hreq. simpl.
  apply reg_elem_of_add. by left.
Qed.

(** C11: After the broker acknowledges an [unsubscribe], the status does not
    report the topic. *)
Theorem unsubscribe_ack_not_in_status w c j topic granted st :
  completed_request w c j = Some (ReqUnsubscribe topic (UnsubscribeCb topic)) ->
  eval getConnectionStatus (turn (ClientCompletes c j None granted) w) = Ok st ->
  topic ∉ status_subscriptions st.
Proof.
  intros Hreq. unfold eval. rewrite getConnectionStatus_spec. simpl.
  intros [= <-]. simpl. rewrite turn_registry, Hreq. simpl.
  rewrite reg_elem_of_delete. tauto.
Qed.

(** C30: The registry changes by acknowledged requests only: a method call,
    a client event or a completion that reports an error leaves it as it
    is.  In particular [disconnect] and the loss of the link do not clear
    it. *)
Theorem registry_frame i w :
  (forall c j granted, i <> ClientCompletes c j None granted) ->
  subscriptions (this (turn i w)) = subscriptions (this w).
Proof.
  intros Hi. rewrite turn_registry.
  destruct i as [| | | | | | | | |c j [e|] granted| |]; try done.
  - destruct (completed_request w c j) as [r|]; [|done].
    by destruct (request_callback r).
  - by destruct (Hi c j granted).
Qed.

End Invariant.

(** ** The turns request handlers cause *)

Section HandlerCalls.
Context {Reg : Type} `{RegistryOps Reg} {codec : JsonCodec}.
Implicit Types (w : World Reg) (i : Input) (tr : list Input).

(** The inputs a request handler causes: calls of the methods of the
    gateway and timers it sets. *)
Definition is_handler_call (i : Input) : bool :=
  match i with
  | CallSubscribe _ _ | CallUnsubscribe _ | CallPublish _ _ _
  | CallCreateQueue _ _ | CallGetConnectionStatus | CallSetTimeout => true
  | _ => false
  end.

Lemma turn_subscribe topic options w :
  turn (CallSubscribe topic options) w = exec (subscribe topic options) w.
Proof. by apply exec_bind_pure. Qed.

Lemma turn_unsubscribe topic w :
  turn (CallUnsubscribe topic) w = exec (unsubscribe topic) w.
Proof. by apply exec_bind_pure. Qed.

Lemma turn_publish topic message options w :
  turn (CallPublish topic message options) w = exec (publish topic message options) w.
Proof. by apply exec_bind_pure. Qed.

Lemma turn_createQueue queueName options w :
  turn (CallCreateQueue queueName options) w
  = exec (Gateway.createQueue queueName options) w.
Proof. by apply exec_bind_pure. Qed.

(** Handler calls are always enabled, and none is [connect]. *)
Lemma handler_calls_Trace tr w :
  forallb is_handler_call tr = true -> Trace w tr (turns tr w).
Proof.
  revert w. induction tr as [|i tr IH]; intros w; simpl; [constructor|].
  intros [Hi Htr]%andb_true_iff. constructor; [by destruct i | by apply IH].
Qed.

Lemma handler_calls_no_connect tr :
  forallb is_handler_call tr = true ->
  filter (fun i => is_connect i = true) tr = [].
Proof.
  induction tr as [|i tr IH]; simpl; [done|].
  intros [Hi Htr]%andb_true_iff. rewrite filter_cons, IH by done.
  by destruct i.
Qed.

Lemma turn_setTimeout w : turn CallSetTimeout w = exec sleep w.
Proof. by apply exec_bind_pure. Qed.

End HandlerCalls.

(** ** The promises of [publish] and [createQueue] *)

Section Promises.
Context {Reg : Type} `{RegistryOps Reg} {codec : JsonCodec}.
Implicit Types (w : World Reg) (i : Input) (ps : list Promise).

(** What the callback [cb], called with [error] and [granted], does to the
    promises. *)
Definition promise_effect (cb : Callback) (error : option JsError)
  (granted : JsVal) (ps : list Promise) : list Promise :=
  match cb, error with
  | PublishCb _ _ p, None => settle (Resolved JUndefined) p ps
  | CreateQueueCb _ p, None => settle (Resolved granted) p ps
  | PublishCb _ _ p, Some e | CreateQueueCb _ p, Some e => settle (Rejected e) p ps
  | _, _ => ps
  end.

Lemma turn_completes_promises w c j r error granted :
  completed_request w c j = Some r ->
  promises (turn (ClientCompletes c j error granted) w)
  = promise_effect (request_callback r) error granted (promises w).
Proof.
  unfold completed_request.
  destruct w as [[? ? ? ? ?] cs ? ?]. unfold turn, exec, step, complete, bind, get.
  simpl. destruct (cs !! c) as [cl|]; simpl; [|done].
  unfold client_complete. destruct (outbox cl !! j) as [r'|]; simpl; [|done].
  intros [= ->].
  destruct r as [? ? cb|? cb|? ? ? cb]; destruct cb, error; by unfold_service.
Qed.

Lemma turn_completes_none w c j error granted :
  completed_request w c j = None -> turn (ClientCompletes c j error granted) w = w.
Proof.
  unfold completed_request, turn, exec, step, complete, bind, get. simpl.
  destruct (clients w !! c) as [cl|]; simpl; [|done].
  unfold client_complete. by destruct (outbox cl !! j).
Qed.

(** A settled promise stays as it is, whatever is settled or created. *)
Lemma settle_keeps st p q ps pr :
  ps !! q = Some pr -> is_settled pr = true -> settle st p ps !! q = Some pr.
Proof.
  intros Hq Hs. destruct (decide (p = q)) as [->|].
  - rewrite (settle_settled st q ps pr); [done..|]. by intros ->.
  - by rewrite settle_other.
Qed.

Lemma promise_effect_keeps cb error granted q ps pr :
  ps !! q = Some pr -> is_settled pr = true ->
  promise_effect cb error granted ps !! q = Some pr.
Proof. intros. destruct cb, error; simpl; auto using settle_keeps. Qed.

Lemma turn_promise_settled i w q pr :
  promises w !! q = Some pr -> is_settled pr = true ->
  promises (turn i w) !! q = Some pr.
Proof.
  intros Hq Hs.
  destruct i as [| | | | | | | | |c j error granted| |p].
  10: { destruct (completed_request w c j) as [r|] eqn:E.
        - rewrite (turn_completes_promises _ _ _ r) by done.
          by apply promise_effect_keeps.
        - by rewrite turn_completes_none. }
  all: world_cases w; try done.
  all: try (apply settle_keeps; [|done]).
  all: try (by apply lookup_app_l_Some).
  apply wake_keeps; [done|]. by intros ->.
Qed.

(** The request [publish] queues is the last of the client's outbox. *)
Lemma completed_request_last w c cl r :
  clients w !! c = Some cl ->
  completed_request (upd_clients (alter (client_request r) c) w) c
    (length (outbox cl)) = Some r.
Proof.
  intros Hc. unfold completed_request. simpl.
  rewrite list_lookup_alter, Hc, decide_True by done. simpl.
  by rewrite lookup_app_r, Nat.sub_diag by lia.
Qed.

(** The state a completion leaves the promise in. *)
Definition settled_by (error : option JsError) (value : JsVal) : Promise :=
  match error with
  | None => Resolved value
  | Some e => Rejected e
  end.

(** The promise [publish] returns while connected is pending until the
    client completes the request, and then settles with the outcome of
    the request. *)
Lemma publish_settles topic message options w c cl messageString error granted :
  isConnected (this w) = true -> client (this w) = Some c ->
  clients w !! c = Some cl ->
  message_string message = Ok messageString ->
  let p := length (promises w) in
  let w1 := turn (CallPublish topic message options) w in
  promises w1 !! p = Some Pending
  /\ promises (turn (ClientCompletes c (length (outbox cl)) error granted) w1) !! p
     = Some (settled_by error JUndefined).
Proof.
  intros Hcon Hc Hcl Hm p w1.
  assert (w1 = (publish topic message options w).2) as Hw1 by by apply exec_bind_pure.
  rewrite (publish_connected _ _ _ _ c messageString) in Hw1 by done.
  simpl in Hw1. rewrite Hw1. split.
  - simpl. apply lookup_new_promise.
  - erewrite turn_completes_promises by by apply completed_request_last.
    simpl. destruct error; simpl; apply settle_pending, lookup_new_promise.
Qed.

(** C14: [createQueue] registers the queue only when the broker grants the
    subscription: the promise is pending until the completion; without error
    it resolves with what was granted and the queue joins the registry; with
    an error it rejects with that error and the registry is unchanged, so a
    failed half of a device's queue pair leaves no trace. *)
Theorem createQueue_settles queueName options w c cl error granted :
  isConnected (this w) = true -> client (this w) = Some c ->
  clients w !! c = Some cl ->
  let p := length (promises w) in
  let w1 := turn (CallCreateQueue queueName options) w in
  let w2 := turn (ClientCompletes c (length (outbox cl)) error granted) w1 in
  promises w1 !! p = Some Pending
  /\ promises w2 !! p = Some (settled_by error granted)
  /\ subscriptions (this w2)
     = match error with
       | Some _ => subscriptions (this w)
       | None => reg_add queueName (subscriptions (this w))
       end.
Proof.
  intros Hcon Hc Hcl p w1 w2.
  assert (w1 = (createQueue queueName options w).2) as Hw1 by by apply exec_bind_pure.
  rewrite (createQueue_connected _ _ _ c) in Hw1 by done.
  simpl in Hw1. unfold w2. rewrite Hw1. split_and!.
  - simpl. apply lookup_new_promise.
  - erewrite turn_completes_promises by by apply completed_request_last.
    simpl. destruct error; simpl; apply settle_pending, lookup_new_promise.
  - rewrite turn_registry. erewrite completed_request_last by done.
    simpl. by destruct error.
Qed.

(** A promise settles once: whatever the later turns of the event loop,
    a promise that has been resolved or rejected keeps its state. *)
Theorem promise_settles_once tr w w' q pr :
  Trace w tr w' -> promises w !! q = Some pr -> is_settled pr = true ->
  promises w' !! q = Some pr.
Proof. induction 1; eauto using turn_promise_settled. Qed.

End Promises.

(** ** Concrete executions *)

(** The gateway connects, the default topic is acknowledged, a device queue
    is created and acknowledged, a message arrives. *)
Definition demo_trace : list Input :=
  [CallConnect None;
   ClientEmits 0 EvConnect;
   ClientCompletes 0 0 None JNull;
   CallCreateQueue "octaloop-mdm-in-d1" JUndefined;
   ClientCompletes 0 0 None (JArr []);
   ClientEmits 0 (EvMessage "mdm/devices/dev1/reboot" "hello" JNull);
   CallUnsubscribe "octaloop-mdm-in";
   CallSubscribe "weather/station1" JUndefined].

Definition demo_world : World (list string) := turns demo_trace initial.

Lemma demo_Trace : Trace initial demo_trace demo_world.
Proof. apply run_Trace. by vm_compute. Qed.

Lemma reachable_invariant_witness : Inv demo_world.
Proof. apply reachable_invariant. exists demo_trace. apply demo_Trace. Defined.

Lemma turn_never_throws_witness :
  eval (step (CallPublish "t" (JObj [("a", JNum 1)]) JUndefined)) demo_world = Ok tt.
Proof.
  apply turn_never_throws; [|reflexivity|done].
  apply (Trace_Inv _ _ _ demo_Trace), Inv_initial.
Defined.

Lemma subscribe_ack_in_status_witness :
  "weather/station1"
  ∈ status_subscriptions
      {| connected := true;
         status_subscriptions := ["octaloop-mdm-in"; "octaloop-mdm-in-d1"; "weather/station1"];
         status_reconnectAttempts := 0 |}.
Proof.
  apply (subscribe_ack_in_status demo_world 0 1 "weather/station1"
           (JObj [("qos", JNum 1)]) JNull); by vm_compute.
Defined.

Lemma unsubscribe_ack_not_in_status_witness :
  "octaloop-mdm-in"
  ∉ status_subscriptions
      {| connected := true;
         status_subscriptions := ["octaloop-mdm-in-d1"];
         status_reconnectAttempts := 0 |}.
Proof.
  apply (unsubscribe_ack_not_in_status demo_world 0 0 "octaloop-mdm-in" JNull);
    by vm_compute.
Defined.

Lemma registry_frame_witness :
  subscriptions (this (turn CallDisconnect demo_world))
  = subscriptions (this demo_world).
Proof. by apply registry_frame. Defined.

Lemma createQueue_settles_witness :
  let w1 := turn (CallCreateQueue "octaloop-mdm-in-d1" JUndefined) connected_world in
  let w2 := turn (ClientCompletes 0 0 (Some (Error "denied")) JNull) w1 in
  promises w1 !! 0 = Some Pending
  /\ promises w2 !! 0 = Some (Rejected (Error "denied"))
  /\ subscriptions (this w2) = ["octaloop-mdm-in"].
Proof.
  by apply (createQueue_settles "octaloop-mdm-in-d1" JUndefined connected_world 0
              (mkClient Up false []) (Some (Error "denied")) JNull).
Defined.

Lemma promise_settles_once_witness :
  promises (turns [CallBroadcastToAllDevices JNull; CallConnect None]
              (initial : World (list string))) !! 0
  = Some (Rejected (TypeError "this.broadcast is not a function")).
Proof.
  apply (promise_settles_once [CallConnect None]
           (turn (CallBroadcastToAllDevices JNull) initial)); [|done..].
  apply run_Trace. by vm_compute.
Defined.

End EventLoop.
