(* ===== verification/Reconnect.v ===== *)
(** * The connection state machine and the reconnect bound

    The abstract specification of the connection manager: the phase of the
    one client object, whether it was ended, the service's [isConnected]
    flag and its attempt counter, with one transition per input
    ([conn_step]).  The service refines it ([conn_of_turn]) in the
    executions of [src/server.js], where [connect] is called once.  On the
    abstract machine the bound is a small invariant ([CInv]); the
    refinement carries it to the service.  The last part shows what a
    second call of [connect] does: the client it replaces is [lost] to
    the service and reconnects without bound. *)

From S2P Require Import Prelude JsString JsValue Registry Client ServiceState.
From S2P Require Import Json Router Gateway Connection EventLoop.
Import JsString JsValue Json Registry Client ServiceState.
Import Router Gateway Connection EventLoop.

Module Reconnect.

(** ** The abstract machine *)

Record Conn : Type := mkConn {
  c_client : option (Link * bool);  (* phase and ended flag of the client *)
  c_isConnected : bool;
  c_attempts : nat;
  c_max : nat;
}.

(** The four states the specification names. *)
Inductive Phase : Type := Disconnected | PConnecting | Connected | POffline.

Definition phase_of (s : Conn) : Phase :=
  match c_client s with
  | None | Some (_, true) => Disconnected
  | Some (Connecting, false) => PConnecting
  | Some (Up, false) => Connected
  | Some (Offline, false) => POffline
  end.

Definition conn_initial : Conn :=
  {| c_client := None; c_isConnected := false; c_attempts := 0; c_max := 10 |}.

Definition conn_step (i : Input) (s : Conn) : Conn :=
  match i, c_client s with
  | CallConnect None, _ =>
      mkConn (Some (Connecting, false)) (c_isConnected s) (c_attempts s) (c_max s)
  | CallDisconnect, Some (l, _) =>
      mkConn (Some (l, true)) false (c_attempts s) (c_max s)
  | ClientEmits _ EvConnect, Some (_, e) =>
      mkConn (Some (Up, e)) true 0 (c_max s)
  | ClientEmits _ EvOffline, Some (_, e) =>
      mkConn (Some (Offline, e)) false (c_attempts s) (c_max s)
  | ClientEmits _ EvDisconnect, _ =>
      mkConn (c_client s) false (c_attempts s) (c_max s)
  | ClientEmits _ EvReconnect, Some (l, e) =>
      let n := S (c_attempts s) in
      mkConn (Some (l, if c_max s <? n then true else e)) (c_isConnected s) n (c_max s)
  | _, _ => s
  end.

(** The inputs the machine accepts: an event needs a client that may emit
    it; a second [connect] is not part of these executions. *)
Definition conn_enabled (s : Conn) (i : Input) : bool :=
  match i with
  | CallConnect None => bool_decide (c_client s = None)
  | ClientEmits c ev =>
      match c_client s with
      | Some (l, e) => bool_decide (c = 0) && client_emits (mkClient (Cb:=Callback) l e []) ev
      | None => false
      end
  | _ => true
  end.

(** The invariant of the machine. *)
Record CInv (s : Conn) : Prop := mkCInv {
  cinv_up : c_isConnected s = true -> c_client s = Some (Up, false);
  cinv_bound :
    c_attempts s
    <= c_max s + (if from_option snd false (c_client s) then 1 else 0);
  cinv_fresh : c_client s = None -> c_attempts s = 0;
}.

Lemma CInv_initial : CInv conn_initial.
Proof. split; simpl; [done | lia | done]. Qed.

Lemma conn_step_CInv i s :
  CInv s -> conn_enabled s i = true -> CInv (conn_step i s).
Proof.
  intros [Hup Hb Hf] Hen. destruct s as [[[l e]|] ic n mx]; simpl in *.
  - destruct i as [[?|]| | | | | | | |? []| | |]; simpl in *; try done;
      try (split; simpl; intros; simplify_eq/=; by (done || lia || auto)).
    + split; simpl; [done | destruct e; lia | done].
    + apply andb_true_iff in Hen as [_ Hen]. unfold client_emits in Hen.
      simpl in Hen. destruct e; [done|]. split; simpl; [done|lia|done].
    + apply andb_true_iff in Hen as [_ Hen]. unfold client_emits in Hen.
      simpl in Hen. destruct e; [done|]. simpl in Hen.
      apply bool_decide_eq_true in Hen as ->.
      destruct ic; [by specialize (Hup eq_refl)|].
      split; simpl; [done| |done].
      destruct (mx <? S n) eqn:E; [apply Nat.ltb_lt in E | apply Nat.ltb_ge in E]; lia.
  - specialize (Hf eq_refl) as ->.
    destruct ic; [by specialize (Hup eq_refl)|].
    destruct i as [[?|]| | | | | | | |? []| | |]; simpl in *; try done;
      split; simpl; intros; simplify_eq/=; by (done || lia).
Qed.

(** ** The service refines the machine *)

Section Refinement.
Context {Reg : Type} `{RegistryLaws Reg} {codec : JsonCodec}.
Implicit Types (w : World Reg) (i : Input).

(** The abstraction function. *)
Definition conn_of (w : World Reg) : Conn :=
  {| c_client := (fun cl => (link cl, ended cl)) <$> clients w !! 0;
     c_isConnected := isConnected (this w);
     c_attempts := reconnectAttempts (this w);
     c_max := maxReconnectAttempts (this w) |}.

(** At most one client object exists. *)
Definition single (w : World Reg) : Prop := length (clients w) <= 1.

(** The input does not create a second client. *)
Definition no_second_client (w : World Reg) (i : Input) : Prop :=
  creates_client i = true -> clients w = [].

Lemma single_turn i w : single w -> no_second_client w i -> single (turn i w).
Proof.
  unfold single, no_second_client. intros Hs Hcr. rewrite turn_clients_length.
  destruct (creates_client i); [|done]. rewrite Hcr by done. simpl. lia.
Qed.

Lemma conn_of_initial : conn_of (initial : World Reg) = conn_initial.
Proof. reflexivity. Qed.

Lemma enabled_conn_enabled i w :
  single w -> enabled w i = true -> no_second_client w i ->
  conn_enabled (conn_of w) i = true.
Proof.
  unfold single, no_second_client. intros Hs Hen Hcr.
  destruct i as [[?|]| | | | | | | |c ev| | |]; simpl in *; try done.
  - by rewrite Hcr.
  - destruct (clients w) as [|cl [|? ?]]; simpl in *; [done| |lia].
    destruct c as [|c]; simpl in *; [|done]. by destruct cl.
Qed.

Lemma conn_of_turn i w :
  Inv w -> single w -> enabled w i = true -> no_second_client w i ->
  conn_of (turn i w) = conn_step i (conn_of w).
Proof.
  unfold single, no_second_client. intros [Hc Hcon _ _] Hs Hen Hcr.
  destruct w as [[cl ic subs ra mx] cs ps es]. simpl in *.
  destruct cs as [|c0 [|? ?]]; simpl in *; [| |lia];
    unfold latest in Hc; simpl in Hc; subst cl.
  - assert (ic = false) as -> by (destruct ic; [by specialize (Hcon eq_refl)|done]).
    destruct i as [[?|]| | | | | | | |? []| | |]; simpl in Hen; try done;
      unfold conn_of; by unfold_service.
  - destruct i as [[?|]| | | | | | | |c []|c ?| |]; try (by specialize (Hcr eq_refl));
      try (destruct c as [|c]; simpl in Hen; [|done]);
      unfold conn_of; unfold_service; repeat case_match; simplify_eq/=;
      try match goal with
          | Hcc : client_complete _ _ = Some _ |- _ =>
              apply client_complete_Some in Hcc as (_ & _ & -> & ->)
          end; done.
Qed.

(** The machine's run on a sequence of inputs. *)
Definition conn_run (tr : list Input) (s : Conn) : Conn :=
  fold_left (fun s i => conn_step i s) tr s.

(** The number of calls of [connect] in a sequence of inputs. *)
Definition count_connects (tr : list Input) : nat :=
  length (filter (fun i => is_connect i = true) tr).

Lemma count_connects_cons i tr :
  count_connects (i :: tr) = (if is_connect i then 1 else 0) + count_connects tr.
Proof.
  unfold count_connects. rewrite filter_cons.
  destruct (is_connect i); by rewrite ?decide_True, ?decide_False by done.
Qed.

Lemma creates_client_is_connect i : creates_client i = true -> is_connect i = true.
Proof. by destruct i. Qed.

(** Along an execution with one [connect], the service follows the machine
    and the machine's invariant holds. *)
Lemma Trace_conn w tr w' :
  Trace w tr w' -> Inv w -> CInv (conn_of w) ->
  count_connects tr + length (clients w) <= 1 ->
  conn_of w' = conn_run tr (conn_of w) /\ CInv (conn_of w') /\ single w'.
Proof.
  induction 1 as [w|w i tr w' Hen Htr IH]; intros HI HC Hn.
  { unfold single. split_and!; [done | done | lia]. }
  rewrite count_connects_cons in Hn.
  assert (single w) as Hs by (unfold single; lia).
  assert (no_second_client w i) as Hcr.
  { intros Hi%creates_client_is_connect. rewrite Hi in Hn.
    destruct (clients w); [done | simpl in Hn; lia]. }
  pose proof (conn_of_turn i w HI Hs Hen Hcr) as Hstep.
  destruct IH as (Heq & HC' & Hs').
  - by apply turn_Inv.
  - rewrite Hstep. apply conn_step_CInv; [done|]. by apply enabled_conn_enabled.
  - rewrite turn_clients_length.
    destruct (creates_client i) eqn:Ei; [|destruct (is_connect i); lia].
    rewrite (creates_client_is_connect _ Ei) in Hn. lia.
  - split_and!; [|done..]. rewrite Heq. simpl. by rewrite Hstep.
Qed.

Lemma Trace_initial_conn tr w :
  Trace initial tr w -> connects_once tr ->
  conn_of w = conn_run tr conn_initial /\ CInv (conn_of w) /\ single w.
Proof.
  intros Htr Honce. rewrite <- conn_of_initial.
  eapply Trace_conn; [done | apply Inv_initial | apply CInv_initial |].
  unfold connects_once, count_connects in *. simpl. lia.
Qed.

(** In a single-client world the only client is the current one. *)
Lemma single_current w c cl :
  single w -> clients w !! c = Some cl -> c = 0.
Proof.
  unfold single. intros Hs Hc%lookup_lt_Some. lia.
Qed.

End Refinement.

(** ** The reconnect bound *)

Section Bound.
Context {Reg : Type} `{RegistryLaws Reg} {codec : JsonCodec}.
Implicit Types (w : World Reg) (tr : list Input).

(** The states the gateway reaches when [connect] is called at most once,
    as [src/server.js] does. *)
Definition reachable_once (w : World Reg) : Prop :=
  exists tr, Trace initial tr w /\ connects_once tr.

Lemma reachable_once_reachable w : reachable_once w -> reachable w.
Proof. intros (tr & Htr & _). by exists tr. Qed.

(** C5: In every execution that calls [connect] at most once, the attempt
    counter never exceeds the configured maximum by more than one: the
    attempt that exceeds it is the last. *)
Theorem reconnect_bound w :
  reachable_once w ->
  reconnectAttempts (this w) <= S (maxReconnectAttempts (this w)).
Proof.
  intros (tr & Htr & Honce).
  destruct (Trace_initial_conn tr w Htr Honce) as (_ & [_ Hb _] & _).
  simpl in Hb. destruct (from_option _ _ _); lia.
Qed.

(** C19: Once the counter has exceeded the maximum, the manager has given
    up: the service reports disconnected, its client has been ended, and no
    client emits an event any more, so no further attempt is made until
    [connect] is called again. *)
Theorem reconnect_gives_up w :
  reachable_once w ->
  maxReconnectAttempts (this w) < reconnectAttempts (this w) ->
  isConnected (this w) = false
  /\ (ended <$> current_client w) = Some true
  /\ forall c ev, enabled w (ClientEmits c ev) = false.
Proof.
  intros (tr & Htr & Honce) Hlt.
  destruct (Trace_initial_conn tr w Htr Honce) as (_ & [Hup Hb Hf] & Hs).
  pose proof (Trace_Inv _ _ _ Htr Inv_initial) as [Hc _ _ _].
  unfold current_client. rewrite Hc. unfold single, latest in *. simpl in *.
  destruct (clients w) as [|cl [|? ?]] eqn:Ecs; simpl in *; [lia| |lia].
  destruct (ended cl) eqn:Ee; [|lia]. split_and!; [|done|].
  - destruct (isConnected (this w)); [|done]. specialize (Hup eq_refl).
    congruence.
  - intros [|c] ev; [|done]. simpl. by apply client_emits_ended.
Qed.

(** C20: The connected flag is sound: when the service reports connected,
    its client is up and has not been ended. *)
Theorem connected_flag_sound w :
  reachable_once w ->
  isConnected (this w) = true ->
  exists cl, current_client w = Some cl /\ link cl = Up /\ ended cl = false.
Proof.
  intros (tr & Htr & Honce) Hcon.
  destruct (Trace_initial_conn tr w Htr Honce) as (_ & [Hup _ _] & Hs).
  pose proof (Trace_Inv _ _ _ Htr Inv_initial) as [Hc _ _ _].
  specialize (Hup Hcon). unfold current_client. rewrite Hc.
  unfold single, latest in *. simpl in *.
  destruct (clients w) as [|cl [|? ?]]; simpl in *; [done| |lia].
  exists cl. by simplify_eq.
Qed.

(** C21: The service refines the connection state machine: after any
    execution with one [connect], the phase of its client, its connected
    flag and its attempt counter are those the machine computes from the
    same inputs. *)
Theorem service_refines_machine tr w :
  Trace initial tr w -> connects_once tr ->
  conn_of w = conn_run tr conn_initial.
Proof. intros Htr Honce. by apply Trace_initial_conn. Qed.

End Bound.

(** ** A second [connect] *)

Section Lost.
Context {Reg : Type} `{RegistryLaws Reg} {codec : JsonCodec}.
Implicit Types (w : World Reg).

(** A client the service has lost: it is not the client of the latest
    [connect], its link is down and nobody has ended it. *)
Definition lost w (c : nat) : Prop :=
  exists cl c', clients w !! c = Some cl /\ link cl = Offline /\ ended cl = false
                /\ client (this w) = Some c' /\ c' <> c.

(** The reconnect attempt of a lost client counts, and the handler ends
    another client, if any: the lost client can try again. *)
Lemma lost_reconnect w c :
  lost w c ->
  enabled w (ClientEmits c EvReconnect) = true
  /\ lost (turn (ClientEmits c EvReconnect) w) c
  /\ reconnectAttempts (this (turn (ClientEmits c EvReconnect) w))
     = S (reconnectAttempts (this w)).
Proof.
  intros (cl & c' & Hc & Hl & He & Hc' & Hne). split.
  { simpl. rewrite Hc. unfold client_emits. rewrite He, Hl. by rewrite bool_decide_eq_true_2. }
  unfold turn, exec, step, bind, modify. simpl.
  set (w1 := upd_clients (alter (client_after EvReconnect) c) w).
  assert (lost w1 c) as Hl1.
  { exists cl, c'. unfold w1. destruct w; simpl in *. rewrite list_lookup_alter, decide_True, Hc by done. done. }
  destruct (decide (S (reconnectAttempts (this w1)) <= maxReconnectAttempts (this w1))) as [Hle|Hgt].
  - rewrite (on_reconnect_within w1 Hle). simpl. split; [|by destruct w].
    destruct Hl1 as (cl1 & c1 & ? & ? & ? & ? & ?). exists cl1, c1. by destruct w.
  - rewrite (on_reconnect_exceeds w1 c') by (by destruct w; simpl in *; (lia || done)).
    simpl. split; [|by destruct w].
    exists cl, c'. destruct w; simpl in *.
    rewrite list_lookup_alter_ne by done. rewrite list_lookup_alter, decide_True, Hc by done.
    done.
Qed.


(** With two calls of [connect] there is no bound: the first client,
    lost, makes as many attempts as the environment lets it, and the
    counter counts them all. *)
Lemma lost_attempts w c n :
  lost w c ->
  exists w', Trace w (repeat (ClientEmits c EvReconnect) n) w'
             /\ lost w' c
             /\ reconnectAttempts (this w') = n + reconnectAttempts (this w).
Proof.
  revert w. induction n as [|n IH]; intros w Hl; [exists w; split; [constructor|done]|].
  destruct (lost_reconnect w c Hl) as (Hen & Hl' & Ha).
  destruct (IH _ Hl') as (w' & Htr & Hl'' & Ha').
  exists w'. split; [by constructor|]. split; [done|]. lia.
Qed.

Lemma count_connects_repeat c ev n : count_connects (repeat (ClientEmits c ev) n) = 0.
Proof. unfold count_connects. induction n as [|n IH]; [done|]. simpl. by rewrite filter_cons_False. Qed.

End Lost.

(** ** Concrete executions *)

(** The link is lost after the first connection and every attempt fails:
    eleven attempts are made. *)
Definition lossy_trace : list Input :=
  [CallConnect None; ClientEmits 0 EvConnect; ClientEmits 0 EvOffline]
  ++ repeat (ClientEmits 0 EvReconnect) 11.

(** [connect] is called twice and the first client loses its link. *)
Definition second_connect : list Input :=
  [CallConnect None; CallConnect None; ClientEmits 0 EvOffline].

Lemma lossy_Trace :
  Trace (initial : World (list string)) lossy_trace (turns lossy_trace initial).
Proof. apply run_Trace. by vm_compute. Qed.

Lemma lossy_once : connects_once lossy_trace.
Proof. by vm_compute. Qed.

Lemma lossy_reachable_once :
  reachable_once (turns lossy_trace (initial : World (list string))).
Proof. exists lossy_trace. split; [apply lossy_Trace | apply lossy_once]. Qed.

Lemma reconnect_bound_witness :
  reconnectAttempts (this (turns lossy_trace (initial : World (list string))))
  <= S (maxReconnectAttempts (this (turns lossy_trace (initial : World (list string))))).
Proof. exact (reconnect_bound _ lossy_reachable_once). Defined.

Lemma reconnect_gives_up_witness :
  let w := turns lossy_trace (initial : World (list string)) in
  isConnected (this w) = false
  /\ (ended <$> current_client w) = Some true
  /\ forall c ev, enabled w (ClientEmits c ev) = false.
Proof.
  apply (reconnect_gives_up _ lossy_reachable_once).
  vm_compute. lia.
Defined.

Lemma connected_flag_sound_witness :
  exists cl, current_client (turns [CallConnect None; ClientEmits 0 EvConnect]
                               (initial : World (list string))) = Some cl
             /\ link cl = Up /\ ended cl = false.
Proof.
  apply connected_flag_sound; [|reflexivity].
  exists [CallConnect None; ClientEmits 0 EvConnect].
  split; [apply run_Trace|]; by vm_compute.
Defined.

Lemma service_refines_machine_witness :
  conn_of (turns lossy_trace (initial : World (list string)))
  = conn_run lossy_trace conn_initial.
Proof. exact (service_refines_machine lossy_trace _ lossy_Trace lossy_once). Defined.

Lemma second_connect_lost : lost (turns second_connect (initial : World (list string))) 0.
Proof. exists (mkClient Offline false []), 1. by vm_compute. Qed.

(** C31: The bound depends on [connect] being called once.  After a second
    call the reconnect handler of the first client ends the second
    client, never the first: for every [n] there is an execution with two
    calls of [connect] in which the counter of attempts is [n] and the
    first client, its link down, is not ended and can try again. *)
Theorem second_connect_breaks_bound n :
  exists tr (w : World (list string)),
    Trace initial tr w /\ count_connects tr = 2
    /\ reconnectAttempts (this w) = n
    /\ lost w 0.
Proof.
  destruct (lost_attempts _ 0 n second_connect_lost) as (w & Htr & Hl & Ha).
  exists (second_connect ++ repeat (ClientEmits 0 EvReconnect) n), w. split_and!; [|..|done].
  - eapply Trace_app; [|done]. apply run_Trace. by vm_compute.
  - unfold count_connects. rewrite filter_app, length_app.
    fold (count_connects (repeat (ClientEmits 0 EvReconnect) n)).
    by rewrite count_connects_repeat.
  - assert (reconnectAttempts (this (turns second_connect (initial : World (list string)))) = 0)
      as Hz by (by vm_compute).
    lia.
Qed.

End Reconnect.
