(* ===== verification/Owed.v ===== *)
(** * Pending promises and the requests that settle them

    A promise of [publish] or [createQueue] is settled by the completion
    callback the service hands to the client library, and by nothing else.
    This file states when a pending promise is _owed_, that is, when a
    request whose callback settles it is in flight at some client, and
    proves that in every execution every pending promise is owed: no
    method of [src/services/mqttService.js] leaves a promise that nothing
    will settle. *)

From S2P Require Import Prelude JsString JsValue Json Registry Client ServiceState.
From S2P Require Import Router Gateway Connection EventLoop.
Import JsString JsValue Json Registry Client ServiceState Gateway Connection EventLoop.

Module Owed.

(** The promise a completion callback settles: the [resolve] and [reject]
    the closures of [publish] and [createQueue] capture. *)
Definition settles (cb : Callback) : option nat :=
  match cb with
  | PublishCb _ _ p | CreateQueueCb _ p => Some p
  | SubscribeCb _ | UnsubscribeCb _ => None
  end.

(** A request in flight at one of the clients will settle promise [p]. *)
Definition owed (cs : list (Client Callback)) (p : nat) : Prop :=
  Exists (fun cl => Exists (fun r => settles (request_callback r) = Some p) (outbox cl)) cs.

#[export] Instance owed_dec cs p : Decision (owed cs p).
Proof. unfold owed. apply _. Defined.

(** Every pending promise has its request in flight. *)
Definition Owing {Reg} (w : World Reg) : Prop :=
  forall p, promises w !! p = Some Pending -> owed (clients w) p.

(** ** Requests in flight *)

Section Requests.
Implicit Types (cs : list (Client Callback)) (cl : Client Callback)
  (r : Request Callback) (ps : list Promise).

Lemma owed_lookup cs p :
  owed cs p <-> exists c cl j r,
    cs !! c = Some cl /\ outbox cl !! j = Some r
    /\ settles (request_callback r) = Some p.
Proof.
  unfold owed. rewrite Exists_exists. split.
  - intros (cl & [c Hc]%list_elem_of_lookup_1 & (r & [j Hj]%list_elem_of_lookup_1 & ?)%Exists_exists).
    by exists c, cl, j, r.
  - intros (c & cl & j & r & Hc & Hj & ?). exists cl.
    split; [by eapply list_elem_of_lookup_2|]. apply Exists_exists. exists r.
    split; [by eapply list_elem_of_lookup_2|done].
Qed.

(** [connect] adds a client and keeps the others. *)
Lemma owed_app cs cs' p : owed cs p -> owed (cs ++ cs') p.
Proof. unfold owed. rewrite Exists_app. by left. Qed.

(** What the library and the service do to a client keeps its requests. *)
Lemma owed_alter f c cs p :
  (forall cl, outbox cl ⊆ outbox (f cl)) -> owed cs p -> owed (alter f c cs) p.
Proof.
  intros Hf (c' & cl & j & r & Hc & Hj & Hr)%owed_lookup. apply owed_lookup.
  destruct (decide (c = c')) as [<-|Hne].
  - assert (r ∈ outbox (f cl)) as (j' & Hj')%list_elem_of_lookup_1.
    { apply Hf. by eapply list_elem_of_lookup_2. }
    exists c, (f cl), j', r. by rewrite list_lookup_alter, Hc, decide_True.
  - exists c', cl, j, r. by rewrite list_lookup_alter_ne.
Qed.

(** A request that has just been queued. *)
Lemma owed_request r c cs p :
  c < length cs -> settles (request_callback r) = Some p ->
  owed (alter (client_request r) c cs) p.
Proof.
  intros [cl Hc]%lookup_lt_is_Some_2 Hr. apply owed_lookup.
  exists c, (client_request r cl), (length (outbox cl)), r.
  rewrite list_lookup_alter, Hc, decide_True by done. split; [done|]. split; [|done].
  simpl. by rewrite lookup_app_r, Nat.sub_diag by lia.
Qed.

(** A completion takes one request out of flight; the others stay. *)
Lemma owed_complete cs c cl j r q :
  cs !! c = Some cl -> outbox cl !! j = Some r ->
  settles (request_callback r) <> Some q -> owed cs q ->
  owed (<[c := {| link := link cl; ended := ended cl;
                  outbox := delete j (outbox cl) |}]> cs) q.
Proof.
  intros Hc Hj Hr (c' & cl' & j' & r' & Hc' & Hj' & Hr')%owed_lookup.
  apply owed_lookup. destruct (decide (c = c')) as [<-|Hne].
  - simplify_eq. assert (j <> j') as Hne by (intros ->; congruence).
    exists c, {| link := link cl; ended := ended cl; outbox := delete j (outbox cl) |},
      (if decide (j' < j) then j' else pred j'), r'.
    rewrite list_lookup_insert_eq by by eapply lookup_lt_Some.
    split; [done|]. simpl. split; [|done]. case_decide.
    + by rewrite list_lookup_delete_lt.
    + rewrite list_lookup_delete_ge by lia.
      by replace (S (pred j')) with j' by lia.
  - exists c', cl', j', r'. by rewrite list_lookup_insert_ne.
Qed.

Lemma outbox_client_end cl : outbox cl ⊆ outbox (client_end cl).
Proof. done. Qed.

Lemma outbox_client_after ev cl : outbox cl ⊆ outbox (client_after ev cl).
Proof. by destruct ev. Qed.

Lemma outbox_client_request r cl : outbox cl ⊆ outbox (client_request r cl).
Proof. intros x Hx. apply elem_of_app. by left. Qed.

(** ** Promises that are still pending *)

Lemma settle_Pending st p q ps :
  st <> Pending -> settle st p ps !! q = Some Pending ->
  ps !! q = Some Pending /\ p <> q.
Proof.
  intros Hst. unfold settle. destruct (ps !! p) as [[]|] eqn:Ep;
    try (intros Hq; split; [done|]; intros ->; congruence).
  destruct (decide (p = q)) as [->|].
  - rewrite list_lookup_insert_eq by by eapply lookup_lt_Some. congruence.
  - by rewrite list_lookup_insert_ne.
Qed.

Lemma wake_Pending p q ps : wake p ps !! q = Some Pending -> ps !! q = Some Pending.
Proof.
  unfold wake. destruct (ps !! p) as [[]|] eqn:Ep; try done.
  destruct (decide (p = q)) as [->|].
  - rewrite list_lookup_insert_eq by by eapply lookup_lt_Some. congruence.
  - by rewrite list_lookup_insert_ne.
Qed.

Lemma snoc_Pending pr q ps :
  (ps ++ [pr]) !! q = Some Pending ->
  ps !! q = Some Pending \/ (q = length ps /\ pr = Pending).
Proof.
  intros [?|[? Hq]]%lookup_app_Some; [by left|right].
  destruct (q - length ps) as [|n] eqn:E; simplify_eq/=. split; [lia|done].
Qed.

Lemma latest_lt {A} (xs : list A) n : latest xs = Some n -> n < length xs.
Proof. unfold latest. destruct (length xs); intros; simplify_eq. lia. Qed.

End Requests.

#[export] Hint Resolve outbox_client_end outbox_client_after outbox_client_request : js.

(** Which promise was pending before, given that it is pending now. *)
Ltac pending_inv Hq :=
  repeat match type of Hq with
         | settle _ _ _ !! _ = Some Pending =>
             apply settle_Pending in Hq as [Hq ?]; [|done]
         | wake _ _ !! _ = Some Pending => apply wake_Pending in Hq
         | (_ ++ [_]) !! _ = Some Pending =>
             apply snoc_Pending in Hq as [Hq|[-> ?]]
         end.

(** ** The invariant *)

Section Invariant.
Context {Reg : Type} `{RegistryLaws Reg} {codec : JsonCodec}.
Implicit Types (w : World Reg) (i : Input).

(** The completion of a request settles the promise of its callback and
    no other. *)
Lemma complete_Owing c j error granted w :
  Owing w -> Owing (turn (ClientCompletes c j error granted) w).
Proof.
  intros Ho q. destruct (completed_request w c j) as [r|] eqn:E;
    [|rewrite turn_completes_none by done; apply Ho].
  rewrite (turn_completes_promises _ _ _ r) by done.
  unfold completed_request in E. unfold Owing in Ho.
  destruct w as [[? ? ? ? ?] cs ps ?]. unfold turn, exec, step, complete, bind, get.
  simpl in *. destruct (cs !! c) as [cl|] eqn:Ec; simplify_eq/=.
  unfold client_complete. rewrite E. simpl. intros Hq.
  assert (ps !! q = Some Pending /\ settles (request_callback r) <> Some q) as [Hq' Hr].
  { destruct (request_callback r), error; simpl in *;
      try apply settle_Pending in Hq as [? ?]; try done; split; congruence. }
  assert (owed (<[c:={| link := link cl; ended := ended cl;
                        outbox := delete j (outbox cl) |}]> cs) q)
    by eauto using owed_complete.
  destruct r as [? ? cb|? cb|? ? ? cb]; destruct cb, error; by unfold_service.
Qed.

(** Every turn keeps the invariant: a method that creates a promise
    queues its request or rejects the promise before it returns. *)
Lemma turn_Owing i w : Inv w -> Owing w -> enabled w i = true -> Owing (turn i w).
Proof.
  intros [Hc _ _ _] Ho Hen q.
  destruct i as [| | | | | | | | |c j error granted| |p];
    [..|by apply complete_Owing| |].
  all: unfold Owing in Ho; world_cases w; intros Hq; pending_inv Hq; try done.
  all: try (apply owed_request; [by apply latest_lt|done]).
  all: repeat (apply owed_alter; [auto with js|]).
  all: try apply owed_app; by apply Ho.
Qed.

Lemma Trace_Owing w tr w' : Trace w tr w' -> Inv w -> Owing w -> Owing w'.
Proof. induction 1; eauto using turn_Inv, turn_Owing. Qed.

Lemma reachable_Owing w : reachable w -> Owing w.
Proof.
  intros [tr Htr]. apply (Trace_Owing _ _ _ Htr); [apply Inv_initial|].
  by intros p.
Qed.

(** The completion of the request that is owed settles the promise. *)
Lemma complete_settles w c cl j r p error granted :
  clients w !! c = Some cl -> outbox cl !! j = Some r ->
  settles (request_callback r) = Some p -> promises w !! p = Some Pending ->
  exists pr, promises (turn (ClientCompletes c j error granted) w) !! p = Some pr
             /\ is_settled pr = true.
Proof.
  intros Hc Hj Hr Hp. rewrite (turn_completes_promises _ _ _ r)
    by (unfold completed_request; by rewrite Hc).
  destruct (request_callback r), error; simplify_eq/=;
    eexists; (split; [by apply settle_pending|done]).
Qed.

(** The timer of a sleeping promise resolves it. *)
Lemma timer_settles w p :
  promises w !! p = Some Sleeping ->
  promises (turn (TimerFires p) w) !! p = Some (Resolved JUndefined).
Proof. intros Hp. by apply wake_sleeping. Qed.

End Invariant.

End Owed.
