(* ===== verification/Requests.v ===== *)
(** * The requests of the HTTP handlers

    What the controllers need of the event loop.  A handler changes the
    world only by calling methods of the gateway and by setting timers:
    [acts_by_calls] says so of a piece of code, and is proved of the
    handlers by composition ([solve_acts]); such code keeps the world
    within the executions of the event loop.  [createQueue_round] and
    [publish_round] give the world after a request and its completion, the
    two turns between which a handler is suspended. *)

From S2P Require Import Prelude JsString JsValue Registry Client ServiceState.
From S2P Require Import Json Router Gateway Connection EventLoop Reconnect.
Import JsString JsValue Json Registry Client ServiceState Router Gateway Connection.
Import EventLoop Reconnect.

Module Requests.

(** ** Code that acts by calls *)

Section Acts.
Context {Reg : Type} `{RegistryOps Reg} {codec : JsonCodec}.
Implicit Types (w : World Reg) (i : Input) (tr : list Input).

(** Code that changes the world by handler calls only. *)
Definition acts_by_calls {A} (m : M (World Reg) A) : Prop :=
  forall w, exists tr, forallb is_handler_call tr = true /\ exec m w = turns tr w.

Lemma turns_app tr1 tr2 w : turns (tr1 ++ tr2) w = turns tr2 (turns tr1 w).
Proof. apply fold_left_app. Qed.

Lemma acts_pure {A} (m : M (World Reg) A) :
  (forall w, exec m w = w) -> acts_by_calls m.
Proof. intros Hm w. exists []. by rewrite Hm. Qed.

Lemma acts_ret {A} (a : A) : acts_by_calls (ret a : M (World Reg) A).
Proof. by apply acts_pure. Qed.

Lemma acts_lift {A} (o : Outcome A) : acts_by_calls (lift o : M (World Reg) A).
Proof. by apply acts_pure. Qed.

Lemma acts_throw {A} e : acts_by_calls (throw e : M (World Reg) A).
Proof. by apply acts_pure. Qed.

Lemma acts_bind {A B} (m : M (World Reg) A) (k : A -> M (World Reg) B) :
  acts_by_calls m -> (forall a, acts_by_calls (k a)) -> acts_by_calls (bind m k).
Proof.
  intros Hm Hk w. destruct (Hm w) as (tr1 & H1 & E1). unfold exec, bind in *.
  destruct (m w) as [[a|e] w1]; simpl in *; subst; [|by exists tr1].
  destruct (Hk a (turns tr1 w)) as (tr2 & H2 & E2). exists (tr1 ++ tr2).
  by rewrite forallb_app, H1, H2, turns_app.
Qed.

Lemma acts_try_catch {A} (m : M (World Reg) A) (h : JsError -> M (World Reg) A) :
  acts_by_calls m -> (forall e, acts_by_calls (h e)) -> acts_by_calls (try_catch m h).
Proof.
  intros Hm Hh w. destruct (Hm w) as (tr1 & H1 & E1). unfold exec, try_catch in *.
  destruct (m w) as [[a|e] w1]; simpl in *; subst; [by exists tr1|].
  destruct (Hh e (turns tr1 w)) as (tr2 & H2 & E2). exists (tr1 ++ tr2).
  by rewrite forallb_app, H1, H2, turns_app.
Qed.

Lemma acts_call {A} (m : M (World Reg) A) i :
  is_handler_call i = true -> (forall w, turn i w = exec m w) -> acts_by_calls m.
Proof. intros Hi Hm w. exists [i]. simpl. by rewrite Hi, Hm. Qed.

Lemma acts_subscribe topic options : acts_by_calls (subscribe topic options).
Proof. by apply (acts_call _ (CallSubscribe topic options)), turn_subscribe. Qed.

Lemma acts_unsubscribe topic : acts_by_calls (unsubscribe topic).
Proof. by apply (acts_call _ (CallUnsubscribe topic)), turn_unsubscribe. Qed.

Lemma acts_publish topic message options : acts_by_calls (publish topic message options).
Proof. by apply (acts_call _ (CallPublish topic message options)), turn_publish. Qed.

Lemma acts_createQueue queueName options :
  acts_by_calls (createQueue queueName options).
Proof. by apply (acts_call _ (CallCreateQueue queueName options)), turn_createQueue. Qed.

Lemma acts_getConnectionStatus : acts_by_calls getConnectionStatus.
Proof. by apply acts_pure. Qed.

Lemma acts_sleep : acts_by_calls sleep.
Proof. by apply (acts_call _ CallSetTimeout), turn_setTimeout. Qed.

(** Such code keeps the world within the executions of the event loop. *)
Lemma acts_extends_trace {A} (m : M (World Reg) A) tr w :
  acts_by_calls m -> Trace initial tr w ->
  exists tr', Trace initial (tr ++ tr') (exec m w)
              /\ (connects_once tr -> connects_once (tr ++ tr')).
Proof.
  intros Hm Htr. destruct (Hm w) as (tr' & Hcalls & ->). exists tr'. split.
  - eapply Trace_app; [done|]. by apply handler_calls_Trace.
  - unfold connects_once. by rewrite filter_app, (handler_calls_no_connect tr'), app_nil_r.
Qed.

(** So it keeps the world reachable, and reachable with one [connect]. *)
(** The same from any start, with the calls that were made. *)
Lemma acts_Trace {A} (m : M (World Reg) A) w0 tr w :
  acts_by_calls m -> Trace w0 tr w ->
  exists tr', Trace w0 (tr ++ tr') (exec m w)
              /\ filter (fun i => is_connect i = true) tr' = [].
Proof.
  intros Hm Htr. destruct (Hm w) as (tr' & Hcalls & ->). exists tr'. split.
  - eapply Trace_app; [done|]. by apply handler_calls_Trace.
  - by apply handler_calls_no_connect.
Qed.

Lemma acts_reachable {A} (m : M (World Reg) A) w :
  acts_by_calls m -> reachable w -> reachable (exec m w).
Proof.
  intros Hm [tr Htr]. destruct (acts_extends_trace m tr w Hm Htr) as (tr' & ? & _).
  by eexists.
Qed.

Lemma acts_reachable_once {A} (m : M (World Reg) A) w :
  acts_by_calls m -> reachable_once w -> reachable_once (exec m w).
Proof.
  intros Hm (tr & Htr & Honce).
  destruct (acts_extends_trace m tr w Hm Htr) as (tr' & ? & Ho).
  exists (tr ++ tr'). auto.
Qed.

End Acts.

Create HintDb acts.

#[export] Hint Resolve acts_ret acts_lift acts_throw acts_subscribe acts_unsubscribe
  acts_publish acts_createQueue acts_getConnectionStatus acts_sleep : acts.

(** Decompose code into its calls. *)
Ltac solve_acts :=
  repeat first
    [ solve [eauto 2 with acts]
    | match goal with
      | |- acts_by_calls (if ?b then _ else _) => destruct b
      | |- acts_by_calls (match ?x with _ => _ end) => destruct x
      | |- acts_by_calls (let _ := _ in _) => cbv zeta
      end
    | apply acts_bind; [|intros ?]
    | apply acts_try_catch; [|intros ?] ].

(** ** A request and its completion *)

Section Rounds.
Context {Reg : Type} `{RegistryOps Reg} {codec : JsonCodec}.
Implicit Types (w : World Reg) (i : Input) (tr : list Input).

Lemma client_complete_last (cl : Client Callback) r :
  client_complete (length (outbox cl)) (client_request r cl) = Some (r, cl).
Proof.
  unfold client_complete, client_request. simpl.
  rewrite list_lookup_middle by done. destruct cl as [l e o]. simpl.
  do 3 f_equal. rewrite delete_middle. apply app_nil_r.
Qed.

(** The request queued last completes: its callback runs in the world as
    it was before the request. *)
Lemma turn_completes_last w c cl r error granted :
  clients w !! c = Some cl ->
  turn (ClientCompletes c (length (outbox cl)) error granted)
    (upd_clients (alter (client_request r) c) w)
  = exec (run_callback (request_callback r) error granted) w.
Proof.
  intros Hc. unfold turn, exec, step, complete, bind, get, modify. simpl.
  rewrite list_lookup_alter, Hc, decide_True by done. simpl.
  rewrite client_complete_last. simpl. do 2 f_equal.
  destruct w as [s cs ps es]. unfold upd_clients. simpl in *. f_equal.
  apply list_eq. intros i. destruct (decide (i = c)) as [->|Hne].
  - rewrite list_lookup_insert_eq; [done|].
    rewrite length_alter. by eapply lookup_lt_Some.
  - by rewrite list_lookup_insert_ne, list_lookup_alter_ne.
Qed.

(** [createQueue] and the completion of its request, as one step. *)
Lemma createQueue_round queueName options w c cl error granted :
  isConnected (this w) = true -> client (this w) = Some c ->
  clients w !! c = Some cl ->
  turns [CallCreateQueue queueName options;
         ClientCompletes c (length (outbox cl)) error granted] w
  = upd_promises (fun ps => ps ++ [settled_by error granted])
      (match error with
       | Some _ => w
       | None =>
           upd_this (fun s => set_subscriptions
                                (reg_add queueName (subscriptions s)) s) w
       end).
Proof.
  intros Hcon Hc Hcl. simpl. rewrite turn_createQueue. unfold exec.
  rewrite (createQueue_connected _ _ _ c) by done. simpl.
  rewrite (turn_completes_last _ c cl) by done. simpl.
  destruct w as [s cs ps es].
  destruct error; unfold exec, createQueue_cb, bind, assign, reject, resolve, modify,
    upd_promises, upd_this; simpl; by rewrite settle_fresh.
Qed.

(** [publish] and the completion of its request, as one step. *)
Lemma publish_round topic message options w c cl messageString error granted :
  isConnected (this w) = true -> client (this w) = Some c ->
  clients w !! c = Some cl ->
  message_string message = Ok messageString ->
  turns [CallPublish topic message options;
         ClientCompletes c (length (outbox cl)) error granted] w
  = upd_promises (fun ps => ps ++ [settled_by error JUndefined]) w.
Proof.
  intros Hcon Hc Hcl Hm. simpl. rewrite turn_publish. unfold exec.
  rewrite (publish_connected _ _ _ _ c messageString) by done. simpl.
  rewrite (turn_completes_last _ c cl) by done. simpl.
  destruct w as [s cs ps es].
  destruct error; unfold exec, publish_cb, reject, resolve, modify, upd_promises;
    simpl; by rewrite settle_fresh.
Qed.
End Rounds.

(** ** Requests of a connected service *)

Section Conn.
Context {Reg : Type} `{RegistryOps Reg} {codec : JsonCodec}.
Implicit Types (w : World Reg).

(** The service is connected through client [c], whose state is [cl]. *)
Record Connected (w : World Reg) (c : nat) (cl : Client Callback) : Prop := {
  connected_flag : isConnected (this w) = true;
  connected_client : client (this w) = Some c;
  connected_lookup : clients w !! c = Some cl;
}.

Lemma Connected_upd_promises f w c cl :
  Connected w c cl -> Connected (upd_promises f w) c cl.
Proof. by intros []. Qed.

Lemma Connected_set_subscriptions r w c cl :
  Connected w c cl -> Connected (upd_this (set_subscriptions r) w) c cl.
Proof. by intros []. Qed.

(** [createQueue] by a connected service. *)
Lemma createQueue_Connected queueName options w c cl :
  Connected w c cl ->
  createQueue queueName options w
  = (Ok (length (promises w)), turn (CallCreateQueue queueName options) w).
Proof.
  intros []. rewrite turn_createQueue. unfold exec.
  by rewrite (createQueue_connected _ _ _ c).
Qed.

Lemma createQueue_round_Connected queueName options w c cl error granted :
  Connected w c cl ->
  let w' := turn (ClientCompletes c (length (outbox cl)) error granted)
              (turn (CallCreateQueue queueName options) w) in
  Connected w' c cl
  /\ promises w' = promises w ++ [settled_by error granted]
  /\ subscriptions (this w')
     = match error with
       | Some _ => subscriptions (this w)
       | None => reg_add queueName (subscriptions (this w))
       end.
Proof.
  intros Hc w'. pose proof Hc as [].
  assert (w' = turns [CallCreateQueue queueName options;
                      ClientCompletes c (length (outbox cl)) error granted] w) as ->
    by done.
  rewrite (createQueue_round _ _ _ c cl) by done.
  destruct error; simpl; split_and!; try done;
    by apply Connected_upd_promises, ?Connected_set_subscriptions.
Qed.
Lemma publish_Connected topic message options w c cl messageString :
  Connected w c cl -> message_string message = Ok messageString ->
  publish topic message options w
  = (Ok (length (promises w)), turn (CallPublish topic message options) w).
Proof.
  intros [] Hm. rewrite turn_publish. unfold exec.
  by rewrite (publish_connected _ _ _ _ c messageString).
Qed.

Lemma publish_round_Connected topic message options w c cl messageString error granted :
  Connected w c cl -> message_string message = Ok messageString ->
  turn (ClientCompletes c (length (outbox cl)) error granted)
    (turn (CallPublish topic message options) w)
  = upd_promises (fun ps => ps ++ [settled_by error JUndefined]) w.
Proof. intros [] Hm. by apply (publish_round _ _ _ _ c cl messageString). Qed.

End Conn.

End Requests.
