(* ===== verification/Http.v ===== *)
(** * HTTP requests, responses and suspended handlers

    What the controllers of [src/controllers] share: the part of an Express
    request they read ([req.body], [req.params]), the response they send
    ([res.json], [res.status(code).json]), and the shape of an [async]
    handler that waits for a promise of the service: it is suspended at the
    [await] with its continuation, and resumed in a later turn, when the
    promise has settled ([Reply], [resume], [drive]).  The clock is a
    parameter: a handler is given the string [new Date().toISOString()]
    would return.

    [replies] is the postcondition of a handler, proved along its code by
    [solve_replies]; [drive_within] is the termination argument: a
    measure on continuations that every resumption decreases bounds the
    fuel [drive] needs. *)

From S2P Require Import Prelude JsValue Registry Client ServiceState.
Import JsValue Registry Client ServiceState.

Module Http.

(** The request, as far as the handlers read it. *)
Record Req : Type := mkReq {
  body : JsVal;     (* req.body *)
  params : JsVal;   (* req.params *)
}.

(** The response a handler has sent. *)
Record Response : Type := mkResponse {
  statusCode : nat;
  sent : JsVal;
}.

(** [res.json(b)] *)
Definition res_json (b : JsVal) : Response := mkResponse 200 b.

(** [res.status(code).json(b)] *)
Definition res_status_json (code : nat) (b : JsVal) : Response := mkResponse code b.

(** [{ success: false, error }] and [{ success: false, error, details }] *)
Definition failure (error : string) : JsVal :=
  JObj [("success", JBool false); ("error", JStr error)].

Definition failure_details (error : string) (details : string) : JsVal :=
  JObj [("success", JBool false); ("error", JStr error); ("details", JStr details)].

(** [v.name] read off a response body: [undefined] where there is no such
    property. *)
Definition prop (name : string) (v : JsVal) : JsVal :=
  match v with
  | JObj fields => lookup_field name fields
  | _ => JUndefined
  end.

(** [body.success] of a response *)
Definition success_of (r : Response) : JsVal := prop "success" (sent r).

(** How a call of a handler ends: the response is sent; or the handler
    waits for promise [p] and goes on with [k]; or the request is one the
    model does not cover (a topic that is not a string). *)
Inductive Reply (K : Type) : Type :=
| Sent (r : Response)
| Suspended (p : nat) (k : K)
| OutOfModel.

Arguments Sent {K} r.
Arguments Suspended {K} p k.
Arguments OutOfModel {K}.

(** The response of a reply, if it is one. *)
Definition response_of {K} (r : Reply K) : option Response :=
  match r with Sent r => Some r | _ => None end.

Section WithRegistry.
Context {Reg : Type} `{RegistryOps Reg} {K : Type}.
Local Open Scope js_scope.

(** The handler continues after [await p]: with the value when the promise
    has resolved, in its [catch] block when it was rejected; it stays
    suspended while the promise is pending. *)
Definition resume (continue : K -> Outcome JsVal -> M (World Reg) (Reply K))
  (p : nat) (k : K) : M (World Reg) (Reply K) :=
  w <- get ;;
  match promises w !! p with
  | Some (Resolved value) => continue k (Ok value)
  | Some (Rejected error) => continue k (Thrown error)
  | _ => ret (Suspended p k)
  end.

(** A request served to its response.  Each time the handler is suspended
    the environment does what it does ([between]) and settles the promise
    the handler waits for ([oracle]); the handler then goes on.  [fuel]
    bounds the number of resumptions. *)
Fixpoint drive (continue : K -> Outcome JsVal -> M (World Reg) (Reply K))
  (oracle : K -> nat -> Outcome JsVal) (between : World Reg -> World Reg)
  (fuel : nat) (r : Reply K) (w : World Reg) : option Response :=
  match r with
  | Sent response => Some response
  | OutOfModel => None
  | Suspended p k =>
      match fuel with
      | 0 => None
      | S fuel' =>
          match continue k (oracle k p) (between w) with
          | (Ok r', w') => drive continue oracle between fuel' r' w'
          | (Thrown _, _) => None
          end
      end
  end.

End WithRegistry.

(** ** Lemmas *)

Section Lemmas.
Context {Reg : Type} `{RegistryOps Reg} {K : Type}.
Implicit Types (w : World Reg) (k : K).

Lemma resume_pending continue p k w :
  promises w !! p = Some Pending ->
  resume continue p k w = (Ok (Suspended p k), w).
Proof. intros Hp. unfold resume, bind, get. by rewrite Hp. Qed.

Lemma resume_sleeping continue p k w :
  promises w !! p = Some Sleeping ->
  resume continue p k w = (Ok (Suspended p k), w).
Proof. intros Hp. unfold resume, bind, get. by rewrite Hp. Qed.

Lemma resume_resolved continue p k w value :
  promises w !! p = Some (Resolved value) ->
  resume continue p k w = continue k (Ok value) w.
Proof. intros Hp. unfold resume, bind, get. by rewrite Hp. Qed.

Lemma resume_rejected continue p k w error :
  promises w !! p = Some (Rejected error) ->
  resume continue p k w = continue k (Thrown error) w.
Proof. intros Hp. unfold resume, bind, get. by rewrite Hp. Qed.

(** *** What a handler replies

    [replies P m]: whenever [m] returns, its reply satisfies [P].  The
    lemmas follow the structure of the code, as [acts_by_calls] does. *)

Definition replies {A} (P : A -> Prop) (m : M (World Reg) A) : Prop :=
  forall w a w', m w = (Ok a, w') -> P a.

Lemma replies_ret {A} (P : A -> Prop) a : P a -> replies P (ret a).
Proof. by intros Ha w a' w' [= <- _]. Qed.

Lemma replies_throw {A} (P : A -> Prop) e : replies P (throw e).
Proof. by intros w a w'. Qed.

Lemma replies_bind {A B} (P : B -> Prop) (m : M (World Reg) A) (f : A -> M (World Reg) B) :
  (forall a, replies P (f a)) -> replies P (bind m f).
Proof.
  intros Hf w b w'. unfold bind. destruct (m w) as [[a|e] w1]; [apply Hf | done].
Qed.

Lemma replies_bind_post {A B} (Q : A -> Prop) (P : B -> Prop) (m : M (World Reg) A)
  (f : A -> M (World Reg) B) :
  replies Q m -> (forall a, Q a -> replies P (f a)) -> replies P (bind m f).
Proof.
  intros Hm Hf w b w'. unfold bind. destruct (m w) as [[a|e] w1] eqn:E; [|done].
  apply Hf. by apply (Hm w a w1).
Qed.

Lemma replies_bind_lift {A B} (P : B -> Prop) (o : Outcome A) (f : A -> M (World Reg) B) :
  (forall a, o = Ok a -> replies P (f a)) -> replies P (bind (lift o) f).
Proof. intros Hf w b w'. unfold bind, lift. destruct o as [a|e]; [by apply Hf | done]. Qed.

Lemma replies_try_catch {A} (P : A -> Prop) (m : M (World Reg) A) h :
  replies P m -> (forall e, replies P (h e)) -> replies P (try_catch m h).
Proof.
  intros Hm Hh w a w'. unfold try_catch. destruct (m w) as [[a'|e] w1] eqn:E.
  - intros [= <- <-]. by apply (Hm w a' w1).
  - apply Hh.
Qed.

Lemma replies_weaken {A} (P Q : A -> Prop) (m : M (World Reg) A) :
  (forall a, P a -> Q a) -> replies P m -> replies Q m.
Proof. intros HPQ Hm w a w' Hr. by apply HPQ, (Hm w a w'). Qed.

Lemma replies_resume (P : Reply K -> Prop) continue p k :
  P (Suspended p k) -> (forall settled, replies P (continue k settled)) ->
  replies P (resume continue p k).
Proof.
  intros Hs Hc w r w'. unfold resume, bind, get.
  destruct (promises w !! p) as [[| |value|error]|];
    try (by intros [= <- _]); apply Hc.
Qed.

(** *** Termination of a request

    A handler whose continuations never throw and decrease a measure
    responds after as many resumptions as the measure says, whatever the
    promises settle with and whatever happens in between. *)

Definition fuel_of (measure : K -> nat) (r : Reply K) : nat :=
  match r with Suspended _ k => measure k | _ => 0 end.

(** The reply is one of the model and needs at most [n] resumptions. *)
Definition within (measure : K -> nat) (n : nat) (r : Reply K) : Prop :=
  r <> OutOfModel /\ fuel_of measure r <= n.

Lemma within_le measure n n' r : n <= n' -> within measure n r -> within measure n' r.
Proof. intros ? [? ?]. split; [done|lia]. Qed.

Lemma drive_within measure continue oracle between fuel r w :
  (forall k settled w, is_ok (eval (continue k settled) w) = true) ->
  (forall k settled, replies (within measure (pred (measure k))) (continue k settled)) ->
  (forall k, 0 < measure k) ->
  within measure fuel r ->
  is_Some (drive continue oracle between fuel r w).
Proof.
  intros Hok Hdec Hpos. revert r w.
  induction fuel as [|fuel IH]; intros r w [Hr Hm].
  - destruct r as [response|p k|]; [by eexists| |done].
    simpl in Hm. specialize (Hpos k). lia.
  - destruct r as [response|p k|]; [by eexists| |done]. simpl in *.
    specialize (Hok k (oracle k p) (between w)). specialize (Hdec k (oracle k p) (between w)).
    unfold eval in Hok. destruct (continue k (oracle k p) (between w)) as [[r'|e] w']; [|done].
    apply IH. eapply within_le; [|by eapply Hdec]. lia.
Qed.

End Lemmas.

(** Decompose a handler into the replies it gives; [leaf] proves the
    property of a reply, hypotheses are used for the calls of other code. *)
Ltac solve_replies leaf :=
  repeat first
    [ solve [auto 2]
    | apply replies_ret; solve [leaf]
    | apply replies_throw
    | match goal with
      | |- replies _ (if ?b then _ else _) => destruct b
      | |- replies _ (match ?x with _ => _ end) => destruct x
      | |- replies _ (let _ := _ in _) => cbv zeta
      end
    | apply replies_bind; intros ?
    | apply replies_try_catch; [|intros ?] ].

End Http.
