(* ===== verification/MqttController.v ===== *)
(** * The MQTT controller

    The seven handlers of [src/controllers/mqttController.js], each the
    whole handler: the destructuring of [req.body] with its defaults, the
    validation, the call of the service, the response on every branch and
    the [catch] block.  [publishMessage] and [createQueue] wait for a promise
    of the service; their second halves are [continue].  A topic that is
    given and is not a string is outside the model ([OutOfModel]): the
    service's methods are modelled on strings. *)

From stdpp Require Import gmap.
From S2P Require Import Prelude JsString JsValue Json Registry Client ServiceState.
From S2P Require Import Router Gateway Connection EventLoop Reconnect Requests Http.
Import JsString JsValue Json Registry Client ServiceState Gateway EventLoop Reconnect.
Import Requests Http.

Module MqttController.

(** The continuations of the two [await]s, with the variables in scope. *)
Inductive Await : Type :=
| AfterPublish (topic : string) (message options : JsVal)
| AfterCreateQueue (queueName : string) (validatedOptions : JsVal).

(** The handlers of the controller. *)
Inductive Endpoint : Type :=
| GetStatus
| PublishMessage
| SubscribeToTopic
| UnsubscribeFromTopic
| GetSubscriptions
| CreateQueue
| BroadcastAlldevices.

#[export] Instance Endpoint_eq_dec : EqDecision Endpoint.
Proof. solve_decision. Defined.

(** The status object in a response body. *)
Definition status_json (status : ConnectionStatus) : JsVal :=
  JObj [("connected", JBool (connected status));
        ("subscriptions", JArr (map JStr (status_subscriptions status)));
        ("reconnectAttempts", JNum (Z.of_nat (status_reconnectAttempts status)))].

(** A promise in a response body: [JSON.stringify] finds no property. *)
Definition promise_json : JsVal := JObj [].

(** The defaults of the destructured [options]. *)
Definition publishMessage_default_options : JsVal :=
  JObj [("qos", JNum 1); ("retain", JBool false)].
Definition subscribeToTopic_default_options : JsVal := JObj [("qos", JNum 1)].
Definition createQueue_default_options : JsVal :=
  JObj [("qos", JNum 1); ("durable", JBool true)].

(** [a || b] *)
Definition or_else (a b : JsVal) : JsVal := if truthy a then a else b.

(** [[0, 1, 2].includes(qos)] *)
Definition qos_is_valid (qos : JsVal) : bool :=
  match qos with
  | JNum n => bool_decide (n = 0 \/ n = 1 \/ n = 2)%Z
  | _ => false
  end.

(** The [catch] block of [createQueue]. *)
Definition createQueue_catch (error : JsError) : Response :=
  if decide (message_of error = "MQTT client not connected") then
    res_status_json 503
      (failure_details "MQTT service unavailable"
         "MQTT client is not connected to the broker")
  else
    res_status_json 500 (failure_details "Failed to create queue" (message_of error)).

Section WithRegistry.
Context {Reg : Type} `{RegistryOps Reg} {codec : JsonCodec}.
Variable now : string.
Local Open Scope js_scope.

Definition getStatus (req : Req) : M (World Reg) (Reply Await) :=
  try_catch
    (status <- getConnectionStatus ;;
     ret (Sent (res_json
       (JObj [("success", JBool true);
              ("data", status_json status);
              ("timestamp", JStr now)]))))
    (fun error =>
       ret (Sent (res_status_json 500
         (failure_details "Failed to get MQTT status" (message_of error))))).

(** The promise [publish] returns is not awaited: the response is sent
    whatever becomes of it.  The destructuring is outside the [try]. *)
Definition broadcastAlldevices (req : Req) : M (World Reg) (Reply Await) :=
  message <- lift (get_field "message" (body req)) ;;
  try_catch
    (broadcast <- publish "broadcast-out" message JUndefined ;;
     ret (Sent (res_json
       (JObj [("success", JBool true);
              ("data", promise_json);
              ("timestamp", JStr now)]))))
    (fun error =>
       ret (Sent (res_status_json 500
         (failure_details "Failed to broadcast" (message_of error))))).

Definition publishMessage_catch (error : JsError) : Response :=
  res_status_json 500 (failure_details "Failed to publish message" (message_of error)).

Definition publishMessage (req : Req) : M (World Reg) (Reply Await) :=
  try_catch
    (topic <- lift (get_field "topic" (body req)) ;;
     message <- lift (get_field "message" (body req)) ;;
     options <- lift (get_field "options" (body req)) ;;
     let options := with_default publishMessage_default_options options in
     if negb (truthy topic) || is_undefined message then
       ret (Sent (res_status_json 400 (failure "Topic and message are required")))
     else
       match topic with
       | JStr topic =>
           p <- publish topic message options ;;
           ret (Suspended p (AfterPublish topic message options))
       | _ => ret OutOfModel
       end)
    (fun error => ret (Sent (publishMessage_catch error))).

(** [publishMessage] after [await mqttService.publish(...)] *)
Definition publishMessage_continue (topic : string) (message options : JsVal)
  (settled : Outcome JsVal) : Response :=
  match settled with
  | Ok _ =>
      res_json
        (JObj [("success", JBool true);
               ("message", JStr "Message published successfully");
               ("data",
                JObj [("topic", JStr topic);
                      ("messageSize",
                       JNum (Z.of_nat (String.length (json_stringify message))));
                      ("options", options)]);
               ("timestamp", JStr now)])
  | Thrown error => publishMessage_catch error
  end.

Definition subscribeToTopic (req : Req) : M (World Reg) (Reply Await) :=
  try_catch
    (topic <- lift (get_field "topic" (body req)) ;;
     options <- lift (get_field "options" (body req)) ;;
     let options := with_default subscribeToTopic_default_options options in
     if negb (truthy topic) then
       ret (Sent (res_status_json 400 (failure "Topic is required")))
     else
       match topic with
       | JStr topic =>
           success <- subscribe topic options ;;
           if success : bool then
             ret (Sent (res_json
               (JObj [("success", JBool true);
                      ("message", JStr "Subscribed to topic successfully");
                      ("data", JObj [("topic", JStr topic); ("options", options)]);
                      ("timestamp", JStr now)])))
           else
             ret (Sent (res_status_json 400
               (failure "Failed to subscribe to topic (client not connected)")))
       | _ => ret OutOfModel
       end)
    (fun error =>
       ret (Sent (res_status_json 500
         (failure_details "Failed to subscribe to topic" (message_of error))))).

Definition unsubscribeFromTopic (req : Req) : M (World Reg) (Reply Await) :=
  try_catch
    (topic <- lift (get_field "topic" (body req)) ;;
     if negb (truthy topic) then
       ret (Sent (res_status_json 400 (failure "Topic is required")))
     else
       match topic with
       | JStr topic =>
           success <- unsubscribe topic ;;
           if success : bool then
             ret (Sent (res_json
               (JObj [("success", JBool true);
                      ("message", JStr "Unsubscribed from topic successfully");
                      ("data", JObj [("topic", JStr topic)]);
                      ("timestamp", JStr now)])))
           else
             ret (Sent (res_status_json 400
               (failure "Failed to unsubscribe from topic (client not connected)")))
       | _ => ret OutOfModel
       end)
    (fun error =>
       ret (Sent (res_status_json 500
         (failure_details "Failed to unsubscribe from topic" (message_of error))))).

Definition getSubscriptions (req : Req) : M (World Reg) (Reply Await) :=
  try_catch
    (status <- getConnectionStatus ;;
     ret (Sent (res_json
       (JObj [("success", JBool true);
              ("data",
               JObj [("subscriptions", JArr (map JStr (status_subscriptions status)));
                     ("count",
                      JNum (Z.of_nat (length (status_subscriptions status))))]);
              ("timestamp", JStr now)]))))
    (fun error =>
       ret (Sent (res_status_json 500
         (failure_details "Failed to get subscriptions" (message_of error))))).

Definition createQueue (req : Req) : M (World Reg) (Reply Await) :=
  try_catch
    (queueName <- lift (get_field "queueName" (body req)) ;;
     options <- lift (get_field "options" (body req)) ;;
     let options := with_default createQueue_default_options options in
     if negb (truthy queueName) then
       ret (Sent (res_status_json 400 (failure "Queue name is required")))
     else
       match queueName with
       | JStr queueName =>
           if String.length (trim queueName) =? 0 then
             ret (Sent (res_status_json 400
               (failure "Queue name must be a non-empty string")))
           else
             qos <- lift (get_field "qos" options) ;;
             durable <- lift (get_field "durable" options) ;;
             let qos := or_else qos (JNum 1) in
             let durable := if negb (is_undefined durable) then durable else JBool true in
             let validatedOptions := JObj [("qos", qos); ("durable", durable)] in
             if negb (qos_is_valid qos) then
               ret (Sent (res_status_json 400 (failure "QoS must be 0, 1, or 2")))
             else
               p <- Gateway.createQueue queueName validatedOptions ;;
               ret (Suspended p (AfterCreateQueue queueName validatedOptions))
       | _ =>
           ret (Sent (res_status_json 400
             (failure "Queue name must be a non-empty string")))
       end)
    (fun error => ret (Sent (createQueue_catch error))).

(** [createQueue] after [await mqttService.createQueue(...)] *)
Definition createQueue_continue (queueName : string) (validatedOptions : JsVal)
  (settled : Outcome JsVal) : Response :=
  match settled with
  | Ok result =>
      res_json
        (JObj [("success", JBool true);
               ("message", JStr ("Queue '" +:+ queueName +:+ "' created successfully"));
               ("data",
                JObj [("queueName", JStr queueName);
                      ("options", validatedOptions);
                      ("granted", result);
                      ("timestamp", JStr now)])])
  | Thrown error => createQueue_catch error
  end.

(** The second half of a suspended handler. *)
Definition continue (k : Await) (settled : Outcome JsVal) : M (World Reg) (Reply Await) :=
  match k with
  | AfterPublish topic message options =>
      ret (Sent (publishMessage_continue topic message options settled))
  | AfterCreateQueue queueName validatedOptions =>
      ret (Sent (createQueue_continue queueName validatedOptions settled))
  end.

(** The handlers by name, as [src/routes/mqttRoutes.js] mounts them. *)
Definition handler (e : Endpoint) (req : Req) : M (World Reg) (Reply Await) :=
  match e with
  | GetStatus => getStatus req
  | PublishMessage => publishMessage req
  | SubscribeToTopic => subscribeToTopic req
  | UnsubscribeFromTopic => unsubscribeFromTopic req
  | GetSubscriptions => getSubscriptions req
  | CreateQueue => createQueue req
  | BroadcastAlldevices => broadcastAlldevices req
  end.

End WithRegistry.

(** ** What a handler does to the service *)

(** Case analysis of a handler: every branch of its code, the service call
    left as it is. *)
Ltac handler_cases :=
  unfold exec, try_catch, bind, lift, ret; simpl;
  repeat case_match; simplify_eq/=; eauto.

(** Close an effect goal by the service call the branch has made. *)
Ltac by_call :=
  right; repeat eexists;
  match goal with E : _ = (_, ?w') |- ?w' = _ => by rewrite E end.

Section Effects.
Context {Reg : Type} `{RegistryOps Reg} {codec : JsonCodec}.
Variable now : string.
Implicit Types (w : World Reg) (req : Req) (e : Endpoint).

Lemma getStatus_effect req w : exec (getStatus now req) w = w.
Proof. reflexivity. Qed.

Lemma getSubscriptions_effect req w : exec (getSubscriptions now req) w = w.
Proof. reflexivity. Qed.

Lemma subscribeToTopic_effect req w :
  exec (subscribeToTopic now req) w = w
  \/ exists topic options,
       exec (subscribeToTopic now req) w = exec (subscribe topic options) w.
Proof. unfold subscribeToTopic. handler_cases; by_call. Qed.

Lemma unsubscribeFromTopic_effect req w :
  exec (unsubscribeFromTopic now req) w = w
  \/ exists topic, exec (unsubscribeFromTopic now req) w = exec (unsubscribe topic) w.
Proof. unfold unsubscribeFromTopic. handler_cases; by_call. Qed.

Lemma publishMessage_effect req w :
  exec (publishMessage req) w = w
  \/ exists topic message options,
       exec (publishMessage req) w = exec (publish topic message options) w.
Proof. unfold publishMessage. handler_cases; by_call. Qed.

Lemma createQueue_effect req w :
  exec (createQueue req) w = w
  \/ exists queueName options,
       exec (createQueue req) w = exec (Gateway.createQueue queueName options) w.
Proof. unfold createQueue. handler_cases; by_call. Qed.

Lemma broadcastAlldevices_effect req w :
  exec (broadcastAlldevices now req) w = w
  \/ exists message,
       exec (broadcastAlldevices now req) w
       = exec (publish "broadcast-out" message JUndefined) w.
Proof. unfold broadcastAlldevices. handler_cases; by_call. Qed.

(** A handler changes the world by at most one call of a service method. *)
Lemma handler_effect e req w :
  exists tr, length tr <= 1 /\ forallb is_handler_call tr = true
             /\ exec (handler now e req) w = turns tr w.
Proof.
  assert (forall i, is_handler_call i = true ->
            forall w', w' = turn i w -> exists tr, length tr <= 1
              /\ forallb is_handler_call tr = true /\ w' = turns tr w) as Hone.
  { intros i Hi w' ->. exists [i]. simpl. rewrite Hi. split_and!; [lia | done..]. }
  assert (forall w', w' = w -> exists tr, length tr <= 1
              /\ forallb is_handler_call tr = true /\ w' = turns tr w) as Hnone.
  { intros w' ->. exists []. simpl. split_and!; [lia | done..]. }
  destruct e; unfold handler.
  - apply Hnone, getStatus_effect.
  - destruct (publishMessage_effect req w) as [?|(t & m & o & E)]; [auto|].
    apply (Hone (CallPublish t m o)); [done|]. by rewrite turn_publish.
  - destruct (subscribeToTopic_effect req w) as [?|(t & o & E)]; [auto|].
    apply (Hone (CallSubscribe t o)); [done|]. by rewrite turn_subscribe.
  - destruct (unsubscribeFromTopic_effect req w) as [?|(t & E)]; [auto|].
    apply (Hone (CallUnsubscribe t)); [done|]. by rewrite turn_unsubscribe.
  - apply Hnone, getSubscriptions_effect.
  - destruct (createQueue_effect req w) as [?|(q & o & E)]; [auto|].
    apply (Hone (CallCreateQueue q o)); [done|]. by rewrite turn_createQueue.
  - destruct (broadcastAlldevices_effect req w) as [?|(m & E)]; [auto|].
    apply (Hone (CallPublish "broadcast-out" m JUndefined)); [done|].
    by rewrite turn_publish.
Qed.

(** Handlers and continuations act by calls of the service. *)
Lemma mqtt_handler_acts e req : acts_by_calls (handler now e req).
Proof.
  intros w. destruct (handler_effect e req w) as (tr & _ & Hcalls & Hw). by exists tr.
Qed.

Lemma mqtt_continue_acts k settled : acts_by_calls (continue now k settled).
Proof. destruct k; apply acts_ret. Qed.

End Effects.

(** ** The handlers, endpoint by endpoint *)

Section Specs.
Context {Reg : Type} `{RegistryLaws Reg} {codec : JsonCodec}.
Variable now : string.
Implicit Types (w : World Reg) (req : Req) (fields : list (string * JsVal)).

(** Every handler answers: whatever the request and the state of the
    service, a handler returns without throwing, because its body is inside
    a [try] whose [catch] block sends a response.  The one exception is
    [broadcastAlldevices], which destructures [req.body] outside its [try]
    and throws when the body is [undefined] or [null]. *)
Theorem handler_never_throws e req w :
  e <> BroadcastAlldevices \/ is_ok (get_field "message" (body req)) = true ->
  is_ok (eval (handler now e req) w) = true.
Proof.
  intros He. destruct e; try apply try_catch_ret_ok.
  destruct He as [|Hm]; [done|].
  unfold handler, broadcastAlldevices, eval, bind, lift.
  destruct (get_field "message" (body req)); [|done]. apply try_catch_ret_ok.
Qed.

Lemma truthy_JStr_ne topic : topic <> "" -> truthy (JStr topic) = true.
Proof. intros. by apply truthy_JStr. Qed.

Lemma Inv_connected_client w :
  Inv w -> isConnected (this w) = true -> exists c, client (this w) = Some c.
Proof. intros Hinv Hc. apply Inv_client_Some; [done|]. by apply Hinv. Qed.

(** C25: POST and DELETE [/subscribe] with a non-empty topic call the
    service once and report what it returned: status 200 and
    [success: true] when the service is connected and the request has been
    handed to the client, status 400 and [success: false] when it is
    not. *)
Theorem subscription_endpoints req w fields topic :
  Inv w ->
  body req = JObj fields -> lookup_field "topic" fields = JStr topic ->
  topic <> "" ->
  let options :=
    with_default subscribeToTopic_default_options (lookup_field "options" fields) in
  let status := if isConnected (this w) then 200 else 400 in
  (exists r, subscribeToTopic now req w
             = (Ok (Sent r), exec (subscribe topic options) w)
             /\ statusCode r = status
             /\ success_of r = JBool (isConnected (this w)))
  /\ (exists r, unsubscribeFromTopic now req w
                = (Ok (Sent r), exec (unsubscribe topic) w)
                /\ statusCode r = status
                /\ success_of r = JBool (isConnected (this w))).
Proof.
  intros Hinv Hb Ht Hne options status.
  unfold subscribeToTopic, unsubscribeFromTopic, status, exec, try_catch, bind, lift.
  rewrite Hb. simpl. rewrite Ht. simpl. rewrite bool_decide_eq_false_2 by done.
  simpl. fold options.
  destruct (isConnected (this w)) eqn:Hc.
  - destruct (Inv_connected_client w Hinv Hc) as [c Hcl].
    rewrite (subscribe_connected _ _ _ c), (unsubscribe_connected _ _ c) by done.
    split; eexists; split_and!; done.
  - rewrite subscribe_disconnected, unsubscribe_disconnected by done.
    split; eexists; split_and!; done.
Qed.

(** Validation comes first: a request without a topic, without a
    message or without a queue name is answered with status 400 and the
    error text of its endpoint, and the service is not called. *)
Theorem required_fields req w fields :
  body req = JObj fields ->
  let bad_request error : Outcome (Reply Await) * World Reg :=
    (Ok (Sent (res_status_json 400 (failure error))), w) in
  (truthy (lookup_field "topic" fields) = false ->
   subscribeToTopic now req w = bad_request "Topic is required"
   /\ unsubscribeFromTopic now req w = bad_request "Topic is required"
   /\ publishMessage req w = bad_request "Topic and message are required")
  /\ (lookup_field "message" fields = JUndefined ->
      publishMessage req w = bad_request "Topic and message are required")
  /\ (truthy (lookup_field "queueName" fields) = false ->
      createQueue req w = bad_request "Queue name is required").
Proof.
  intros Hb bad_request.
  unfold subscribeToTopic, unsubscribeFromTopic, publishMessage, createQueue,
    bad_request, try_catch, bind, lift.
  rewrite Hb. simpl. split_and!.
  - intros ->. done.
  - intros ->. simpl. by rewrite orb_true_r.
  - intros ->. done.
Qed.

Lemma or_else_qos_valid qos :
  qos_is_valid (or_else qos (JNum 1)) = true ->
  exists n, or_else qos (JNum 1) = JNum n /\ (n = 1 \/ n = 2)%Z.
Proof.
  unfold or_else. destruct (truthy qos) eqn:Ht; [|by exists 1%Z; auto].
  destruct qos as [| | |n| | |]; try done. simpl in *.
  intros Hv%bool_decide_eq_true. exists n. split; [done|].
  apply negb_true_iff, Z.eqb_neq in Ht. lia.
Qed.

(** What [createQueue] has done when it waits for the service. *)
Lemma createQueue_suspended req w w' p k :
  createQueue req w = (Ok (Suspended p k), w') ->
  exists queueName qos durable,
    let validatedOptions := JObj [("qos", JNum qos); ("durable", durable)] in
    k = AfterCreateQueue queueName validatedOptions
    /\ (qos = 1 \/ qos = 2)%Z
    /\ trim queueName <> ""
    /\ Gateway.createQueue queueName validatedOptions w = (Ok p, w').
Proof.
  unfold createQueue, try_catch, bind, lift, ret. intros Hq.
  repeat case_match; simplify_eq/=.
  all: match goal with
       | Hv : negb (qos_is_valid _) = false |- _ =>
           apply negb_false_iff, or_else_qos_valid in Hv as (n & Hn & Hv)
       end;
       match goal with
       | Hl : (String.length _ =? 0) = false |- _ => apply Nat.eqb_neq in Hl
       end;
       rewrite Hn in *; eexists _, n, _; split_and!; try done;
       by intros E; rewrite E in *.
Qed.

(** C27: Whenever the [createQueue] handler reaches the service, the QoS it
    passes is 1 or 2, never 0: [options.qos || 1] replaces a requested QoS
    of 0 by 1 before the check that admits 0, 1 and 2. *)
Theorem createQueue_never_qos_zero req w w' p queueName validatedOptions :
  createQueue req w
  = (Ok (Suspended p (AfterCreateQueue queueName validatedOptions)), w') ->
  (get_field "qos" validatedOptions = Ok (JNum 1)
   \/ get_field "qos" validatedOptions = Ok (JNum 2))
  /\ w' = exec (Gateway.createQueue queueName validatedOptions) w.
Proof.
  intros (q & n & d & Hk & Hn & _ & Hq)%createQueue_suspended.
  simplify_eq/=. unfold exec. rewrite Hq. split; [|done].
  destruct Hn as [-> | ->]; auto.
Qed.

(** A [createQueue] request that reaches the service while it is
    disconnected is answered with status 503 "MQTT service unavailable":
    the promise of the service is already rejected when the handler
    resumes. *)
Theorem createQueue_unavailable req w w' p k :
  isConnected (this w) = false ->
  createQueue req w = (Ok (Suspended p k), w') ->
  resume (continue now) p k w'
  = (Ok (Sent (res_status_json 503
                 (failure_details "MQTT service unavailable"
                    "MQTT client is not connected to the broker"))), w').
Proof.
  intros Hc (q & n & d & -> & _ & _ & Hq)%createQueue_suspended.
  rewrite createQueue_disconnected in Hq by done. simplify_eq/=.
  by rewrite (resume_rejected _ _ _ _ not_connected)
    by by apply list_lookup_middle.
Qed.

(** [broadcastAlldevices] does not wait for the promise of [publish]:
    while the service is disconnected it answers with status 200 and
    [success: true] although the promise has been rejected and nothing was
    published. *)
Theorem broadcastAlldevices_unawaited req w fields :
  body req = JObj fields -> isConnected (this w) = false ->
  exists r,
    broadcastAlldevices now req w
    = (Ok (Sent r), upd_promises (fun ps => ps ++ [Rejected not_connected]) w)
    /\ statusCode r = 200 /\ success_of r = JBool true.
Proof.
  intros Hb Hc. unfold broadcastAlldevices, try_catch, bind, lift.
  rewrite Hb. simpl. rewrite publish_disconnected by done.
  eexists. split_and!; done.
Qed.

(** GET [/subscriptions] lists the registry in insertion order, and
    the count it reports is the number of distinct topics subscribed. *)
Theorem getSubscriptions_count req w :
  Inv w ->
  let subscriptions := reg_all (subscriptions (this w)) in
  getSubscriptions now req w
  = (Ok (Sent (res_json
       (JObj [("success", JBool true);
              ("data",
               JObj [("subscriptions", JArr (map JStr subscriptions));
                     ("count",
                      JNum (Z.of_nat (size (reg_abs (ServiceState.subscriptions (this w))))))]);
              ("timestamp", JStr now)]))), w).
Proof.
  intros [_ _ Hwf _]. simpl. unfold getSubscriptions, try_catch, bind. simpl.
  unfold reg_abs. by rewrite size_list_to_set by by apply reg_all_NoDup.
Qed.

(** C18: POST [/publish] from request to response: the handler hands the
    message to the service and is suspended on the returned promise; it
    sends nothing while the request is in flight; when the client completes
    the request it answers with status 200 and the size of the encoded
    message, or with status 500 and the client's error. *)
Theorem publishMessage_responds req w fields topic c cl messageString error granted :
  isConnected (this w) = true -> client (this w) = Some c ->
  clients w !! c = Some cl ->
  body req = JObj fields -> lookup_field "topic" fields = JStr topic ->
  topic <> "" ->
  message_string (lookup_field "message" fields) = Ok messageString ->
  let message := lookup_field "message" fields in
  let options :=
    with_default publishMessage_default_options (lookup_field "options" fields) in
  let p := length (promises w) in
  let k := AfterPublish topic message options in
  let w1 := turn (CallPublish topic message options) w in
  let w2 := turn (ClientCompletes c (length (outbox cl)) error granted) w1 in
  publishMessage req w = (Ok (Suspended p k), w1)
  /\ resume (continue now) p k w1 = (Ok (Suspended p k), w1)
  /\ exists r,
       resume (continue now) p k w2 = (Ok (Sent r), w2)
       /\ match error with
          | None =>
              statusCode r = 200 /\ success_of r = JBool true
              /\ prop "messageSize" (prop "data" (sent r))
                 = JNum (Z.of_nat (String.length (json_stringify message)))
          | Some e =>
              statusCode r = 500 /\ success_of r = JBool false
              /\ prop "details" (sent r) = JStr (message_of e)
          end.
Proof.
  intros Hcon Hc Hcl Hb Ht Hne Hm message options p k w1 w2.
  destruct (publish_settles topic message options w c cl messageString error granted)
    as [Hp1 Hp2]; try done.
  fold w1 w2 p in Hp1, Hp2. split_and!.
  - unfold publishMessage, try_catch, bind, lift. rewrite Hb. simpl. rewrite Ht.
    simpl. rewrite bool_decide_eq_false_2 by done. simpl.
    assert (is_undefined (lookup_field "message" fields) = false) as ->.
    { fold message in Hm |- *. by destruct message. }
    fold message options. unfold w1. rewrite turn_publish. unfold exec.
    by rewrite (publish_connected _ _ _ _ c messageString).
  - by apply resume_pending.
  - destruct error; simpl in *; eexists.
    + by rewrite (resume_rejected _ _ _ _ _ Hp2).
    + by rewrite (resume_resolved _ _ _ _ _ Hp2).
Qed.
Lemma handler_extends_trace e req tr w :
  Trace initial tr w ->
  exists tr', Trace initial (tr ++ tr') (exec (handler now e req) w)
              /\ (connects_once tr -> connects_once (tr ++ tr')).
Proof.
  intros Htr. destruct (handler_effect now e req w) as (tr' & Hlen & Hcalls & ->).
  exists tr'. split.
  - eapply Trace_app; [done|]. by apply handler_calls_Trace.
  - unfold connects_once. by rewrite filter_app, (handler_calls_no_connect tr'), app_nil_r.
Qed.

(** The handlers stay within the executions of the event loop: they
    change the world by calls of service methods only, never [connect].  So
    a handler run in a reachable state leaves a reachable state, and in a
    state reached with one [connect] a state reached with one [connect]:
    the invariants of the service hold with HTTP traffic interleaved. *)
Theorem handler_keeps_reachable e req w :
  (reachable w -> reachable (exec (handler now e req) w))
  /\ (reachable_once w -> reachable_once (exec (handler now e req) w)).
Proof.
  split.
  - intros [tr Htr].
    destruct (handler_extends_trace e req tr w Htr) as (tr' & Htr' & _). by eexists.
  - intros (tr & Htr & Honce).
    destruct (handler_extends_trace e req tr w Htr) as (tr' & Htr' & Ho).
    exists (tr ++ tr'). auto.
Qed.

End Specs.

(** ** Concrete requests *)

(** The clock of the examples. *)
Definition noon : string := "2025-01-01T12:00:00.000Z".

Definition request (fields : list (string * JsVal)) : Req :=
  {| body := JObj fields; params := JObj [] |}.

Lemma handler_never_throws_witness :
  is_ok (eval (handler noon PublishMessage {| body := JNull; params := JObj [] |})
           (initial : World (list string))) = true.
Proof. apply handler_never_throws. by left. Defined.

Lemma subscription_endpoints_witness :
  let req := request [("topic", JStr "a/b")] in
  let w := connected_world in
  (exists r, subscribeToTopic noon req w
             = (Ok (Sent r), exec (subscribe "a/b" subscribeToTopic_default_options) w)
             /\ statusCode r = 200 /\ success_of r = JBool true)
  /\ (exists r, unsubscribeFromTopic noon req w
                = (Ok (Sent r), exec (unsubscribe "a/b") w)
                /\ statusCode r = 200 /\ success_of r = JBool true).
Proof.
  apply (subscription_endpoints noon (request [("topic", JStr "a/b")])
           connected_world [("topic", JStr "a/b")] "a/b"); try done.
  split; simpl; [done | done | apply NoDup_singleton | done].
Defined.

Lemma required_fields_witness :
  let req := request [] in
  let w : World (list string) := initial in
  let bad_request error : Outcome (Reply Await) * World (list string) :=
    (Ok (Sent (res_status_json 400 (failure error))), w) in
  (truthy JUndefined = false ->
   subscribeToTopic noon req w = bad_request "Topic is required"
   /\ unsubscribeFromTopic noon req w = bad_request "Topic is required"
   /\ publishMessage req w = bad_request "Topic and message are required")
  /\ (JUndefined = JUndefined ->
      publishMessage req w = bad_request "Topic and message are required")
  /\ (truthy JUndefined = false ->
      createQueue req w = bad_request "Queue name is required").
Proof. by apply (required_fields noon (request []) initial []). Defined.

(** A queue is requested with QoS 0; the service is asked for QoS 1. *)
Definition qos0_request : Req :=
  request [("queueName", JStr "q"); ("options", JObj [("qos", JNum 0)])].

Lemma createQueue_never_qos_zero_witness :
  let validatedOptions := JObj [("qos", JNum 1); ("durable", JBool true)] in
  (get_field "qos" validatedOptions = Ok (JNum 1)
   \/ get_field "qos" validatedOptions = Ok (JNum 2))
  /\ exec (createQueue qos0_request) connected_world
     = exec (Gateway.createQueue "q" validatedOptions) connected_world.
Proof.
  by apply (createQueue_never_qos_zero qos0_request connected_world _ 0 "q"
              (JObj [("qos", JNum 1); ("durable", JBool true)])).
Defined.

Lemma createQueue_unavailable_witness :
  let w' : World (list string) :=
    upd_promises (fun ps => ps ++ [Rejected not_connected]) initial in
  resume (continue noon) 0
    (AfterCreateQueue "q" (JObj [("qos", JNum 1); ("durable", JBool true)])) w'
  = (Ok (Sent (res_status_json 503
                 (failure_details "MQTT service unavailable"
                    "MQTT client is not connected to the broker"))), w').
Proof.
  by apply (createQueue_unavailable noon (request [("queueName", JStr "q")]) initial).
Defined.

Lemma broadcastAlldevices_unawaited_witness :
  exists r,
    broadcastAlldevices noon (request [("message", JStr "hi")])
      (initial : World (list string))
    = (Ok (Sent r), upd_promises (fun ps => ps ++ [Rejected not_connected]) initial)
    /\ statusCode r = 200 /\ success_of r = JBool true.
Proof. by apply (broadcastAlldevices_unawaited noon _ initial [("message", JStr "hi")]). Defined.

Lemma getSubscriptions_count_witness :
  getSubscriptions noon (request []) demo_world
  = (Ok (Sent (res_json
       (JObj [("success", JBool true);
              ("data",
               JObj [("subscriptions",
                      JArr (map JStr (reg_all (subscriptions (this demo_world)))));
                     ("count",
                      JNum (Z.of_nat (size (reg_abs (subscriptions (this demo_world))))))]);
              ("timestamp", JStr noon)]))), demo_world).
Proof.
  apply (getSubscriptions_count noon (request []) demo_world).
  apply (Trace_Inv _ _ _ demo_Trace), Inv_initial.
Defined.

Lemma publishMessage_responds_witness :
  let req := request [("topic", JStr "t"); ("message", JNum 5)] in
  let k := AfterPublish "t" (JNum 5) publishMessage_default_options in
  let w1 := turn (CallPublish "t" (JNum 5) publishMessage_default_options) connected_world in
  let w2 := turn (ClientCompletes 0 0 (Some (Error "lost")) JNull) w1 in
  publishMessage req connected_world = (Ok (Suspended 0 k), w1)
  /\ resume (continue noon) 0 k w1 = (Ok (Suspended 0 k), w1)
  /\ exists r,
       resume (continue noon) 0 k w2 = (Ok (Sent r), w2)
       /\ statusCode r = 500 /\ success_of r = JBool false
       /\ prop "details" (sent r) = JStr "lost".
Proof.
  by apply (publishMessage_responds noon
              (request [("topic", JStr "t"); ("message", JNum 5)]) connected_world
              [("topic", JStr "t"); ("message", JNum 5)] "t" 0
              (mkClient Up false []) "5" (Some (Error "lost")) JNull).
Defined.

Lemma handler_keeps_reachable_witness :
  reachable (exec (handler noon SubscribeToTopic (request [("topic", JStr "a/b")]))
               demo_world).
Proof.
  apply handler_keeps_reachable. exists demo_trace. apply demo_Trace.
Defined.

End MqttController.
