(* ===== verification/DeviceListing.v ===== *)
(** * The device listing

    [listDevices] of [src/controllers/deviceController.js] keeps no device
    records: it reconstructs the devices from the subscribed topics.  It
    walks the subscriptions in order and collects, in a [Map] keyed by
    device id, the inbound and the outbound queue found for each device.
    This file holds that loop ([collect]) and its specification: the [Map]
    has one entry per device with a subscribed queue, and the entry records
    exactly the queues of the device that are subscribed. *)

From S2P Require Import Prelude JsString JsValue Topics.
Import JsString JsValue Topics.

Module DeviceListing.

(** A value of the [Map] of [listDevices]; [None] is [null]. *)
Record DeviceQueues : Type := mkDeviceQueues {
  dq_deviceId : string;
  dq_inQueue : option string;
  dq_outQueue : option string;
}.

(** [if (queueType === "in") device.inQueue = subscription; else if
    (queueType === "out") device.outQueue = subscription] *)
Definition record_queue (queueType : option string) (subscription : string)
  (device : DeviceQueues) : DeviceQueues :=
  if decide (queueType = Some "in") then
    mkDeviceQueues (dq_deviceId device) (Some subscription) (dq_outQueue device)
  else if decide (queueType = Some "out") then
    mkDeviceQueues (dq_deviceId device) (dq_inQueue device) (Some subscription)
  else device.

(** [if (!m.has(id)) m.set(id, fresh); f(m.get(id))] on a [Map] in
    insertion order *)
Fixpoint upsert (deviceId : string) (f : DeviceQueues -> DeviceQueues)
  (m : list DeviceQueues) : list DeviceQueues :=
  match m with
  | [] => [f (mkDeviceQueues deviceId None None)]
  | device :: m' =>
      if decide (dq_deviceId device = deviceId) then f device :: m'
      else device :: upsert deviceId f m'
  end.

(** The body of [subscriptions.forEach] *)
Definition collect_one (m : list DeviceQueues) (subscription : string)
  : list DeviceQueues :=
  match device_of_subscription subscription with
  | Some (deviceId, queueType) => upsert deviceId (record_queue queueType subscription) m
  | None => m
  end.

Definition collect (subscriptions : list string) : list DeviceQueues :=
  fold_left collect_one subscriptions [].

(** Is the device active: [device.inQueue && device.outQueue]? *)
Definition is_active (device : DeviceQueues) : bool :=
  bool_decide (is_Some (dq_inQueue device)) && bool_decide (is_Some (dq_outQueue device)).

Definition nullable (s : option string) : JsVal :=
  match s with
  | Some s => JStr s
  | None => JNull
  end.

(** An element of [devices] in the response of [listDevices] *)
Definition device_json (device : DeviceQueues) : JsVal :=
  JObj [("deviceId", JStr (dq_deviceId device));
        ("inQueue", nullable (dq_inQueue device));
        ("outQueue", nullable (dq_outQueue device));
        ("status", JStr (if is_active device then "active" else "partial"));
        ("hasInQueue", JBool (bool_decide (is_Some (dq_inQueue device))));
        ("hasOutQueue", JBool (bool_decide (is_Some (dq_outQueue device))))].

(** ** Specification

    The entry of device [d] in the map, if it has one. *)
Fixpoint find_device (d : string) (m : list DeviceQueues) : option DeviceQueues :=
  match m with
  | [] => None
  | device :: m' =>
      if decide (dq_deviceId device = d) then Some device else find_device d m'
  end.

(** What the listing should hold for device [d], given the subscriptions. *)
Definition expected (d : string) (subscriptions : list string) : option DeviceQueues :=
  let has_in := bool_decide (inQueue d ∈ subscriptions) in
  let has_out := bool_decide (outQueue d ∈ subscriptions) in
  if has_in || has_out then
    Some (mkDeviceQueues d (if has_in then Some (inQueue d) else None)
            (if has_out then Some (outQueue d) else None))
  else None.

Section Lemmas.
Implicit Types (d : string) (m : list DeviceQueues) (f : DeviceQueues -> DeviceQueues).

Definition keeps_id f : Prop := forall device, dq_deviceId (f device) = dq_deviceId device.

Lemma record_queue_keeps_id queueType subscription :
  keeps_id (record_queue queueType subscription).
Proof. intros device. unfold record_queue. by repeat case_decide. Qed.

Lemma find_device_id d m device : find_device d m = Some device -> dq_deviceId device = d.
Proof.
  induction m as [|x m IH]; simpl; [done|].
  destruct (decide (dq_deviceId x = d)); [|done]. by intros [= <-].
Qed.

Lemma find_upsert_eq d f m :
  keeps_id f ->
  find_device d (upsert d f m)
  = Some (f (default (mkDeviceQueues d None None) (find_device d m))).
Proof.
  intros Hf. induction m as [|x m IH]; simpl.
  - by rewrite decide_True.
  - destruct (decide (dq_deviceId x = d)) as [Hx|Hx]; simpl.
    + by rewrite decide_True by by rewrite Hf.
    + by rewrite decide_False.
Qed.

Lemma find_upsert_ne d d' f m :
  keeps_id f -> d <> d' -> find_device d' (upsert d f m) = find_device d' m.
Proof.
  intros Hf Hne. induction m as [|x m IH]; simpl.
  - rewrite decide_False; [done|]. by rewrite Hf.
  - destruct (decide (dq_deviceId x = d)) as [Hx|Hx]; simpl.
    + rewrite !decide_False; [done| |]; rewrite ?Hf; congruence.
    + by destruct (decide (dq_deviceId x = d')).
Qed.

Lemma upsert_ids d f m :
  keeps_id f ->
  map dq_deviceId (upsert d f m)
  = if bool_decide (d ∈ map dq_deviceId m) then map dq_deviceId m
    else map dq_deviceId m ++ [d].
Proof.
  intros Hf. induction m as [|x m IH]; simpl; [by rewrite Hf|].
  destruct (decide (dq_deviceId x = d)) as [Hx|Hx]; simpl.
  - rewrite Hf, bool_decide_eq_true_2; [done|]. rewrite Hx. by left.
  - rewrite IH. destruct (bool_decide (d ∈ map dq_deviceId m)) eqn:E.
    + rewrite bool_decide_eq_true_2; [done|]. right. by apply bool_decide_eq_true in E.
    + rewrite bool_decide_eq_false_2; [done|]. apply bool_decide_eq_false in E.
      rewrite elem_of_cons. by intros [->|?].
Qed.

Lemma upsert_ids_NoDup d f m :
  keeps_id f -> NoDup (map dq_deviceId m) -> NoDup (map dq_deviceId (upsert d f m)).
Proof.
  intros Hf Hm. rewrite upsert_ids by done. case_bool_decide as Hd; [done|].
  apply NoDup_app. split_and!; [done| |apply NoDup_singleton].
  intros x Hx ->%list_elem_of_singleton. done.
Qed.

Lemma find_device_elem_of m device :
  NoDup (map dq_deviceId m) ->
  find_device (dq_deviceId device) m = Some device <-> device ∈ m.
Proof.
  induction m as [|x m IH]; simpl; [by rewrite elem_of_nil|].
  intros [Hx Hm]%NoDup_cons. rewrite elem_of_cons.
  destruct (decide (dq_deviceId x = dq_deviceId device)) as [E|E].
  - split; [intros [= ->]; by left|]. intros [->|Hin]; [done|].
    destruct Hx. rewrite E. apply list_elem_of_fmap. eauto.
  - rewrite IH by done. split; [by right|]. by intros [->|?].
Qed.

Lemma mem_snoc (x s : string) (subs : list string) :
  bool_decide (x ∈ subs ++ [s]) = bool_decide (x ∈ subs) || bool_decide (x = s).
Proof.
  apply eq_true_iff_eq. rewrite orb_true_iff, !bool_decide_eq_true.
  by rewrite elem_of_app, list_elem_of_singleton.
Qed.

Lemma expected_snoc_other d subs s :
  s <> inQueue d -> s <> outQueue d -> expected d (subs ++ [s]) = expected d subs.
Proof.
  intros Hin Hout. unfold expected. rewrite !mem_snoc.
  by rewrite !(bool_decide_eq_false_2 (_ = s)), !orb_false_r by done.
Qed.

Lemma expected_snoc_in d subs :
  expected d (subs ++ [inQueue d])
  = Some (record_queue (Some "in") (inQueue d)
            (default (mkDeviceQueues d None None) (expected d subs))).
Proof.
  unfold expected. rewrite !mem_snoc.
  rewrite (bool_decide_eq_true_2 (inQueue d = inQueue d)) by done.
  rewrite (bool_decide_eq_false_2 (outQueue d = inQueue d))
    by (intros E; by apply (inQueue_ne_outQueue d d)).
  rewrite orb_true_r, orb_false_r. simpl.
  by destruct (bool_decide (inQueue d ∈ subs)), (bool_decide (outQueue d ∈ subs)).
Qed.

Lemma expected_snoc_out d subs :
  expected d (subs ++ [outQueue d])
  = Some (record_queue (Some "out") (outQueue d)
            (default (mkDeviceQueues d None None) (expected d subs))).
Proof.
  unfold expected. rewrite !mem_snoc.
  rewrite (bool_decide_eq_true_2 (outQueue d = outQueue d)) by done.
  rewrite (bool_decide_eq_false_2 (inQueue d = outQueue d))
    by apply inQueue_ne_outQueue.
  rewrite orb_true_r, orb_false_r. simpl.
  by destruct (bool_decide (inQueue d ∈ subs)), (bool_decide (outQueue d ∈ subs)).
Qed.

(** The map holds what is expected of every device. *)
Definition represents m (subs : list string) : Prop :=
  forall d, find_device d m = expected d subs.

Lemma collect_one_represents m subs s :
  represents m subs -> represents (collect_one m s) (subs ++ [s]).
Proof.
  intros Hm d. unfold collect_one.
  destruct (device_of_subscription s) as [[d0 ty]|] eqn:Hs.
  - apply device_of_subscription_inv in Hs as [[-> ->]|[-> ->]];
      (destruct (decide (d0 = d)) as [->|Hne];
       [rewrite find_upsert_eq, Hm by apply record_queue_keeps_id
       |rewrite find_upsert_ne, Hm by (apply record_queue_keeps_id || done)]).
    + by rewrite expected_snoc_in.
    + rewrite expected_snoc_other; [done| |apply inQueue_ne_outQueue].
      by intros ?%inQueue_inj.
    + by rewrite expected_snoc_out.
    + rewrite expected_snoc_other; [done| |by intros ?%outQueue_inj].
      intros E. by apply (inQueue_ne_outQueue d d0).
  - rewrite Hm, expected_snoc_other; [done|intros ->..].
    + by rewrite device_of_inQueue in Hs.
    + by rewrite device_of_outQueue in Hs.
Qed.

Lemma fold_collect_represents subs m subs0 :
  represents m subs0 -> represents (fold_left collect_one subs m) (subs0 ++ subs).
Proof.
  revert m subs0. induction subs as [|s subs IH]; intros m subs0 Hm; simpl.
  - by rewrite app_nil_r.
  - rewrite (assoc_L _ subs0 [s] subs : subs0 ++ s :: subs = (subs0 ++ [s]) ++ subs).
    by apply IH, collect_one_represents.
Qed.

Lemma collect_represents subs : represents (collect subs) subs.
Proof. by apply (fold_collect_represents subs [] []). Qed.

Lemma collect_one_NoDup m s :
  NoDup (map dq_deviceId m) -> NoDup (map dq_deviceId (collect_one m s)).
Proof.
  intros Hm. unfold collect_one. destruct (device_of_subscription s) as [[d ty]|]; [|done].
  by apply upsert_ids_NoDup; [apply record_queue_keeps_id|].
Qed.

Lemma collect_NoDup subs : NoDup (map dq_deviceId (collect subs)).
Proof.
  unfold collect. assert (NoDup (map dq_deviceId ([] : list DeviceQueues))) as Hm
    by apply NoDup_nil_2.
  revert Hm. generalize ([] : list DeviceQueues).
  induction subs as [|s subs IH]; intros m Hm; simpl; [done|].
  by apply IH, collect_one_NoDup.
Qed.

(** C33: The listing is exact.  Whatever the subscriptions, the map
    [listDevices] builds has one entry per device id, and a device is in it
    exactly when one of its two queues is subscribed, with exactly its
    subscribed queues recorded: no device is invented, none is missed, and
    topics that are not device queues are ignored. *)
Theorem collect_spec subscriptions :
  NoDup (map dq_deviceId (collect subscriptions))
  /\ forall device,
       device ∈ collect subscriptions
       <-> expected (dq_deviceId device) subscriptions = Some device.
Proof.
  split; [apply collect_NoDup|]. intros device.
  by rewrite <- find_device_elem_of, collect_represents by apply collect_NoDup.
Qed.

(** A listed device is reported active exactly when both of its
    queues are subscribed, and partial when one is. *)
Theorem active_iff_pair subscriptions device :
  device ∈ collect subscriptions ->
  is_active device = true
  <-> inQueue (dq_deviceId device) ∈ subscriptions
      /\ outQueue (dq_deviceId device) ∈ subscriptions.
Proof.
  intros Hd%find_device_elem_of; [|apply collect_NoDup].
  rewrite collect_represents in Hd. unfold expected in Hd.
  rewrite <- (bool_decide_eq_true (inQueue _ ∈ _)),
    <- (bool_decide_eq_true (outQueue _ ∈ _)).
  destruct (bool_decide (inQueue _ ∈ _)), (bool_decide (outQueue _ ∈ _));
    simplify_eq/=; unfold is_active; rewrite <- Hd; simpl; intuition congruence.
Qed.

End Lemmas.

Lemma active_iff_pair_witness :
  let subscriptions :=
    ["octaloop-mdm-in"; "octaloop-mdm-in-d-1"; "x/y"; "octaloop-mdm-out-d-1"] in
  let device :=
    mkDeviceQueues "d-1" (Some "octaloop-mdm-in-d-1") (Some "octaloop-mdm-out-d-1") in
  is_active device = true
  <-> inQueue "d-1" ∈ subscriptions /\ outQueue "d-1" ∈ subscriptions.
Proof.
  apply (active_iff_pair
           ["octaloop-mdm-in"; "octaloop-mdm-in-d-1"; "x/y"; "octaloop-mdm-out-d-1"]
           (mkDeviceQueues "d-1" (Some "octaloop-mdm-in-d-1")
              (Some "octaloop-mdm-out-d-1"))).
  vm_compute. by left.
Defined.


End DeviceListing.
