(* ===== verification/DeviceController.v ===== *)
(** * The device controller

    The eight handlers of [src/controllers/deviceController.js].  A device
    is its pair of queues: [addDevice] and [bulkAddDevices] create the pair
    through [createQueue] of the service, inbound first; [getDevice] and
    [listDevices] reconstruct devices from the registry; [retireDevice],
    [deleteDevice] and [sendCommandToDevice] publish to the outbound queue.
    A handler that awaits is suspended with its continuation ([Await]) and
    goes on in [continue].  The clock is read once per turn: [now] is
    [new Date().toISOString()] and [millis] is [Date.now()]. *)

From stdpp Require Import pretty.
From S2P Require Import Prelude JsString JsValue Json Registry Client ServiceState.
From S2P Require Import Topics Router Gateway Connection EventLoop Reconnect Requests.
From S2P Require Import Http DeviceListing.
Import JsString JsValue Json Registry Client ServiceState Topics Gateway.
Import EventLoop Reconnect Requests Http DeviceListing.

Module DeviceController.

(** The handlers of the controller. *)
Inductive Endpoint : Type :=
| AddDevice
| UpdateDevice
| RetireDevice
| DeleteDevice
| GetDevice
| ListDevices
| BulkAddDevices
| SendCommandToDevice.

#[export] Instance Endpoint_eq_dec : EqDecision Endpoint.
Proof. solve_decision. Defined.

(** The continuations of the [await]s, with the variables in scope. *)
Inductive Await : Type :=
| AddIn (deviceId deviceInfo : JsVal)
| AddOut (deviceId deviceInfo : JsVal) (queueCreationResults : list JsVal)
| RetireSent (deviceId reason : JsVal)
| DeleteSent (deviceId removeQueues reason : JsVal)
| CommandSent (deviceId command : JsVal) (commandId : string) (qosLevel : Z)
| BulkIn (devices rest results : list JsVal) (deviceId deviceInfo : JsVal)
| BulkOut (devices rest results : list JsVal) (deviceId deviceInfo : JsVal)
| BulkDelay (devices rest results : list JsVal).

(** [{ qos: 1, durable: true }] and [{ qos: 1, retain: false }] *)
Definition queue_options : JsVal := JObj [("qos", JNum 1); ("durable", JBool true)].
Definition notification_options : JsVal := JObj [("qos", JNum 1); ("retain", JBool false)].

(** The queue names of a device id as the template strings coerce it. *)
Definition inQueue_of (deviceId : JsVal) : string := inQueue (to_string deviceId).
Definition outQueue_of (deviceId : JsVal) : string := outQueue (to_string deviceId).

(** An element of [queueCreationResults] *)
Definition created (queue type : string) (result : JsVal) : JsVal :=
  JObj [("queue", JStr queue); ("type", JStr type); ("status", JStr "created");
        ("result", result)].

(** The inner [catch] block of [addDevice] *)
Definition addDevice_queueError (queueError : JsError) (partialResults : list JsVal)
  : Response :=
  res_status_json 500
    (JObj [("success", JBool false);
           ("error", JStr "Failed to create device queues");
           ("details", JStr (message_of queueError));
           ("partialResults", JArr partialResults)]).

(** ** The bulk results *)

(** [r.status === status] on an element of [results] *)
Definition has_status (status : string) (r : JsVal) : bool :=
  match prop "status" r with
  | JStr s => bool_decide (s = status)
  | _ => false
  end.

Definition count_status (status : string) (results : list JsVal) : nat :=
  length (filter (fun r => has_status status r = true) results).

Definition bulk_failed (deviceId : JsVal) (error : string) : JsVal :=
  JObj [("deviceId", deviceId); ("status", JStr "failed"); ("error", JStr error)].

Definition bulk_success (deviceId deviceInfo : JsVal) : JsVal :=
  JObj [("deviceId", deviceId); ("status", JStr "success");
        ("inQueue", JStr (inQueue_of deviceId));
        ("outQueue", JStr (outQueue_of deviceId));
        ("deviceInfo", deviceInfo)].

(** [priority === "high" ? 2 : priority === "normal" ? 1 : 0] *)
Definition qos_of_priority (priority : JsVal) : Z :=
  match priority with
  | JStr "high" => 2
  | JStr "normal" => 1
  | _ => 0
  end.

(** ** The handlers *)

Section WithRegistry.
Context {Reg : Type} `{RegistryOps Reg} {codec : JsonCodec}.
Variables (now : string) (millis : Z).
Local Open Scope js_scope.

Definition required : Reply Await :=
  Sent (res_status_json 400 (failure "Device ID is required")).

Definition addDevice_catch (error : JsError) : Response :=
  res_status_json 500 (failure_details "Failed to add device" (message_of error)).

Definition addDevice (req : Req) : M (World Reg) (Reply Await) :=
  try_catch
    (deviceId <- lift (get_field "deviceId" (body req)) ;;
     deviceInfo <- lift (get_field "deviceInfo" (body req)) ;;
     let deviceInfo := with_default (JObj []) deviceInfo in
     if negb (truthy deviceId) then ret required
     else if negb (valid_device_id (to_string deviceId)) then
       ret (Sent (res_status_json 400
         (failure
            "Device ID can only contain letters, numbers, hyphens, and underscores")))
     else
       try_catch
         (p <- Gateway.createQueue (inQueue_of deviceId) queue_options ;;
          ret (Suspended p (AddIn deviceId deviceInfo)))
         (fun queueError => ret (Sent (addDevice_queueError queueError []))))
    (fun error => ret (Sent (addDevice_catch error))).

(** [addDevice] after the first [await]: the inbound queue is recorded
    and the outbound queue requested. *)
Definition addDevice_after_in (deviceId deviceInfo : JsVal)
  (settled : Outcome JsVal) : M (World Reg) (Reply Await) :=
  match settled with
  | Ok inQueueResult =>
      let queueCreationResults := [created (inQueue_of deviceId) "in" inQueueResult] in
      try_catch
        (p <- Gateway.createQueue (outQueue_of deviceId) queue_options ;;
         ret (Suspended p (AddOut deviceId deviceInfo queueCreationResults)))
        (fun queueError =>
           ret (Sent (addDevice_queueError queueError queueCreationResults)))
  | Thrown queueError => ret (Sent (addDevice_queueError queueError []))
  end.

(** [addDevice] after the second [await] *)
Definition addDevice_after_out (deviceId deviceInfo : JsVal)
  (queueCreationResults : list JsVal) (settled : Outcome JsVal) : Response :=
  match settled with
  | Ok outQueueResult =>
      let queueCreationResults :=
        queueCreationResults ++ [created (outQueue_of deviceId) "out" outQueueResult] in
      let deviceRecord :=
        JObj [("deviceId", deviceId);
              ("inQueue", JStr (inQueue_of deviceId));
              ("outQueue", JStr (outQueue_of deviceId));
              ("deviceInfo", deviceInfo);
              ("status", JStr "active");
              ("createdAt", JStr now);
              ("lastSeen", JNull);
              ("queuesCreated", JBool true)] in
      res_json
        (JObj [("success", JBool true);
               ("message",
                JStr ("Device '" +:+ to_string deviceId +:+ "' added successfully"));
               ("data",
                JObj [("device", deviceRecord);
                      ("queuesCreated", JArr queueCreationResults);
                      ("timestamp", JStr now)])])
  | Thrown queueError => addDevice_queueError queueError queueCreationResults
  end.

Definition updateDevice (req : Req) : M (World Reg) (Reply Await) :=
  try_catch
    (deviceId <- lift (get_field "deviceId" (params req)) ;;
     deviceInfo <- lift (get_field "deviceInfo" (body req)) ;;
     if negb (truthy deviceId) then ret required
     else
       let updatedDevice :=
         JObj [("deviceId", deviceId); ("deviceInfo", deviceInfo);
               ("updatedAt", JStr now)] in
       ret (Sent (res_json
         (JObj [("success", JBool true);
                ("message",
                 JStr ("Device '" +:+ to_string deviceId +:+ "' updated successfully"));
                ("data", JObj [("device", updatedDevice); ("timestamp", JStr now)])]))))
    (fun error =>
       ret (Sent (res_status_json 500
         (failure_details "Failed to update device" (message_of error))))).

Definition retireDevice_catch (error : JsError) : Response :=
  res_status_json 500 (failure_details "Failed to retire device" (message_of error)).

(** The end of [retireDevice], from the inner [catch] on: the [catch] only
    logs, so the response does not depend on what became of the
    notification. *)
Definition retireDevice_after (deviceId reason : JsVal) (settled : Outcome JsVal)
  : Response :=
  let retiredDevice :=
    JObj [("deviceId", deviceId); ("status", JStr "retired"); ("reason", reason);
          ("retiredAt", JStr now); ("queuesPreserved", JBool true)] in
  res_json
    (JObj [("success", JBool true);
           ("message",
            JStr ("Device '" +:+ to_string deviceId +:+ "' retired successfully"));
           ("data", JObj [("device", retiredDevice); ("timestamp", JStr now)])]).

Definition retireDevice (req : Req) : M (World Reg) (Reply Await) :=
  try_catch
    (deviceId <- lift (get_field "deviceId" (params req)) ;;
     reason <- lift (get_field "reason" (body req)) ;;
     let reason := with_default (JStr "Manual retirement") reason in
     if negb (truthy deviceId) then ret required
     else
       let retirementNotification :=
         JObj [("type", JStr "device_retirement");
               ("deviceId", deviceId);
               ("message", JStr "This device has been retired from MDM management");
               ("reason", reason);
               ("timestamp", JStr now);
               ("finalMessage", JBool true)] in
       try_catch
         (p <- publish (outQueue_of deviceId) retirementNotification
                 notification_options ;;
          ret (Suspended p (RetireSent deviceId reason)))
         (fun publishError =>
            ret (Sent (retireDevice_after deviceId reason (Thrown publishError)))))
    (fun error => ret (Sent (retireDevice_catch error))).

Definition deleteDevice_catch (error : JsError) : Response :=
  res_status_json 500 (failure_details "Failed to delete device" (message_of error)).

(** The end of [deleteDevice], from [const deletedDevice] on. *)
Definition deleteDevice_respond (deviceId removeQueues reason : JsVal)
  (queueRemovalResults : list JsVal) : Response :=
  let deletedDevice :=
    JObj [("deviceId", deviceId); ("status", JStr "deleted"); ("reason", reason);
          ("deletedAt", JStr now); ("queuesRemoved", removeQueues);
          ("queueOperations", JArr queueRemovalResults)] in
  res_json
    (JObj [("success", JBool true);
           ("message",
            JStr ("Device '" +:+ to_string deviceId +:+ "' deleted successfully"));
           ("data", JObj [("device", deletedDevice); ("timestamp", JStr now)])]).

(** An element of [queueRemovalResults] *)
Definition unsubscribed (queue : string) (error : option string) : JsVal :=
  match error with
  | None =>
      JObj [("queue", JStr queue); ("action", JStr "unsubscribed");
            ("status", JStr "success")]
  | Some e =>
      JObj [("queue", JStr queue); ("action", JStr "unsubscribed");
            ("status", JStr "failed"); ("error", JStr e)]
  end.

(** What [unsubscribe] returns is not looked at. *)
Definition deleteDevice (req : Req) : M (World Reg) (Reply Await) :=
  try_catch
    (deviceId <- lift (get_field "deviceId" (params req)) ;;
     removeQueues <- lift (get_field "removeQueues" (body req)) ;;
     reason <- lift (get_field "reason" (body req)) ;;
     let removeQueues := with_default (JBool false) removeQueues in
     let reason := with_default (JStr "Manual deletion") reason in
     if negb (truthy deviceId) then ret required
     else if negb (truthy removeQueues) then
       let deletionNotification :=
         JObj [("type", JStr "device_deletion");
               ("deviceId", deviceId);
               ("message", JStr "This device has been deleted from MDM management");
               ("reason", reason);
               ("timestamp", JStr now);
               ("finalMessage", JBool true)] in
       try_catch
         (p <- publish (outQueue_of deviceId) deletionNotification
                 notification_options ;;
          ret (Suspended p (DeleteSent deviceId removeQueues reason)))
         (fun publishError =>
            ret (Sent (deleteDevice_respond deviceId removeQueues reason [])))
     else
       queueRemovalResults <-
         try_catch
           (_ <- unsubscribe (inQueue_of deviceId) ;;
            _ <- unsubscribe (outQueue_of deviceId) ;;
            ret [unsubscribed (inQueue_of deviceId) None;
                 unsubscribed (outQueue_of deviceId) None])
           (fun unsubError =>
              ret [unsubscribed (inQueue_of deviceId) (Some (message_of unsubError));
                   unsubscribed (outQueue_of deviceId) (Some (message_of unsubError))]) ;;
       ret (Sent (deleteDevice_respond deviceId removeQueues reason queueRemovalResults)))
    (fun error => ret (Sent (deleteDevice_catch error))).

Definition getDevice (req : Req) : M (World Reg) (Reply Await) :=
  try_catch
    (deviceId <- lift (get_field "deviceId" (params req)) ;;
     if negb (truthy deviceId) then ret required
     else
       connectionStatus <- getConnectionStatus ;;
       let hasInQueue :=
         includes (inQueue_of deviceId) (status_subscriptions connectionStatus) in
       let hasOutQueue :=
         includes (outQueue_of deviceId) (status_subscriptions connectionStatus) in
       let deviceInfo :=
         JObj [("deviceId", deviceId);
               ("inQueue", JStr (inQueue_of deviceId));
               ("outQueue", JStr (outQueue_of deviceId));
               ("queues",
                JObj [("inQueue",
                       JObj [("name", JStr (inQueue_of deviceId));
                             ("subscribed", JBool hasInQueue);
                             ("purpose", JStr "Device to Server communication")]);
                      ("outQueue",
                       JObj [("name", JStr (outQueue_of deviceId));
                             ("subscribed", JBool hasOutQueue);
                             ("purpose", JStr "Server to Device communication")])]);
               ("status", JStr (if hasInQueue && hasOutQueue then "active" else "partial"));
               ("lastChecked", JStr now)] in
       ret (Sent (res_json
         (JObj [("success", JBool true);
                ("data", JObj [("device", deviceInfo); ("timestamp", JStr now)])]))))
    (fun error =>
       ret (Sent (res_status_json 500
         (failure_details "Failed to get device information" (message_of error))))).

Definition listDevices (req : Req) : M (World Reg) (Reply Await) :=
  try_catch
    (connectionStatus <- getConnectionStatus ;;
     let subscriptions := status_subscriptions connectionStatus in
     let deviceQueues := collect subscriptions in
     let devices := deviceQueues in
     ret (Sent (res_json
       (JObj [("success", JBool true);
              ("data",
               JObj [("devices", JArr (map device_json devices));
                     ("totalDevices", JNum (Z.of_nat (length devices)));
                     ("activeDevices",
                      JNum (Z.of_nat (length (filter (fun d => is_active d = true) devices))));
                     ("partialDevices",
                      JNum (Z.of_nat (length (filter (fun d => is_active d = false) devices))));
                     ("timestamp", JStr now)])]))))
    (fun error =>
       ret (Sent (res_status_json 500
         (failure_details "Failed to list devices" (message_of error))))).

Definition sendCommandToDevice_catch (error : JsError) : Response :=
  res_status_json 500
    (failure_details "Failed to send command to device" (message_of error)).

Definition sendCommandToDevice (req : Req) : M (World Reg) (Reply Await) :=
  try_catch
    (deviceId <- lift (get_field "deviceId" (params req)) ;;
     command <- lift (get_field "command" (body req)) ;;
     payload <- lift (get_field "payload" (body req)) ;;
     priority <- lift (get_field "priority" (body req)) ;;
     let payload := with_default (JObj []) payload in
     let priority := with_default (JStr "normal") priority in
     if negb (truthy deviceId) || negb (truthy command) then
       ret (Sent (res_status_json 400 (failure "Device ID and command are required")))
     else
       let commandId := "cmd-" +:+ pretty millis in
       let commandMessage :=
         JObj [("type", JStr "command");
               ("command", command);
               ("deviceId", deviceId);
               ("payload", payload);
               ("priority", priority);
               ("commandId", JStr commandId);
               ("timestamp", JStr now);
               ("requiresAck", JBool true)] in
       let qosLevel := qos_of_priority priority in
       p <- publish (outQueue_of deviceId) commandMessage
              (JObj [("qos", JNum qosLevel); ("retain", JBool false)]) ;;
       ret (Suspended p (CommandSent deviceId command commandId qosLevel)))
    (fun error => ret (Sent (sendCommandToDevice_catch error))).

(** [sendCommandToDevice] after the [await] *)
Definition sendCommandToDevice_after (deviceId command : JsVal) (commandId : string)
  (qosLevel : Z) (settled : Outcome JsVal) : Response :=
  match settled with
  | Ok _ =>
      res_json
        (JObj [("success", JBool true);
               ("message",
                JStr ("Command '" +:+ to_string command +:+ "' sent to device '"
                      +:+ to_string deviceId +:+ "'"));
               ("data",
                JObj [("deviceId", deviceId);
                      ("command", command);
                      ("commandId", JStr commandId);
                      ("queueUsed", JStr (outQueue_of deviceId));
                      ("qos", JNum qosLevel);
                      ("timestamp", JStr now)])])
  | Thrown error => sendCommandToDevice_catch error
  end.

Definition bulkAddDevices_catch (error : JsError) : Response :=
  res_status_json 500 (failure_details "Failed to bulk add devices" (message_of error)).

(** The end of [bulkAddDevices], after the loop. *)
Definition bulkAddDevices_respond (devices results : list JsVal) : Response :=
  let successCount := count_status "success" results in
  let failureCount := count_status "failed" results in
  res_json
    (JObj [("success", JBool (0 <? successCount));
           ("message",
            JStr ("Bulk device addition completed: " +:+ pretty successCount
                  +:+ " successful, " +:+ pretty failureCount +:+ " failed"));
           ("data",
            JObj [("results", JArr results);
                  ("summary",
                   JObj [("total", JNum (Z.of_nat (length devices)));
                         ("successful", JNum (Z.of_nat successCount));
                         ("failed", JNum (Z.of_nat failureCount))]);
                  ("timestamp", JStr now)])]).

(** [await new Promise((resolve) => setTimeout(resolve, 100))]: the handler
    waits for a promise that the timer resolves. *)
Definition bulk_delay (devices rest results : list JsVal)
  : M (World Reg) (Reply Await) :=
  p <- sleep ;;
  ret (Suspended p (BulkDelay devices rest results)).

(** The loop [for (const deviceData of devices)] from the head of an
    iteration to the next [await]; [rest] are the devices still to add.  An
    element without a device id is recorded as failed and the loop goes on
    at once ([continue] skips the delay). *)
Fixpoint bulk_loop (devices results rest : list JsVal)
  : M (World Reg) (Reply Await) :=
  match rest with
  | [] => ret (Sent (bulkAddDevices_respond devices results))
  | deviceData :: rest' =>
      deviceId <- lift (get_field "deviceId" deviceData) ;;
      deviceInfo <- lift (get_field "deviceInfo" deviceData) ;;
      let deviceInfo := with_default (JObj []) deviceInfo in
      if negb (truthy deviceId) then
        bulk_loop devices
          (results ++ [bulk_failed (JStr "unknown") "Device ID is required"]) rest'
      else
        try_catch
          (p <- Gateway.createQueue (inQueue_of deviceId) queue_options ;;
           ret (Suspended p (BulkIn devices rest' results deviceId deviceInfo)))
          (fun error =>
             bulk_delay devices rest'
               (results ++ [bulk_failed deviceId (message_of error)]))
  end.

(** An iteration after its first [await] *)
Definition bulk_after_in (devices rest results : list JsVal)
  (deviceId deviceInfo : JsVal) (settled : Outcome JsVal)
  : M (World Reg) (Reply Await) :=
  match settled with
  | Ok _ =>
      try_catch
        (p <- Gateway.createQueue (outQueue_of deviceId) queue_options ;;
         ret (Suspended p (BulkOut devices rest results deviceId deviceInfo)))
        (fun error =>
           bulk_delay devices rest
             (results ++ [bulk_failed deviceId (message_of error)]))
  | Thrown error =>
      bulk_delay devices rest (results ++ [bulk_failed deviceId (message_of error)])
  end.

(** An iteration after its second [await] *)
Definition bulk_after_out (devices rest results : list JsVal)
  (deviceId deviceInfo : JsVal) (settled : Outcome JsVal)
  : M (World Reg) (Reply Await) :=
  match settled with
  | Ok _ => bulk_delay devices rest (results ++ [bulk_success deviceId deviceInfo])
  | Thrown error =>
      bulk_delay devices rest (results ++ [bulk_failed deviceId (message_of error)])
  end.

(** After the delay: the next iteration. *)
Definition bulk_after_delay (devices rest results : list JsVal)
  (settled : Outcome JsVal) : M (World Reg) (Reply Await) :=
  match settled with
  | Ok _ => bulk_loop devices results rest
  | Thrown error => throw error
  end.

(** [!Array.isArray(devices) || devices.length === 0] sends 400. *)
Definition bulkAddDevices (req : Req) : M (World Reg) (Reply Await) :=
  try_catch
    (devices <- lift (get_field "devices" (body req)) ;;
     match devices with
     | JArr ((_ :: _) as devices) => bulk_loop devices [] devices
     | _ =>
         ret (Sent (res_status_json 400
           (failure "Devices array is required and must not be empty")))
     end)
    (fun error => ret (Sent (bulkAddDevices_catch error))).

(** The second half of a suspended handler, inside the [try] of its
    handler. *)
Definition continue (k : Await) (settled : Outcome JsVal)
  : M (World Reg) (Reply Await) :=
  match k with
  | AddIn deviceId deviceInfo =>
      try_catch (addDevice_after_in deviceId deviceInfo settled)
        (fun error => ret (Sent (addDevice_catch error)))
  | AddOut deviceId deviceInfo queueCreationResults =>
      ret (Sent (addDevice_after_out deviceId deviceInfo queueCreationResults settled))
  | RetireSent deviceId reason =>
      ret (Sent (retireDevice_after deviceId reason settled))
  | DeleteSent deviceId removeQueues reason =>
      ret (Sent (deleteDevice_respond deviceId removeQueues reason []))
  | CommandSent deviceId command commandId qosLevel =>
      ret (Sent (sendCommandToDevice_after deviceId command commandId qosLevel settled))
  | BulkIn devices rest results deviceId deviceInfo =>
      try_catch (bulk_after_in devices rest results deviceId deviceInfo settled)
        (fun error => ret (Sent (bulkAddDevices_catch error)))
  | BulkOut devices rest results deviceId deviceInfo =>
      try_catch (bulk_after_out devices rest results deviceId deviceInfo settled)
        (fun error => ret (Sent (bulkAddDevices_catch error)))
  | BulkDelay devices rest results =>
      try_catch (bulk_after_delay devices rest results settled)
        (fun error => ret (Sent (bulkAddDevices_catch error)))
  end.

(** The handlers by name, as [src/routes/deviceRoutes.js] mounts them. *)
Definition handler (e : Endpoint) (req : Req) : M (World Reg) (Reply Await) :=
  match e with
  | AddDevice => addDevice req
  | UpdateDevice => updateDevice req
  | RetireDevice => retireDevice req
  | DeleteDevice => deleteDevice req
  | GetDevice => getDevice req
  | ListDevices => listDevices req
  | BulkAddDevices => bulkAddDevices req
  | SendCommandToDevice => sendCommandToDevice req
  end.

End WithRegistry.

(** ** What the handlers do to the service *)

Section Effects.
Context {Reg : Type} `{RegistryOps Reg} {codec : JsonCodec}.
Variables (now : string) (millis : Z).
Implicit Types (w : World Reg) (req : Req) (e : Endpoint) (k : Await).

Lemma bulk_delay_acts devices rest results :
  acts_by_calls (bulk_delay (Reg:=Reg) devices rest results).
Proof. unfold bulk_delay. solve_acts. Qed.

Lemma bulk_loop_acts devices results rest :
  acts_by_calls (bulk_loop (Reg:=Reg) now devices results rest).
Proof.
  revert results. induction rest as [|deviceData rest IH]; intros results; simpl.
  - solve_acts.
  - pose proof bulk_delay_acts. solve_acts.
Qed.

Lemma handler_acts e req : acts_by_calls (handler (Reg:=Reg) now millis e req).
Proof.
  destruct e; simpl;
    unfold addDevice, updateDevice, retireDevice, deleteDevice, getDevice,
      listDevices, bulkAddDevices, sendCommandToDevice, required;
    pose proof (bulk_loop_acts); solve_acts.
Qed.

Lemma continue_acts k settled : acts_by_calls (continue (Reg:=Reg) now k settled).
Proof.
  pose proof bulk_loop_acts. pose proof bulk_delay_acts.
  destruct k; simpl;
    unfold addDevice_after_in, bulk_after_in, bulk_after_out, bulk_after_delay;
    solve_acts.
Qed.

(** The handlers and their continuations never throw: each is a [try]
    whose [catch] block sends a response. *)
Lemma handler_ok e req w : is_ok (eval (handler now millis e req) w) = true.
Proof. destruct e; apply try_catch_ret_ok. Qed.

Lemma continue_ok k settled w : is_ok (eval (continue now k settled) w) = true.
Proof. destruct k; simpl; (apply try_catch_ret_ok || done). Qed.

(** The handlers of the device controller and their continuations
    change the world only by calls of [subscribe], [unsubscribe],
    [publish], [createQueue] and by timers, never by [connect]: run in a
    reachable state they leave a reachable state, and in a state reached
    with one [connect] a state reached with one [connect].  The invariants
    of the service therefore hold whatever device requests arrive. *)
Theorem device_handlers_keep_reachable e req k settled w :
  (reachable w ->
   reachable (exec (handler now millis e req) w)
   /\ reachable (exec (continue now k settled) w))
  /\ (reachable_once w ->
      reachable_once (exec (handler now millis e req) w)
      /\ reachable_once (exec (continue now k settled) w)).
Proof.
  split; intros Hw; split;
    (apply acts_reachable || apply acts_reachable_once);
    auto using handler_acts, continue_acts.
Qed.

End Effects.

(** ** The handlers, endpoint by endpoint *)

Section Specs.
Context {Reg : Type} `{RegistryOps Reg} {codec : JsonCodec}.
Variables (now : string) (millis : Z).
Implicit Types (w : World Reg) (req : Req) (e : Endpoint) (k : Await).

Lemma valid_device_id_truthy d : valid_device_id d = true -> truthy (JStr d) = true.
Proof. intros Hd. apply truthy_JStr. by destruct d. Qed.

(** The first half of [addDevice] on a valid device id. *)
Lemma addDevice_valid req w fields d :
  body req = JObj fields -> lookup_field "deviceId" fields = JStr d ->
  valid_device_id d = true ->
  addDevice req w
  = bind (createQueue (inQueue d) queue_options)
      (fun p => ret (Suspended p
         (AddIn (JStr d) (with_default (JObj []) (lookup_field "deviceInfo" fields))))) w.
Proof.
  intros Hb Hd Hv. unfold addDevice, try_catch, bind, lift. rewrite Hb. simpl.
  rewrite Hd, (valid_device_id_truthy d Hv). simpl. rewrite Hv. simpl.
  unfold inQueue_of. simpl.
  by destruct (createQueue_returns (inQueue d) queue_options w) as [w' ->].
Qed.

(** C26: [addDevice] validates before it acts: a request whose device id
    is missing, or does not consist of letters, digits, hyphens and
    underscores when written as a string, is answered with status 400 and
    the service is not called. *)
Theorem addDevice_validates req w fields :
  body req = JObj fields ->
  truthy (lookup_field "deviceId" fields) = false
  \/ valid_device_id (to_string (lookup_field "deviceId" fields)) = false ->
  exists r, addDevice req w = (Ok (Sent r), w) /\ statusCode r = 400.
Proof.
  intros Hb Hbad. unfold addDevice, try_catch, bind, lift. rewrite Hb. simpl.
  destruct (truthy (lookup_field "deviceId" fields)) eqn:Ht; simpl; [|by eexists].
  destruct Hbad as [ | -> ]; [done|]. simpl. by eexists.
Qed.

(** C37: [deleteDevice] with [removeQueues] reports both queues as
    unsubscribed with status "success" even when the service is
    disconnected and [unsubscribe] returned [false]: the returned value is
    not looked at, and nothing was sent to the broker. *)
Theorem deleteDevice_unchecked req w fields d :
  isConnected (this w) = false ->
  params req = JObj [("deviceId", JStr d)] -> d <> "" ->
  body req = JObj fields -> truthy (lookup_field "removeQueues" fields) = true ->
  exists r,
    deleteDevice now req w = (Ok (Sent r), w)
    /\ statusCode r = 200 /\ success_of r = JBool true
    /\ prop "queueOperations" (prop "device" (prop "data" (sent r)))
       = JArr [unsubscribed (inQueue d) None; unsubscribed (outQueue d) None].
Proof.
  intros Hc Hp Hne Hb Hr. unfold deleteDevice, try_catch, bind, lift.
  rewrite Hp, Hb. simpl. rewrite bool_decide_eq_false_2 by done. simpl.
  assert (truthy (with_default (JBool false) (lookup_field "removeQueues" fields)) = true)
    as -> by by destruct (lookup_field "removeQueues" fields).
  simpl. rewrite !unsubscribe_disconnected by done. by eexists.
Qed.

(** C29: Retiring a device keeps its queues and always succeeds: the
    registry is untouched, and the response is 200 whatever became of the
    retirement notification, a rejected publish included. *)
Theorem retireDevice_keeps_queues req w fields d :
  params req = JObj [("deviceId", JStr d)] -> d <> "" -> body req = JObj fields ->
  exists p k w' r,
    retireDevice now req w = (Ok (Suspended p k), w')
    /\ subscriptions (this w') = subscriptions (this w)
    /\ statusCode r = 200 /\ success_of r = JBool true
    /\ forall settled w'', continue now k settled w'' = (Ok (Sent r), w'').
Proof.
  intros Hp Hne Hb. unfold retireDevice, try_catch, bind, lift.
  rewrite Hp, Hb. simpl. rewrite bool_decide_eq_false_2 by done. simpl.
  match goal with |- context [publish ?t ?m ?o w] =>
    destruct (publish_returns t m o w) as [w' Hw'];
    pose proof (turn_registry (CallPublish t m o) w) as Hreg end.
  rewrite turn_publish in Hreg. unfold exec in Hreg. rewrite Hw' in *.
  do 3 eexists.
  exists (retireDevice_after now (JStr d)
            (with_default (JStr "Manual retirement") (lookup_field "reason" fields))
            (Ok JUndefined)).
  split_and!; done.
Qed.

(** A command is published on the outbound queue of the device with the
    QoS of its priority: 2 for "high", 1 for "normal" (the default), 0 for
    anything else. *)
Theorem sendCommandToDevice_qos req w c cl fields d :
  Connected w c cl ->
  params req = JObj [("deviceId", JStr d)] -> d <> "" ->
  body req = JObj fields -> truthy (lookup_field "command" fields) = true ->
  let priority := with_default (JStr "normal") (lookup_field "priority" fields) in
  exists k message cb,
    sendCommandToDevice now millis req w
    = (Ok (Suspended (length (promises w)) k),
       upd_clients
         (alter (client_request
                   (ReqPublish (outQueue d) message
                      (JObj [("qos", JNum (qos_of_priority priority));
                             ("retain", JBool false)]) cb)) c)
         (upd_promises (fun ps => ps ++ [Pending]) w))
    /\ (qos_of_priority priority = 2 <-> priority = JStr "high")%Z
    /\ (qos_of_priority priority = 1 <-> priority = JStr "normal")%Z.
Proof.
  intros [Hcon Hc Hcl] Hp Hne Hb Hcmd priority.
  unfold sendCommandToDevice, try_catch, bind, lift.
  rewrite Hp, Hb. simpl. rewrite bool_decide_eq_false_2, Hcmd by done. simpl.
  fold priority. unfold outQueue_of. simpl.
  rewrite (publish_connected _ _ _ _ c (json_stringify _)) by done.
  do 3 eexists. split; [done|].
  unfold qos_of_priority.
  split; split; intros Hq; repeat case_match; simplify_eq/=; done.
Qed.

(** [getDevice] answers 200 for every device id; the status is "active"
    when both queues are subscribed and "partial" otherwise, also when
    neither is. *)
Lemma getDevice_status req w d :
  params req = JObj [("deviceId", JStr d)] -> d <> "" ->
  let subscribed q := bool_decide (q ∈ reg_all (subscriptions (this w))) in
  exists r,
    getDevice now req w = (Ok (Sent r), w)
    /\ statusCode r = 200
    /\ prop "status" (prop "device" (prop "data" (sent r)))
       = JStr (if subscribed (inQueue d) && subscribed (outQueue d)
               then "active" else "partial").
Proof.
  intros Hp Hne subscribed. unfold getDevice, try_catch, bind, lift.
  rewrite Hp. simpl. rewrite bool_decide_eq_false_2 by done. simpl.
  by eexists.
Qed.
(** ** [addDevice] and the bulk loop on the event loop *)

(** C3: [addDevice] creates the queue pair of the device, inbound first, and
    does not roll back.  With the service connected, the handler requests
    the inbound queue and waits; when it is granted it requests the outbound
    queue and waits; when that is granted it answers 200 and both queues are
    in the registry.  When the outbound queue is refused it answers 500 with
    the broker's error and the inbound queue as partial result, and the
    inbound queue stays subscribed. *)
Theorem addDevice_pair req w c cl fields d error granted_in granted_out :
  Connected w c cl ->
  body req = JObj fields -> lookup_field "deviceId" fields = JStr d ->
  valid_device_id d = true ->
  let deviceInfo := with_default (JObj []) (lookup_field "deviceInfo" fields) in
  let j := length (outbox cl) in
  let p := length (promises w) in
  let w1 := turn (CallCreateQueue (inQueue d) queue_options) w in
  let w2 := turn (ClientCompletes c j None granted_in) w1 in
  let w3 := turn (CallCreateQueue (outQueue d) queue_options) w2 in
  let w4 := turn (ClientCompletes c j error granted_out) w3 in
  let k1 := AddIn (JStr d) deviceInfo in
  let k2 := AddOut (JStr d) deviceInfo [created (inQueue d) "in" granted_in] in
  addDevice req w = (Ok (Suspended p k1), w1)
  /\ resume (continue now) p k1 w2 = (Ok (Suspended (S p) k2), w3)
  /\ exists r,
       resume (continue now) (S p) k2 w4 = (Ok (Sent r), w4)
       /\ match error with
          | None =>
              statusCode r = 200
              /\ subscriptions (this w4)
                 = reg_add (outQueue d) (reg_add (inQueue d) (subscriptions (this w)))
          | Some e =>
              statusCode r = 500
              /\ prop "details" (sent r) = JStr (message_of e)
              /\ prop "partialResults" (sent r)
                 = JArr [created (inQueue d) "in" granted_in]
              /\ subscriptions (this w4) = reg_add (inQueue d) (subscriptions (this w))
          end.
Proof.
  intros Hc Hb Hd Hv deviceInfo j p w1 w2 w3 w4 k1 k2.
  destruct (createQueue_round_Connected (inQueue d) queue_options w c cl None granted_in Hc)
    as (Hc2 & Hp2 & Hs2). fold j w1 w2 in Hc2, Hp2, Hs2.
  destruct (createQueue_round_Connected (outQueue d) queue_options w2 c cl error
              granted_out Hc2) as (Hc4 & Hp4 & Hs4). fold j w3 w4 in Hc4, Hp4, Hs4.
  assert (length (promises w2) = S p) as Hlen
    by (rewrite Hp2, length_app; simpl; lia).
  split_and!.
  - rewrite (addDevice_valid _ _ fields d) by done. unfold bind.
    by rewrite (createQueue_Connected _ _ _ c cl).
  - rewrite (resume_resolved _ _ _ _ granted_in)
      by (rewrite Hp2; by apply list_lookup_middle).
    simpl. unfold addDevice_after_in, try_catch, bind, outQueue_of. simpl.
    by rewrite (createQueue_Connected _ _ _ c cl), Hlen.
  - assert (promises w4 !! S p = Some (settled_by error granted_out)) as Hp.
    { rewrite Hp4. apply list_lookup_middle. by rewrite Hlen. }
    destruct error as [e|]; simpl in *.
    + rewrite (resume_rejected _ _ _ _ _ Hp). simpl. eexists. split; [done|].
      split_and!; try done. by rewrite Hs4, Hs2.
    + rewrite (resume_resolved _ _ _ _ _ Hp). simpl. eexists. split; [done|].
      split; [done|]. by rewrite Hs4, Hs2.
Qed.

(** C28: [addDevice] while the service is disconnected is answered with
    status 500 "Failed to create device queues", not with a 503 that marks
    the service as unavailable; nothing is subscribed. *)
Theorem addDevice_disconnected req w fields d :
  isConnected (this w) = false ->
  body req = JObj fields -> lookup_field "deviceId" fields = JStr d ->
  valid_device_id d = true ->
  exists p k w' r,
    addDevice req w = (Ok (Suspended p k), w')
    /\ resume (continue now) p k w' = (Ok (Sent r), w')
    /\ statusCode r = 500
    /\ prop "error" (sent r) = JStr "Failed to create device queues"
    /\ prop "details" (sent r) = JStr "MQTT client not connected"
    /\ subscriptions (this w') = subscriptions (this w).
Proof.
  intros Hc Hb Hd Hv. rewrite (addDevice_valid _ _ fields d) by done. unfold bind.
  rewrite createQueue_disconnected by done. simpl. do 4 eexists. split; [done|].
  rewrite (resume_rejected _ _ _ _ not_connected) by by apply list_lookup_middle.
  simpl. done.
Qed.

(** C38: [bulkAddDevices] does not validate device ids: for any non-empty
    id, whatever its characters, it requests the queue named after it. *)
Theorem bulkAddDevices_unvalidated req w fields dfields rest d :
  body req = JObj fields ->
  lookup_field "devices" fields = JArr (JObj dfields :: rest) ->
  lookup_field "deviceId" dfields = JStr d -> d <> "" ->
  exists k,
    bulkAddDevices now req w
    = (Ok (Suspended (length (promises w)) k),
       turn (CallCreateQueue (inQueue d) queue_options) w).
Proof.
  intros Hb Hds Hd Hne. unfold bulkAddDevices, try_catch, bind, lift.
  rewrite Hb. simpl. rewrite Hds. simpl. unfold bind, lift, try_catch. simpl.
  rewrite Hd. simpl. rewrite bool_decide_eq_false_2 by done. simpl.
  unfold inQueue_of. simpl. rewrite turn_createQueue. unfold exec.
  destruct (createQueue_returns (inQueue d) queue_options w) as [w' ->]. by eexists.
Qed.

End Specs.

(** ** Concrete requests *)

Definition noon : string := "2025-01-01T12:00:00.000Z".

(** A request for device [d1] with the given body. *)
Definition request (fields : list (string * JsVal)) : Req :=
  {| body := JObj fields; params := JObj [("deviceId", JStr "d1")] |}.

Lemma connected_world_Connected : Connected connected_world 0 (mkClient Up false []).
Proof. by split. Qed.

Lemma device_handlers_keep_reachable_witness :
  reachable (exec (handler noon 0 DeleteDevice (request [("removeQueues", JBool true)]))
               demo_world)
  /\ reachable (exec (continue noon (BulkDelay [] [] []) (Ok JUndefined)) demo_world).
Proof.
  apply device_handlers_keep_reachable. exists demo_trace. apply demo_Trace.
Defined.

Lemma addDevice_validates_witness :
  exists r,
    addDevice (request [("deviceId", JStr "dev 1")]) (initial : World JsSet)
    = (Ok (Sent r), initial)
    /\ statusCode r = 400.
Proof.
  apply (addDevice_validates _ initial [("deviceId", JStr "dev 1")]); [done|].
  by right.
Defined.

Lemma deleteDevice_unchecked_witness :
  exists r,
    deleteDevice noon (request [("removeQueues", JBool true)])
      (initial : World JsSet)
    = (Ok (Sent r), initial)
    /\ statusCode r = 200 /\ success_of r = JBool true
    /\ prop "queueOperations" (prop "device" (prop "data" (sent r)))
       = JArr [unsubscribed (inQueue "d1") None; unsubscribed (outQueue "d1") None].
Proof.
  by apply (deleteDevice_unchecked noon _ initial [("removeQueues", JBool true)] "d1").
Defined.

Lemma retireDevice_keeps_queues_witness :
  exists p k w' r,
    retireDevice noon (request []) connected_world = (Ok (Suspended p k), w')
    /\ subscriptions (this w') = subscriptions (this connected_world)
    /\ statusCode r = 200 /\ success_of r = JBool true
    /\ forall settled (w'' : World JsSet),
         continue noon k settled w'' = (Ok (Sent r), w'').
Proof. by apply (retireDevice_keeps_queues noon _ connected_world [] "d1"). Defined.

Lemma sendCommandToDevice_qos_witness :
  let priority := JStr "high" in
  exists k message cb,
    sendCommandToDevice noon 1700
      (request [("command", JStr "reboot"); ("priority", JStr "high")]) connected_world
    = (Ok (Suspended 0 k),
       upd_clients
         (alter (client_request
                   (ReqPublish (outQueue "d1") message
                      (JObj [("qos", JNum (qos_of_priority priority));
                             ("retain", JBool false)]) cb)) 0)
         (upd_promises (fun ps => ps ++ [Pending]) connected_world))
    /\ (qos_of_priority priority = 2 <-> priority = JStr "high")%Z
    /\ (qos_of_priority priority = 1 <-> priority = JStr "normal")%Z.
Proof.
  by apply (sendCommandToDevice_qos noon 1700 _ connected_world 0 (mkClient Up false [])
              [("command", JStr "reboot"); ("priority", JStr "high")] "d1"
              connected_world_Connected).
Defined.

Lemma addDevice_pair_witness :
  let req := request [("deviceId", JStr "d1")] in
  let w := connected_world in
  let w1 := turn (CallCreateQueue (inQueue "d1") queue_options) w in
  let w2 := turn (ClientCompletes 0 0 None (JArr [])) w1 in
  let w3 := turn (CallCreateQueue (outQueue "d1") queue_options) w2 in
  let w4 := turn (ClientCompletes 0 0 (Some (Error "refused")) JNull) w3 in
  let k1 := AddIn (JStr "d1") (JObj []) in
  let k2 := AddOut (JStr "d1") (JObj []) [created (inQueue "d1") "in" (JArr [])] in
  addDevice req w = (Ok (Suspended 0 k1), w1)
  /\ resume (continue noon) 0 k1 w2 = (Ok (Suspended 1 k2), w3)
  /\ exists r,
       resume (continue noon) 1 k2 w4 = (Ok (Sent r), w4)
       /\ statusCode r = 500
       /\ prop "details" (sent r) = JStr "refused"
       /\ prop "partialResults" (sent r) = JArr [created (inQueue "d1") "in" (JArr [])]
       /\ subscriptions (this w4)
          = reg_add (inQueue "d1") (subscriptions (this connected_world)).
Proof.
  exact (addDevice_pair noon (request [("deviceId", JStr "d1")]) connected_world 0
              (mkClient Up false []) [("deviceId", JStr "d1")] "d1"
              (Some (Error "refused")) (JArr []) JNull connected_world_Connected
           eq_refl eq_refl eq_refl).
Defined.

Lemma addDevice_disconnected_witness :
  exists p k w' r,
    addDevice (request [("deviceId", JStr "d1")]) (initial : World JsSet)
    = (Ok (Suspended p k), w')
    /\ resume (continue noon) p k w' = (Ok (Sent r), w')
    /\ statusCode r = 500
    /\ prop "error" (sent r) = JStr "Failed to create device queues"
    /\ prop "details" (sent r) = JStr "MQTT client not connected"
    /\ subscriptions (this w') = [].
Proof.
  exact (addDevice_disconnected noon (request [("deviceId", JStr "d1")]) initial
           [("deviceId", JStr "d1")] "d1" eq_refl eq_refl eq_refl eq_refl).
Defined.

(** A device id with a space, a slash and a wildcard is taken as it is. *)
Lemma bulkAddDevices_unvalidated_witness :
  exists k,
    bulkAddDevices noon
      (request [("devices", JArr [JObj [("deviceId", JStr "a b/#")]])]) connected_world
    = (Ok (Suspended 0 k),
       turn (CallCreateQueue (inQueue "a b/#") queue_options) connected_world).
Proof.
  by apply (bulkAddDevices_unvalidated noon _ connected_world
              [("devices", JArr [JObj [("deviceId", JStr "a b/#")]])]
              [("deviceId", JStr "a b/#")] [] "a b/#").
Defined.

End DeviceController.
