(* ===== verification/BulkAdd.v ===== *)
(** * The bulk request, from request to response

    [bulkAddDevices] of [DeviceController] followed through its awaits: the
    loop over the devices, the accounting of its results, the bound on its
    resumptions and the response that ends it. *)

From stdpp Require Import pretty.
From S2P Require Import Prelude JsString JsValue Json Registry Client ServiceState.
From S2P Require Import Topics Router Gateway Connection EventLoop Reconnect Requests.
From S2P Require Import Http DeviceListing DeviceController.
Import JsString JsValue Json Registry Client ServiceState Topics Gateway.
Import EventLoop Reconnect Requests Http DeviceListing DeviceController.

Module BulkAdd.

(** ** Accounting of a bulk request *)

(** A result of the bulk loop is a success or a failure. *)
Definition judged (r : JsVal) : Prop :=
  has_status "success" r = true \/ has_status "failed" r = true.

(** An element of [devices] that can be destructured. *)
Definition has_fields (deviceData : JsVal) : Prop :=
  deviceData <> JUndefined /\ deviceData <> JNull.

(** The resumptions a suspended bulk request still needs, at most. *)
Definition bulk_measure (k : Await) : nat :=
  match k with
  | BulkIn _ rest _ _ _ => 3 * length rest + 3
  | BulkOut _ rest _ _ _ => 3 * length rest + 2
  | BulkDelay _ rest _ => 3 * length rest + 1
  | _ => 0
  end.

Definition reply_measure (r : Reply Await) : nat :=
  match r with
  | Suspended _ k => bulk_measure k
  | _ => 0
  end.

(** The loop has gone through [processed] and has [rest] before it: the
    elements it has gone through could be destructured, and each has its
    result, but for [pending] of them that are being added. *)
Definition progress (devices rest results : list JsVal) (pending : nat) : Prop :=
  Forall judged results
  /\ exists processed,
       devices = processed ++ rest /\ Forall has_fields processed
       /\ length processed = pending + length results.

(** Every device has its result, is being added, or is still to come. *)
Definition accounts (devices : list JsVal) (k : Await) : Prop :=
  match k with
  | BulkIn ds rest results _ _ | BulkOut ds rest results _ _ =>
      ds = devices /\ progress devices rest results 1
  | BulkDelay ds rest results =>
      ds = devices /\ progress devices rest results 0
  | _ => False
  end.

(** The response accounts for every device: one result each, and the
    summary counts them. *)
Definition summary_of (devices : list JsVal) (resp : Response) : Prop :=
  exists results,
    statusCode resp = 200
    /\ prop "results" (prop "data" (sent resp)) = JArr results
    /\ length results = length devices
    /\ prop "summary" (prop "data" (sent resp))
       = JObj [("total", JNum (Z.of_nat (length devices)));
               ("successful", JNum (Z.of_nat (count_status "success" results)));
               ("failed", JNum (Z.of_nat (count_status "failed" results)))]
    /\ count_status "success" results + count_status "failed" results = length devices
    /\ success_of resp = JBool (0 <? count_status "success" results).

(** The response to a bulk request: the summary when every element of
    [devices] can be destructured, the answer of the [catch] block when
    one cannot. *)
Definition answer_of (devices : list JsVal) (resp : Response) : Prop :=
  (Forall has_fields devices -> summary_of devices resp)
  /\ (~ Forall has_fields devices -> exists error, resp = bulkAddDevices_catch error).

Definition accounted (devices : list JsVal) (r : Reply Await) : Prop :=
  match r with
  | Suspended _ k => accounts devices k
  | Sent resp => answer_of devices resp
  | OutOfModel => False
  end.

(** ** [bulkAddDevices] *)

Section Bulk.
Context {Reg : Type} `{RegistryOps Reg} {codec : JsonCodec}.
Variable now : string.
Implicit Types (w : World Reg) (req : Req) (k : Await) (results rest devices : list JsVal).

Lemma count_status_app status results results' :
  count_status status (results ++ results')
  = count_status status results + count_status status results'.
Proof. unfold count_status. by rewrite filter_app, length_app. Qed.

Lemma has_status_inj status status' r :
  has_status status r = true -> has_status status' r = true -> status = status'.
Proof.
  unfold has_status. destruct (prop "status" r); try done.
  by intros <-%bool_decide_eq_true <-%bool_decide_eq_true.
Qed.

Lemma judged_counts results :
  Forall judged results ->
  count_status "success" results + count_status "failed" results = length results.
Proof.
  unfold count_status. induction 1 as [|r results Hr _ IH]; [done|].
  rewrite !filter_cons. simpl. rewrite <- IH.
  destruct Hr as [Hr|Hr].
  - rewrite (decide_True (P:=has_status "success" r = true)) by done.
    rewrite (decide_False (P:=has_status "failed" r = true)); [simpl; lia|].
    intros Hr'. by pose proof (has_status_inj _ _ _ Hr Hr').
  - rewrite (decide_True (P:=has_status "failed" r = true)) by done.
    rewrite (decide_False (P:=has_status "success" r = true)); [simpl; lia|].
    intros Hr'. by pose proof (has_status_inj _ _ _ Hr Hr').
Qed.

Lemma judged_failed deviceId error : judged (bulk_failed deviceId error).
Proof. by right. Qed.

Lemma judged_success deviceId deviceInfo : judged (bulk_success deviceId deviceInfo).
Proof. by left. Qed.

Lemma Forall_judged_snoc results r :
  Forall judged results -> judged r -> Forall judged (results ++ [r]).
Proof. intros. apply Forall_app. by split; [|apply Forall_singleton]. Qed.

Lemma has_fields_get name deviceData :
  has_fields deviceData -> exists v, get_field name deviceData = Ok v.
Proof. intros [? ?]. destruct deviceData; simpl; by eauto. Qed.

Lemma respond_summary devices results :
  length results = length devices -> Forall judged results ->
  summary_of devices (bulkAddDevices_respond now devices results).
Proof.
  intros Hlen Hj. exists results. split_and!; try done.
  by rewrite judged_counts.
Qed.

Lemma has_fields_cases deviceData :
  has_fields deviceData \/ forall name, exists error, get_field name deviceData = Thrown error.
Proof. destruct deviceData; first [by left | right; intros; by eexists]. Qed.

Lemma progress_snoc devices rest results pending r :
  progress devices rest results (S pending) -> judged r ->
  progress devices rest (results ++ [r]) pending.
Proof.
  intros (Hj & processed & ? & ? & Hlen) Hr. split; [by apply Forall_judged_snoc|].
  exists processed. rewrite length_app. simpl. split_and!; [done..|lia].
Qed.

Lemma progress_next devices deviceData rest results :
  progress devices (deviceData :: rest) results 0 -> has_fields deviceData ->
  progress devices rest results 1.
Proof.
  intros (Hj & processed & -> & Hp & Hlen) Hd. split; [done|].
  exists (processed ++ [deviceData]). rewrite <- app_assoc, length_app. simpl.
  split_and!; [done| |lia]. apply Forall_app. by split; [|apply Forall_singleton].
Qed.

(** When the loop ends every element was destructured. *)
Lemma progress_done devices results :
  progress devices [] results 0 -> answer_of devices (bulkAddDevices_respond now devices results).
Proof.
  intros (Hj & processed & -> & Hp & Hlen). rewrite app_nil_r in *. split; [|done].
  intros _. apply respond_summary; [by rewrite Hlen|done].
Qed.

(** When an element cannot be destructured the answer is that of the
    [catch] block. *)
Lemma progress_stuck devices deviceData rest results pending error :
  progress devices (deviceData :: rest) results pending -> ~ has_fields deviceData ->
  answer_of devices (bulkAddDevices_catch error).
Proof.
  intros (_ & processed & -> & _) Hd. split; [|by eexists].
  intros [_ [? _]%Forall_cons]%Forall_app. done.
Qed.

(** The loop from the head of an iteration: it reaches an [await] or the
    response, or the element cannot be destructured and it throws. *)
Lemma bulk_loop_accounted devices results rest w :
  progress devices rest results 0 ->
  (exists r w', bulk_loop now devices results rest w = (Ok r, w')
                /\ accounted devices r /\ reply_measure r <= 3 * length rest)
  \/ (exists error w', bulk_loop now devices results rest w = (Thrown error, w')
                       /\ forall error, answer_of devices (bulkAddDevices_catch error)).
Proof.
  revert results. induction rest as [|deviceData rest IH]; intros results Hp.
  { left. do 2 eexists. split; [done|]. split; [by apply progress_done|done]. }
  simpl bulk_loop. destruct (has_fields_cases deviceData) as [Hd|Hd].
  - destruct (has_fields_get "deviceId" _ Hd) as [deviceId E1].
    destruct (has_fields_get "deviceInfo" _ Hd) as [deviceInfo E2].
    pose proof (progress_next _ _ _ _ Hp Hd) as Hp'.
    unfold bind, lift. rewrite E1, E2. simpl.
    destruct (truthy deviceId); simpl.
    + left. unfold try_catch, bind.
      destruct (createQueue_returns (inQueue_of deviceId) queue_options w) as [w' ->].
      do 2 eexists. split; [done|]. simpl. split_and!; try done; lia.
    + destruct (IH _ (progress_snoc _ _ _ _ _ Hp'
                       (judged_failed (JStr "unknown") "Device ID is required")))
        as [(r & w' & -> & Ha & Hm)|(error & w' & -> & Ha)]; [left|right].
      * do 2 eexists. split; [done|]. split; [done|]. simpl. lia.
      * by do 2 eexists.
  - right. destruct (Hd "deviceId") as [error E]. unfold bind, lift. rewrite E.
    do 2 eexists. split; [done|]. intros error'.
    apply (progress_stuck _ _ _ _ _ _ Hp). intros [? ?]. by destruct deviceData.
Qed.

(** A step of a suspended bulk request keeps the accounts and decreases the
    measure. *)
Lemma bulk_step devices k settled w :
  accounts devices k ->
  (forall ds rest results, k = BulkDelay ds rest results -> is_ok settled = true) ->
  exists r w',
    continue now k settled w = (Ok r, w')
    /\ accounted devices r /\ reply_measure r < bulk_measure k.
Proof.
  intros Ha Hs. destruct k; try done; simpl in Ha; destruct Ha as (-> & Hp).
  - simpl. unfold bulk_after_in, try_catch, bind. destruct settled as [v|error].
    + destruct (createQueue_returns (outQueue_of deviceId) queue_options w) as [w' ->].
      do 2 eexists. split; [done|]. simpl. split_and!; try done; lia.
    + do 2 eexists. split; [done|]. simpl.
      split_and!; [done|by apply progress_snoc, judged_failed|lia].
  - simpl. unfold bulk_after_out, try_catch. destruct settled as [v|error];
      (do 2 eexists; split; [done|]; simpl;
       split_and!;
         [done|apply progress_snoc; [done|apply judged_failed || apply judged_success]|lia]).
  - specialize (Hs _ _ _ eq_refl). destruct settled as [v|error]; [|done].
    simpl. unfold bulk_after_delay, try_catch.
    destruct (bulk_loop_accounted devices results rest w Hp)
      as [(r & w' & -> & ? & ?)|(error & w' & -> & Ha)].
    + do 2 eexists. split; [done|]. split; [done|]. lia.
    + do 2 eexists. split; [done|]. split; [apply Ha|simpl; lia].
Qed.

Lemma bulkAddDevices_starts req w fields devices :
  body req = JObj fields -> lookup_field "devices" fields = JArr devices ->
  devices <> [] ->
  exists r w',
    bulkAddDevices now req w = (Ok r, w')
    /\ accounted devices r /\ reply_measure r <= 3 * length devices.
Proof.
  intros Hb Hd Hne. unfold bulkAddDevices, try_catch, bind, lift.
  rewrite Hb. simpl. rewrite Hd. destruct devices as [|d devices]; [done|].
  destruct (bulk_loop_accounted (d :: devices) [] (d :: devices) w)
    as [(r & w' & -> & ? & ?)|(error & w' & -> & Ha)].
  - split; [constructor|]. by exists [].
  - by do 2 eexists.
  - do 2 eexists. split; [done|]. split; [apply Ha|simpl; lia].
Qed.

Lemma accounted_measure devices r :
  accounted devices r -> reply_measure r = 0 -> exists response, r = Sent response.
Proof.
  destruct r as [response|p k|]; [by eexists| |done].
  destruct k; simpl; try done; lia.
Qed.

Lemma drive_accounted devices oracle between fuel r w :
  (forall ds rest results p, is_ok (oracle (BulkDelay ds rest results) p) = true) ->
  accounted devices r -> reply_measure r <= fuel ->
  exists response,
    drive (continue now) oracle between fuel r w = Some response
    /\ answer_of devices response.
Proof.
  intros Ho. revert r w. induction fuel as [|fuel IH]; intros r w Ha Hm.
  { destruct (accounted_measure devices r Ha) as [response ->]; [lia|]. by exists response. }
  destruct r as [response|p k|]; [by exists response| |done]. simpl in *.
  destruct (bulk_step devices k (oracle k p) (between w) Ha) as (r' & w' & -> & Ha' & Hm').
  { intros ds rest results ->. apply Ho. }
  apply IH; [done | lia].
Qed.

(** C15: Every bulk request is answered, and the answer accounts for every
    device.  Whatever the environment does between the resumptions, and
    whether the broker grants or refuses each queue, a request with a
    list of [n] devices sends its response after at most [3 n]
    resumptions, the timers of the delays firing as timers do.  When
    every element of the list can be destructured (none is [null] or
    [undefined]) the response is 200 and holds one result per device,
    each a success or a failure, and the summary counts them: one
    device's failure does not stop the rest.  When an element cannot be
    destructured the loop stops at it and the response is the 500 of the
    [catch] block, without the results of the devices before it. *)
Theorem bulkAddDevices_answers req w fields devices oracle between :
  body req = JObj fields -> lookup_field "devices" fields = JArr devices ->
  devices <> [] ->
  (forall ds rest results p, is_ok (oracle (BulkDelay ds rest results) p) = true) ->
  exists r w' response,
    bulkAddDevices now req w = (Ok r, w')
    /\ drive (continue now) oracle between (3 * length devices) r w' = Some response
    /\ (Forall has_fields devices -> summary_of devices response)
    /\ (~ Forall has_fields devices ->
        exists error, response = bulkAddDevices_catch error).
Proof.
  intros Hb Hd Hne Ho.
  destruct (bulkAddDevices_starts req w fields devices) as (r & w' & Hr & Ha & Hm);
    try done.
  destruct (drive_accounted devices oracle between (3 * length devices) r w')
    as (response & ? & ? & ?); [done..|].
  by exists r, w', response.
Qed.
End Bulk.

(** ** Concrete requests *)

Lemma bulkAddDevices_answers_witness :
  let devices := [JObj [("deviceId", JStr "d1")]; JNum 5] in
  exists r w' response,
    bulkAddDevices noon (request [("devices", JArr devices)])
      (initial : World JsSet) = (Ok r, w')
    /\ drive (continue noon) (fun _ _ => Ok JNull) id (3 * length devices) r w'
       = Some response
    /\ (Forall has_fields devices -> summary_of devices response)
    /\ (~ Forall has_fields devices ->
        exists error, response = bulkAddDevices_catch error).
Proof.
  by apply (bulkAddDevices_answers noon _ initial
              [("devices", JArr [JObj [("deviceId", JStr "d1")]; JNum 5])]).
Defined.

(** A list with [null] in it: the first device is created, the request is
    answered 500 and the result of the first device is not reported. *)
Lemma bulk_null_element :
  let devices := [JObj [("deviceId", JStr "d1")]; JNull] in
  exists r w' response,
    bulkAddDevices noon (request [("devices", JArr devices)])
      (Gateway.connected_world : World (list string)) = (Ok r, w')
    /\ drive (continue noon) (fun _ _ => Ok JNull) id (3 * length devices) r w'
       = Some response
    /\ statusCode response = 500
    /\ prop "results" (prop "data" (sent response)) = JUndefined.
Proof. do 3 eexists. by vm_compute. Qed.

End BulkAdd.
