(* ===== verification/Lifecycle.v ===== *)
(** * The life of a device

    The gateway keeps no record of a device: a device is the pair of its
    queues in the registry of subscriptions.  This file follows one device
    through the API: once [addDevice] has created its queues [getDevice]
    reports it as active; [deleteDevice] with [removeQueues] answers at
    once, and the device stays as it is until the broker has acknowledged
    both unsubscriptions; after that [getDevice] still answers 200, for a
    device it calls partial, and the registry is what it was before the
    device was added. *)

From stdpp Require Import gmap.
From S2P Require Import Prelude JsString JsValue Json Registry Client ServiceState.
From S2P Require Import Topics Router Gateway Connection EventLoop Reconnect Requests.
From S2P Require Import Http DeviceListing DeviceController.
Import JsString JsValue Json Registry Client ServiceState Topics Gateway.
Import EventLoop Reconnect Requests Http DeviceListing DeviceController.

Module Lifecycle.

(** The status code and the device status of a response of [getDevice]. *)
Definition reported {K} (o : Outcome (Reply K)) : option (nat * JsVal) :=
  match o with
  | Ok (Sent r) => Some (statusCode r, prop "status" (prop "device" (prop "data" (sent r))))
  | _ => None
  end.

(** A request for device [d] with the given body. *)
Definition device_request (d : string) (fields : list (string * JsVal)) : Req :=
  {| body := JObj fields; params := JObj [("deviceId", JStr d)] |}.

Section Life.
Context {Reg : Type} `{RegistryLaws Reg} {codec : JsonCodec}.
Variable now : string.
Implicit Types (w : World Reg) (d : string).

(** The turns of a successful [addDevice]: both queues requested and
    granted. *)
Definition added d (c j : nat) (granted_in granted_out : JsVal) w : World Reg :=
  turns [CallCreateQueue (inQueue d) queue_options;
         ClientCompletes c j None granted_in;
         CallCreateQueue (outQueue d) queue_options;
         ClientCompletes c j None granted_out] w.

(** The broker acknowledges the two requests queued last but one and
    last. *)
Definition acknowledged (c j : nat) (g1 g2 : JsVal) w : World Reg :=
  turns [ClientCompletes c j None g1; ClientCompletes c j None g2] w.

(** What [getDevice] reports of device [d]. *)
Definition getDevice_reports d w : option (nat * JsVal) :=
  reported (eval (getDevice now (device_request d [])) w).

Lemma getDevice_reports_spec d w :
  d <> "" ->
  getDevice_reports d w
  = Some (200, JStr (if bool_decide (inQueue d ∈ reg_all (subscriptions (this w)))
                        && bool_decide (outQueue d ∈ reg_all (subscriptions (this w)))
                     then "active" else "partial")).
Proof.
  intros Hne. unfold getDevice_reports, eval.
  destruct (getDevice_status now (device_request d []) w d eq_refl Hne)
    as (r & -> & Hs & Hst).
  simpl. by rewrite Hs, Hst.
Qed.

Lemma added_spec d c cl granted_in granted_out w :
  Connected w c cl ->
  let w' := added d c (length (outbox cl)) granted_in granted_out w in
  Connected w' c cl
  /\ subscriptions (this w')
     = reg_add (outQueue d) (reg_add (inQueue d) (subscriptions (this w))).
Proof.
  intros Hc.
  destruct (createQueue_round_Connected (inQueue d) queue_options w c cl None granted_in Hc)
    as (Hc2 & _ & Hs2).
  destruct (createQueue_round_Connected (outQueue d) queue_options _ c cl None granted_out Hc2)
    as (Hc4 & _ & Hs4).
  split; [done|]. unfold added. simpl. by rewrite Hs4, Hs2.
Qed.

(** A completion leaves the other requests of the client in flight. *)
Lemma turn_completes_clients w c cl j r error granted :
  clients w !! c = Some cl -> outbox cl !! j = Some r ->
  clients (turn (ClientCompletes c j error granted) w)
  = <[c := {| link := link cl; ended := ended cl; outbox := delete j (outbox cl) |}]>
      (clients w).
Proof.
  intros Hc Hj. destruct w as [[? ? ? ? ?] cs ps ?].
  unfold turn, exec, step, complete, bind, get. simpl in *. rewrite Hc. simpl.
  unfold client_complete. rewrite Hj. simpl.
  destruct r as [? ? cb|? cb|? ? ? cb]; destruct cb, error; by unfold_service.
Qed.

(** The two unsubscriptions of [deleteDevice], acknowledged. *)
Lemma acknowledged_spec t1 t2 c cl g1 g2 w :
  clients w !! c = Some cl ->
  let r1 := ReqUnsubscribe t1 (UnsubscribeCb t1) in
  let r2 := ReqUnsubscribe t2 (UnsubscribeCb t2) in
  let w' := upd_clients (alter (client_request r2) c)
              (upd_clients (alter (client_request r1) c) w) in
  subscriptions (this (acknowledged c (length (outbox cl)) g1 g2 w'))
  = reg_delete t2 (reg_delete t1 (subscriptions (this w))).
Proof.
  intros Hc r1 r2 w'. unfold acknowledged. simpl.
  assert (clients w' !! c = Some (client_request r2 (client_request r1 cl))) as Hc'.
  { unfold w'. simpl. by rewrite !list_lookup_alter, Hc, !decide_True. }
  assert (outbox (client_request r2 (client_request r1 cl)) !! length (outbox cl) = Some r1)
    as Hj.
  { simpl. rewrite <- app_assoc. simpl. by rewrite list_lookup_middle. }
  rewrite turn_registry.
  unfold completed_request at 1.
  rewrite (turn_completes_clients _ _ _ _ _ _ _ Hc' Hj).
  rewrite list_lookup_insert_eq by by eapply lookup_lt_Some. simpl.
  rewrite <- app_assoc. simpl. rewrite delete_middle.
  rewrite list_lookup_middle by done. simpl.
  rewrite turn_registry. unfold completed_request. rewrite Hc'. simpl.
  rewrite <- app_assoc. simpl. by rewrite list_lookup_middle.
Qed.

(** [deleteDevice] with [removeQueues], by a connected service: both
    unsubscriptions are requested and the response is sent at once. *)
Lemma deleteDevice_requests d c cl w :
  Connected w c cl -> d <> "" ->
  exists r,
    deleteDevice now (device_request d [("removeQueues", JBool true)]) w
    = (Ok (Sent r),
       upd_clients
         (alter (client_request (ReqUnsubscribe (outQueue d) (UnsubscribeCb (outQueue d)))) c)
         (upd_clients
            (alter (client_request (ReqUnsubscribe (inQueue d) (UnsubscribeCb (inQueue d)))) c)
            w))
    /\ statusCode r = 200 /\ success_of r = JBool true.
Proof.
  intros [Hf Hcl _] Hne. unfold deleteDevice, try_catch, bind, lift. simpl.
  rewrite bool_decide_eq_false_2 by done. simpl.
  rewrite (unsubscribe_connected _ _ c) by done.
  rewrite (unsubscribe_connected _ _ c) by done. by eexists.
Qed.

Lemma lifecycle_registry (x y : string) (s : Reg) :
  reg_abs (reg_delete y (reg_delete x (reg_add y (reg_add x s))))
  = reg_abs s ∖ {[x; y]}.
Proof.
  rewrite !reg_abs_delete, !reg_abs_add. apply set_eq. intros z.
  rewrite !elem_of_difference, !elem_of_union, !elem_of_singleton. tauto.
Qed.

(** C17: A device from its addition to its deletion.  Once the broker has
    granted both queues [getDevice] reports the device as active.
    [deleteDevice] with [removeQueues] answers 200 at once; the device is
    still reported as active then, because the registry changes only when
    the broker acknowledges.  After both acknowledgements [getDevice]
    answers 200 and calls the device partial, there is no answer for a
    device that does not exist, and the registry holds what it held
    before the device was added, but for the queues of the device. *)
Theorem device_lifecycle d c cl granted_in granted_out g1 g2 w :
  Connected w c cl -> d <> "" ->
  let j := length (outbox cl) in
  let w1 := added d c j granted_in granted_out w in
  getDevice_reports d w1 = Some (200, JStr "active")
  /\ exists r w2,
       deleteDevice now (device_request d [("removeQueues", JBool true)]) w1
       = (Ok (Sent r), w2)
       /\ statusCode r = 200 /\ success_of r = JBool true
       /\ getDevice_reports d w2 = Some (200, JStr "active")
       /\ let w3 := acknowledged c j g1 g2 w2 in
          getDevice_reports d w3 = Some (200, JStr "partial")
          /\ reg_abs (subscriptions (this w3))
             = reg_abs (subscriptions (this w)) ∖ {[inQueue d; outQueue d]}.
Proof.
  intros Hc Hne j w1.
  destruct (added_spec d c cl granted_in granted_out w Hc) as [Hc1 Hs1]. fold j w1 in Hc1, Hs1.
  assert (getDevice_reports d w1 = Some (200, JStr "active")) as Hactive.
  { rewrite getDevice_reports_spec, Hs1 by done.
    rewrite !bool_decide_eq_true_2; [done|rewrite !reg_elem_of_add; auto..]. }
  split; [done|].
  destruct (deleteDevice_requests d c cl w1 Hc1 Hne) as (r & Hr & Hst & Hsu).
  eexists r, _. split; [exact Hr|]. split_and!; try done.
  - rewrite getDevice_reports_spec in Hactive by done. by rewrite getDevice_reports_spec.
  - cbv zeta. rewrite getDevice_reports_spec by done.
    rewrite (acknowledged_spec _ _ c cl) by by destruct Hc1.
    split; [|rewrite Hs1; apply lifecycle_registry].
    rewrite bool_decide_eq_false_2; [done|].
    rewrite !reg_elem_of_delete. by intros (_ & ? & _).
Qed.

End Life.

Lemma device_lifecycle_witness :
  let w := connected_world in
  let w1 := added "d1" 0 0 JNull JNull w in
  getDevice_reports noon "d1" w1 = Some (200, JStr "active")
  /\ exists r w2,
       deleteDevice noon (device_request "d1" [("removeQueues", JBool true)]) w1
       = (Ok (Sent r), w2)
       /\ statusCode r = 200 /\ success_of r = JBool true
       /\ getDevice_reports noon "d1" w2 = Some (200, JStr "active")
       /\ let w3 := acknowledged 0 0 JNull JNull w2 in
          getDevice_reports noon "d1" w3 = Some (200, JStr "partial")
          /\ reg_abs (subscriptions (this w3))
             = reg_abs (subscriptions (this w)) ∖ {[inQueue "d1"; outQueue "d1"]}.
Proof.
  exact (device_lifecycle noon "d1" 0 (mkClient Up false []) JNull JNull JNull JNull
           connected_world connected_world_Connected ltac:(done)).
Defined.

End Lifecycle.
