(* ===== verification/Envelope.v ===== *)
(** * The envelope of the responses

    Every response a handler of the two controllers sends, at once or after
    waiting, has the same shape: one of four status codes, a boolean
    [success] that is true only with status 200, and an [error] text
    whenever the status is not 200.  The proofs follow the code of the
    handlers with [solve_replies]. *)

From stdpp Require Import gmap.
From S2P Require Import Prelude JsString JsValue Json Registry Client ServiceState.
From S2P Require Import Topics Router Gateway Connection EventLoop Reconnect Requests Http.
From S2P Require Import MqttController DeviceController.
Import JsString JsValue Json Registry Client ServiceState Gateway Connection.
Import EventLoop Reconnect Requests Http.

Module Envelope.

(** The envelope of the responses of the controllers: one of four status
    codes; a boolean [success], true only with status 200; an [error] text
    with every other status. *)
Definition envelope (r : Response) : Prop :=
  statusCode r ∈ [200; 400; 500; 503]
  /\ exists b, success_of r = JBool b
               /\ (b = true -> statusCode r = 200)
               /\ (statusCode r <> 200 ->
                   b = false /\ exists error, prop "error" (sent r) = JStr error).

(** The reply, when it is a response, is in the envelope. *)
Definition enveloped {K} (r : Reply K) : Prop :=
  forall response, r = Sent response -> envelope response.

Lemma envelope_ok body b :
  prop "success" body = JBool b -> envelope (res_json body).
Proof.
  intros Hs. split; [cbn; rewrite !elem_of_cons; tauto|].
  exists b. by split_and!.
Qed.

Lemma envelope_failure code error :
  code ∈ [400; 500; 503] -> envelope (res_status_json code (failure error)).
Proof.
  intros Hc. split; [cbn; rewrite !elem_of_cons in *; tauto|].
  exists false. split_and!; [done|done|]. intros _. split; [done|]. by eexists.
Qed.

Lemma envelope_failure_details code error details :
  code ∈ [400; 500; 503] ->
  envelope (res_status_json code (failure_details error details)).
Proof.
  intros Hc. split; [cbn; rewrite !elem_of_cons in *; tauto|].
  exists false. split_and!; [done|done|]. intros _. split; [done|]. by eexists.
Qed.

(** A response built by a handler is in the envelope: its branches are
    split, then it is a success or one of the two failures. *)
Ltac envelope_response :=
  repeat match goal with
         | |- context [match ?x with _ => _ end] => destruct x
         end;
  first [ eapply envelope_ok; reflexivity
        | apply envelope_failure; cbn; rewrite !elem_of_cons; tauto
        | apply envelope_failure_details; cbn; rewrite !elem_of_cons; tauto ].

Ltac leaf := first [done | intros ? [= <-]; envelope_response].

Section Mqtt.
Context {Reg : Type} `{RegistryOps Reg} {codec : JsonCodec}.
Variable now : string.
Import MqttController.

Lemma mqtt_handler_enveloped e req :
  replies enveloped (handler (Reg:=Reg) now e req).
Proof.
  destruct e; simpl;
    unfold getStatus, broadcastAlldevices, publishMessage, subscribeToTopic,
      unsubscribeFromTopic, getSubscriptions, createQueue, publishMessage_catch,
      createQueue_catch;
    solve_replies leaf.
Qed.

Lemma mqtt_continue_enveloped k settled :
  replies enveloped (continue (Reg:=Reg) now k settled).
Proof.
  destruct k; simpl; unfold publishMessage_continue, createQueue_continue,
    publishMessage_catch, createQueue_catch; solve_replies leaf.
Qed.

End Mqtt.

Section Device.
Context {Reg : Type} `{RegistryOps Reg} {codec : JsonCodec}.
Variables (now : string) (millis : Z).
Import DeviceController.

Lemma bulk_loop_enveloped devices results rest :
  replies enveloped (bulk_loop (Reg:=Reg) now devices results rest).
Proof.
  revert results. induction rest as [|deviceData rest IH]; intros results; simpl.
  - unfold bulkAddDevices_respond. solve_replies leaf.
  - unfold bulk_delay. pose proof IH. solve_replies leaf.
Qed.

Lemma device_handler_enveloped e req :
  replies enveloped (handler (Reg:=Reg) now millis e req).
Proof.
  pose proof bulk_loop_enveloped.
  destruct e; simpl;
    unfold addDevice, updateDevice, retireDevice, deleteDevice, getDevice,
      listDevices, sendCommandToDevice, bulkAddDevices, required,
      addDevice_queueError, addDevice_catch, retireDevice_after, retireDevice_catch,
      deleteDevice_respond, deleteDevice_catch, sendCommandToDevice_catch,
      bulkAddDevices_catch;
    solve_replies leaf.
Qed.

Lemma device_continue_enveloped k settled :
  replies enveloped (continue (Reg:=Reg) now k settled).
Proof.
  pose proof bulk_loop_enveloped.
  destruct k; simpl;
    unfold addDevice_after_in, addDevice_after_out, bulk_after_in, bulk_after_out,
      bulk_after_delay, bulk_delay, retireDevice_after, deleteDevice_respond,
      sendCommandToDevice_after, sendCommandToDevice_catch,
      addDevice_queueError, addDevice_catch, bulkAddDevices_catch;
    solve_replies leaf.
Qed.

End Device.

(** C16: The responses of the controllers are well formed.  Whatever the
    request and the state, a response sent by a handler of the MQTT
    controller or of the device controller, or by the continuation of one
    that waited, has status 200, 400, 500 or 503 and a boolean [success];
    [success] is true only with status 200, and every other status comes
    with [success] false and an [error] text. *)
Theorem controller_responses_enveloped {Reg} `{RegistryOps Reg} {codec : JsonCodec}
  (now : string) (millis : Z) :
  (forall e req, replies enveloped (MqttController.handler (Reg:=Reg) now e req))
  /\ (forall k settled,
        replies enveloped (MqttController.continue (Reg:=Reg) now k settled))
  /\ (forall e req,
        replies enveloped (DeviceController.handler (Reg:=Reg) now millis e req))
  /\ (forall k settled,
        replies enveloped (DeviceController.continue (Reg:=Reg) now k settled)).
Proof.
  split_and!; auto using mqtt_handler_enveloped, mqtt_continue_enveloped,
    device_handler_enveloped, device_continue_enveloped.
Qed.

End Envelope.
