(* ===== verification/Routes.v ===== *)
(** * The routing tables

    [src/routes/index.js], [src/routes/mqttRoutes.js] and
    [src/routes/deviceRoutes.js]: which handler a request reaches, and the
    description of the API that [GET /api] returns.

    A request path is given by its segments.  Express matches a route when
    the method is the route's and the path has the route's segments, a
    [:name] segment matching any segment that is not empty and literal
    segments matching without regard to case; the routes of a router are
    tried in the order in which they were added, and a router mounted
    with [use] sees the path without the mount path.  That contract of Express is what [match_path],
    [find_route] and [mounted] state; the tables are the source's. *)

From stdpp Require Import strings sorting.
From S2P Require Import Prelude JsString JsValue Http MqttController DeviceController.
Import JsString JsValue Http.

Module Routes.

(** ** Express routing *)

Inductive Method : Type := GET | POST | PUT | DELETE | PATCH.

#[export] Instance Method_eq_dec : EqDecision Method.
Proof. solve_decision. Defined.

(** A segment of a route path: literal, or [:name]. *)
Inductive Segment : Type :=
| Lit (s : string)
| Param (name : string).

(** ASCII lower case: routing is not case sensitive. *)
Definition lower_ascii (c : ascii) : ascii :=
  let n := nat_of_ascii c in
  if (65 <=? n) && (n <=? 90) then ascii_of_nat (n + 32) else c.

Fixpoint lower (s : string) : string :=
  match s with
  | EmptyString => EmptyString
  | String c s' => String (lower_ascii c) (lower s')
  end.

Definition same_segment (a b : string) : bool := bool_decide (lower a = lower b).

(** The parameters of [path] when it matches [pattern]; a parameter is
    one character at least. *)
Fixpoint match_path (pattern : list Segment) (path : list string)
  : option (list (string * JsVal)) :=
  match pattern, path with
  | [], [] => Some []
  | Lit s :: pattern', x :: path' =>
      if same_segment s x then match_path pattern' path' else None
  | Param name :: pattern', x :: path' =>
      if bool_decide (x = "") then None
      else cons (name, JStr x) <$> match_path pattern' path'
  | _, _ => None
  end.

(** [router.METHOD(path, handler)] *)
Record Route (H : Type) : Type := mkRoute {
  route_method : Method;
  route_path : list Segment;
  route_handler : H;
}.

Arguments mkRoute {H} _ _ _.
Arguments route_method {H} _.
Arguments route_path {H} _.
Arguments route_handler {H} _.

(** The first route of the router that matches, with [req.params]. *)
Fixpoint find_route {H} (routes : list (Route H)) (m : Method) (path : list string)
  : option (H * list (string * JsVal)) :=
  match routes with
  | [] => None
  | r :: routes' =>
      match (if decide (route_method r = m) then match_path (route_path r) path
             else None) with
      | Some ps => Some (route_handler r, ps)
      | None => find_route routes' m path
      end
  end.

(** [use(prefix, router)]: the router sees the rest of the path. *)
Definition mounted {T} (prefix : string) (router : Method -> list string -> option T)
  (m : Method) (path : list string) : option T :=
  match path with
  | x :: rest => if same_segment prefix x then router m rest else None
  | [] => None
  end.

(** ** The tables *)

(** [src/routes/mqttRoutes.js] *)
Definition mqttRoutes : list (Route MqttController.Endpoint) :=
  [mkRoute GET [Lit "status"] MqttController.GetStatus;
   mkRoute POST [Lit "publish"] MqttController.PublishMessage;
   mkRoute POST [Lit "subscribe"] MqttController.SubscribeToTopic;
   mkRoute DELETE [Lit "subscribe"] MqttController.UnsubscribeFromTopic;
   mkRoute GET [Lit "subscriptions"] MqttController.GetSubscriptions;
   mkRoute POST [Lit "queue"; Lit "create"] MqttController.CreateQueue;
   mkRoute POST [Lit "broadcast"] MqttController.BroadcastAlldevices].

(** [src/routes/deviceRoutes.js] *)
Definition deviceRoutes : list (Route DeviceController.Endpoint) :=
  [mkRoute POST [Lit "add"] DeviceController.AddDevice;
   mkRoute PUT [Param "deviceId"] DeviceController.UpdateDevice;
   mkRoute POST [Param "deviceId"; Lit "retire"] DeviceController.RetireDevice;
   mkRoute DELETE [Param "deviceId"] DeviceController.DeleteDevice;
   mkRoute GET [Param "deviceId"] DeviceController.GetDevice;
   mkRoute GET [] DeviceController.ListDevices;
   mkRoute POST [Lit "bulk"; Lit "add"] DeviceController.BulkAddDevices;
   mkRoute POST [Param "deviceId"; Lit "command"] DeviceController.SendCommandToDevice].

(** What a request reaches. *)
Inductive Target : Type :=
| ApiInfo
| Mqtt (e : MqttController.Endpoint)
| Device (e : DeviceController.Endpoint).

(** The router of [src/routes/index.js]: the description at its root, then
    the two routers it mounts. *)
Definition apiRoutes (m : Method) (path : list string)
  : option (Target * list (string * JsVal)) :=
  match find_route [mkRoute GET [] ApiInfo] m path with
  | Some r => Some r
  | None =>
      match mounted "mqtt" (find_route mqttRoutes) m path with
      | Some (e, ps) => Some (Mqtt e, ps)
      | None =>
          match mounted "devices" (find_route deviceRoutes) m path with
          | Some (e, ps) => Some (Device e, ps)
          | None => None
          end
      end
  end.

(** [app.use("/api", apiRoutes)] of [src/server.js] *)
Definition app_routes : Method -> list string -> option (Target * list (string * JsVal)) :=
  mounted "api" apiRoutes.

(** The object [GET /api] returns. *)
Definition api_info (now : string) : JsVal :=
  JObj [("name", JStr "MDM ActiveMQ MQTT API");
        ("version", JStr "2.0.0");
        ("description",
         JStr "API for managing devices through ActiveMQ Artemis MQTT broker");
        ("endpoints",
         JObj [("health", JStr "GET /health");
               ("mqtt",
                JObj [("status", JStr "GET /api/mqtt/status");
                      ("publish", JStr "POST /api/mqtt/publish");
                      ("subscribe", JStr "POST /api/mqtt/subscribe");
                      ("unsubscribe", JStr "DELETE /api/mqtt/subscribe");
                      ("subscriptions", JStr "GET /api/mqtt/subscriptions");
                      ("createQueue", JStr "POST /api/mqtt/queue/create");
                      ("broadcast", JStr "POST /api/mqtt/broadcast")]);
               ("devices",
                JObj [("list", JStr "GET /api/devices");
                      ("add", JStr "POST /api/devices/add");
                      ("get", JStr "GET /api/devices/:deviceId");
                      ("update", JStr "PUT /api/devices/:deviceId");
                      ("retire", JStr "POST /api/devices/:deviceId/retire");
                      ("delete", JStr "DELETE /api/devices/:deviceId");
                      ("bulkAdd", JStr "POST /api/devices/bulk/add");
                      ("sendCommand", JStr "POST /api/devices/:deviceId/command")])]);
        ("deviceQueueStructure",
         JObj [("inQueue", JStr "octaloop-mdm-in-{deviceId}");
               ("outQueue", JStr "octaloop-mdm-out-{deviceId}");
               ("description",
                JStr "IN queues: Device→Server, OUT queues: Server→Device")]);
        ("timestamp", JStr now)].

(** ** Specification of the routing *)

(** What it is for a path to match a pattern. *)
Inductive Matches : list Segment -> list string -> list (string * JsVal) -> Prop :=
| Matches_nil : Matches [] [] []
| Matches_lit s x pattern path ps :
    lower s = lower x -> Matches pattern path ps ->
    Matches (Lit s :: pattern) (x :: path) ps
| Matches_param name x pattern path ps :
    x <> "" -> Matches pattern path ps ->
    Matches (Param name :: pattern) (x :: path) ((name, JStr x) :: ps).

(** The first route that matches, by search. *)
Definition route_matches {H} (m : Method) (path : list string) (r : Route H)
  : option (H * list (string * JsVal)) :=
  if decide (route_method r = m)
  then pair (route_handler r) <$> match_path (route_path r) path
  else None.

Definition first_match {H} (routes : list (Route H)) (m : Method) (path : list string)
  : option (H * list (string * JsVal)) :=
  head (omap (route_matches m path) routes).

(** Could a path match both patterns? *)
Fixpoint overlap (p q : list Segment) : bool :=
  match p, q with
  | [], [] => true
  | Lit a :: p', Lit b :: q' => same_segment a b && overlap p' q'
  | _ :: p', _ :: q' => overlap p' q'
  | _, _ => false
  end.

Definition routes_overlap {H} (r1 r2 : Route H) : bool :=
  bool_decide (route_method r1 = route_method r2)
  && overlap (route_path r1) (route_path r2).

(** No two routes of the table overlap. *)
Fixpoint unambiguous {H} (routes : list (Route H)) : bool :=
  match routes with
  | [] => true
  | r :: routes' =>
      forallb (fun r' => negb (routes_overlap r r')) routes' && unambiguous routes'
  end.

(** ** What the description of the API advertises *)

(** An entry of the description, read as a request for device [deviceId]. *)
Definition method_of (s : string) : option Method :=
  if decide (s = "GET") then Some GET
  else if decide (s = "POST") then Some POST
  else if decide (s = "PUT") then Some PUT
  else if decide (s = "DELETE") then Some DELETE
  else if decide (s = "PATCH") then Some PATCH
  else None.

Definition segments (deviceId : string) (path : string) : list string :=
  map (fun seg => if decide (seg = ":deviceId") then deviceId else seg)
      (filter (fun seg => seg <> "") (split "/" path)).

Definition advertised_request (deviceId : string) (entry : JsVal)
  : option (Method * list string) :=
  match entry with
  | JStr s =>
      match split " " s with
      | [m; path] => (fun m => (m, segments deviceId path)) <$> method_of m
      | _ => None
      end
  | _ => None
  end.

Definition resolves (deviceId : string) (entry : JsVal)
  : option (Target * list (string * JsVal)) :=
  advertised_request deviceId entry ≫= fun '(m, path) => app_routes m path.

Definition advertised (now group : string) : list JsVal :=
  match prop group (prop "endpoints" (api_info now)) with
  | JObj fields => map snd fields
  | _ => []
  end.


(** ** Matching and search *)

Section Lemmas.
Context {H : Type}.
Implicit Types (routes : list (Route H)) (r : Route H) (m : Method).
Implicit Types (pattern : list Segment) (path : list string).

Lemma same_segment_true a b : same_segment a b = true <-> lower a = lower b.
Proof. apply bool_decide_eq_true. Qed.

Lemma same_segment_refl a : same_segment a a = true.
Proof. by apply same_segment_true. Qed.

Lemma match_path_Matches pattern path ps :
  match_path pattern path = Some ps <-> Matches pattern path ps.
Proof.
  split.
  - revert path ps. induction pattern as [|[s|name] pattern IH]; intros [|x path] ps;
      simpl; try done.
    + intros [= <-]. constructor.
    + destruct (same_segment s x) eqn:E; [|done]. intros Hm.
      constructor; [by apply same_segment_true | auto].
    + case_bool_decide; [done|].
      destruct (match_path pattern path) as [ps'|] eqn:E; [|done].
      intros [= <-]. constructor; auto.
  - induction 1 as [|s x pattern path ps Hs _ IH|name x pattern path ps Hx _ IH]; simpl.
    + done.
    + by rewrite (proj2 (same_segment_true s x) Hs).
    + by rewrite bool_decide_eq_false_2, IH.
Qed.

Lemma match_path_length pattern path ps :
  match_path pattern path = Some ps -> length path = length pattern.
Proof.
  rewrite match_path_Matches. induction 1; simpl; congruence.
Qed.

Lemma find_route_cons r routes m path :
  find_route (r :: routes) m path
  = match route_matches m path r with
    | Some hit => Some hit
    | None => find_route routes m path
    end.
Proof.
  unfold route_matches. simpl. destruct (decide _); [|done].
  by destruct (match_path _ _).
Qed.

(** The router is a search for the first route that matches. *)
Lemma find_route_first_match routes m path :
  find_route routes m path = first_match routes m path.
Proof.
  unfold first_match. induction routes as [|r routes IH]; [done|].
  rewrite find_route_cons. simpl. destruct (route_matches m path r); [done|apply IH].
Qed.

Lemma find_route_Some routes m path h ps :
  find_route routes m path = Some (h, ps) ->
  exists r, r ∈ routes /\ route_method r = m /\ route_handler r = h
            /\ Matches (route_path r) path ps.
Proof.
  induction routes as [|r routes IH]; [done|]. rewrite find_route_cons.
  destruct (route_matches m path r) as [hit|] eqn:E.
  - intros [= ->]. exists r. unfold route_matches in E.
    destruct (decide _) as [Hm|]; [|done].
    destruct (match_path _ _) as [ps'|] eqn:Ep; simplify_eq/=.
    split_and!; [left|done|done|by apply match_path_Matches].
  - intros (r' & ? & ?)%IH. exists r'. split; [by right|done].
Qed.

End Lemmas.

(** ** The order of the routes *)

Section Order.
Context {H : Type}.
Implicit Types (routes : list (Route H)) (r : Route H) (m : Method).

Lemma Matches_overlap p q path ps qs :
  Matches p path ps -> Matches q path qs -> overlap p q = true.
Proof.
  intros Hp. revert q qs. induction Hp; intros q qs Hq; inversion Hq; subst; simpl;
    eauto.
  rewrite (IHHp _ _ ltac:(eassumption)), andb_true_r.
  apply same_segment_true. congruence.
Qed.

Lemma route_matches_Matches m path r hit :
  route_matches m path r = Some hit ->
  route_method r = m /\ Matches (route_path r) path hit.2.
Proof.
  unfold route_matches. destruct (decide _); [|done].
  destruct (match_path _ _) as [ps|] eqn:E; [|done]. intros [= <-].
  split; [done|]. by apply match_path_Matches.
Qed.

Lemma route_matches_overlap m path r r' hit hit' :
  route_matches m path r = Some hit -> route_matches m path r' = Some hit' ->
  routes_overlap r r' = true.
Proof.
  intros [Hm Hp]%route_matches_Matches [Hm' Hp']%route_matches_Matches.
  unfold routes_overlap. rewrite bool_decide_eq_true_2 by congruence.
  eapply Matches_overlap; eauto.
Qed.

Lemma omap_none {A B} (f : A -> option B) (l : list A) :
  Forall (fun x => f x = None) l -> omap f l = [].
Proof. induction 1 as [|x l Hx _ IH]; simpl; [done|]. by rewrite Hx. Qed.

Lemma unambiguous_one routes m path :
  unambiguous routes = true -> length (omap (route_matches m path) routes) <= 1.
Proof.
  induction routes as [|r routes IH]; simpl; [lia|].
  intros [Hr Hrs]%andb_true_iff. specialize (IH Hrs).
  destruct (route_matches m path r) as [hit|] eqn:E; [|done].
  rewrite omap_none; [simpl; lia|].
  apply Forall_forall. intros r' Hin. rewrite forallb_forall in Hr.
  apply list_elem_of_In, Hr, negb_true_iff in Hin.
  destruct (route_matches m path r') as [hit'|] eqn:E'; [|done].
  by rewrite (route_matches_overlap _ _ _ _ _ _ E E') in Hin.
Qed.

(** In a table without overlaps the order of the routes does not matter. *)
Lemma unambiguous_order routes routes' m path :
  unambiguous routes = true -> routes' ≡ₚ routes ->
  find_route routes' m path = find_route routes m path.
Proof.
  intros Hu Hp. rewrite !find_route_first_match. unfold first_match.
  pose proof (unambiguous_one routes m path Hu) as Hlen.
  assert (omap (route_matches m path) routes' ≡ₚ omap (route_matches m path) routes)
    as Hperm by by rewrite Hp.
  destruct (omap (route_matches m path) routes) as [|hit [|? ?]]; simpl in Hlen; [| |lia].
  - by apply Permutation_nil_r in Hperm as ->.
  - by apply Permutation_singleton_r in Hperm as ->.
Qed.

End Order.

Lemma mqttRoutes_unambiguous : unambiguous mqttRoutes = true.
Proof. by vm_compute. Qed.

Lemma deviceRoutes_unambiguous : unambiguous deviceRoutes = true.
Proof. by vm_compute. Qed.

(** C35: No request matches two routes of a table, so the handler a request
    reaches does not depend on the order in which the routes were added:
    any reordering of [mqttRoutes] or of [deviceRoutes] routes every
    request as the tables do.  In particular [/bulk/add] and [/add] are not
    shadowed by the [/:deviceId] routes. *)
Theorem routes_order_irrelevant m path :
  (forall routes, routes ≡ₚ mqttRoutes ->
     find_route routes m path = find_route mqttRoutes m path)
  /\ (forall routes, routes ≡ₚ deviceRoutes ->
        find_route routes m path = find_route deviceRoutes m path).
Proof.
  split; intros routes Hp; apply unambiguous_order;
    auto using mqttRoutes_unambiguous, deviceRoutes_unambiguous.
Qed.

(** ** What reaches the device handlers *)

Lemma info_route_only_root m x path :
  find_route [mkRoute GET [] ApiInfo] m (x :: path) = None.
Proof. rewrite find_route_cons. unfold route_matches. simpl. by destruct (decide _). Qed.

Lemma apiRoutes_Device m path e ps :
  apiRoutes m path = Some (Device e, ps) ->
  exists b rest, path = b :: rest /\ find_route deviceRoutes m rest = Some (e, ps).
Proof.
  destruct path as [|b rest].
  - unfold apiRoutes, mounted. rewrite find_route_cons. unfold route_matches. simpl.
    by destruct (decide _).
  - unfold apiRoutes, mounted. rewrite info_route_only_root.
    destruct (same_segment "mqtt" b) eqn:E1, (same_segment "devices" b) eqn:E2;
      try (by destruct (find_route mqttRoutes m rest) as [[? ?]|]).
    { apply same_segment_true in E1, E2. rewrite <- E1 in E2. done. }
    destruct (find_route deviceRoutes m rest) as [[e' ps']|] eqn:E3; [|done].
    intros [= -> ->]. by exists b, rest.
Qed.

Lemma app_routes_Device m path e ps :
  app_routes m path = Some (Device e, ps) ->
  exists a b rest, path = a :: b :: rest
                   /\ find_route deviceRoutes m rest = Some (e, ps).
Proof.
  unfold app_routes, mounted. destruct path as [|a path]; [done|].
  destruct (same_segment _ a); [|done].
  intros (b & rest & -> & Hr)%apiRoutes_Device. by exists a, b, rest.
Qed.

(** C36: A request that the router hands to a handler with a [:deviceId]
    route has a device id: [req.params] is [{ deviceId }] with a segment of
    the path, which is not empty, since a parameter does not match an
    empty segment.  The answer "Device ID is required" of [updateDevice],
    [retireDevice], [deleteDevice], [getDevice] and [sendCommandToDevice]
    is never given to a routed request. *)
Theorem routed_deviceId m path e ps :
  app_routes m path = Some (Device e, ps) ->
  e <> DeviceController.AddDevice -> e <> DeviceController.ListDevices ->
  e <> DeviceController.BulkAddDevices ->
  exists d, d <> "" /\ ps = [("deviceId", JStr d)].
Proof.
  intros (a & b & rest & -> & Hr)%app_routes_Device Ha Hl Hb.
  apply find_route_Some in Hr as (r & Hin & _ & <- & Hm).
  unfold deviceRoutes in Hin. rewrite !elem_of_cons, elem_of_nil in Hin.
  destruct_or! Hin; simplify_eq/=;
    repeat match goal with
           | H : Matches (_ :: _) _ _ |- _ => inversion H; clear H; subst
           | H : Matches [] _ _ |- _ => inversion H; clear H; subst
           end;
    eauto.
Qed.

(** ** The description and the routers *)

(** One step of routing by computation: closed comparisons are evaluated,
    comparisons with an unknown segment are split. *)
Ltac route_step :=
  match goal with
  | |- context [same_segment ?a ?b] =>
      tryif is_var b then destruct (same_segment a b)
      else (let v := eval vm_compute in (same_segment a b) in
            change (same_segment a b) with v)
  end.
Ltac route :=
  unfold app_routes, apiRoutes, mounted; cbn -[same_segment bool_decide];
  repeat (first [route_step | rewrite bool_decide_eq_false_2 by done];
          cbn -[same_segment bool_decide]);
  try done.

Lemma advertised_devices now d :
  map (advertised_request d) (advertised now "devices")
  = [Some (GET, ["api"; "devices"]);
     Some (POST, ["api"; "devices"; "add"]);
     Some (GET, ["api"; "devices"; d]);
     Some (PUT, ["api"; "devices"; d]);
     Some (POST, ["api"; "devices"; d; "retire"]);
     Some (DELETE, ["api"; "devices"; d]);
     Some (POST, ["api"; "devices"; "bulk"; "add"]);
     Some (POST, ["api"; "devices"; d; "command"])].
Proof. by vm_compute. Qed.

Lemma advertised_mqtt now d :
  map (advertised_request d) (advertised now "mqtt")
  = [Some (GET, ["api"; "mqtt"; "status"]);
     Some (POST, ["api"; "mqtt"; "publish"]);
     Some (POST, ["api"; "mqtt"; "subscribe"]);
     Some (DELETE, ["api"; "mqtt"; "subscribe"]);
     Some (GET, ["api"; "mqtt"; "subscriptions"]);
     Some (POST, ["api"; "mqtt"; "queue"; "create"]);
     Some (POST, ["api"; "mqtt"; "broadcast"])].
Proof. by vm_compute. Qed.

Lemma resolves_map d entries :
  map (resolves d) entries
  = map (fun r => r ≫= fun '(m, path) => app_routes m path)
        (map (advertised_request d) entries).
Proof. by rewrite map_map. Qed.


(** C34: The description [GET /api] returns is true of the routers, but for
    one entry: each endpoint it lists under [mqtt] and [devices] reaches the
    handler of that name, for every device id (a segment of one character
    at least), with the id as [req.params.deviceId]; the endpoint
    [GET /health] it lists is routed nowhere. *)
Theorem advertised_endpoints_routed now d :
  d <> "" ->
  map (resolves d) (advertised now "mqtt")
  = map (fun e => Some (Mqtt e, []))
      [MqttController.GetStatus; MqttController.PublishMessage;
       MqttController.SubscribeToTopic; MqttController.UnsubscribeFromTopic;
       MqttController.GetSubscriptions; MqttController.CreateQueue;
       MqttController.BroadcastAlldevices]
  /\ map (resolves d) (advertised now "devices")
     = [Some (Device DeviceController.ListDevices, []);
        Some (Device DeviceController.AddDevice, []);
        Some (Device DeviceController.GetDevice, [("deviceId", JStr d)]);
        Some (Device DeviceController.UpdateDevice, [("deviceId", JStr d)]);
        Some (Device DeviceController.RetireDevice, [("deviceId", JStr d)]);
        Some (Device DeviceController.DeleteDevice, [("deviceId", JStr d)]);
        Some (Device DeviceController.BulkAddDevices, []);
        Some (Device DeviceController.SendCommandToDevice, [("deviceId", JStr d)])]
  /\ resolves d (prop "health" (prop "endpoints" (api_info now))) = None.
Proof.
  intros Hd. split_and!.
  - rewrite resolves_map, advertised_mqtt. by vm_compute.
  - rewrite resolves_map, advertised_devices. simpl map. repeat f_equal; route.
  - by vm_compute.
Qed.

(** ** Concrete requests *)

Lemma routed_deviceId_witness :
  exists d, d <> "" /\ [("deviceId", JStr "d1")] = [("deviceId", JStr d)].
Proof.
  apply (routed_deviceId GET ["api"; "devices"; "d1"] DeviceController.GetDevice);
    [by vm_compute | done..].
Defined.

Lemma advertised_endpoints_routed_witness :
  map (resolves "d1") (advertised "" "devices")
  = [Some (Device DeviceController.ListDevices, []);
     Some (Device DeviceController.AddDevice, []);
     Some (Device DeviceController.GetDevice, [("deviceId", JStr "d1")]);
     Some (Device DeviceController.UpdateDevice, [("deviceId", JStr "d1")]);
     Some (Device DeviceController.RetireDevice, [("deviceId", JStr "d1")]);
     Some (Device DeviceController.DeleteDevice, [("deviceId", JStr "d1")]);
     Some (Device DeviceController.BulkAddDevices, []);
     Some (Device DeviceController.SendCommandToDevice, [("deviceId", JStr "d1")])].
Proof. apply (advertised_endpoints_routed "" "d1"). done. Defined.

(** A path with an empty segment where a route has its parameter, as in
    [POST /api/devices//command], is routed nowhere. *)
Example empty_segment_unrouted :
  app_routes POST ["api"; "devices"; ""; "command"] = None
  /\ app_routes POST ["api"; "devices"; "d1"; "command"]
     = Some (Device DeviceController.SendCommandToDevice, [("deviceId", JStr "d1")]).
Proof. by vm_compute. Qed.

End Routes.
