(* ===== verification/Server.v ===== *)
(** * The process

    [src/server.js]: the Express application around the service.  The
    module is loaded, [startServer] calls [connect] once and asks the
    server to listen; once it listens, requests are routed to the handlers
    of the two controllers; [SIGINT] and [SIGTERM] disconnect and exit.
    When the server cannot listen (the port is taken) it emits [error],
    to which nobody listens: the process ends with exit code 1.

    [Process] is the state of the program: the world of the service, the
    requests whose handler waits for a promise, and the responses sent.  An
    [Event] is one task of the event loop: the start, the outcome of
    [app.listen], a signal, an incoming request, the continuation of a
    waiting handler, or something the broker client does.  The
    continuation of a handler is an event of its own, enabled once the
    promise has settled, so other events may come between the settlement
    and the continuation; Node.js runs the continuation first, which is
    one of the orders the model allows. *)

From stdpp Require Import gmap.
From S2P Require Import Prelude JsString JsValue Json Registry Client ServiceState.
From S2P Require Import Router Gateway Connection EventLoop Reconnect Requests Http.
From S2P Require Import MqttController DeviceController Routes.
Import JsString JsValue Json Registry Client ServiceState Gateway Connection.
Import EventLoop Reconnect Requests Http Routes.

Module Server.

(** ** Requests *)

(** What a handler that waits goes on with. *)
Definition Await : Type := (MqttController.Await + DeviceController.Await)%type.

(** An incoming request: method and path, [req.originalUrl], what
    [express.json()] made of the body (its error when the body does not
    parse), and the clock at the time the handler runs. *)
Record Incoming : Type := mkIncoming {
  method : Method;
  path : list string;
  originalUrl : string;
  parsed : Outcome JsVal;
  clock : string;
  millis : Z;
}.

(** The error-handling middleware *)
Definition error_middleware (error : JsError) : Response :=
  res_status_json 500
    (JObj [("error", JStr "Internal server error");
           ("message", JStr (message_of error))]).

(** The 404 handler *)
Definition not_found (url : string) : Response :=
  res_status_json 404 (JObj [("error", JStr "Route not found"); ("path", JStr url)]).

Definition map_reply {K K'} (f : K -> K') (r : Reply K) : Reply K' :=
  match r with
  | Sent response => Sent response
  | Suspended p k => Suspended p (f k)
  | OutOfModel => OutOfModel
  end.

(** [broadcastAlldevices] is the one handler that is not [async]: what it
    throws reaches the error-handling middleware.  What an [async] handler
    throws rejects a promise nobody looks at. *)
Definition is_async (e : MqttController.Endpoint) : bool :=
  match e with MqttController.BroadcastAlldevices => false | _ => true end.

Section WithRegistry.
Context {Reg : Type} `{RegistryOps Reg} {codec : JsonCodec}.
Local Open Scope js_scope.

(** The application as the middleware stack of [src/server.js] runs it:
    the body parser, the routers under [/api], the error-handling
    middleware, the 404 handler. *)
Definition serve (rq : Incoming) : M (World Reg) (Reply Await) :=
  match parsed rq with
  | Thrown error => ret (Sent (error_middleware error))
  | Ok body =>
      match app_routes (method rq) (path rq) with
      | Some (ApiInfo, _) => ret (Sent (res_json (api_info (clock rq))))
      | Some (Mqtt e, ps) =>
          let call :=
            r <- MqttController.handler (clock rq) e (mkReq body (JObj ps)) ;;
            ret (map_reply inl r) in
          if is_async e then call
          else try_catch call (fun error => ret (Sent (error_middleware error)))
      | Some (Device e, ps) =>
          r <- DeviceController.handler (clock rq) (millis rq) e
                 (mkReq body (JObj ps)) ;;
          ret (map_reply inr r)
      | None => ret (Sent (not_found (originalUrl rq)))
      end
  end.

(** A waiting handler goes on. *)
Definition continue (now : string) (k : Await) (settled : Outcome JsVal)
  : M (World Reg) (Reply Await) :=
  match k with
  | inl k => r <- MqttController.continue now k settled ;; ret (map_reply inl r)
  | inr k => r <- DeviceController.continue now k settled ;; ret (map_reply inr r)
  end.

(** ** The process *)

Inductive Phase : Type :=
| Loaded                (* the module has been evaluated *)
| Starting              (* [startServer] has connected and called [app.listen] *)
| Running               (* the server listens *)
| Exited (code : Z).    (* [process.exit(code)], or an uncaught exception: 1 *)

#[export] Instance Phase_eq_dec : EqDecision Phase.
Proof. solve_decision. Defined.

Record Process : Type := mkProcess {
  phase : Phase;
  world : World Reg;
  inflight : list (nat * Await);   (* handlers waiting, with their promise *)
  answered : list Response;        (* the responses sent, oldest first *)
}.

Definition boot : Process := mkProcess Loaded initial [] [].

Inductive Signal : Type := SIGINT | SIGTERM.

Inductive Event : Type :=
| StartServer (throws : option JsError)
| Listen (error : option JsError)
| Kill (s : Signal)
| Http (rq : Incoming)
| Resume (n : nat) (now : string)
| Broker (i : Input).

(** What the broker client and the timers do, as opposed to calls. *)
Definition from_outside (i : Input) : bool :=
  match i with
  | ClientEmits _ _ | ClientCompletes _ _ _ _ | TimerFires _ => true
  | _ => false
  end.

Definition enabled (s : Process) (ev : Event) : bool :=
  match phase s, ev with
  | Loaded, StartServer _ => true
  | Starting, Listen _ => true
  | (Starting | Running), Kill _ => true
  | Running, Http _ => true
  | Running, Resume n _ =>
      match inflight s !! n with
      | Some (p, _) =>
          match promises (world s) !! p with
          | Some pr => is_settled pr
          | None => false
          end
      | None => false
      end
  | (Starting | Running), Broker i => from_outside i && EventLoop.enabled (world s) i
  | _, _ => false
  end.

(** What becomes of a request when its handler returns: the response is
    recorded, or the handler joins those that wait. *)
Definition settle_request (waiting : list (nat * Await))
  (o : Outcome (Reply Await) * World Reg) (s : Process) : Process :=
  match o with
  | (Ok (Sent response), w) => mkProcess (phase s) w waiting (answered s ++ [response])
  | (Ok (Suspended p k), w) => mkProcess (phase s) w (waiting ++ [(p, k)]) (answered s)
  | (Ok OutOfModel, w) | (Thrown _, w) => mkProcess (phase s) w waiting (answered s)
  end.

(** [startServer]: [await mqttService.connect()], then [app.listen]; when
    [connect] throws, [process.exit(1)]. *)
Definition startServer (throws : option JsError) (s : Process) : Process :=
  match connect throws (world s) with
  | (Ok _, w) => mkProcess Starting w (inflight s) (answered s)
  | (Thrown _, w) => mkProcess (Exited 1) w (inflight s) (answered s)
  end.

(** What becomes of [app.listen(PORT, ...)]: the server listens and its
    callback prints the port, or the server emits [error]; there is no
    listener for it, so Node.js throws the error as an uncaught
    exception. *)
Definition listen (error : option JsError) (s : Process) : Process :=
  match error with
  | None => mkProcess Running (world s) (inflight s) (answered s)
  | Some _ => mkProcess (Exited 1) (world s) (inflight s) (answered s)
  end.

(** The handlers of [SIGINT] and [SIGTERM]:
    [mqttService.disconnect(); process.exit(0)]. *)
Definition shutdown (s : Process) : Process :=
  mkProcess (Exited 0) (exec disconnect (world s)) (inflight s) (answered s).

Definition step (ev : Event) (s : Process) : Process :=
  match ev with
  | StartServer throws => startServer throws s
  | Listen error => listen error s
  | Kill _ => shutdown s
  | Http rq => settle_request (inflight s) (serve rq (world s)) s
  | Resume n now =>
      match inflight s !! n with
      | Some (p, k) =>
          settle_request (delete n (inflight s))
            (resume (continue now) p k (world s)) s
      | None => s
      end
  | Broker i => mkProcess (phase s) (turn i (world s)) (inflight s) (answered s)
  end.

(** The executions of the program. *)
Inductive Run : Process -> list Event -> Process -> Prop :=
| Run_nil s : Run s [] s
| Run_cons s ev evs s' :
    enabled s ev = true -> Run (step ev s) evs s' -> Run s (ev :: evs) s'.

Fixpoint run (evs : list Event) (s : Process) : option Process :=
  match evs with
  | [] => Some s
  | ev :: evs' => if enabled s ev then run evs' (step ev s) else None
  end.

(** The states the program reaches. *)
Definition reaches (s : Process) : Prop := exists evs, Run boot evs s.

(** The state after the events of [evs], one after the other. *)
Definition steps (evs : list Event) (s : Process) : Process :=
  fold_left (fun s ev => step ev s) evs s.

End WithRegistry.

(** ** Specification *)

Definition is_start (ev : Event) : bool :=
  match ev with StartServer _ => true | _ => false end.

(** The number of [connect] calls of an execution of the service, and of
    starts of an execution of the process. *)
Definition connects (tr : list Input) : nat :=
  length (filter (fun i => is_connect i = true) tr).

Definition starts (evs : list Event) : nat :=
  length (filter (fun ev => is_start ev = true) evs).

(** What holds of the process in each phase. *)
Definition Sound {Reg} `{RegistryOps Reg} (s : Process (Reg:=Reg)) : Prop :=
  match phase s with
  | Loaded => s = boot
  | Starting =>
      client (this (world s)) = Some 0 /\ length (clients (world s)) = 1
      /\ inflight s = [] /\ answered s = []
  | Running => client (this (world s)) = Some 0 /\ length (clients (world s)) = 1
  | Exited code =>
      (code = 1%Z /\ inflight s = [] /\ answered s = [])
      \/ (code = 0%Z /\ isConnected (this (world s)) = false
          /\ (ended <$> current_client (world s)) = Some true)
  end.

(** The broker goes away after the first connection and never comes back. *)
Definition outage : list Event :=
  StartServer None :: Listen None :: map Broker (tail lossy_trace).

Definition publish_request : Incoming :=
  {| method := POST; path := ["api"; "mqtt"; "publish"];
     originalUrl := "/api/mqtt/publish";
     parsed := Ok (JObj [("topic", JStr "t"); ("message", JStr "m")]);
     clock := "2025-01-01T12:00:00.000Z"; millis := 0 |}.

(** ** Proofs *)

Section Proofs.
Context {Reg : Type} `{RegistryLaws Reg} {codec : JsonCodec}.
Implicit Types (s : Process (Reg:=Reg)) (w : World Reg) (ev : Event) (evs : list Event).

Lemma run_Run evs s s' : run evs s = Some s' -> Run s evs s'.
Proof.
  revert s. induction evs as [|ev evs IH]; simpl; intros s.
  - intros [= ->]. constructor.
  - destruct (enabled s ev) eqn:E; [|done]. intros Hr. constructor; auto.
Qed.

(** *** What the process does to the service *)

Lemma serve_acts rq : acts_by_calls (serve rq).
Proof.
  unfold serve. destruct (parsed rq) as [body|]; [|apply acts_ret].
  destruct (app_routes _ _) as [[[|e|e] ps]|]; try apply acts_ret.
  - destruct (is_async e); [|apply acts_try_catch; [|intros; apply acts_ret]];
      (apply acts_bind; [apply MqttController.mqtt_handler_acts|intros; apply acts_ret]).
  - apply acts_bind; [apply DeviceController.handler_acts|intros; apply acts_ret].
Qed.

Lemma server_continue_acts now k settled : acts_by_calls (Server.continue now k settled).
Proof.
  destruct k; (apply acts_bind; [|intros; apply acts_ret]);
    [apply MqttController.mqtt_continue_acts | apply DeviceController.continue_acts].
Qed.

Lemma resume_acts {K} (continue : K -> Outcome JsVal -> M (World Reg) (Reply K)) p k :
  (forall k settled, acts_by_calls (continue k settled)) ->
  acts_by_calls (resume continue p k).
Proof.
  intros Hc. apply acts_bind; [by apply acts_pure|]. intros w.
  destruct (promises w !! p) as [[| |?|?]|]; auto using acts_ret.
Qed.

Lemma settle_request_world waiting o s : world (settle_request waiting o s) = o.2.
Proof. by destruct o as [[[| |]|] w]. Qed.

Lemma settle_request_phase waiting o s : phase (settle_request waiting o s) = phase s.
Proof. by destruct o as [[[| |]|] w]. Qed.

(** Every event is an execution of the service: a [connect] when the
    process starts, calls and inputs from outside otherwise. *)
Lemma step_Trace ev s :
  enabled s ev = true ->
  exists tr, Trace (world s) tr (world (step ev s))
             /\ connects tr = if is_start ev then 1 else 0.
Proof.
  intros Hen. destruct ev as [throws|error|sig|rq|n now|i]; simpl.
  - exists [CallConnect throws]. split; [|done]. apply run_Trace. simpl.
    unfold startServer, turn, exec. simpl. by destruct (connect throws (world s)) as [[]].
  - exists []. split; [|done]. destruct error; constructor.
  - exists [CallDisconnect]. split; [|done]. by apply run_Trace.
  - rewrite settle_request_world.
    destruct (acts_Trace (serve rq) (world s) [] (world s) (serve_acts rq)
                ltac:(constructor)) as (tr & Htr & Hc).
    exists tr. split; [done|]. unfold connects. by rewrite Hc.
  - destruct (inflight s !! n) as [[p k]|]; [|exists []; split; [constructor|done]].
    rewrite settle_request_world.
    destruct (acts_Trace (resume (Server.continue now) p k) (world s) [] (world s)
                (resume_acts _ p k (server_continue_acts now)) ltac:(constructor))
      as (tr & Htr & Hc).
    exists tr. split; [done|]. unfold connects. by rewrite Hc.
  - exists [i].
    assert (from_outside i && EventLoop.enabled (world s) i = true)
      as [Hi Hen']%andb_true_iff by (unfold enabled in Hen; by destruct (phase s)).
    split.
    + apply run_Trace. simpl. by rewrite Hen'.
    + by destruct i.
Qed.

Lemma step_phase ev s :
  enabled s ev = true ->
  phase (step ev s) <> Loaded /\ (is_start ev = true -> phase s = Loaded)
  /\ (is_start ev = false -> phase s <> Loaded).
Proof.
  unfold enabled. destruct (phase s) eqn:Ep, ev as [throws|error|sig|rq|n now|i];
    try done; intros _; simpl; (split; [|done]).
  - unfold startServer. by destruct (connect throws (world s)) as [[]].
  - by destruct error.
  - by rewrite Ep.
  - by rewrite settle_request_phase, Ep.
  - destruct (inflight s !! n) as [[p k]|]; [|by rewrite Ep].
    by rewrite settle_request_phase, Ep.
  - by rewrite Ep.
Qed.

Lemma connects_app tr1 tr2 : connects (tr1 ++ tr2) = connects tr1 + connects tr2.
Proof. unfold connects. by rewrite filter_app, length_app. Qed.

Lemma Run_Trace s evs s' :
  Run s evs s' ->
  exists tr, Trace (world s) tr (world s') /\ connects tr = starts evs.
Proof.
  induction 1 as [s|s ev evs s' Hen _ (tr2 & Htr2 & Hc2)]; [by exists []; split; [constructor|]|].
  destruct (step_Trace ev s Hen) as (tr1 & Htr1 & Hc1).
  exists (tr1 ++ tr2). split; [by eapply Trace_app|].
  rewrite connects_app, Hc1, Hc2. unfold starts. rewrite filter_cons.
  by destruct (is_start ev).
Qed.

Lemma Run_starts s evs s' :
  Run s evs s' -> starts evs <= if bool_decide (phase s = Loaded) then 1 else 0.
Proof.
  induction 1 as [s|s ev evs s' Hen _ IH]; [unfold starts; simpl; case_bool_decide; lia|].
  destruct (step_phase ev s Hen) as (Hp & Hs & Hr).
  rewrite bool_decide_eq_false_2 in IH by done.
  unfold starts in *. rewrite filter_cons. destruct (is_start ev); simpl.
  - rewrite bool_decide_eq_true_2 by auto. lia.
  - lia.
Qed.

(** The process calls [connect] once: its service is always in a state of
    an execution with one [connect]. *)
Lemma server_connects_once s : reaches s -> reachable_once (world s).
Proof.
  intros [evs Hrun]. destruct (Run_Trace _ _ _ Hrun) as (tr & Htr & Hc).
  pose proof (Run_starts _ _ _ Hrun) as Hs. simpl in Hs.
  exists tr. split; [done|]. unfold connects_once. fold (connects tr). lia.
Qed.

(** C1: Whatever requests, signals, broker events and timers come, in
    whatever order, the running program never makes more than eleven
    reconnect attempts in a row: [src/server.js] calls [connect] once, the
    handlers of both controllers never call it, and so the bound of the
    connection manager holds without a condition. *)
Theorem server_reconnect_bound s :
  reaches s -> reconnectAttempts (this (world s)) <= 11.
Proof.
  intros (tr & Htr & Honce)%server_connects_once.
  destruct (Trace_initial_conn tr _ Htr Honce) as (_ & [_ Hb _] & _).
  pose proof (Trace_Inv _ _ _ Htr Inv_initial) as [_ _ _ Hmax].
  simpl in Hb. rewrite Hmax in Hb. destruct (from_option _ _ _); lia.
Qed.

(** *** The phases *)

Lemma Trace_same_client w tr w' :
  Trace w tr w' -> connects tr = 0 ->
  client (this w') = client (this w) /\ length (clients w') = length (clients w).
Proof.
  induction 1 as [|w i tr w' Hen _ IH]; [done|]. unfold connects in *.
  rewrite filter_cons. destruct (is_connect i) eqn:Ei; [done|]. simpl.
  intros [-> ->]%IH. rewrite turn_client, turn_clients_length.
  by destruct i as [[]| | | | | | | | | | |].
Qed.

Lemma step_same_client ev s :
  enabled s ev = true -> is_start ev = false ->
  client (this (world (step ev s))) = client (this (world s))
  /\ length (clients (world (step ev s))) = length (clients (world s)).
Proof.
  intros Hen Hs. destruct (step_Trace ev s Hen) as (tr & Htr & Hc).
  rewrite Hs in Hc. by apply (Trace_same_client _ tr).
Qed.

Lemma shutdown_Sound s :
  client (this (world s)) = Some 0 -> length (clients (world s)) = 1 ->
  Sound (shutdown s).
Proof.
  intros Hc Hlen. right. split; [done|]. simpl. unfold exec.
  rewrite (disconnect_client _ 0) by done. simpl. split; [done|].
  unfold current_client. simpl. rewrite Hc. simpl.
  by destruct (clients (world s)) as [|cl [|? ?]]; simplify_eq/=.
Qed.

Lemma step_Sound ev s : Sound s -> enabled s ev = true -> Sound (step ev s).
Proof.
  intros Hs Hen. unfold Sound in Hs.
  destruct (is_start ev) eqn:Ev.
  { destruct (step_phase ev s Hen) as (_ & Hl & _). rewrite (Hl Ev) in Hs. subst s.
    destruct ev as [[error|]| | | | |]; try done; first [by left | by split]. }
  pose proof (step_same_client _ s Hen Ev) as [Hc' Hlen'].
  unfold enabled in Hen.
  destruct (phase s) eqn:Ep, ev as [throws|[error|]|sig|rq|n now|i]; try done.
  - left. by destruct Hs as (_ & _ & ? & ?).
  - by destruct Hs as (? & ? & _).
  - destruct Hs as (? & ? & _). by apply shutdown_Sound.
  - unfold Sound. simpl in *. rewrite Ep, Hc', Hlen'. by destruct Hs as (? & ? & ? & ?).
  - destruct Hs. by apply shutdown_Sound.
  - unfold Sound. rewrite Hc', Hlen'. simpl. by rewrite settle_request_phase, Ep.
  - unfold Sound. rewrite Hc', Hlen'. simpl.
    destruct (inflight s !! n) as [[p k]|]; [|by rewrite Ep].
    by rewrite settle_request_phase, Ep.
  - unfold Sound. simpl in *. by rewrite Ep, Hc', Hlen'.
Qed.

Lemma Run_Sound s evs s' : Run s evs s' -> Sound s -> Sound s'.
Proof. induction 1; eauto using step_Sound. Qed.

Lemma reaches_Sound s : reaches s -> Sound s.
Proof. intros [evs Hrun]. by apply (Run_Sound _ _ _ Hrun). Qed.

(** A process that has exited does nothing. *)
Lemma exited_stops s code ev : phase s = Exited code -> enabled s ev = false.
Proof. intros Hp. unfold enabled. by rewrite Hp. Qed.

(** Requests are in flight only while the server listens, or after. *)
Lemma reaches_starting s :
  reaches s -> phase s = Loaded \/ phase s = Starting -> inflight s = [] /\ answered s = [].
Proof.
  intros Hs%reaches_Sound Hp. unfold Sound in Hs.
  destruct Hp as [Hp|Hp]; rewrite Hp in Hs; [by subst|by destruct Hs as (_ & _ & ? & ?)].
Qed.

(** *** Exceptions *)

Lemma serve_ok rq w : is_ok (eval (serve rq) w) = true.
Proof.
  unfold serve. destruct (parsed rq) as [body|]; [|done].
  destruct (app_routes _ _) as [[[|e|e] ps]|]; try done.
  - destruct (is_async e) eqn:Ea; [|apply try_catch_ret_ok].
    rewrite is_ok_bind_ret. apply MqttController.handler_never_throws. left.
    by destruct e.
  - rewrite is_ok_bind_ret. apply DeviceController.handler_ok.
Qed.

Lemma server_continue_ok now k settled w :
  is_ok (eval (Server.continue now k settled) w) = true.
Proof.
  destruct k as [k|k]; simpl; rewrite is_ok_bind_ret.
  - by destruct k.
  - apply DeviceController.continue_ok.
Qed.

(** C2: No request makes the process throw: whatever the method, the path
    and the body, the handler that [serve] reaches returns, with a response
    or waiting for a promise, and so does every continuation of a waiting
    handler.  The exception [broadcastAlldevices] throws on a missing body
    is caught by the error-handling middleware. *)
Theorem server_never_throws rq now p k w :
  is_ok (eval (serve rq) w) = true
  /\ is_ok (eval (resume (Server.continue now) p k) w) = true.
Proof.
  split; [apply serve_ok|]. unfold resume, eval, bind, get. simpl.
  destruct (promises w !! p) as [[| |?|?]|]; try done; apply server_continue_ok.
Qed.

(** C24: The responses that no controller writes.  A body that does not
    parse is answered by the error-handling middleware with 500, also under
    paths that do not exist; a path no router knows with 404;
    [broadcastAlldevices] without a body with 500.  The responses of the
    middleware carry no [success] field. *)
Theorem errors_outside_handlers rq w :
  (forall error, parsed rq = Thrown error ->
     serve rq w = (Ok (Sent (error_middleware error)), w))
  /\ (forall body, parsed rq = Ok body -> app_routes (method rq) (path rq) = None ->
        serve rq w = (Ok (Sent (not_found (originalUrl rq))), w))
  /\ (forall body ps,
        parsed rq = Ok body -> body = JUndefined \/ body = JNull ->
        app_routes (method rq) (path rq) = Some (Mqtt MqttController.BroadcastAlldevices, ps) ->
        exists error, serve rq w = (Ok (Sent (error_middleware error)), w))
  /\ (forall error, statusCode (error_middleware error) = 500
                    /\ success_of (error_middleware error) = JUndefined).
Proof.
  split_and!.
  - intros error Hp. unfold serve. by rewrite Hp.
  - intros body Hp Hr. unfold serve. by rewrite Hp, Hr.
  - intros body ps Hp Hb Hr. unfold serve. rewrite Hp, Hr. simpl.
    destruct Hb as [-> | ->]; by eexists.
  - done.
Qed.

End Proofs.

(** ** Concrete executions *)

(** An execution.  A broker that goes away for good leaves the program
    listening: after the eleventh attempt the manager has given up, no
    client event can happen any more, the process neither exits nor
    reconnects, and a publish request is answered from a promise rejected
    with "MQTT client not connected". *)
Example listens_after_giving_up :
  exists s : Process (Reg:=JsSet),
    run outage boot = Some s
    /\ phase s = Running
    /\ isConnected (this (world s)) = false
    /\ reconnectAttempts (this (world s)) = 11
    /\ (forall c ev, EventLoop.enabled (world s) (ClientEmits c ev) = false)
    /\ exists p k s', run [Http publish_request] s = Some s'
                     /\ inflight s' = [(p, k)]
                     /\ promises (world s') !! p = Some (Rejected not_connected).
Proof.
  eexists. split; [by vm_compute|]. split_and!; try done.
  - intros [|c] ev; [|done]. by destruct ev.
  - do 3 eexists. split; [by vm_compute|]. by split.
Qed.

Lemma server_reconnect_bound_witness :
  reconnectAttempts (this (world (steps outage (boot (Reg:=JsSet))))) <= 11.
Proof.
  apply server_reconnect_bound. exists outage. apply run_Run. by vm_compute.
Defined.

End Server.
