(* ===== verification/Answers.v ===== *)
(** * Every request is answered

    A handler that waits is resumed when its promise has settled, and may
    wait again.  [await_measure] bounds the resumptions a waiting handler
    still needs: two for [addDevice], three for each device still to add
    for [bulkAddDevices], one for the others.  Every continuation decreases
    it and none throws, so a request is answered after at most
    [request_fuel] resumptions, whatever its promises settle with. *)

From stdpp Require Import gmap.
From S2P Require Import Prelude JsString JsValue Json Registry Client ServiceState.
From S2P Require Import Topics Router Gateway Connection EventLoop Reconnect Requests Http.
From S2P Require Import MqttController DeviceController Routes Server.
Import JsString JsValue Json Registry Client ServiceState Gateway Connection.
Import EventLoop Reconnect Requests Http Routes Server.

Module Answers.

(** The resumptions a waiting handler of the device controller needs, at
    most. *)
Definition device_measure (k : DeviceController.Await) : nat :=
  match k with
  | DeviceController.AddIn _ _ => 2
  | DeviceController.AddOut _ _ _ | DeviceController.RetireSent _ _
  | DeviceController.DeleteSent _ _ _ | DeviceController.CommandSent _ _ _ _ => 1
  | DeviceController.BulkIn _ rest _ _ _ => 3 * length rest + 3
  | DeviceController.BulkOut _ rest _ _ _ => 3 * length rest + 2
  | DeviceController.BulkDelay _ rest _ => 3 * length rest + 1
  end.

Definition await_measure (k : Server.Await) : nat :=
  match k with
  | inl _ => 1
  | inr k => device_measure k
  end.

(** The devices of a bulk request. *)
Definition devices_of (body : JsVal) : list JsVal :=
  match get_field "devices" body with
  | Ok (JArr devices) => devices
  | _ => []
  end.

(** The resumptions a request needs, at most. *)
Definition request_fuel (rq : Incoming) : nat :=
  match parsed rq with
  | Ok body => 2 + 3 * length (devices_of body)
  | Thrown _ => 0
  end.

(** A reply is within the bound: it is of the model and its measure small. *)
Ltac within_leaf := first [done | split; [done | simpl; lia]].

Section Device.
Context {Reg : Type} `{RegistryOps Reg} {codec : JsonCodec}.
Variables (now : string) (millis : Z).
Import DeviceController.

Lemma bulk_delay_within devices rest results n :
  3 * length rest + 1 <= n ->
  replies (within device_measure n) (bulk_delay (Reg:=Reg) devices rest results).
Proof. intros. unfold bulk_delay. solve_replies within_leaf. Qed.

Lemma bulk_loop_within devices results rest :
  replies (within device_measure (3 * length rest))
    (bulk_loop (Reg:=Reg) now devices results rest).
Proof.
  revert results. induction rest as [|deviceData rest IH]; intros results; simpl.
  - solve_replies within_leaf.
  - apply replies_bind; intros deviceId. apply replies_bind; intros deviceInfo.
    destruct (negb (truthy deviceId)).
    + eapply replies_weaken; [|apply IH]. intros r. apply within_le. lia.
    + apply replies_try_catch; [solve_replies within_leaf|].
      intros error. apply bulk_delay_within. lia.
Qed.

Lemma device_continue_decreases k settled :
  replies (within device_measure (pred (device_measure k)))
    (continue (Reg:=Reg) now k settled).
Proof.
  destruct k; simpl;
    unfold addDevice_after_in, bulk_after_in, bulk_after_out, bulk_after_delay;
    repeat first
      [ apply bulk_delay_within; lia
      | eapply replies_weaken; [|apply bulk_loop_within]; intros ?; apply within_le; lia
      | progress solve_replies within_leaf ].
Qed.

Lemma device_handler_within e req :
  replies (within device_measure (2 + 3 * length (devices_of (body req))))
    (handler (Reg:=Reg) now millis e req).
Proof.
  destruct e; simpl;
    unfold addDevice, updateDevice, retireDevice, deleteDevice, getDevice,
      listDevices, sendCommandToDevice, required;
    try solve [solve_replies within_leaf].
  unfold bulkAddDevices, devices_of.
  apply replies_try_catch; [|intros ?; solve_replies within_leaf].
  apply replies_bind_lift. intros devices ->.
  destruct devices as [| | | | |[|d devices]|]; try solve [solve_replies within_leaf].
  eapply replies_weaken; [|apply bulk_loop_within]. intros r. apply within_le. lia.
Qed.

End Device.

Section Server.
Context {Reg : Type} `{RegistryLaws Reg} {codec : JsonCodec}.
Implicit Types (w : World Reg) (rq : Incoming) (k : Server.Await).

Lemma fuel_of_inl (r : Reply MqttController.Await) :
  fuel_of await_measure (map_reply inl r) <= 1.
Proof. destruct r; simpl; lia. Qed.

Lemma fuel_of_inr (r : Reply DeviceController.Await) :
  fuel_of await_measure (map_reply inr r) = fuel_of device_measure r.
Proof. by destruct r. Qed.

Lemma within_inr n (r : Reply DeviceController.Await) :
  within device_measure n r -> within await_measure n (map_reply inr r).
Proof. intros [Hr Hn]. split; [by destruct r | by rewrite fuel_of_inr]. Qed.

Lemma serve_fuel rq :
  replies (fun r => fuel_of await_measure r <= request_fuel rq) (serve rq).
Proof.
  unfold serve, request_fuel. destruct (parsed rq) as [body|]; [|by apply replies_ret].
  destruct (app_routes _ _) as [[[|e|e] ps]|]; try (apply replies_ret; simpl; lia).
  - assert (forall r : Reply MqttController.Await,
              fuel_of await_measure (map_reply inl r)
              <= 2 + 3 * length (devices_of body)) as Hr
      by (intros r; pose proof (fuel_of_inl r); lia).
    destruct (is_async e); solve_replies ltac:(simpl; first [apply Hr | lia]).
  - eapply replies_bind_post; [apply (device_handler_within (clock rq) (millis rq))|].
    intros r [_ Hr]. apply replies_ret. by rewrite fuel_of_inr.
Qed.

Lemma server_continue_decreases now k settled :
  replies (within await_measure (pred (await_measure k)))
    (Server.continue (Reg:=Reg) now k settled).
Proof.
  destruct k as [k|k]; simpl.
  - destruct k; solve_replies ltac:(by split).
  - eapply replies_bind_post; [apply device_continue_decreases|].
    intros r Hr. apply replies_ret. by apply within_inr.
Qed.

Lemma await_measure_pos k : 0 < await_measure k.
Proof. destruct k as [k|k]; [|destruct k]; simpl; lia. Qed.

(** C8: Every request is answered.  [serve] returns for every request, and
    unless the request is outside the model the handler sends its response
    after at most [request_fuel] resumptions: two, plus three for each
    device of a bulk request.  This holds whatever the promises settle
    with, resolved or rejected, and whatever happens between the
    resumptions. *)
Theorem every_request_answered rq now oracle between w :
  exists r w',
    serve rq w = (Ok r, w')
    /\ (r <> OutOfModel ->
        is_Some (drive (Server.continue now) oracle between (request_fuel rq) r w')).
Proof.
  pose proof (serve_ok rq w) as Hok. pose proof (serve_fuel rq w) as Hfuel.
  unfold eval in Hok. destruct (serve rq w) as [[r|e] w']; [|done].
  exists r, w'. split; [done|]. intros Hr.
  apply (drive_within await_measure);
    auto using server_continue_ok, server_continue_decreases, await_measure_pos.
  split; [done|]. by eapply Hfuel.
Qed.

End Server.

End Answers.
