(* ===== verification/Waiting.v ===== *)
(** * The handlers that wait

    A handler of [src/controllers] that reaches an [await] leaves the event
    loop with the promise it waits for; [Server] keeps it among the
    requests in flight until the promise is settled.  This file proves
    that the promise a handler waits for is one the call before the
    [await] has just created, that the waiting handlers therefore wait for
    distinct promises of the table, and that none of them waits in vain:
    the promise is settled, or one event of the broker client or of a
    timer settles it. *)

From S2P Require Import Prelude JsString JsValue Json Registry Client ServiceState.
From S2P Require Import Topics Router Gateway Connection EventLoop Reconnect Owed Requests.
From S2P Require Import Http MqttController DeviceController Routes Server.
Import JsString JsValue Json Registry Client ServiceState Gateway Connection.
Import EventLoop Reconnect Owed Requests Http Routes Server.

Module Waiting.

Section Definitions.
Context {Reg : Type} `{RegistryOps Reg} {codec : JsonCodec}.
Implicit Types (w : World Reg) (s : Process (Reg:=Reg)).

(** The promise a call returns was created by the call. *)
Definition returns_fresh (m : M (World Reg) nat) : Prop :=
  forall w p w', m w = (Ok p, w') ->
    length (promises w) <= p < length (promises w').

(** A handler that waits, waits for a promise created while it ran. *)
Definition suspends_fresh {K} (m : M (World Reg) (Reply K)) : Prop :=
  forall w p k w', m w = (Ok (Suspended p k), w') ->
    length (promises w) <= p < length (promises w').

(** The handlers that wait, wait for promises of the table, each for its
    own. *)
Definition Waiting s : Prop :=
  Forall (fun pk => pk.1 < length (promises (world s))) (inflight s)
  /\ NoDup (inflight s).*1.

(** The promise handler [n] waits for is settled: the handler can run. *)
Definition ready s (n : nat) : bool :=
  match inflight s !! n with
  | Some (p, _) =>
      match promises (world s) !! p with
      | Some pr => is_settled pr
      | None => false
      end
  | None => false
  end.

(** The event [i] of the broker client or of a timer may happen, and
    handler [n] can run after it. *)
Definition wakes s (n : nat) (i : Input) : Prop :=
  enabled s (Broker i) = true /\ ready (step (Broker i) s) n = true.

End Definitions.

(** ** Promises are fresh *)

Section Fresh.
Context {Reg : Type} `{RegistryOps Reg} {codec : JsonCodec}.
Implicit Types (w : World Reg).

Lemma Trace_promises_le w tr w' :
  Trace w tr w' -> length (promises w) <= length (promises w').
Proof.
  induction 1 as [|w i tr w' _ _ IH]; [done|].
  pose proof (turn_promises_length i w). lia.
Qed.

Lemma acts_promises_le {A} (m : M (World Reg) A) w :
  acts_by_calls m -> length (promises w) <= length (promises (exec m w)).
Proof.
  intros Hm. destruct (acts_Trace m w [] w Hm ltac:(constructor)) as (tr & Htr & _).
  by apply (Trace_promises_le _ tr).
Qed.

Lemma fresh_ret {K} (r : Reply K) :
  (forall p k, r <> Suspended p k) -> suspends_fresh (Reg:=Reg) (ret r).
Proof. intros Hr w p k w' [= -> _]. by destruct (Hr p k). Qed.

Lemma fresh_throw {K} e : suspends_fresh (throw e : M (World Reg) (Reply K)).
Proof. by intros w p k w'. Qed.

(** [await call(...)] *)
Lemma fresh_call_ret {K} (m : M (World Reg) nat) (k : K) :
  returns_fresh m -> suspends_fresh (bind m (fun p => ret (Suspended p k))).
Proof.
  intros Hm w p k' w'. unfold bind, ret. destruct (m w) as [[p'|e] w1] eqn:E; [|done].
  intros [= <- _ <-]. by apply (Hm w).
Qed.

Lemma fresh_bind {A K} (m : M (World Reg) A) (f : A -> M (World Reg) (Reply K)) :
  acts_by_calls m -> (forall a, suspends_fresh (f a)) -> suspends_fresh (bind m f).
Proof.
  intros Hm Hf w p k w'. pose proof (acts_promises_le m w Hm) as Hle.
  unfold bind, exec in *. destruct (m w) as [[a|e] w1]; [|done].
  intros Hr%Hf. simpl in Hle. lia.
Qed.

Lemma fresh_try_catch {K} (m : M (World Reg) (Reply K)) h :
  acts_by_calls m -> suspends_fresh m -> (forall e, suspends_fresh (h e)) ->
  suspends_fresh (try_catch m h).
Proof.
  intros Ha Hm Hh w p k w'. pose proof (acts_promises_le m w Ha) as Hle.
  unfold try_catch, exec in *. destruct (m w) as [[r|e] w1] eqn:E.
  - intros [= -> <-]. by apply (Hm w p k w1).
  - intros Hr%Hh. simpl in Hle. lia.
Qed.

Lemma fresh_map {K K'} (f : K -> K') (m : M (World Reg) (Reply K)) :
  suspends_fresh m -> suspends_fresh (bind m (fun r => ret (map_reply f r))).
Proof.
  intros Hm w p k w'. unfold bind, ret. destruct (m w) as [[r|e] w1] eqn:E; [|done].
  destruct r as [|p' k'|]; try done. intros [= <- _ <-]. by apply (Hm w p' k').
Qed.

End Fresh.

(** The calls that return a promise: unfold the call, follow its branches. *)
Ltac fresh_call :=
  intros w p w';
  unfold publish, createQueue, sleep, bind, try_catch, gets, new_promise,
    on_this_client, reject, lift, modify, throw, ret; simpl;
  repeat match goal with
         | |- context [isConnected ?s] => destruct (isConnected s); simpl
         | |- context [message_string ?m] => destruct (message_string m); simpl
         | |- context [client ?s] => destruct (client s); simpl
         end;
  intros [= <- <-]; simpl; rewrite ?settle_length, ?length_app; simpl; lia.

Section Calls.
Context {Reg : Type} `{RegistryOps Reg} {codec : JsonCodec}.

Lemma publish_fresh topic message options :
  returns_fresh (publish (Reg:=Reg) topic message options).
Proof. fresh_call. Qed.

Lemma createQueue_fresh queueName options :
  returns_fresh (Gateway.createQueue (Reg:=Reg) queueName options).
Proof. fresh_call. Qed.

Lemma sleep_fresh : returns_fresh (sleep (Reg:=Reg)).
Proof. fresh_call. Qed.

End Calls.

Create HintDb fresh.
#[export] Hint Resolve publish_fresh createQueue_fresh sleep_fresh fresh_throw : fresh.

(** Freshness of a handler, by the structure of its code. *)
Ltac solve_fresh :=
  repeat first
    [ solve [eauto 2 with fresh]
    | apply fresh_ret; solve [done]
    | apply fresh_call_ret; solve [eauto 2 with fresh]
    | match goal with
      | |- suspends_fresh (if ?b then _ else _) => destruct b
      | |- suspends_fresh (match ?x with _ => _ end) => destruct x
      | |- suspends_fresh (let _ := _ in _) => cbv zeta
      end
    | apply fresh_bind; [solve [solve_acts]|intros ?]
    | apply fresh_try_catch; [solve [solve_acts]| |intros ?] ].

(** ** The handlers and their continuations *)

Section Handlers.
Context {Reg : Type} `{RegistryOps Reg} {codec : JsonCodec}.
Variables (now : string) (millis : Z).

Lemma mqtt_handler_fresh e req :
  suspends_fresh (MqttController.handler (Reg:=Reg) now e req).
Proof.
  destruct e; simpl;
    unfold MqttController.getStatus, MqttController.broadcastAlldevices,
      MqttController.publishMessage, MqttController.subscribeToTopic,
      MqttController.unsubscribeFromTopic, MqttController.getSubscriptions,
      MqttController.createQueue;
    solve_fresh.
Qed.

Lemma mqtt_continue_fresh k settled :
  suspends_fresh (MqttController.continue (Reg:=Reg) now k settled).
Proof. destruct k; simpl; solve_fresh. Qed.

Lemma bulk_delay_fresh devices rest results :
  suspends_fresh (DeviceController.bulk_delay (Reg:=Reg) devices rest results).
Proof. unfold DeviceController.bulk_delay. solve_fresh. Qed.

Lemma bulk_loop_fresh devices results rest :
  suspends_fresh (DeviceController.bulk_loop (Reg:=Reg) now devices results rest).
Proof.
  pose proof bulk_delay_fresh.
  revert results. induction rest as [|deviceData rest IH]; intros results; simpl;
    solve_fresh.
Qed.

Lemma device_handler_fresh e req :
  suspends_fresh (DeviceController.handler (Reg:=Reg) now millis e req).
Proof.
  pose proof bulk_loop_fresh.
  pose proof (DeviceController.bulk_loop_acts (Reg:=Reg) now).
  destruct e; simpl;
    unfold DeviceController.addDevice, DeviceController.updateDevice,
      DeviceController.retireDevice, DeviceController.deleteDevice,
      DeviceController.getDevice, DeviceController.listDevices,
      DeviceController.sendCommandToDevice, DeviceController.bulkAddDevices,
      DeviceController.required;
    solve_fresh.
Qed.

Lemma device_continue_fresh k settled :
  suspends_fresh (DeviceController.continue (Reg:=Reg) now k settled).
Proof.
  pose proof bulk_loop_fresh. pose proof bulk_delay_fresh.
  pose proof (DeviceController.bulk_loop_acts (Reg:=Reg) now).
  destruct k; simpl;
    unfold DeviceController.addDevice_after_in, DeviceController.bulk_after_in,
      DeviceController.bulk_after_out, DeviceController.bulk_after_delay;
    solve_fresh.
Qed.

End Handlers.

(** ** The process *)

Section Process.
Context {Reg : Type} `{RegistryLaws Reg} {codec : JsonCodec}.
Implicit Types (s : Process (Reg:=Reg)) (w : World Reg) (ev : Event).

Lemma serve_fresh rq : suspends_fresh (serve (Reg:=Reg) rq).
Proof.
  unfold serve. destruct (parsed rq) as [body|]; [|by apply fresh_ret].
  destruct (app_routes _ _) as [[[|e|e] ps]|]; try by apply fresh_ret.
  - destruct (is_async e).
    + apply fresh_map, mqtt_handler_fresh.
    + apply fresh_try_catch; [|apply fresh_map, mqtt_handler_fresh
                              |intros; by apply fresh_ret].
      apply acts_bind; [apply MqttController.mqtt_handler_acts|intros; apply acts_ret].
  - apply fresh_map, device_handler_fresh.
Qed.

Lemma server_continue_fresh now k settled :
  suspends_fresh (Server.continue (Reg:=Reg) now k settled).
Proof.
  destruct k; simpl; apply fresh_map;
    [apply mqtt_continue_fresh | apply device_continue_fresh].
Qed.

(** A handler that was resumed ran its continuation. *)
Lemma resume_fresh now s n p k :
  enabled s (Resume n now) = true -> inflight s !! n = Some (p, k) ->
  forall p' k' w', resume (Server.continue now) p k (world s) = (Ok (Suspended p' k'), w') ->
    length (promises (world s)) <= p' < length (promises w').
Proof.
  unfold enabled. intros Hen En. rewrite En in Hen. destruct (phase s); try done.
  destruct (promises (world s) !! p) as [[| |value|error]|] eqn:Ep; try done.
  - rewrite (resume_resolved _ _ _ _ _ Ep). apply server_continue_fresh.
  - rewrite (resume_rejected _ _ _ _ _ Ep). apply server_continue_fresh.
Qed.

(** A reply joins the waiting handlers, which are earlier than it. *)
Lemma settle_request_Waiting waiting o s :
  Forall (fun pk => pk.1 < length (promises (world s))) waiting ->
  NoDup waiting.*1 ->
  length (promises (world s)) <= length (promises o.2) ->
  (forall p k, o.1 = Ok (Suspended p k) ->
     length (promises (world s)) <= p < length (promises o.2)) ->
  Waiting (settle_request waiting o s).
Proof.
  intros Hw Hn Hle Hp.
  assert (Forall (fun pk => pk.1 < length (promises o.2)) waiting) as Hw'.
  { eapply Forall_impl; [done|]. simpl. intros. lia. }
  destruct o as [[[response|p k|]|e] w']; try by split.
  destruct (Hp p k eq_refl) as [Hlo Hhi]. split; simpl in *.
  - apply Forall_app. split; [done|]. by apply Forall_singleton.
  - rewrite fmap_app. apply NoDup_app. split_and!; [done| |apply NoDup_singleton].
    intros p' Hin ->%list_elem_of_singleton.
    apply list_elem_of_fmap in Hin as ([p' k'] & Heq & Hin). simpl in Heq. subst p'.
    rewrite Forall_forall in Hw. specialize (Hw _ Hin). simpl in Hw. lia.
Qed.

Lemma Waiting_world s w' :
  Waiting s -> length (promises (world s)) <= length (promises w') ->
  Waiting (mkProcess (phase s) w' (inflight s) (answered s)).
Proof.
  intros [Hw Hn] Hle. split; [|done]. eapply Forall_impl; [done|]. simpl. intros. lia.
Qed.

Lemma NoDup_delete_fst {A B} (l : list (A * B)) n : NoDup l.*1 -> NoDup (delete n l).*1.
Proof. intros Hn. eapply sublist_NoDup; [done|]. apply fmap_sublist, sublist_delete. Qed.

Lemma step_Waiting ev s : Waiting s -> enabled s ev = true -> Waiting (step ev s).
Proof.
  intros HW Hen. pose proof HW as [Hw Hn].
  destruct (step_Trace ev s Hen) as (tr & Htr%Trace_promises_le & _).
  destruct ev as [throws|error|sig|rq|n now|i]; simpl in *.
  - unfold startServer in *.
    destruct (connect throws (world s)) as [[]]; by apply (Waiting_world s).
  - by destruct error.
  - by apply (Waiting_world s).
  - rewrite settle_request_world in Htr. apply settle_request_Waiting; try done.
    intros p k Ho. apply (serve_fresh rq (world s) p k (serve rq (world s)).2).
    destruct (serve rq (world s)); simpl in *. by subst.
  - destruct (inflight s !! n) as [[p k]|] eqn:En; [|done].
    rewrite settle_request_world in Htr.
    apply settle_request_Waiting; [by apply Forall_delete|by apply NoDup_delete_fst|done|].
    intros p' k' Ho. apply (resume_fresh now s n p k Hen En p' k').
    destruct (resume _ _ _ _); simpl in *. by subst.
  - by apply (Waiting_world s).
Qed.

Lemma Run_Waiting s evs s' : Run s evs s' -> Waiting s -> Waiting s'.
Proof. induction 1; eauto using step_Waiting. Qed.

Lemma boot_Waiting : Waiting (boot (Reg:=Reg)).
Proof. split; simpl; constructor. Qed.

Lemma reaches_reachable s : reaches s -> reachable (world s).
Proof. intros [evs (tr & Htr & _)%Run_Trace]. by exists tr. Qed.

(** The handlers that wait at an [await] wait for distinct promises, and
    each promise is one of the table: a settlement wakes one handler at
    most, and no handler waits for a promise that was never created. *)
Lemma reaches_Waiting s : reaches s -> Waiting s.
Proof. intros [evs Hrun]. apply (Run_Waiting _ _ _ Hrun), boot_Waiting. Qed.

(** C9: No handler waits in vain.  While the process runs, the promise a
    waiting handler waits for is settled, so that the handler can be
    resumed, or one event from outside settles it: the timer of the delay
    fires, or the client library completes the request that [publish] or
    [createQueue] has queued for it. *)
Theorem waiting_handler_wakes s n :
  reaches s -> phase s = Running -> n < length (inflight s) ->
  ready s n = true \/ exists i, wakes s n i.
Proof.
  intros Hs Hph [[p k] Hn]%lookup_lt_is_Some_2.
  pose proof (reachable_Owing _ (reaches_reachable s Hs)) as Ho.
  destruct (reaches_Waiting s Hs) as [Hw _].
  rewrite Forall_forall in Hw. pose proof (Hw _ (list_elem_of_lookup_2 _ _ _ Hn)) as Hp.
  apply lookup_lt_is_Some_2 in Hp as [pr Hp]. unfold wakes, ready, enabled.
  rewrite Hph. simpl. rewrite Hn. simpl in Hp. rewrite Hp.
  destruct pr as [| |value|error]; [| |by left..]; right.
  - destruct (proj1 (owed_lookup _ _) (Ho p Hp)) as (c & cl & j & r & Hc & Hj & Hr).
    exists (ClientCompletes c j None JNull). simpl. rewrite Hc.
    split; [by apply bool_decide_eq_true|].
    by destruct (complete_settles (world s) c cl j r p None JNull Hc Hj Hr Hp)
      as (pr & -> & ?).
  - exists (TimerFires p). rewrite (timer_settles _ _ Hp). simpl. unfold sleeping.
    by rewrite Hp.
Qed.

End Process.

(** ** A run with two handlers waiting

    The server starts and listens, the broker accepts the connection, and
    two requests publish a message each; both handlers wait for the broker. *)

Definition two_waiting : list Event :=
  [StartServer None; Listen None; Broker (ClientEmits 0 EvConnect);
   Http publish_request; Http publish_request].

Lemma two_waiting_reaches : reaches (steps two_waiting (boot (Reg:=JsSet))).
Proof. exists two_waiting. apply run_Run. by vm_compute. Qed.

Lemma two_waiting_inflight :
  (inflight (steps two_waiting (boot (Reg:=JsSet)))).*1 = [0; 1]
  /\ ready (steps two_waiting (boot (Reg:=JsSet))) 1 = false.
Proof. by vm_compute. Qed.

Lemma waiting_handler_wakes_witness :
  let s := steps two_waiting (boot (Reg:=JsSet)) in
  ready s 1 = true \/ exists i, wakes s 1 i.
Proof.
  apply waiting_handler_wakes; [apply two_waiting_reaches | done | vm_compute; lia].
Defined.

End Waiting.
