(* ===== verification/Rejections.v ===== *)
(** * Promises nobody awaits

    A promise that is rejected while no handler waits for it is an
    unhandled rejection; Node.js reports it, and since version 15 ends the
    process with exit code 1 unless the program listens to
    [unhandledRejection], which [src/server.js] does not.  This file counts
    the promises a handler creates: every handler awaits the one promise
    it creates, except [broadcastAlldevices], which leaves the promise of
    [publish] to itself.  [Strict] is the process that ends on an
    unhandled rejection; on the runs without a broadcast it does what the
    process of [Server] does, and its exit codes are those of the
    program under Node.js 15 and later. *)

From S2P Require Import Prelude JsString JsValue Json Registry Client ServiceState.
From S2P Require Import Topics Router Gateway Connection EventLoop Reconnect Owed Requests.
From S2P Require Import Http MqttController DeviceController Routes Server Waiting.
Import JsString JsValue Json Registry Client ServiceState Gateway Connection.
Import EventLoop Reconnect Owed Requests Http Routes Server Waiting.

Module Rejections.

Section Definitions.
Context {Reg : Type} `{RegistryOps Reg} {codec : JsonCodec}.
Implicit Types (w : World Reg) (s : Process (Reg:=Reg)).

(** Code that creates no promise. *)
Definition creates_none {A} (m : M (World Reg) A) : Prop :=
  forall w, length (promises (exec m w)) = length (promises w).

(** A call that returns the one promise it creates. *)
Definition creates_one (m : M (World Reg) nat) : Prop :=
  forall w, exists w', m w = (Ok (length (promises w)), w')
                       /\ length (promises w') = S (length (promises w)).

(** A handler that creates no promise but the one it awaits. *)
Definition tidy {K} (m : M (World Reg) (Reply K)) : Prop :=
  forall w,
    match m w with
    | (Ok (Suspended p _), w') =>
        p = length (promises w) /\ length (promises w') = S (length (promises w))
    | (_, w') => length (promises w') = length (promises w)
    end.

(** The promises created between two states. *)
Definition created s s' : list nat :=
  seq (length (promises (world s)))
    (length (promises (world s')) - length (promises (world s))).

(** The promises an event leaves without a handler that waits for them. *)
Definition orphaned (ev : Event) s : list nat :=
  filter (fun p => p ∉ (inflight (step ev s)).*1) (created s (step ev s)).

(** Does the request reach the [publish] of [broadcastAlldevices]?  It
    does when the body parses and can be destructured. *)
Definition broadcasts (rq : Incoming) : bool :=
  match parsed rq, app_routes (method rq) (path rq) with
  | Ok body, Some (Mqtt MqttController.BroadcastAlldevices, _) =>
      is_ok (get_field "message" body)
  | _, _ => false
  end.

(** The promises an event should leave without a handler, if the program
    is as it means to be: none. *)
Definition unawaited (ev : Event) s : list nat :=
  match ev with
  | Http rq => if broadcasts rq then [length (promises (world s))] else []
  | _ => []
  end.

(** The same along a run. *)
Fixpoint orphaned_along (evs : list Event) s : list nat :=
  match evs with
  | [] => []
  | ev :: evs' => orphaned ev s ++ orphaned_along evs' (step ev s)
  end.

Fixpoint unawaited_along (evs : list Event) s : list nat :=
  match evs with
  | [] => []
  | ev :: evs' => unawaited ev s ++ unawaited_along evs' (step ev s)
  end.

End Definitions.

(** ** Counting promises along the code *)

(** The calls that return a promise: unfold the call, follow its branches. *)
Ltac one_call :=
  intros w;
  unfold publish, createQueue, sleep, bind, try_catch, gets, new_promise,
    on_this_client, reject, lift, modify, throw, ret; simpl;
  repeat match goal with
         | |- context [isConnected ?s] => destruct (isConnected s); simpl
         | |- context [message_string ?m] => destruct (message_string m); simpl
         | |- context [client ?s] => destruct (client s); simpl
         end;
  eexists; (split; [done|]); simpl; rewrite ?settle_length, ?length_app; simpl; lia.

Section Counting.
Context {Reg : Type} `{RegistryOps Reg} {codec : JsonCodec}.
Implicit Types (w : World Reg).

Lemma none_ret {A} (a : A) : creates_none (Reg:=Reg) (ret a).
Proof. done. Qed.

Lemma none_throw {A} e : creates_none (throw e : M (World Reg) A).
Proof. done. Qed.

Lemma none_lift {A} (o : Outcome A) : creates_none (lift o : M (World Reg) A).
Proof. done. Qed.

Lemma none_bind {A B} (m : M (World Reg) A) (f : A -> M (World Reg) B) :
  creates_none m -> (forall a, creates_none (f a)) -> creates_none (bind m f).
Proof.
  intros Hm Hf w. specialize (Hm w). unfold exec, bind in *.
  destruct (m w) as [[a|e] w1]; simpl in *; [|done]. by rewrite <- Hm, <- (Hf a w1).
Qed.

Lemma none_try_catch {A} (m : M (World Reg) A) h :
  creates_none m -> (forall e, creates_none (h e)) -> creates_none (try_catch m h).
Proof.
  intros Hm Hh w. specialize (Hm w). unfold exec, try_catch in *.
  destruct (m w) as [[a|e] w1]; simpl in *; [done|]. by rewrite <- Hm, <- (Hh e w1).
Qed.

Lemma none_subscribe topic options : creates_none (subscribe (Reg:=Reg) topic options).
Proof.
  intros w. unfold exec, subscribe, bind, gets, on_this_client, ret. simpl.
  destruct (isConnected (this w)); [|done]. simpl. by destruct (client (this w)).
Qed.

Lemma none_unsubscribe topic : creates_none (unsubscribe (Reg:=Reg) topic).
Proof.
  intros w. unfold exec, unsubscribe, bind, gets, on_this_client, ret. simpl.
  destruct (isConnected (this w)); [|done]. simpl. by destruct (client (this w)).
Qed.

Lemma none_getConnectionStatus : creates_none (getConnectionStatus (Reg:=Reg)).
Proof. done. Qed.

Lemma one_publish topic message options :
  creates_one (publish (Reg:=Reg) topic message options).
Proof. one_call. Qed.

Lemma one_createQueue queueName options :
  creates_one (Gateway.createQueue (Reg:=Reg) queueName options).
Proof. one_call. Qed.

Lemma one_sleep : creates_one (sleep (Reg:=Reg)).
Proof. one_call. Qed.

Lemma tidy_ret {K} (r : Reply K) :
  (forall p k, r <> Suspended p k) -> tidy (Reg:=Reg) (ret r).
Proof. intros Hr w. unfold ret. destruct r as [|p k|]; [done| |done]. by destruct (Hr p k). Qed.

Lemma tidy_throw {K} e : tidy (throw e : M (World Reg) (Reply K)).
Proof. by intros w. Qed.

(** [await call(...)] *)
Lemma tidy_await {K} (m : M (World Reg) nat) (k : K) :
  creates_one m -> tidy (bind m (fun p => ret (Suspended p k))).
Proof. intros Hm w. destruct (Hm w) as (w' & Hw & Hl). unfold bind, ret. by rewrite Hw. Qed.

Lemma tidy_bind {A K} (m : M (World Reg) A) (f : A -> M (World Reg) (Reply K)) :
  creates_none m -> (forall a, tidy (f a)) -> tidy (bind m f).
Proof.
  intros Hm Hf w. specialize (Hm w). unfold exec, bind in *.
  destruct (m w) as [[a|e] w1]; simpl in *; [|done].
  specialize (Hf a w1). rewrite Hm in Hf. done.
Qed.

Lemma tidy_try_catch {K} (m : M (World Reg) (Reply K)) h :
  tidy m -> (forall e, tidy (h e)) -> tidy (try_catch m h).
Proof.
  intros Hm Hh w. specialize (Hm w). unfold try_catch.
  destruct (m w) as [[r|e] w1]; [done|].
  specialize (Hh e w1). rewrite Hm in Hh. done.
Qed.

Lemma tidy_map {K K'} (f : K -> K') (m : M (World Reg) (Reply K)) :
  tidy m -> tidy (bind m (fun r => ret (map_reply f r))).
Proof.
  intros Hm w. specialize (Hm w). unfold bind, ret.
  destruct (m w) as [[[|p k|]|e] w1]; done.
Qed.

End Counting.

Create HintDb tidy.
#[export] Hint Resolve none_ret none_throw none_lift none_subscribe none_unsubscribe
  none_getConnectionStatus one_publish one_createQueue one_sleep tidy_throw : tidy.

(** Code that creates no promise, by its structure. *)
Ltac solve_none :=
  repeat first
    [ solve [eauto 2 with tidy]
    | match goal with
      | |- creates_none (if ?b then _ else _) => destruct b
      | |- creates_none (match ?x with _ => _ end) => destruct x
      | |- creates_none (let _ := _ in _) => cbv zeta
      end
    | apply none_bind; [|intros ?]
    | apply none_try_catch; [|intros ?] ].

(** A handler awaits what it creates, by its structure. *)
Ltac solve_tidy :=
  repeat first
    [ solve [eauto 2 with tidy]
    | apply tidy_ret; solve [done]
    | apply tidy_await; solve [eauto 2 with tidy]
    | match goal with
      | |- tidy (if ?b then _ else _) => destruct b
      | |- tidy (match ?x with _ => _ end) => destruct x
      | |- tidy (let _ := _ in _) => cbv zeta
      end
    | apply tidy_bind; [solve [solve_none]|intros ?]
    | apply tidy_try_catch; [|intros ?] ].

Section Handlers.
Context {Reg : Type} `{RegistryOps Reg} {codec : JsonCodec}.
Variables (now : string) (millis : Z).

Lemma mqtt_handler_tidy e req :
  e <> MqttController.BroadcastAlldevices ->
  tidy (MqttController.handler (Reg:=Reg) now e req).
Proof.
  intros He. destruct e; try done; simpl;
    unfold MqttController.getStatus,
      MqttController.publishMessage, MqttController.subscribeToTopic,
      MqttController.unsubscribeFromTopic, MqttController.getSubscriptions,
      MqttController.createQueue;
    solve_tidy.
Qed.

Lemma mqtt_continue_tidy k settled :
  tidy (MqttController.continue (Reg:=Reg) now k settled).
Proof. destruct k; simpl; solve_tidy. Qed.

Lemma bulk_delay_tidy devices rest results :
  tidy (DeviceController.bulk_delay (Reg:=Reg) devices rest results).
Proof. unfold DeviceController.bulk_delay. solve_tidy. Qed.

Lemma bulk_loop_tidy devices results rest :
  tidy (DeviceController.bulk_loop (Reg:=Reg) now devices results rest).
Proof.
  pose proof bulk_delay_tidy.
  revert results. induction rest as [|deviceData rest IH]; intros results; simpl;
    solve_tidy.
Qed.

Lemma device_handler_tidy e req :
  tidy (DeviceController.handler (Reg:=Reg) now millis e req).
Proof.
  pose proof bulk_loop_tidy.
  destruct e; simpl;
    unfold DeviceController.addDevice, DeviceController.updateDevice,
      DeviceController.retireDevice, DeviceController.deleteDevice,
      DeviceController.getDevice, DeviceController.listDevices,
      DeviceController.sendCommandToDevice, DeviceController.bulkAddDevices,
      DeviceController.required;
    solve_tidy.
Qed.

Lemma device_continue_tidy k settled :
  tidy (DeviceController.continue (Reg:=Reg) now k settled).
Proof.
  pose proof bulk_loop_tidy. pose proof bulk_delay_tidy.
  destruct k; simpl;
    unfold DeviceController.addDevice_after_in, DeviceController.bulk_after_in,
      DeviceController.bulk_after_out, DeviceController.bulk_after_delay;
    solve_tidy.
Qed.

End Handlers.

(** ** The process *)

Section Process.
Context {Reg : Type} `{RegistryLaws Reg} {codec : JsonCodec}.
Implicit Types (s : Process (Reg:=Reg)) (w : World Reg) (ev : Event).

Lemma serve_tidy rq : broadcasts rq = false -> tidy (serve (Reg:=Reg) rq).
Proof.
  unfold broadcasts, serve. destruct (parsed rq) as [body|]; [|intros; by apply tidy_ret].
  destruct (app_routes _ _) as [[[|e|e] ps]|]; try (intros; by apply tidy_ret).
  - destruct (MqttController.Endpoint_eq_dec e MqttController.BroadcastAlldevices) as [->|He].
    + simpl. unfold MqttController.broadcastAlldevices. intros Hb.
      apply tidy_try_catch; [|intros; by apply tidy_ret]. apply tidy_map.
      simpl. destruct (get_field "message" body) as [v|e] eqn:E; [done|].
      by intros w.
    + intros _. assert (is_async e = true) as -> by by destruct e.
      by apply tidy_map, mqtt_handler_tidy.
  - intros _. apply tidy_map, device_handler_tidy.
Qed.

Lemma server_continue_tidy now k settled :
  tidy (Server.continue (Reg:=Reg) now k settled).
Proof.
  destruct k; simpl; apply tidy_map; [apply mqtt_continue_tidy | apply device_continue_tidy].
Qed.

Lemma created_same s s' :
  length (promises (world s')) = length (promises (world s)) -> created s s' = [].
Proof. unfold created. intros ->. by rewrite Nat.sub_diag. Qed.

Lemma created_one s s' :
  length (promises (world s')) = S (length (promises (world s))) ->
  created s s' = [length (promises (world s))].
Proof.
  unfold created. intros ->.
  by replace (S (length (promises (world s))) - length (promises (world s))) with 1 by lia.
Qed.

(** What a tidy handler creates, it waits for. *)
Lemma tidy_orphans waiting (m : M (World Reg) (Reply Await)) s :
  tidy m ->
  let s' := settle_request waiting (m (world s)) s in
  filter (fun p => p ∉ (inflight s').*1) (created s s') = [].
Proof.
  intros Hm. specialize (Hm (world s)). simpl.
  destruct (m (world s)) as [[[response|p k|]|e] w'] eqn:E; simpl;
    try by rewrite created_same.
  destruct Hm as [-> Hl]. rewrite created_one by done.
  rewrite filter_cons_False, filter_nil; [done|].
  intros Hn. apply Hn. rewrite fmap_app. apply elem_of_app. right. by left.
Qed.

(** What the broker client and the timers do creates no promise. *)
Lemma outside_creates_none i w :
  from_outside i = true -> length (promises (turn i w)) = length (promises w).
Proof.
  destruct i as [| | | | | | | |c ev|c j error granted| |p]; try done; intros _.
  - destruct ev; by world_cases w.
  - destruct (completed_request w c j) as [r|] eqn:E; [|by rewrite turn_completes_none].
    rewrite (turn_completes_promises _ _ _ r) by done.
    destruct (request_callback r), error; simpl; by rewrite ?settle_length.
  - apply wake_length.
Qed.

(** What [broadcastAlldevices] does when its body can be destructured:
    one promise, a response, no handler that waits. *)
Lemma serve_broadcast rq w :
  broadcasts rq = true ->
  exists r w', serve rq w = (Ok (Sent r), w')
               /\ length (promises w') = S (length (promises w))
               /\ (isConnected (this w) = false ->
                   promises w' !! length (promises w) = Some (Rejected not_connected)).
Proof.
  unfold broadcasts, serve. destruct (parsed rq) as [body|]; [|done].
  destruct (app_routes _ _) as [[[|[]|e] ps]|]; try done. simpl.
  destruct (get_field "message" body) as [message|] eqn:E; [intros _|done].
  unfold MqttController.broadcastAlldevices, try_catch, bind, lift. simpl. rewrite E.
  destruct (one_publish "broadcast-out" message JUndefined w) as (w' & Hp & Hl).
  rewrite Hp. do 2 eexists. split_and!; [done..|].
  intros Hc. rewrite publish_disconnected in Hp by done. simplify_eq. simpl.
  apply list_lookup_middle. done.
Qed.

Lemma broadcast_orphans rq s :
  Waiting s -> broadcasts rq = true ->
  orphaned (Http rq) s = [length (promises (world s))].
Proof.
  intros [Hw _] Hb. destruct (serve_broadcast rq (world s) Hb) as (r & w' & Hs & Hl & _).
  unfold orphaned. simpl. rewrite Hs. simpl. rewrite created_one by done.
  rewrite filter_cons_True, filter_nil; [done|].
  intros ([p k] & Hp & Hin)%list_elem_of_fmap. simpl in Hp.
  rewrite Forall_forall in Hw. specialize (Hw _ Hin). simpl in Hw. lia.
Qed.

(** One event: what it leaves without a handler is what a broadcast
    leaves. *)
Lemma orphaned_unawaited ev s :
  reaches s -> enabled s ev = true -> orphaned ev s = unawaited ev s.
Proof.
  intros Hs Hen. destruct ev as [throws|error|sig|rq|n now|i]; simpl.
  - unfold orphaned. rewrite created_same; [done|]. simpl. unfold startServer.
    by destruct throws.
  - unfold orphaned. rewrite created_same; [done|]. by destruct error.
  - unfold orphaned. rewrite created_same; [done|]. simpl.
    unfold exec, disconnect, bind, gets, on_this_client, assign, modify. simpl.
    destruct (client (this (world s))) eqn:E; simpl; [by rewrite E|done].
  - destruct (broadcasts rq) eqn:Hb; [by apply broadcast_orphans; [apply reaches_Waiting|]|].
    by apply (tidy_orphans (inflight s) (serve rq) s), serve_tidy.
  - unfold orphaned, enabled in *. simpl. destruct (phase s); try done.
    destruct (inflight s !! n) as [[p k]|] eqn:En; [|done].
    destruct (promises (world s) !! p) as [[| |value|error]|] eqn:Ep; try done.
    + rewrite (resume_resolved _ _ _ _ _ Ep).
      apply (tidy_orphans _ (Server.continue now k (Ok value)) s), server_continue_tidy.
    + rewrite (resume_rejected _ _ _ _ _ Ep).
      apply (tidy_orphans _ (Server.continue now k (Thrown error)) s), server_continue_tidy.
  - assert (from_outside i = true) as Ho.
    { unfold enabled in Hen. destruct (phase s); try done; by apply andb_prop in Hen as [? _]. }
    unfold orphaned. rewrite created_same; [done|]. simpl.
    by apply outside_creates_none.
Qed.

End Process.

(** ** The process that ends on an unhandled rejection

    Node.js 15 and later raise an unhandled rejection as an uncaught
    exception: the process ends with exit code 1.  [Strict] keeps the
    promises nobody awaits and ends the process when one of them is
    rejected at the end of a task. *)

Section Strictness.
Context {Reg : Type} `{RegistryLaws Reg} {codec : JsonCodec}.
Implicit Types (s : Process (Reg:=Reg)) (ev : Event) (evs : list Event).

Record Strict : Type := mkStrict {
  proc : Process (Reg:=Reg);
  orphans : list nat;
}.

Definition is_rejected (w : World Reg) (p : nat) : bool :=
  match promises w !! p with
  | Some (Rejected _) => true
  | _ => false
  end.

(** One task, then the check for unhandled rejections. *)
Definition strict_step ev (t : Strict) : Strict :=
  let s' := step ev (proc t) in
  let os := orphans t ++ orphaned ev (proc t) in
  if existsb (is_rejected (world s')) os
  then mkStrict (mkProcess (Exited 1) (world s') (inflight s') (answered s')) os
  else mkStrict s' os.

Definition strict_steps evs (t : Strict) : Strict :=
  fold_left (fun t ev => strict_step ev t) evs t.

(** No request of the run reaches the [publish] of [broadcastAlldevices]. *)
Definition broadcast_free evs : Prop :=
  Forall (fun ev => forall s, unawaited ev s = []) evs.

(** The executions of the strict process. *)
Fixpoint strict_run evs (t : Strict) : option Strict :=
  match evs with
  | [] => Some t
  | ev :: evs' =>
      if enabled (proc t) ev then strict_run evs' (strict_step ev t) else None
  end.

Definition strict_reaches (t : Strict) : Prop :=
  exists evs, strict_run evs (mkStrict boot []) = Some t.

(** The strict process goes on: it is in a state of the process, none of
    the promises left behind is rejected, and each of them was left by a
    request that has its response. *)
Definition Alive (t : Strict) : Prop :=
  reaches (proc t)
  /\ Forall (fun p => is_rejected (world (proc t)) p = false) (orphans t)
  /\ length (orphans t) <= length (answered (proc t)).

(** The strict process has ended on an unhandled rejection. *)
Definition Crashed (t : Strict) : Prop :=
  phase (proc t) = Exited 1
  /\ Exists (fun p => is_rejected (world (proc t)) p = true) (orphans t)
  /\ answered (proc t) <> [].


Lemma reaches_step s ev : reaches s -> enabled s ev = true -> reaches (step ev s).
Proof.
  intros [evs Hrun] Hen. exists (evs ++ [ev]). revert Hrun. generalize (boot (Reg:=Reg)).
  induction evs as [|ev' evs IH]; intros s0 Hrun; inversion Hrun; simplify_eq/=.
  - apply Run_cons; [done|constructor].
  - apply Run_cons; [done|by apply IH].
Qed.

(** C7: Every promise a handler creates is awaited by the handler, with
    one exception.  In every execution of the process, the start, the
    signals, the events of the broker client and the timers, the
    continuations of waiting handlers and the requests leave no promise
    behind, except the requests that reach the [publish] of
    [broadcastAlldevices]: each of them leaves the promise of [publish]
    without anyone to handle its rejection. *)
Theorem unawaited_promises evs s s' :
  reaches s -> Run s evs s' -> orphaned_along evs s = unawaited_along evs s.
Proof.
  intros Hs Hrun. revert Hs. induction Hrun as [s|s ev evs s' Hen _ IH]; intros Hs; [done|].
  simpl. rewrite (orphaned_unawaited ev s Hs Hen). f_equal. by apply IH, reaches_step.
Qed.

(** Without such a request the strict process does what the process
    does: the theorems on [Server] hold for it. *)
Lemma strict_agrees evs s s' :
  reaches s -> Run s evs s' -> broadcast_free evs ->
  strict_steps evs (mkStrict s []) = mkStrict s' [].
Proof.
  intros Hs Hrun. revert Hs. induction Hrun as [s|s ev evs s' Hen _ IH]; intros Hs Hf; [done|].
  apply Forall_cons in Hf as [Hev Hf]. simpl. unfold strict_step at 1. simpl.
  rewrite (orphaned_unawaited ev s Hs Hen), Hev. simpl.
  apply IH; [by apply reaches_step|done].
Qed.

Lemma step_answered ev s : length (answered s) <= length (answered (step ev s)).
Proof.
  assert (forall waiting o, length (answered s) <= length (answered (settle_request waiting o s)))
    as Hsettle.
  { intros waiting [[[| |]|] w]; simpl; rewrite ?length_app; lia. }
  destruct ev as [throws|[error|]|sig|rq|n now|i]; simpl; try done.
  - unfold startServer. by destruct (connect throws (world s)) as [[]].
  - by destruct (inflight s !! n) as [[p k]|].
Qed.

Lemma step_answered_broadcast rq s :
  broadcasts rq = true ->
  length (answered (step (Http rq) s)) = S (length (answered s)).
Proof.
  intros Hb. destruct (serve_broadcast rq (world s) Hb) as (r & w' & Hs & _).
  simpl. rewrite Hs. simpl. rewrite length_app. simpl. lia.
Qed.

Lemma unawaited_answered ev s :
  length (answered s) + length (unawaited ev s) <= length (answered (step ev s)).
Proof.
  pose proof (step_answered ev s).
  destruct ev as [throws|error|sig|rq|n now|i]; cbn [unawaited length]; try lia.
  destruct (broadcasts rq) eqn:Hb; cbn [length]; [|lia].
  rewrite step_answered_broadcast by done. lia.
Qed.

Lemma strict_step_Alive ev (t : Strict) :
  Alive t -> enabled (proc t) ev = true ->
  Alive (strict_step ev t) \/ Crashed (strict_step ev t).
Proof.
  intros (Hs & Hno & Hlen) Hen. unfold strict_step.
  pose proof (unawaited_answered ev (proc t)) as Ha.
  rewrite (orphaned_unawaited ev _ Hs Hen).
  destruct (existsb _ _) eqn:Ex.
  - right. apply existsb_exists in Ex as (p & Hin & Hp). split_and!; simpl; [done| |].
    + apply Exists_exists. exists p. by rewrite list_elem_of_In.
    + intros Hnil. rewrite Hnil in Ha. apply list_elem_of_In, list_elem_of_lookup_1 in Hin as [j Hj].
      apply lookup_lt_Some in Hj. rewrite length_app in Hj. simpl in Ha. lia.
  - left. split_and!; simpl; [by apply reaches_step| |rewrite length_app; lia].
    apply Forall_forall. intros p Hin%list_elem_of_In.
    destruct (is_rejected _ p) eqn:Hp; [|done].
    assert (existsb (is_rejected (world (step ev (proc t)))) (orphans t ++ unawaited ev (proc t)) = true)
      as Ex' by (apply existsb_exists; eauto).
    congruence.
Qed.

Lemma strict_run_inv evs (t t' : Strict) :
  strict_run evs t = Some t' -> Alive t \/ Crashed t -> Alive t' \/ Crashed t'.
Proof.
  revert t. induction evs as [|ev evs IH]; intros t; simpl; [by intros [= ->]|].
  destruct (enabled (proc t) ev) eqn:Hen; [|done]. intros Hrun [Ha|(Hp & _)].
  - by apply (IH _ Hrun), strict_step_Alive.
  - by rewrite (exited_stops _ 1 ev Hp) in Hen.
Qed.

Lemma strict_reaches_inv (t : Strict) : strict_reaches t -> Alive t \/ Crashed t.
Proof.
  intros [evs Hrun]. apply (strict_run_inv _ _ _ Hrun). left.
  split_and!; [by exists []; constructor|constructor|done].
Qed.

(** C23: The exit codes of the process, with Node.js 15 and later.  A
    process that has exited does nothing more, and its exit code tells
    why.  Code 0 is a signal: the service reports disconnected and its
    client has been ended.  Code 1 is a failed start ([connect] threw, or
    the server could not listen), before any request was answered, or it
    is the rejected promise of a broadcast, after the response of that
    broadcast was sent. *)
Theorem exit_codes (t : Strict) code :
  strict_reaches t -> phase (proc t) = Exited code ->
  (forall ev, enabled (proc t) ev = false)
  /\ ((code = 0%Z /\ isConnected (this (world (proc t))) = false
       /\ (ended <$> current_client (world (proc t))) = Some true)
      \/ (code = 1%Z /\ orphans t = [] /\ answered (proc t) = []
          /\ inflight (proc t) = [])
      \/ (code = 1%Z
          /\ Exists (fun p => is_rejected (world (proc t)) p = true) (orphans t)
          /\ answered (proc t) <> [])).
Proof.
  intros Ht Hp. split; [intros ev; by apply (exited_stops _ code)|].
  destruct (strict_reaches_inv t Ht) as [(Hs%reaches_Sound & _ & Hlen)|(Hp' & ? & ?)].
  - unfold Sound in Hs. rewrite Hp in Hs.
    destruct Hs as [(-> & Hi & Ha)|(-> & ? & ?)]; [right; left|by left].
    rewrite Ha in Hlen. split_and!; try done. destruct (orphans t); [done|simpl in Hlen; lia].
  - right; right. rewrite Hp in Hp'. by simplify_eq.
Qed.

End Strictness.

(** ** A broadcast while the service is disconnected *)

Definition broadcast_request : Incoming :=
  {| method := POST; path := ["api"; "mqtt"; "broadcast"];
     originalUrl := "/api/mqtt/broadcast";
     parsed := Ok (JObj [("message", JStr "hello")]);
     clock := "2025-01-01T12:00:00.000Z"; millis := 0 |}.

(** The server listens, the broker has not answered yet, a broadcast is
    requested: the response is sent and the promise is rejected. *)
Definition early_broadcast : list Event :=
  [StartServer None; Listen None; Http broadcast_request].

Lemma early_broadcast_unhandled :
  let s := steps early_broadcast (boot (Reg:=JsSet)) in
  statusCode <$> answered s = [200]
  /\ inflight s = []
  /\ promises (world s) = [Rejected not_connected].
Proof. by vm_compute. Qed.

(** With Node.js 15 and later that request ends the process. *)
Lemma early_broadcast_exits :
  phase (proc (strict_steps early_broadcast (mkStrict (boot (Reg:=JsSet)) []))) = Exited 1.
Proof. by vm_compute. Qed.

Lemma exit_codes_witness :
  let t := strict_steps early_broadcast (mkStrict (boot (Reg:=JsSet)) []) in
  (forall ev, enabled (proc t) ev = false)
  /\ ((1 = 0 /\ isConnected (this (world (proc t))) = false
       /\ (ended <$> current_client (world (proc t))) = Some true)
      \/ (1 = 1 /\ orphans t = [] /\ answered (proc t) = [] /\ inflight (proc t) = [])
      \/ (1 = 1
          /\ Exists (fun p => is_rejected (world (proc t)) p = true) (orphans t)
          /\ answered (proc t) <> []))%Z.
Proof.
  apply (exit_codes _ 1); [exists early_broadcast; by vm_compute | by vm_compute].
Defined.

Lemma unawaited_promises_witness :
  orphaned_along early_broadcast (boot (Reg:=JsSet))
  = unawaited_along early_broadcast (boot (Reg:=JsSet)).
Proof.
  apply (unawaited_promises early_broadcast boot (steps early_broadcast boot)).
  - exists []. constructor.
  - apply run_Run. by vm_compute.
Defined.

End Rejections.
